(* ===== verification/_CoqProject ===== *)
-Q . S2P
Prelude.v
Buf.v
KString.v
Printf.v
Heap.v
Pmm.v
Digest.v
Sha1.v
Aes.v
Elf.v
LinuxStack.v
Sha256.v
Fe25519.v
Chacha.v
Tls.v
X509.v
Wpa.v
Wifi.v
Vfs.v
VfsTree.v
WifiFw.v
Tfs.v
TfsProofs.v
User.v
UserProofs.v
Net.v
NetProofs.v
Keys.v
Keyboard.v
Process.v
Syscall.v
SyscallFrame.v
SyscallProofs.v
SyscallWait.v
