(* ===== verification/Prelude.v ===== *)
(** * A verification development for the TNU kernel

    TNU is a small x86-64 operating system: a multiboot kernel under
    [src/kernel/] with its own heap, file system, users, network stack, shell
    and a Linux compatibility layer, and a userspace under [src/userspace/] with
    its own C library. This library models the parts of the kernel that carry
    its logic as executable functions, and proves that they do what the rest of
    the system relies on.

    ** The parts and their files

    The files are in dependency order; a file requires the ones it calls.

    - [Prelude] (this file): machine integers as [Z] with their wrap-around
      ([u8] ... [u64], [i32], [i64]), flat memory, little-endian fields, C
      strings, the tactics [wsolve], [bcases], [zcases], [inv_some], and
      lemmas on lists and options.
    - [Buf]: byte buffers (slices, fields, C strings at an offset, padding).
    - [KString]: kernel/lib/string.c, the memory routines on flat memory
      (Module [Block]) and the string and number routines (Module [Cstr]).
    - [Printf]: kernel/lib/printf.c; [render] is the specification.
    - [Heap]: kernel/mm/heap.c; [layout] is the abstract state.
    - [Pmm]: kernel/mm/pmm.c, the frame allocator.
    - [Digest]: hash functions over 64-byte blocks and HMAC, for any compression
      function (class [BlockHash]); [Sha1], [Aes]: kernel/lib/crypto.c.
    - [Sha256], [Fe25519], [Chacha]: the cryptography of
      userspace/libc/src/tls.c: SHA-256 and HKDF, X25519, ChaCha20-Poly1305;
      [Tls], [X509]: its https client up to the first record of the server, its
      certificates, host names and pins, and its self-test, over the sockets and
      files of the class [TlsSystem].
    - [Elf], [LinuxStack]: kernel/lib/elf.c, compat/linux/elf/linux_elf.c and
      the loading part of compat/linux/userspace/linux_exec.c.
    - [Wpa], [Wifi], [WifiFw]: drivers/net/iwlwifi.c: the handshake and CCMP;
      the frames received and sent and the cache of access points; finding,
      checking and parsing firmware files (over [Vfs]).
    - [Vfs], [VfsTree]: kernel/fs/vfs.c and the tree its node array stands for.
    - [Tfs], [TfsProofs]: kernel/fs/tfs.c, over the block layer as the class
      [BlockLayer] and over the operations of [Vfs].
    - [User], [UserProofs]: kernel/security/user.c, over [Vfs] and [Printf].
    - [Net], [NetProofs]: the protocols of drivers/net/net.c, over the device
      as the class [NetDevice].
    - [Keys], [Keyboard]: arch/x86_64/keyboard.c, scancodes, layouts, key queues
      and the controller's protocol, over the ports as the class [Ports].
    - [Process]: kernel/core/process.c, the process table and the descriptors.
    - [Syscall]: kernel/core/syscall.c, the dispatcher and the calls, over
      [Vfs], [User] and [Process] and over the keyboard, the console, the timer
      and the disks as the class [Machine]; [SyscallFrame] holds what each call
      leaves alone, [SyscallProofs] the theorems on what a process may do,
      [SyscallWait] those on waiting.

    ** How code becomes definitions

    A C function is a function of the same name on the state it reads and
    writes, returning the new state and the return value. What C leaves
    undefined is [None] (in [Elf], [Ub]): a read or write outside a buffer or an
    object, a pointer that leads nowhere, a signed overflow. A theorem that a
    result is [Some] is therefore a theorem that nothing undefined happens. An
    unsigned value is a [Z] reduced where C reduces it. A loop is a [Fixpoint]
    on its data, or with fuel: running out of fuel is [None] too, so "enough
    fuel" is proved together with "defined". Where the fuel is in the definition
    (the length of a buffer plus one, the number of nodes plus one, four
    foldings of a checksum) a theorem shows it never runs out; where it is an
    argument (the waits of [Net] and of [sys_poll]) a theorem shows how much is
    enough.

    ** What the theorems show

    - Refinement: [kmalloc] is first-fit allocation, the file system's calls
      are additions to and cuts from a tree, [kvsnprintf] truncates the text its
      format denotes, SHA-1, SHA-256, PBKDF2 and HKDF are their standards'
      functions, and the field arithmetic of X25519 is that of the integers
      modulo 2^255 - 19.
    - Invariants: the heap's blocks, the frames, the file system's tree and the
      user table stay well formed after any sequence of operations, and every
      operation is defined on them.
    - Round trips: AES, CCMP, ChaCha20-Poly1305, the EAPOL messages, the image's entry table,
      the shadow file, DNS queries and answers.
    - Protection: no sequence of system calls lets a process that is not root
      change the protected part of the tree; what the test on paths means, what
      opening a file asks for, and where the calls give away what the tree
      protects (raw disks, descriptors opened for appending).
    - Safety, against any bytes: mounting an image, probing an executable,
      loading firmware, parsing a certificate and receiving a frame, on a wire or
      from the air, stay inside the bytes given; the handshake advances and a wait
      completes only on what was authenticated or asked for.
    - Termination and liveness: paths, directory listings and waits end; a DHCP
      server that answers in time gets the interface its address; [poll] with a
      limit returns and [nanosleep] does not.
    - Trust: a certificate is accepted for a host exactly when a name in it
      matches the host and its digest is pinned.
    - The keyboard: typed text arrives, in both scancode sets, and where it does
      not: the left shift key that is never released.
    - Errors and bounds: where the code is not its standard's function (the
      ladder of X25519, the tag of Poly1305, the TLS self-test) or does not keep its bounds (sums that wrap
      in the file, image and segment checks, the alignment of the Linux stack, a
      format ending in a percent sign, a deleted user's session) the theorems
      say exactly what happens.

    ** What is not modelled

    Code that only drives hardware (the registers and rings of iwlwifi.c, the e1000 rings,
    disks, USB, consoles, interrupts and page tables), the shell and its
    programs, [sys_exec_image], the Linux system calls and most of the userspace. Page
    tables being outside the model, so is a process that writes to the kernel's
    own memory: [k_mem] is the memory the calls copy to and from, and the tree
    and the tables are states beside it. They are listed with
    their reasons beside the components in the project's manifest. Log messages
    are left out everywhere. Concurrency is not modelled: the kernel runs one
    flow of control and its interrupt handlers only count ticks and queue keys. *)
From stdpp Require Export base tactics list numbers strings.
From Stdlib Require Export ZArith Lia Bool.
Open Scope Z_scope.

(** Division is never unfolded by simplification. *)
#[global] Arguments Nat.div : simpl never.
#[global] Arguments Nat.modulo : simpl never.
#[global] Arguments Z.div : simpl never.
#[global] Arguments Z.modulo : simpl never.

(** ** Machine integers: a w-bit unsigned value is a [Z] in [0, 2^w). *)

Definition wrap (w x : Z) : Z := x mod 2 ^ w.
Definition u8 (x : Z) : Z := x mod 256.
Definition u16 (x : Z) : Z := x mod 65536.
Definition u32 (x : Z) : Z := x mod 4294967296.
Definition u64 (x : Z) : Z := x mod 18446744073709551616.

(** Two's-complement reading of the low 32 and 64 bits. *)
Definition i32 (x : Z) : Z := u32 (x + 2147483648) - 2147483648.
Definition i64 (x : Z) : Z := u64 (x + 9223372036854775808) - 9223372036854775808.

Definition U64_MAX : Z := 18446744073709551615.
Definition I64_MAX : Z := 9223372036854775807.
Definition I64_MIN : Z := -9223372036854775808.

Create HintDb word.
Create Rewrite HintDb word.

Ltac wsolve := unfold i32, i64 in *; unfold wrap, u8, u16, u32, u64, U64_MAX, I64_MAX, I64_MIN in *;
  Z.div_mod_to_equations; lia.

Lemma u8_range x : 0 <= u8 x < 256.
Proof. unfold u8. apply Z.mod_pos_bound. lia. Qed.
Lemma u16_range x : 0 <= u16 x < 65536.
Proof. unfold u16. apply Z.mod_pos_bound. lia. Qed.
Lemma u32_range x : 0 <= u32 x < 4294967296.
Proof. unfold u32. apply Z.mod_pos_bound. lia. Qed.
Lemma u64_range x : 0 <= u64 x < 18446744073709551616.
Proof. unfold u64. apply Z.mod_pos_bound. lia. Qed.
Lemma u8_small x : 0 <= x < 256 -> u8 x = x.
Proof. apply Z.mod_small. Qed.
Lemma u16_small x : 0 <= x < 65536 -> u16 x = x.
Proof. apply Z.mod_small. Qed.
Lemma u32_small x : 0 <= x < 4294967296 -> u32 x = x.
Proof. apply Z.mod_small. Qed.
Lemma u64_small x : 0 <= x < 18446744073709551616 -> u64 x = x.
Proof. apply Z.mod_small. Qed.
Lemma i32_small x : -2147483648 <= x < 2147483648 -> i32 x = x.
Proof. intros. wsolve. Qed.
Lemma i64_small x : I64_MIN <= x <= I64_MAX -> i64 x = x.
Proof. intros. wsolve. Qed.

Lemma i32_range x : -2147483648 <= i32 x < 2147483648.
Proof. wsolve. Qed.
Lemma i64_range x : I64_MIN <= i64 x <= I64_MAX.
Proof. wsolve. Qed.

#[export] Hint Resolve u8_range u16_range u32_range u64_range i32_range i64_range : word.
#[export] Hint Rewrite u8_small u16_small u32_small u64_small using lia : word.

(** Clearing the low [k] bits rounds down to a multiple of [2^k]. *)
Lemma land_lnot_ones x k : 0 <= k -> Z.land x (Z.lnot (Z.ones k)) = x / 2 ^ k * 2 ^ k.
Proof.
  intros Hk. rewrite <- Z.ldiff_land, Z.ldiff_ones_r by done.
  by rewrite Z.shiftl_mul_pow2, Z.shiftr_div_pow2.
Qed.

Lemma land_ones_mod x k : 0 <= k -> Z.land x (Z.ones k) = x mod 2 ^ k.
Proof. apply Z.land_ones. Qed.

(** ** Facts about all bytes, checked by computation *)

Definition bytes_all (P : Z -> bool) : bool := forallb (fun i => P (Z.of_nat i)) (seq 0 256).

Lemma bytes_check P : bytes_all P = true -> forall x, 0 <= x < 256 -> P x = true.
Proof.
  intros H x Hx. unfold bytes_all in H. rewrite forallb_forall in H.
  specialize (H (Z.to_nat x)). rewrite Z2Nat.id in H by lia. apply H. apply in_seq. lia.
Qed.

Lemma bytes_check2 P : bytes_all (fun x => bytes_all (P x)) = true ->
  forall x y, 0 <= x < 256 -> 0 <= y < 256 -> P x y = true.
Proof. intros H x y Hx Hy. by apply (bytes_check (P x)); [apply (bytes_check _ H)|]. Qed.

(** Bytes are closed under exclusive or. *)
Lemma lxor_byte a b : 0 <= a < 256 -> 0 <= b < 256 -> 0 <= Z.lxor a b < 256.
Proof.
  intros Ha Hb. assert (0 <= Z.lxor a b) as H0 by (apply Z.lxor_nonneg; lia). split; [done|].
  destruct (Z.eq_dec (Z.lxor a b) 0) as [->|Hne]; [lia|].
  apply (Z.log2_lt_pow2 (Z.lxor a b) 8); [lia|].
  pose proof (Z.log2_lxor a b ltac:(lia) ltac:(lia)) as Hl.
  assert (forall c, 0 <= c < 256 -> Z.log2 c < 8) as Hc.
  { intros c Hc. destruct (Z.eq_dec c 0) as [->|]; [done|].
    apply Z.log2_lt_pow2; [lia|]. change (2 ^ 8) with 256. lia. }
  pose proof (Hc a Ha). pose proof (Hc b Hb). lia.
Qed.

Lemma lxor_cancel a b : Z.lxor (Z.lxor a b) b = a.
Proof. by rewrite Z.lxor_assoc, Z.lxor_nilpotent, Z.lxor_0_r. Qed.

(** Or-ing a value into the bits a shift has cleared is addition. *)
Lemma lor_shift_add a b k : 0 <= k -> 0 <= a < 2 ^ k -> Z.lor (Z.shiftl b k) a = b * 2 ^ k + a.
Proof.
  intros Hk Ha. rewrite <- Z.add_lor_land, Z.shiftl_mul_pow2 by done.
  replace (Z.land (b * 2 ^ k) a) with 0; [lia|]. symmetry. apply Z.bits_inj'. intros n Hn.
  rewrite Z.land_spec, Z.bits_0. destruct (Z.ltb_spec n k).
  - by rewrite Z.mul_pow2_bits_low.
  - replace (Z.testbit a n) with false; [by rewrite andb_false_r|]. symmetry.
    destruct (Z.eq_dec a 0) as [->|]; [apply Z.bits_0|].
    apply Z.bits_above_log2; [lia|]. assert (Z.log2 a < k) by (apply Z.log2_lt_pow2; lia). lia.
Qed.

(** ** Flat memory: a byte for every address. *)

Definition mem : Type := Z -> Z.

(** Memory after storing the bytes [l] at address [a]. *)
Definition mset_bytes (m : mem) (a : Z) (l : list Z) : mem :=
  fun x => if (a <=? x) && (x <? a + Z.of_nat (length l))
           then nth (Z.to_nat (x - a)) l 0 else m x.

(** A one-byte store. *)
Definition mset (m : mem) (a v : Z) : mem := fun x => if x =? a then v else m x.

(** [n] bytes read from address [a]. *)
Definition mread (m : mem) (a : Z) (n : nat) : list Z :=
  map (fun i => m (a + Z.of_nat i)) (seq 0 n).

(** The contracts of the memory routines: fill and copy. *)
Definition mem_fill (m : mem) (a n v : Z) : mem :=
  fun x => if (a <=? x) && (x <? a + n) then v else m x.
Definition mem_copy (m : mem) (d s n : Z) : mem :=
  fun x => if (d <=? x) && (x <? d + n) then m (s + (x - d)) else m x.

Ltac zcases :=
  repeat match goal with
  | |- context [Z.leb ?a ?b] => destruct (Z.leb_spec a b); simpl
  | |- context [Z.ltb ?a ?b] => destruct (Z.ltb_spec a b); simpl
  | |- context [Z.eqb ?a ?b] => destruct (Z.eqb_spec a b); simpl
  end.

Lemma length_mread m a n : length (mread m a n) = n.
Proof. unfold mread. by rewrite length_map, length_seq. Qed.

Lemma nth_mread m a n i d : (i < n)%nat -> nth i (mread m a n) d = m (a + Z.of_nat i).
Proof.
  intros H. unfold mread.
  rewrite nth_indep with (d' := m (a + Z.of_nat 0%nat)) by (by rewrite length_map, length_seq).
  rewrite (map_nth (fun i => m (a + Z.of_nat i))), seq_nth by done. done.
Qed.

Lemma mread_ext m m' a n :
  (forall x, a <= x < a + Z.of_nat n -> m x = m' x) -> mread m a n = mread m' a n.
Proof.
  intros H. unfold mread. apply map_ext_in. intros i Hi%in_seq. apply H. lia.
Qed.

(** ** Little-endian integers in memory *)

Fixpoint le_bytes (n : nat) (v : Z) : list Z :=
  match n with O => [] | S n => v mod 256 :: le_bytes n (v / 256) end.

Fixpoint le_val (l : list Z) : Z :=
  match l with [] => 0 | b :: l => b + 256 * le_val l end.

(** Reading and writing an [n]-byte little-endian field. *)
Definition mget (n : nat) (m : mem) (a : Z) : Z := le_val (mread m a n).
Definition mput (n : nat) (m : mem) (a v : Z) : mem := mset_bytes m a (le_bytes n v).

Lemma length_le_bytes n v : length (le_bytes n v) = n.
Proof. revert v. induction n; simpl; auto. Qed.

Lemma le_val_le_bytes n v : le_val (le_bytes n v) = v mod 256 ^ Z.of_nat n.
Proof.
  revert v. induction n as [|n IH]; intros v; [by rewrite Z.mod_1_r|].
  simpl le_bytes. simpl le_val. rewrite IH, Nat2Z.inj_succ, Z.pow_succ_r by lia.
  rewrite Z.rem_mul_r by lia. lia.
Qed.

Lemma le_val_range l : Forall (fun b => 0 <= b < 256) l -> 0 <= le_val l < 256 ^ Z.of_nat (length l).
Proof.
  induction 1 as [|b l Hb _ IH]; [simpl; lia|].
  rewrite length_cons, Nat2Z.inj_succ, Z.pow_succ_r by lia. simpl le_val. lia.
Qed.

Lemma mset_bytes_in m a l x d :
  a <= x < a + Z.of_nat (length l) -> mset_bytes m a l x = nth (Z.to_nat (x - a)) l d.
Proof. intros H. unfold mset_bytes. zcases; try lia. apply nth_indep. lia. Qed.

Lemma mset_bytes_out m a l x :
  ~ (a <= x < a + Z.of_nat (length l)) -> mset_bytes m a l x = m x.
Proof. intros H. unfold mset_bytes. zcases; lia || done. Qed.

Lemma mread_mset_bytes_same m a l : mread (mset_bytes m a l) a (length l) = l.
Proof.
  apply nth_ext with 0 0; [by rewrite length_mread|].
  rewrite length_mread. intros i Hi. rewrite nth_mread by done.
  rewrite mset_bytes_in with (d := 0) by lia. f_equal. lia.
Qed.

Lemma mread_mset_bytes_disjoint m a l b n :
  b + Z.of_nat n <= a \/ a + Z.of_nat (length l) <= b ->
  mread (mset_bytes m a l) b n = mread m b n.
Proof. intros H. apply mread_ext. intros x Hx. apply mset_bytes_out. lia. Qed.

Lemma mget_mput_same n m a v : mget n (mput n m a v) a = v mod 256 ^ Z.of_nat n.
Proof.
  unfold mget, mput. pose proof (mread_mset_bytes_same m a (le_bytes n v)) as E.
  rewrite length_le_bytes in E. by rewrite E, le_val_le_bytes.
Qed.

Lemma mget_mput_disjoint n k m a b v :
  b + Z.of_nat n <= a \/ a + Z.of_nat k <= b -> mget n (mput k m a v) b = mget n m b.
Proof.
  intros H. unfold mget, mput. rewrite mread_mset_bytes_disjoint; [done|].
  by rewrite length_le_bytes.
Qed.

Lemma mget_mset_bytes_disjoint n m a b l :
  b + Z.of_nat n <= a \/ a + Z.of_nat (length l) <= b ->
  mget n (mset_bytes m a l) b = mget n m b.
Proof. intros H. unfold mget. by rewrite mread_mset_bytes_disjoint. Qed.

Lemma le_val_app l k : le_val (l ++ k) = le_val l + 256 ^ Z.of_nat (length l) * le_val k.
Proof.
  induction l as [|b l IH]; [simpl; lia|]. rewrite length_cons, Nat2Z.inj_succ, Z.pow_succ_r by lia.
  cbn [app le_val]. rewrite IH. ring.
Qed.

Lemma le_bytes_le_val l : Forall (fun b => 0 <= b < 256) l -> le_bytes (length l) (le_val l) = l.
Proof.
  induction 1 as [|b l Hb _ IH]; [done|]. cbn [length le_bytes le_val].
  rewrite (Z.mul_comm 256), Z_mod_plus_full, Z.mod_small, Z_div_plus_full, Z.div_small, Z.add_0_l, IH by lia. done.
Qed.

Lemma le_val_take n l : Forall (fun b => 0 <= b < 256) l ->
  le_val (take n l) = le_val l mod 256 ^ Z.of_nat n.
Proof.
  intros H. rewrite <- (take_drop n l) at 2. rewrite le_val_app.
  pose proof (le_val_range _ (Forall_take _ n _ H)) as Hr. rewrite length_take in *.
  destruct (decide (n <= length l)%nat) as [Hn|Hn].
  - rewrite Nat.min_l in * by done. by rewrite Z.mul_comm, Z_mod_plus_full, Z.mod_small.
  - rewrite drop_ge by lia. cbn [le_val]. rewrite Z.mul_0_r, Z.add_0_r. symmetry. apply Z.mod_small.
    split; [lia|]. eapply Z.lt_le_trans; [apply Hr|]. apply Z.pow_le_mono_r; lia.
Qed.

Lemma le_val_drop n l : Forall (fun b => 0 <= b < 256) l ->
  le_val (drop n l) = le_val l / 256 ^ Z.of_nat n.
Proof.
  intros H. rewrite <- (take_drop n l) at 2. rewrite le_val_app.
  pose proof (le_val_range _ (Forall_take _ n _ H)) as Hr. rewrite length_take in *.
  destruct (decide (n <= length l)%nat) as [Hn|Hn].
  - rewrite Nat.min_l in * by done. rewrite Z.mul_comm, Z_div_plus_full by lia.
    by rewrite Z.div_small, Z.add_0_l.
  - rewrite drop_ge by lia. cbn [le_val]. rewrite Z.mul_0_r, Z.add_0_r. symmetry. apply Z.div_small.
    split; [lia|]. eapply Z.lt_le_trans; [apply Hr|]. apply Z.pow_le_mono_r; lia.
Qed.

Lemma le_bytes_range n v : Forall (fun b => 0 <= b < 256) (le_bytes n v).
Proof. revert v. induction n as [|n IH]; intros v; constructor; [apply Z.mod_pos_bound; lia|apply IH]. Qed.

(** ** C strings *)

(** The contents of a C string literal: its bytes, without the final NUL. *)
Definition str (s : string) : list Z :=
  map (fun c => Z.of_N (Ascii.N_of_ascii c)) (String.list_ascii_of_string s).

(** A character constant. *)
Definition ch (s : string) : Z := nth 0 (str s) 0.

(** Replace string literals by their bytes. *)
Ltac norm_str :=
  repeat match goal with
  | |- context [str ?s] => let l := eval vm_compute in (str s) in change (str s) with l
  | H : context [str ?s] |- _ => let l := eval vm_compute in (str s) in change (str s) with l in H
  end.

(** The contents of a C string are bytes other than NUL. *)
Definition cstring (l : list Z) : Prop := Forall (fun c => 0 < c < 256) l.

(** [cstr_at m a l]: at address [a] memory holds the string [l] and its NUL. *)
Definition cstr_at (m : mem) (a : Z) (l : list Z) : Prop :=
  cstring l /\ mread m a (length l) = l /\ m (a + Z.of_nat (length l)) = 0.

Lemma cstr_at_nil m a : cstr_at m a [] <-> m a = 0.
Proof.
  unfold cstr_at, cstring. simpl. rewrite Z.add_0_r.
  split; [intros (?&?&?); done|intros H; repeat split; auto].
Qed.

Lemma mread_S m a n : mread m a (S n) = m a :: mread m (a + 1) n.
Proof.
  unfold mread. simpl seq. rewrite map_cons. f_equal; [f_equal; lia|].
  rewrite <- seq_shift, map_map. apply map_ext. intros. f_equal. lia.
Qed.

Lemma cstr_at_cons m a c l :
  cstr_at m a (c :: l) <-> 0 < c < 256 /\ m a = c /\ cstr_at m (a + 1) l.
Proof.
  unfold cstr_at, cstring. rewrite Forall_cons, length_cons, mread_S.
  replace (a + Z.of_nat (S (length l))) with (a + 1 + Z.of_nat (length l)) by lia.
  split.
  - intros ((?&?)&[= ? ?]&?). repeat split; auto; lia.
  - intros (?&?&?&?&?). repeat split; auto; try lia. by f_equal.
Qed.

(** ** Fixed-size string fields *)

(** What a zeroed [char f[n + 1]] field holds after [strncpy(f, src, n)]. *)
Definition field (n : nat) (src : list Z) : list Z := take n src.

Lemma take_take_le {A} (l : list A) n m : (n <= m)%nat -> take n (take m l) = take n l.
Proof. intros. rewrite take_take. by rewrite Nat.min_l. Qed.

(** ** Pairwise relations *)

Fixpoint pairwise {A} (R : A -> A -> Prop) (l : list A) : Prop :=
  match l with [] => True | x :: l => Forall (R x) l /\ pairwise R l end.

Lemma pairwise_perm {A} (R : A -> A -> Prop) l l' :
  (forall x y, R x y -> R y x) -> l ≡ₚ l' -> pairwise R l -> pairwise R l'.
Proof.
  intros HR. induction 1 as [|x l l' Hp IH|x y l|l1 l2 l3 _ IH1 _ IH2]; simpl; auto.
  - intros [? ?]. split; [by rewrite <- Hp|auto].
  - rewrite !Forall_cons. intros [[? ?] [? ?]]. auto.
Qed.

Lemma pairwise_lookup {A} (R : A -> A -> Prop) l i j x y :
  (forall x y, R x y -> R y x) -> pairwise R l ->
  i <> j -> l !! i = Some x -> l !! j = Some y -> R x y.
Proof.
  intros HR. revert i j. induction l as [|a l IH]; intros i j HP Hij Hi Hj; [done|].
  destruct HP as [H1 H2], i as [|i], j as [|j]; simpl in *; simplify_eq.
  - rewrite Forall_lookup in H1. eauto.
  - rewrite Forall_lookup in H1. eauto.
  - apply (IH i j); auto.
Qed.

(** ** Options *)

Definition guard_opt (b : bool) : option unit := if b then Some tt else None.

Lemma bind_some {A B} (f : A -> option B) x : (Some x ≫= f) = f x.
Proof. done. Qed.

Ltac inv_some :=
  repeat match goal with
  | H : Some _ = Some _ |- _ => injection H as H; subst
  | H : None = Some _ |- _ => discriminate H
  | H : Some _ = None |- _ => discriminate H
  end.

(** Membership in concatenated lists. *)
Ltac elems := repeat first [rewrite elem_of_app in * | rewrite elem_of_cons in *]; tauto.

(** Case analysis on the booleans guarding a definition. *)
Ltac bcases :=
  repeat match goal with
  | H : (_ && _)%bool = true |- _ => apply andb_prop in H as [? ?]
  | H : (_ || _)%bool = false |- _ => apply orb_false_elim in H as [? ?]
  | H : negb _ = true |- _ => apply negb_true_iff in H
  | H : negb _ = false |- _ => apply negb_false_iff in H
  | H : (_ <? _) = true |- _ => apply Z.ltb_lt in H
  | H : (_ <? _) = false |- _ => apply Z.ltb_ge in H
  | H : (_ <=? _) = true |- _ => apply Z.leb_le in H
  | H : (_ <=? _) = false |- _ => apply Z.leb_gt in H
  | H : (_ =? _) = true |- _ => apply Z.eqb_eq in H
  | H : (_ =? _) = false |- _ => apply Z.eqb_neq in H
  end.
