(* ===== verification/Buf.v ===== *)
(** * Byte buffers

    Buffers as lists of bytes: reading little-endian fields and C strings at an
    offset, zero padding, and overwriting a range. A read or write outside the
    buffer is [None]. *)
From S2P Require Import Prelude.

(** [n] bytes at [off]. *)
Definition slice (l : list Z) (off n : Z) : option (list Z) :=
  if (0 <=? off) && (0 <=? n) && (off + n <=? Z.of_nat (length l))
  then Some (take (Z.to_nat n) (drop (Z.to_nat off) l)) else None.

(** The [n]-byte little-endian field at [off]. *)
Definition get (n : nat) (l : list Z) (off : Z) : option Z := le_val <$> slice l off (Z.of_nat n).

(** The C string a buffer begins with: the bytes before the first NUL. *)
Fixpoint cstr_of (l : list Z) : option (list Z) :=
  match l with
  | [] => None
  | c :: l => if c =? 0 then Some [] else s ← cstr_of l; Some (c :: s)
  end.

Definition cstr_at_off (l : list Z) (off : Z) : option (list Z) :=
  if (0 <=? off) && (off <=? Z.of_nat (length l)) then cstr_of (drop (Z.to_nat off) l) else None.

Definition zeros (n : Z) : list Z := replicate (Z.to_nat n) 0.

(** A zeroed buffer of [n] bytes after [l] was copied to its start. *)
Definition pad (n : Z) (l : list Z) : list Z := l ++ zeros (n - Z.of_nat (length l)).

(** Overwriting the bytes at [off]. *)
Definition put (l : list Z) (off : Z) (b : list Z) : option (list Z) :=
  if (0 <=? off) && (off + Z.of_nat (length b) <=? Z.of_nat (length l))
  then Some (take (Z.to_nat off) l ++ b ++ drop (Z.to_nat off + length b) l) else None.

(** [memcmp(a, b, n) == 0] on buffers of at least [n] bytes. *)
Definition bytes_eq (a b : list Z) : bool := bool_decide (a = b).

Lemma bytes_eq_spec a b : reflect (a = b) (bytes_eq a b).
Proof. unfold bytes_eq. destruct (decide (a = b)); [rewrite bool_decide_eq_true_2|rewrite bool_decide_eq_false_2]; try done; by constructor. Qed.

Lemma length_zeros n : length (zeros n) = Z.to_nat n.
Proof. apply length_replicate. Qed.

Lemma length_pad n l : Z.of_nat (length l) <= n -> length (pad n l) = Z.to_nat n.
Proof. intros H. unfold pad. rewrite length_app, length_zeros. lia. Qed.

Lemma slice_some l off n : 0 <= off -> 0 <= n -> off + n <= Z.of_nat (length l) ->
  slice l off n = Some (take (Z.to_nat n) (drop (Z.to_nat off) l)).
Proof.
  intros H1 H2 H3. unfold slice. by rewrite !(proj2 (Z.leb_le _ _)) by lia.
Qed.

Lemma slice_length l off n b : slice l off n = Some b -> Z.of_nat (length b) = n /\ 0 <= off.
Proof.
  unfold slice. destruct ((_ && _ && _)%bool) eqn:E; [|done]. bcases. intros [= <-].
  rewrite length_take, length_drop. lia.
Qed.

Lemma slice_skip a l off n : 0 <= off -> slice (a ++ l) (Z.of_nat (length a) + off) n = slice l off n.
Proof.
  intros H. unfold slice. rewrite length_app, Nat2Z.inj_add.
  rewrite (proj2 (Z.leb_le 0 (_ + off))) by lia. rewrite (proj2 (Z.leb_le 0 off)) by lia. cbn [andb].
  destruct (0 <=? n); [|done]. cbn [andb].
  destruct (Z.leb_spec (Z.of_nat (length a) + off + n) (Z.of_nat (length a) + Z.of_nat (length l))),
    (Z.leb_spec (off + n) (Z.of_nat (length l))); try lia; [|done].
  rewrite Z2Nat.inj_add, Nat2Z.id by lia. by rewrite <- drop_drop, drop_app_length.
Qed.

Lemma slice_skip' a l k off n : Z.of_nat (length a) = k -> k <= off ->
  slice (a ++ l) off n = slice l (off - k) n.
Proof. intros <- H. rewrite <- (slice_skip a l) by lia. f_equal. lia. Qed.

Lemma slice_here a l n : Z.of_nat (length a) = n -> slice (a ++ l) 0 n = Some a.
Proof.
  intros <-. rewrite slice_some by (rewrite ?length_app; lia). by rewrite drop_0, Nat2Z.id, take_app_length.
Qed.

(** A slice that lies in the first part of a buffer. *)
Lemma slice_app_l a l off n : off + n <= Z.of_nat (length a) -> slice (a ++ l) off n = slice a off n.
Proof.
  intros H. unfold slice. rewrite length_app.
  destruct (Z.leb_spec 0 off), (Z.leb_spec 0 n); try done. cbn [andb].
  rewrite !(proj2 (Z.leb_le _ _)) by lia. f_equal.
  rewrite drop_app_le, take_app_le by (rewrite ?length_drop; lia). done.
Qed.

Lemma get_skip n a l k off : Z.of_nat (length a) = k -> k <= off ->
  get n (a ++ l) off = get n l (off - k).
Proof. intros Hk Ho. unfold get. by rewrite (slice_skip' a l k). Qed.

Lemma get_here n v l : get n (le_bytes n v ++ l) 0 = Some (v mod 256 ^ Z.of_nat n).
Proof.
  unfold get. rewrite slice_here by (by rewrite length_le_bytes). cbn [fmap option_fmap option_map].
  by rewrite le_val_le_bytes.
Qed.

Lemma get_app_l n a l off : off + Z.of_nat n <= Z.of_nat (length a) -> get n (a ++ l) off = get n a off.
Proof. intros H. unfold get. by rewrite slice_app_l. Qed.

Lemma get_some n l off : 0 <= off -> off + Z.of_nat n <= Z.of_nat (length l) -> is_Some (get n l off).
Proof. intros H1 H2. unfold get. rewrite slice_some by lia. by eexists. Qed.

Lemma cstr_of_app s l : Forall (fun c => c <> 0) s -> cstr_of (s ++ 0 :: l) = Some s.
Proof.
  induction 1 as [|c s Hc _ IH]; [done|]. cbn [app cstr_of]. rewrite (proj2 (Z.eqb_neq c 0)) by done.
  by rewrite IH.
Qed.

Lemma cstr_of_sound l s : cstr_of l = Some s -> Forall (fun c => c <> 0) s.
Proof.
  revert s. induction l as [|c l IH]; intros s; [done|]. cbn [cstr_of].
  destruct (Z.eqb_spec c 0); [by intros [= <-]|]. destruct (cstr_of l); [|done]. rewrite bind_some.
  intros [= <-]. constructor; [done|]. by apply IH.
Qed.

Lemma cstr_of_nul l : 0 ∈ l -> is_Some (cstr_of l).
Proof.
  induction l as [|c l IH]; intros H; [by apply elem_of_nil in H|]. cbn [cstr_of].
  destruct (Z.eqb_spec c 0) as [->|Hc]; [by eexists|]. apply elem_of_cons in H as [H|H]; [by symmetry in H|].
  destruct (IH H) as [s ->]. by eexists.
Qed.
