(* ===== verification/KString.v ===== *)
(** * kernel/lib/string.c

    The kernel's memory and string routines on a flat byte memory ([mem] of
    Prelude). A pointer is an address; [NULL] is 0. Block sizes and fuels are
    [nat]; a scan that does not meet its terminator within the fuel returns
    [None]. The [rep stos]/[rep movs] instructions are modelled by what the
    architecture does: one 4- or 8-byte element at a time, the whole element
    being read before it is written, [rdi] and [rsi] moving up (or down when
    the direction flag is set). *)
From S2P Require Import Prelude.

(** ** Block operations *)

Module Block.

(** [while (n > 0 && ((uintptr_t)d & 7)) { *d++ = v; n--; }]: the unaligned head. *)
Fixpoint set_head (m : mem) (d : Z) (v : Z) (n : nat) : mem * Z * nat :=
  match n with
  | O => (m, d, O)
  | S n' => if Z.land d 7 =? 0 then (m, d, n) else set_head (mset m d v) (d + 1) v n'
  end.

(** [while (n--) *d++ = v;] *)
Fixpoint set_tail (m : mem) (d : Z) (v : Z) (n : nat) : mem :=
  match n with O => m | S n' => set_tail (mset m d v) (d + 1) v n' end.

(** [rep stosq] with count [q]: returns the memory and the final [rdi]. *)
Fixpoint rep_stosq (m : mem) (d : Z) (v64 : Z) (q : nat) : mem * Z :=
  match q with
  | O => (m, d)
  | S q' => rep_stosq (mput 8 m d v64) (d + 8) v64 q'
  end.

(** [rep stosl]. *)
Fixpoint rep_stosl (m : mem) (d : Z) (v32 : Z) (q : nat) : mem * Z :=
  match q with
  | O => (m, d)
  | S q' => rep_stosl (mput 4 m d v32) (d + 4) v32 q'
  end.

(** [rep movsq] with the direction flag clear. *)
Fixpoint rep_movsq (m : mem) (d s : Z) (q : nat) : mem * Z * Z :=
  match q with
  | O => (m, d, s)
  | S q' => rep_movsq (mset_bytes m d (mread m s 8)) (d + 8) (s + 8) q'
  end.

(** [std; rep movsq; cld]. *)
Fixpoint rep_movsq_down (m : mem) (d s : Z) (q : nat) : mem * Z * Z :=
  match q with
  | O => (m, d, s)
  | S q' => rep_movsq_down (mset_bytes m d (mread m s 8)) (d - 8) (s - 8) q'
  end.

Fixpoint copy_head (m : mem) (d s : Z) (n : nat) : mem * Z * Z * nat :=
  match n with
  | O => (m, d, s, O)
  | S n' => if Z.land d 7 =? 0 then (m, d, s, n)
            else copy_head (mset m d (m s)) (d + 1) (s + 1) n'
  end.

Fixpoint copy_tail (m : mem) (d s : Z) (n : nat) : mem :=
  match n with O => m | S n' => copy_tail (mset m d (m s)) (d + 1) (s + 1) n' end.

(** The backward loops: [*--d = *--s]. *)
Fixpoint copy_head_down (m : mem) (d s : Z) (n : nat) : mem * Z * Z * nat :=
  match n with
  | O => (m, d, s, O)
  | S n' => if Z.land d 7 =? 0 then (m, d, s, n)
            else copy_head_down (mset m (d - 1) (m (s - 1))) (d - 1) (s - 1) n'
  end.

Fixpoint copy_tail_down (m : mem) (d s : Z) (n : nat) : mem :=
  match n with
  | O => m
  | S n' => copy_tail_down (mset m (d - 1) (m (s - 1))) (d - 1) (s - 1) n'
  end.

Definition memset (m : mem) (dest value : Z) (n : nat) : mem * Z :=
  let v := u8 value in
  let '(m, d, n) := set_head m dest v n in
  let '(m, d, n) :=
    if (8 <=? n)%nat
    then let v64 := u64 (v * 0x0101010101010101) in
         let '(m, d) := rep_stosq m d v64 (n / 8)%nat in (m, d, (n mod 8)%nat)
    else (m, d, n) in
  (set_tail m d v n, dest).

Definition memset32 (m : mem) (dest value : Z) (count : nat) : mem * Z :=
  let '(m, _) := rep_stosl m dest value count in (m, dest).

(** The aligned head, [rep movsq] bulk and tail shared by [memcpy] and the
    forward branch of [memmove], which the source writes out twice. *)
Definition copy_forward (m : mem) (d s : Z) (n : nat) : mem :=
  let '(m, d, s, n) := copy_head m d s n in
  let '(m, d, s, n) :=
    if (8 <=? n)%nat
    then let '(m, d, s) := rep_movsq m d s (n / 8)%nat in (m, d, s, (n mod 8)%nat)
    else (m, d, s, n) in
  copy_tail m d s n.

Definition memcpy (m : mem) (dest src : Z) (n : nat) : mem * Z :=
  (copy_forward m dest src n, dest).

Definition copy_backward (m : mem) (d s : Z) (n : nat) : mem :=
  let d := d + Z.of_nat n in
  let s := s + Z.of_nat n in
  let '(m, d, s, n) := copy_head_down m d s n in
  let '(m, d, s, n) :=
    if (8 <=? n)%nat
    then let '(m, d, s) := rep_movsq_down m (d - 8) (s - 8) (n / 8)%nat in
         (m, d + 8, s + 8, (n mod 8)%nat)
    else (m, d, s, n) in
  copy_tail_down m d s n.

Definition memmove (m : mem) (dest src : Z) (n : nat) : mem * Z :=
  if (dest =? src) || (n =? 0)%nat then (m, dest)
  else if dest <? src then (copy_forward m dest src n, dest)
  else (copy_backward m dest src n, dest).

(** [for (i = 0; i < n; i++) if (pa[i] != pb[i]) return pa[i] - pb[i]; return 0;] *)
Fixpoint memcmp (m : mem) (a b : Z) (n : nat) : Z :=
  match n with
  | O => 0
  | S n' => if m a =? m b then memcmp m (a + 1) (b + 1) n' else m a - m b
  end.

(** *** Filling *)

Lemma land_7 d : Z.land d 7 = d mod 8.
Proof. change 7 with (Z.ones 3). by rewrite land_ones_mod. Qed.

Lemma set_head_spec n : forall m d v,
  let '(m', d', n') := set_head m d v n in
  (n' <= n)%nat /\ d' = d + Z.of_nat (n - n') /\
  forall x, m' x = mem_fill m d (Z.of_nat (n - n')) v x.
Proof.
  induction n as [|n IH]; intros m d v; simpl.
  { repeat split; [lia..|]. intros x. unfold mem_fill. zcases; lia || done. }
  destruct (Z.land d 7 =? 0).
  { rewrite Nat.sub_diag. repeat split; [lia..|]. intros x. unfold mem_fill. zcases; lia || done. }
  specialize (IH (mset m d v) (d + 1) v).
  destruct (set_head (mset m d v) (d + 1) v n) as [[m' d'] n'] eqn:E. destruct IH as (Hn & -> & H).
  split; [lia|]. split; [lia|].
  intros x. rewrite H. unfold mem_fill, mset. zcases; lia || done.
Qed.

Lemma set_tail_spec n : forall m d v x,
  set_tail m d v n x = mem_fill m d (Z.of_nat n) v x.
Proof.
  induction n as [|n IH]; intros m d v x; simpl.
  { unfold mem_fill. zcases; lia || done. }
  rewrite IH. unfold mem_fill, mset. zcases; lia || done.
Qed.

(** Multiplying a byte by 0x0101010101010101 repeats it in all eight bytes. *)
Lemma le_bytes_splat v :
  0 <= v < 256 -> le_bytes 8 (u64 (v * 0x0101010101010101)) = repeat v 8.
Proof.
  intros Hv. rewrite u64_small by lia. simpl.
  repeat f_equal; Z.div_mod_to_equations; lia.
Qed.

Lemma nth_repeat_Z (v : Z) k i d : (i < k)%nat -> nth i (repeat v k) d = v.
Proof. intros. rewrite nth_indep with (d' := v) by (by rewrite repeat_length). apply nth_repeat. Qed.

Lemma rep_stosq_spec q : forall m d v,
  0 <= v < 256 ->
  let '(m', d') := rep_stosq m d (u64 (v * 0x0101010101010101)) q in
  d' = d + 8 * Z.of_nat q /\ forall x, m' x = mem_fill m d (8 * Z.of_nat q) v x.
Proof.
  induction q as [|q IH]; intros m d v Hv.
  { simpl. split; [lia|]. intros x. unfold mem_fill. zcases; lia || done. }
  specialize (IH (mput 8 m d (u64 (v * 0x0101010101010101))) (d + 8) v Hv).
  cbn [rep_stosq]. destruct (rep_stosq _ _ _ q) as [m' d'] eqn:E. destruct IH as (-> & H).
  split; [lia|]. intros x. rewrite H. unfold mem_fill, mput.
  rewrite le_bytes_splat by done.
  destruct (decide (d <= x < d + 8)) as [Hx|Hx].
  - assert (mset_bytes m d (repeat v 8) x = v) as ->.
    { rewrite mset_bytes_in with (d := 0) by (rewrite repeat_length; lia).
      apply nth_repeat_Z. lia. }
    zcases; lia || done.
  - rewrite mset_bytes_out by (rewrite repeat_length; lia). zcases; lia || done.
Qed.

(** *** Copying *)

(** Extending a partial copy by the [c] bytes above it. *)
Lemma mem_copy_extend m0 m d s k (c : nat) :
  d <= s \/ s + k + Z.of_nat c <= d -> 0 <= k -> (forall x, m x = mem_copy m0 d s k x) ->
  forall x, mset_bytes m (d + k) (mread m (s + k) c) x = mem_copy m0 d s (k + Z.of_nat c) x.
Proof.
  intros Hds Hk Hm x. destruct (decide (d + k <= x < d + k + Z.of_nat c)) as [Hx|Hx].
  - rewrite mset_bytes_in with (d := 0) by (rewrite length_mread; lia).
    rewrite nth_mread, Hm by lia. unfold mem_copy. zcases; lia || (f_equal; lia) || done.
  - rewrite mset_bytes_out by (rewrite length_mread; lia).
    rewrite Hm. unfold mem_copy. zcases; lia || done.
Qed.

(** Extending a partial copy of the top [k] bytes by the [c] bytes below it. *)
Lemma mem_copy_extend_down m0 m d s k (c : nat) :
  s <= d -> 0 <= k -> (forall x, m x = mem_copy m0 d s k x) ->
  forall x, mset_bytes m (d - Z.of_nat c) (mread m (s - Z.of_nat c) c) x =
            mem_copy m0 (d - Z.of_nat c) (s - Z.of_nat c) (k + Z.of_nat c) x.
Proof.
  intros Hds Hk Hm x. destruct (decide (d - Z.of_nat c <= x < d)) as [Hx|Hx].
  - rewrite mset_bytes_in with (d := 0) by (rewrite length_mread; lia).
    rewrite nth_mread, Hm by lia. unfold mem_copy. zcases; lia || (f_equal; lia) || done.
  - rewrite mset_bytes_out by (rewrite length_mread; lia).
    rewrite Hm. unfold mem_copy. zcases; lia || (f_equal; lia) || done.
Qed.

Lemma mset_is_bytes m a v x : mset m a v x = mset_bytes m a [v] x.
Proof.
  unfold mset, mset_bytes. simpl length. zcases; try lia; try done.
  subst x. by rewrite Z.sub_diag.
Qed.

Lemma mread_1 m a : mread m a 1 = [m a].
Proof. unfold mread. simpl. do 2 f_equal. lia. Qed.

Lemma byte_step_up m0 m d s k :
  d <= s \/ s + k + 1 <= d -> 0 <= k -> (forall x, m x = mem_copy m0 d s k x) ->
  forall x, mset m (d + k) (m (s + k)) x = mem_copy m0 d s (k + 1) x.
Proof.
  intros ??? x. rewrite mset_is_bytes, <- mread_1. by apply (mem_copy_extend m0 m d s k 1).
Qed.

Lemma byte_step_down m0 m d s k :
  s <= d -> 0 <= k -> (forall x, m x = mem_copy m0 d s k x) ->
  forall x, mset m (d - 1) (m (s - 1)) x = mem_copy m0 (d - 1) (s - 1) (k + 1) x.
Proof.
  intros ??? x. rewrite mset_is_bytes, <- mread_1.
  by apply (mem_copy_extend_down m0 m d s k 1).
Qed.

Section Forward.
(** A forward copy of at most [N] bytes: either downwards in memory or
    between ranges that do not overlap. *)
Context (m0 : mem) (d s N : Z) (Hds : d <= s \/ s + N <= d).

Lemma copy_head_spec n : forall m k,
  0 <= k -> k + Z.of_nat n <= N -> (forall x, m x = mem_copy m0 d s k x) ->
  let '(m', d', s', n') := copy_head m (d + k) (s + k) n in
  exists k', k <= k' /\ d' = d + k' /\ s' = s + k' /\ k' + Z.of_nat n' = k + Z.of_nat n /\
    forall x, m' x = mem_copy m0 d s k' x.
Proof.
  induction n as [|n IH]; intros m k Hk Hn Hm; simpl.
  { exists k. repeat split; auto; lia. }
  destruct (Z.land (d + k) 7 =? 0); [exists k; repeat split; auto; lia|].
  specialize (IH (mset m (d + k) (m (s + k))) (k + 1)).
  rewrite !Z.add_assoc in IH. destruct (copy_head _ _ _ n) as [[[m' d'] s'] n'].
  destruct IH as (k' & ? & -> & -> & ? & H); [lia..| |exists k'; repeat split; auto; lia].
  apply byte_step_up; auto; lia.
Qed.

Lemma rep_movsq_spec q : forall m k,
  0 <= k -> k + 8 * Z.of_nat q <= N -> (forall x, m x = mem_copy m0 d s k x) ->
  let '(m', d', s') := rep_movsq m (d + k) (s + k) q in
  let k' := k + 8 * Z.of_nat q in
  d' = d + k' /\ s' = s + k' /\ forall x, m' x = mem_copy m0 d s k' x.
Proof.
  induction q as [|q IH]; intros m k Hk Hn Hm; cbn [rep_movsq].
  { rewrite Z.mul_0_r, Z.add_0_r. auto. }
  specialize (IH (mset_bytes m (d + k) (mread m (s + k) 8)) (k + 8)).
  rewrite !Z.add_assoc in IH. destruct (rep_movsq _ _ _ q) as [[m' d'] s'].
  cbv zeta in *. destruct IH as (-> & -> & H); [lia..| |].
  { apply (mem_copy_extend m0 m d s k 8); auto; lia. }
  replace (k + 8 * Z.of_nat (S q)) with (k + 8 + 8 * Z.of_nat q) by lia.
  repeat split; auto; lia.
Qed.

Lemma copy_tail_spec n : forall m k,
  0 <= k -> k + Z.of_nat n <= N -> (forall x, m x = mem_copy m0 d s k x) ->
  forall x, copy_tail m (d + k) (s + k) n x = mem_copy m0 d s (k + Z.of_nat n) x.
Proof.
  induction n as [|n IH]; intros m k Hk Hn Hm x; simpl copy_tail.
  { by rewrite Z.add_0_r. }
  rewrite <- !Z.add_assoc, (IH _ (k + 1)); [f_equal; lia|lia..|].
  apply byte_step_up; auto; lia.
Qed.

Lemma copy_forward_spec (n : nat) x :
  Z.of_nat n = N -> copy_forward m0 d s n x = mem_copy m0 d s N x.
Proof.
  intros HN. unfold copy_forward.
  assert (forall x, m0 x = mem_copy m0 d s 0 x) as H0.
  { intros y. unfold mem_copy. zcases; lia || done. }
  pose proof (copy_head_spec n m0 0 ltac:(lia) ltac:(lia) H0) as Hh.
  rewrite !Z.add_0_r in Hh. destruct (copy_head m0 d s n) as [[[m' d'] s'] n'].
  destruct Hh as (k & ? & -> & -> & ? & Hm').
  destruct (8 <=? n')%nat eqn:E.
  - pose proof (Nat.div_mod_eq n' 8) as Hn8.
    pose proof (rep_movsq_spec (n' / 8) m' k ltac:(lia) ltac:(lia) Hm') as Hq.
    destruct (rep_movsq m' (d + k) (s + k) (n' / 8)) as [[m2 d2] s2].
    destruct Hq as (-> & -> & Hm2). rewrite copy_tail_spec by (done || lia). f_equal; lia.
  - rewrite copy_tail_spec by (done || lia). f_equal; lia.
Qed.
End Forward.

Section Backward.
(** A backward copy, from the top bytes down, towards higher addresses. *)
Context (m0 : mem) (d s : Z) (Hds : s <= d).

Lemma copy_head_down_spec n : forall m k,
  0 <= k ->
  (forall x, m x = mem_copy m0 (d + Z.of_nat n) (s + Z.of_nat n) k x) ->
  let '(m', d', s', n') := copy_head_down m (d + Z.of_nat n) (s + Z.of_nat n) n in
  exists k', k <= k' /\ d' = d + Z.of_nat n' /\ s' = s + Z.of_nat n' /\
    k' + Z.of_nat n' = k + Z.of_nat n /\ forall x, m' x = mem_copy m0 d' s' k' x.
Proof.
  induction n as [|n IH]; intros m k Hk Hm; cbn [copy_head_down].
  { exists k. repeat split; auto; lia. }
  destruct (Z.land _ 7 =? 0); [exists k; repeat split; auto; lia|].
  replace (d + Z.of_nat (S n) - 1) with (d + Z.of_nat n) by lia.
  replace (s + Z.of_nat (S n) - 1) with (s + Z.of_nat n) by lia.
  specialize (IH (mset m (d + Z.of_nat n) (m (s + Z.of_nat n))) (k + 1)).
  destruct (copy_head_down _ _ _ n) as [[[m' d'] s'] n'].
  destruct IH as (k' & ? & -> & -> & ? & H); [lia| |exists k'; repeat split; auto; lia].
  intros x. pose proof (byte_step_down m0 m (d + Z.of_nat (S n)) (s + Z.of_nat (S n)) k ltac:(lia) Hk Hm x) as Hs.
  replace (d + Z.of_nat (S n) - 1) with (d + Z.of_nat n) in Hs by lia.
  by replace (s + Z.of_nat (S n) - 1) with (s + Z.of_nat n) in Hs by lia.
Qed.

Lemma rep_movsq_down_spec q : forall m r k,
  0 <= k ->
  (forall x, m x = mem_copy m0 (d + (r + 8 * Z.of_nat q)) (s + (r + 8 * Z.of_nat q)) k x) ->
  let '(m', d', s') :=
    rep_movsq_down m (d + (r + 8 * Z.of_nat q) - 8) (s + (r + 8 * Z.of_nat q) - 8) q in
  d' = d + r - 8 /\ s' = s + r - 8 /\
  forall x, m' x = mem_copy m0 (d + r) (s + r) (k + 8 * Z.of_nat q) x.
Proof.
  induction q as [|q IH]; intros m r k Hk Hm; cbn [rep_movsq_down].
  { rewrite Z.mul_0_r, !Z.add_0_r in *. auto. }
  replace (d + (r + 8 * Z.of_nat (S q)) - 8) with (d + (r + 8 * Z.of_nat q)) by lia.
  replace (s + (r + 8 * Z.of_nat (S q)) - 8) with (s + (r + 8 * Z.of_nat q)) by lia.
  match goal with |- context [rep_movsq_down ?m1 _ _ q] => specialize (IH m1 r (k + 8)) end.
  destruct (rep_movsq_down _ _ _ q) as [[m' d'] s'].
  destruct IH as (-> & -> & H); [lia| |].
  - intros x. pose proof (mem_copy_extend_down m0 m (d + (r + 8 * Z.of_nat (S q)))
      (s + (r + 8 * Z.of_nat (S q))) k 8 ltac:(lia) Hk Hm x) as Hs.
    replace (d + (r + 8 * Z.of_nat (S q)) - Z.of_nat 8) with (d + (r + 8 * Z.of_nat q)) in Hs by lia.
    by replace (s + (r + 8 * Z.of_nat (S q)) - Z.of_nat 8) with (s + (r + 8 * Z.of_nat q)) in Hs by lia.
  - repeat split. intros x. rewrite H. f_equal. lia.
Qed.

Lemma copy_tail_down_spec n : forall m k,
  0 <= k ->
  (forall x, m x = mem_copy m0 (d + Z.of_nat n) (s + Z.of_nat n) k x) ->
  forall x, copy_tail_down m (d + Z.of_nat n) (s + Z.of_nat n) n x =
            mem_copy m0 d s (k + Z.of_nat n) x.
Proof.
  induction n as [|n IH]; intros m k Hk Hm x; cbn [copy_tail_down].
  { rewrite Hm. by rewrite !Z.add_0_r. }
  replace (d + Z.of_nat (S n) - 1) with (d + Z.of_nat n) by lia.
  replace (s + Z.of_nat (S n) - 1) with (s + Z.of_nat n) by lia.
  rewrite (IH _ (k + 1)); [f_equal; lia|lia|].
  intros y. pose proof (byte_step_down m0 m (d + Z.of_nat (S n)) (s + Z.of_nat (S n)) k ltac:(lia) Hk Hm y) as Hs.
  replace (d + Z.of_nat (S n) - 1) with (d + Z.of_nat n) in Hs by lia.
  by replace (s + Z.of_nat (S n) - 1) with (s + Z.of_nat n) in Hs by lia.
Qed.

Lemma copy_backward_spec (n : nat) x :
  copy_backward m0 d s n x = mem_copy m0 d s (Z.of_nat n) x.
Proof.
  unfold copy_backward.
  assert (forall x, m0 x = mem_copy m0 (d + Z.of_nat n) (s + Z.of_nat n) 0 x) as H0.
  { intros y. unfold mem_copy. zcases; lia || done. }
  pose proof (copy_head_down_spec n m0 0 ltac:(lia) H0) as Hh.
  destruct (copy_head_down _ _ _ n) as [[[m' d'] s'] n'].
  destruct Hh as (k & ? & -> & -> & ? & Hm').
  destruct (8 <=? n')%nat eqn:E.
  - pose proof (Nat.div_mod_eq n' 8) as Hn8.
    assert (Z.of_nat n' = Z.of_nat (n' mod 8) + 8 * Z.of_nat (n' / 8)) as En by lia.
    rewrite En in Hm' |- *.
    pose proof (rep_movsq_down_spec (n' / 8) m' _ k ltac:(lia) Hm') as Hq.
    destruct (rep_movsq_down _ _ _ _) as [[m2 d2] s2]. destruct Hq as (-> & -> & Hm2).
    replace (d + Z.of_nat (n' mod 8) - 8 + 8) with (d + Z.of_nat (n' mod 8)) by lia.
    replace (s + Z.of_nat (n' mod 8) - 8 + 8) with (s + Z.of_nat (n' mod 8)) by lia.
    rewrite (copy_tail_down_spec _ m2 (k + 8 * Z.of_nat (n' / 8))) by (done || lia).
    f_equal; lia.
  - rewrite (copy_tail_down_spec _ m' k) by (done || lia). f_equal; lia.
Qed.
End Backward.

(** *** The routines meet their contracts *)

(** [memmove] copies the [n] source bytes as they were before the call and
    leaves the rest of memory alone, for every alignment and every overlap of
    the two ranges, although both directions move whole quadwords. *)
Theorem memmove_correct m dest src n x :
  fst (memmove m dest src n) x = mem_copy m dest src (Z.of_nat n) x /\
  snd (memmove m dest src n) = dest.
Proof.
  unfold memmove. destruct (dest =? src) eqn:E1, (n =? 0)%nat eqn:E2; bcases; simpl;
    try (apply Nat.eqb_eq in E2); subst.
  1-3: split; [|done]; unfold mem_copy; zcases; try lia; f_equal; lia.
  destruct (dest <? src) eqn:E3; bcases; simpl; split; try done.
  - apply copy_forward_spec; lia.
  - apply copy_backward_spec; lia.
Qed.

(** [memcpy] copies exactly the [n] source bytes when the destination does
    not start inside the source range, whatever the alignment. *)
Theorem memcpy_correct m dest src n x :
  dest <= src \/ src + Z.of_nat n <= dest ->
  fst (memcpy m dest src n) x = mem_copy m dest src (Z.of_nat n) x.
Proof. intros H. by apply copy_forward_spec. Qed.

Example memcpy_correct_witness :
  let m := fun a => a mod 256 in
  fst (memcpy m 1003 2001 21) 1010 = mem_copy m 1003 2001 21 1010.
Proof. intros m. apply (memcpy_correct m 1003 2001 21 1010). left. lia. Defined.

(** [memset] stores the low byte of [value] in exactly the [n] bytes at
    [dest]; the quadword store of the replicated byte is a byte fill. *)
Theorem memset_correct m dest value n x :
  fst (memset m dest value n) x = mem_fill m dest (Z.of_nat n) (u8 value) x /\
  snd (memset m dest value n) = dest.
Proof.
  unfold memset. pose proof (u8_range value) as Hv.
  pose proof (set_head_spec n m dest (u8 value)) as Hh.
  destruct (set_head m dest (u8 value) n) as [[m' d'] n']. destruct Hh as (? & -> & Hm').
  destruct (8 <=? n')%nat eqn:E.
  - pose proof (rep_stosq_spec (n' / 8) m' (dest + Z.of_nat (n - n')) _ Hv) as Hq.
    destruct (rep_stosq _ _ _ _) as [m2 d2]. destruct Hq as (-> & Hm2).
    cbn [fst snd]. split; [|done]. pose proof (Nat.div_mod_eq n' 8).
    rewrite set_tail_spec. unfold mem_fill in *. rewrite Hm2, Hm'. zcases; lia || done.
  - cbn [fst snd]. split; [|done]. rewrite set_tail_spec.
    unfold mem_fill in *. rewrite Hm'. zcases; lia || done.
Qed.

End Block.

(** ** String scanning *)

Module Cstr.

(** [while (s && s[n]) n++;] *)
Fixpoint strlen_from (fuel : nat) (m : mem) (s n : Z) : option Z :=
  match fuel with
  | O => None
  | S f => if m (s + n) =? 0 then Some n else strlen_from f m s (n + 1)
  end.
Definition strlen (fuel : nat) (m : mem) (s : Z) : option Z :=
  if s =? 0 then Some 0 else strlen_from fuel m s 0.

Fixpoint strnlen_from (m : mem) (s n : Z) (max : nat) : Z :=
  match max with
  | O => n
  | S k => if m (s + n) =? 0 then n else strnlen_from m s (n + 1) k
  end.
Definition strnlen (m : mem) (s : Z) (max : nat) : Z :=
  if s =? 0 then 0 else strnlen_from m s 0 max.

Fixpoint strcmp (fuel : nat) (m : mem) (a b : Z) : option Z :=
  match fuel with
  | O => None
  | S f => if negb (m a =? 0) && (m a =? m b) then strcmp f m (a + 1) (b + 1)
           else Some (m a - m b)
  end.

Fixpoint strncmp (m : mem) (a b : Z) (n : nat) : Z :=
  match n with
  | O => 0
  | S n' => if negb (m a =? 0) && (m a =? m b) then strncmp m (a + 1) (b + 1) n'
            else m a - m b
  end.

(** Copy bytes up to and including the terminator. *)
Fixpoint strcpy_loop (fuel : nat) (m : mem) (d s : Z) : option mem :=
  match fuel with
  | O => None
  | S f => let c := m s in
           let m := mset m d c in
           if c =? 0 then Some m else strcpy_loop f m (d + 1) (s + 1)
  end.
Definition strcpy (fuel : nat) (m : mem) (dest src : Z) : option (mem * Z) :=
  m ← strcpy_loop fuel m dest src; Some (m, dest).

(** The copying loop of [strncpy]; returns where padding starts and how much. *)
Fixpoint strncpy_copy (m : mem) (d s : Z) (n : nat) : mem * Z * nat :=
  match n with
  | O => (m, d, O)
  | S n' => if m s =? 0 then (m, d, n) else strncpy_copy (mset m d (m s)) (d + 1) (s + 1) n'
  end.
Definition strncpy (m : mem) (dest src : Z) (n : nat) : mem * Z :=
  let '(m, d, r) := strncpy_copy m dest src n in (Block.set_tail m d 0 r, dest).

Definition strcat (fuel : nat) (m : mem) (dest src : Z) : option (mem * Z) :=
  n ← strlen fuel m dest;
  r ← strcpy fuel m (dest + n) src;
  Some (fst r, dest).

Fixpoint strchr (fuel : nat) (m : mem) (s c : Z) : option Z :=
  match fuel with
  | O => None
  | S f => if m s =? 0 then Some (if c =? 0 then s else 0)
           else if m s =? u8 c then Some s
           else strchr f m (s + 1) c
  end.

Fixpoint strrchr_from (fuel : nat) (m : mem) (s c last : Z) : option Z :=
  match fuel with
  | O => None
  | S f => if m s =? 0 then Some (if c =? 0 then s else last)
           else strrchr_from f m (s + 1) c (if m s =? u8 c then s else last)
  end.
Definition strrchr (fuel : nat) (m : mem) (s c : Z) : option Z := strrchr_from fuel m s c 0.

(** The inner loop of [strstr]: whether the needle is exhausted. *)
Fixpoint strstr_match (fuel : nat) (m : mem) (h n : Z) : option bool :=
  match fuel with
  | O => None
  | S f => if negb (m h =? 0) && negb (m n =? 0) && (m h =? m n)
           then strstr_match f m (h + 1) (n + 1)
           else Some (m n =? 0)
  end.
Fixpoint strstr_from (fuel : nat) (m : mem) (haystack needle : Z) : option Z :=
  match fuel with
  | O => None
  | S f => if m haystack =? 0 then Some 0
           else hit ← strstr_match fuel m haystack needle;
                if (hit : bool) then Some haystack else strstr_from f m (haystack + 1) needle
  end.
Definition strstr (fuel : nat) (m : mem) (haystack needle : Z) : option Z :=
  if m needle =? 0 then Some haystack else strstr_from fuel m haystack needle.

Fixpoint skip_blank (fuel : nat) (m : mem) (s : Z) : option Z :=
  match fuel with
  | O => None
  | S f => if (m s =? 32) || (m s =? 9) || (m s =? 10) then skip_blank f m (s + 1) else Some s
  end.

Definition digit_value (c : Z) : option Z :=
  if (48 <=? c) && (c <=? 57) then Some (c - 48)
  else if (97 <=? c) && (c <=? 102) then Some (c - 97 + 10)
  else if (65 <=? c) && (c <=? 70) then Some (c - 65 + 10)
  else None.

(** The digit loop; signed overflow of [value] is undefined behaviour: [None]. *)
Fixpoint strtol_digits (fuel : nat) (m : mem) (s base value : Z) : option (Z * Z) :=
  match fuel with
  | O => None
  | S f =>
    if m s =? 0 then Some (value, s)
    else match digit_value (m s) with
         | None => Some (value, s)
         | Some digit =>
           if base <=? digit then Some (value, s)
           else if value * base + digit <=? I64_MAX
                then strtol_digits f m (s + 1) base (value * base + digit)
                else None
         end
  end.

(** Returns the value and what [*end] is set to. *)
Definition strtol (fuel : nat) (m : mem) (s base : Z) : option (Z * Z) :=
  s ← skip_blank fuel m s;
  let '(sign, s) := if m s =? 45 then (-1, s + 1) else if m s =? 43 then (1, s + 1) else (1, s) in
  let '(base, s) :=
    if ((base =? 0) || (base =? 16)) && (m s =? 48) && ((m (s + 1) =? 120) || (m (s + 1) =? 88))
    then (16, s + 2) else (base, s) in
  let base := if base =? 0 then (if m s =? 48 then 8 else 10) else base in
  r ← strtol_digits fuel m s base 0;
  Some (fst r * sign, snd r).

Definition atoi (fuel : nat) (m : mem) (s : Z) : option Z :=
  r ← strtol fuel m s 10; Some (i32 (fst r)).

(** *** Specifications over the contents of the strings *)

(** Lexicographic order of byte strings. *)
Inductive lex_lt : list Z -> list Z -> Prop :=
| lex_nil b lb : lex_lt [] (b :: lb)
| lex_head a b la lb : a < b -> lex_lt (a :: la) (b :: lb)
| lex_tail a la lb : lex_lt la lb -> lex_lt (a :: la) (a :: lb).

(** The number read by base-[b] digits [l], continuing from [v]. *)
Definition horner (b : Z) (l : list Z) (v : Z) : Z :=
  fold_left (fun v c => v * b + default 0 (digit_value c)) l v.

Definition digit_in (b c : Z) : Prop := exists d, digit_value c = Some d /\ 0 <= d < b.

(** Where a digit string stops: at the end or at a byte that is no digit of the base. *)
Definition digits_stop (b : Z) (l : list Z) : Prop :=
  match l with [] => True | c :: _ => ~ digit_in b c end.

Lemma cstr_at_head m a l : cstr_at m a l ->
  m a = match l with [] => 0 | c :: _ => c end.
Proof. destruct l; [by rewrite cstr_at_nil|rewrite cstr_at_cons; tauto]. Qed.

Lemma cstr_at_drop m a l i : cstr_at m a l -> (i <= length l)%nat ->
  cstr_at m (a + Z.of_nat i) (drop i l).
Proof.
  revert a l. induction i as [|i IH]; intros a l H Hi; [by rewrite Z.add_0_r, drop_0|].
  destruct l as [|c l]; [simpl in Hi; lia|]. rewrite cstr_at_cons in H. destruct H as (?&?&H).
  apply (IH _ l) in H; [|simpl in Hi; lia]. by replace (a + Z.of_nat (S i)) with (a + 1 + Z.of_nat i) by lia.
Qed.

Lemma strlen_from_spec m l : forall fuel s n,
  cstr_at m (s + n) l -> (length l < fuel)%nat ->
  strlen_from fuel m s n = Some (n + Z.of_nat (length l)).
Proof.
  induction l as [|c l IH]; intros [|f] s n H Hf; simpl in Hf; try lia; simpl.
  - apply cstr_at_nil in H. rewrite H. simpl. f_equal. lia.
  - rewrite cstr_at_cons in H. destruct H as (? & -> & H).
    replace (c =? 0) with false by lia.
    rewrite (IH f s (n + 1)); [f_equal; lia| |lia]. by rewrite Z.add_assoc.
Qed.

Lemma strlen_spec m s l fuel :
  s <> 0 -> cstr_at m s l -> (length l < fuel)%nat ->
  strlen fuel m s = Some (Z.of_nat (length l)).
Proof.
  intros Hs H Hf. unfold strlen. replace (s =? 0) with false by lia.
  rewrite (strlen_from_spec m l); [done|by rewrite Z.add_0_r|done].
Qed.

Lemma strcmp_spec m la : forall lb fuel a b,
  cstr_at m a la -> cstr_at m b lb -> (length la < fuel)%nat ->
  exists r, strcmp fuel m a b = Some r /\ (r = 0 <-> la = lb) /\ (r < 0 <-> lex_lt la lb).
Proof.
  induction la as [|c la IH]; intros lb [|f] a b Ha Hb Hf; simpl in Hf; try lia; simpl.
  - apply cstr_at_nil in Ha. rewrite Ha. simpl. exists (0 - m b). split; [done|].
    rewrite (cstr_at_head _ _ _ Hb). destruct lb as [|d lb].
    { split; [easy|]. split; [lia|inversion 1]. }
    rewrite cstr_at_cons in Hb. split; (split; intros; [try lia|try done; try lia]); constructor.
  - rewrite cstr_at_cons in Ha. destruct Ha as (Hc & -> & Ha).
    replace (c =? 0) with false by lia. simpl. rewrite (cstr_at_head _ _ _ Hb).
    destruct lb as [|d lb].
    { replace (c =? 0) with false by lia. exists (c - 0). split; [done|].
      split; [split; [lia|done]|split; [lia|inversion 1]]. }
    rewrite cstr_at_cons in Hb. destruct Hb as (Hd & _ & Hb). destruct (Z.eqb_spec c d) as [->|Hne].
    + destruct (IH lb f (a + 1) (b + 1) Ha Hb ltac:(lia)) as (r & -> & H1 & H2).
      exists r. split; [done|]. split.
      * rewrite H1. split; [by intros ->|by intros [= ->]].
      * rewrite H2. split; [by constructor|]. inversion 1; subst; [lia|done].
    + exists (c - d). split; [done|]. split; [split; [lia|congruence]|].
      split; [intros; constructor; lia|]. inversion 1; subst; [lia|done].
Qed.

Lemma strrchr_from_absent m c l : forall fuel s last,
  cstr_at m s l -> 0 < c < 256 -> c ∉ l -> (length l < fuel)%nat ->
  strrchr_from fuel m s c last = Some last.
Proof.
  induction l as [|x l IH]; intros [|f] s last H Hc Hn Hf; simpl in Hf; try lia; simpl.
  - apply cstr_at_nil in H. rewrite H. simpl. by replace (c =? 0) with false by lia.
  - rewrite cstr_at_cons in H. destruct H as (? & -> & H).
    replace (x =? 0) with false by lia. rewrite u8_small by lia.
    rewrite not_elem_of_cons in Hn. replace (x =? c) with false by lia.
    apply IH; tauto || lia.
Qed.

Lemma strrchr_from_last m c pre : forall post fuel s last,
  cstr_at m s (pre ++ c :: post) -> 0 < c < 256 -> c ∉ post ->
  (length (pre ++ c :: post) < fuel)%nat ->
  strrchr_from fuel m s c last = Some (s + Z.of_nat (length pre)).
Proof.
  induction pre as [|x pre IH]; intros post [|f] s last H Hc Hn Hf; simpl in Hf; try lia; simpl.
  - simpl in H. rewrite cstr_at_cons in H. destruct H as (? & -> & H).
    replace (c =? 0) with false by lia. rewrite u8_small, Z.eqb_refl by lia.
    rewrite (strrchr_from_absent m c post); [f_equal; lia|done|lia|done|lia].
  - simpl in H. rewrite cstr_at_cons in H. destruct H as (? & -> & H).
    replace (x =? 0) with false by lia. rewrite (IH post); [f_equal; lia|done|lia|done|lia].
Qed.

Lemma strchr_first m c pre : forall post fuel s,
  cstr_at m s (pre ++ c :: post) -> 0 < c < 256 -> c ∉ pre ->
  (length pre < fuel)%nat ->
  strchr fuel m s c = Some (s + Z.of_nat (length pre)).
Proof.
  induction pre as [|x pre IH]; intros post [|f] s H Hc Hn Hf; simpl in Hf; try lia; simpl;
    simpl in H; rewrite cstr_at_cons in H; destruct H as (? & -> & H);
    rewrite u8_small by lia.
  - replace (c =? 0) with false by lia. rewrite Z.eqb_refl. f_equal. lia.
  - rewrite not_elem_of_cons in Hn. replace (x =? 0) with false by lia.
    replace (x =? c) with false by lia. rewrite (IH post); [f_equal; lia|done|lia|tauto|lia].
Qed.

Lemma strstr_match_spec m ln : forall lh fuel h n,
  cstr_at m h lh -> cstr_at m n ln -> (length ln < fuel)%nat ->
  exists b, strstr_match fuel m h n = Some b /\ (b = true <-> ln `prefix_of` lh).
Proof.
  induction ln as [|c ln IH]; intros lh [|f] h n Hh Hn Hf; simpl in Hf; try lia; simpl.
  - apply cstr_at_nil in Hn. rewrite Hn. simpl. rewrite andb_false_r. simpl.
    exists true. split; [done|]. split; [intros; apply prefix_nil|done].
  - rewrite cstr_at_cons in Hn. destruct Hn as (? & -> & Hn).
    replace (c =? 0) with false by lia. simpl. rewrite andb_true_r.
    rewrite (cstr_at_head _ _ _ Hh). destruct lh as [|d lh].
    { simpl. exists false. split; [done|]. split; [done|intros ?%prefix_nil_not; done]. }
    rewrite cstr_at_cons in Hh. destruct Hh as (? & _ & Hh).
    replace (d =? 0) with false by lia. simpl. destruct (Z.eqb_spec d c) as [->|Hne].
    + destruct (IH lh f (h + 1) (n + 1) Hh Hn ltac:(lia)) as (b & -> & Hb). exists b.
      split; [done|]. rewrite Hb. split; [apply prefix_cons|apply prefix_cons_inv_2].
    + exists false. split; [done|]. split; [done|]. by intros ?%prefix_cons_inv_1.
Qed.

Lemma strstr_from_spec m ln n : forall lh fuel h,
  ln <> [] -> cstr_at m h lh -> cstr_at m n ln -> (length lh + length ln < fuel)%nat ->
  exists r, strstr_from fuel m h n = Some r /\
    ((exists i, (i < length lh)%nat /\ r = h + Z.of_nat i /\ ln `prefix_of` drop i lh /\
       forall j, (j < i)%nat -> ~ ln `prefix_of` drop j lh) \/
     (r = 0 /\ forall j, ~ ln `prefix_of` drop j lh)).
Proof.
  induction lh as [|c lh IH]; intros [|f] h Hne Hh Hn Hf; simpl in Hf; try lia; cbn [strstr_from].
  - apply cstr_at_nil in Hh. rewrite Hh. simpl. exists 0. split; [done|]. right. split; [done|].
    intros j. rewrite drop_nil. by intros ->%prefix_nil_inv.
  - destruct (strstr_match_spec m ln (c :: lh) (S f) h n Hh Hn ltac:(lia)) as (b & -> & Hb).
    pose proof Hh as Hh'. rewrite cstr_at_cons in Hh'. destruct Hh' as (? & -> & Hh').
    replace (c =? 0) with false by lia. cbn [mbind option_bind]. destruct b.
    + exists h. split; [done|]. left. exists O. split; [simpl; lia|]. split; [lia|].
      split; [by apply Hb|lia].
    + destruct (IH f (h + 1) Hne Hh' Hn ltac:(lia)) as (r & -> & [(i & ? & -> & Hp & Hm)|(-> & Hm)]).
      * eexists. split; [done|]. left. exists (S i). split; [simpl; lia|]. split; [lia|].
        split; [done|]. intros [|j] Hj; [intros Hc; by apply Hb in Hc|]. apply Hm. lia.
      * exists 0. split; [done|]. right. split; [done|].
        intros [|j]; [intros Hc; by apply Hb in Hc|apply Hm].
Qed.

Lemma horner_mono b l v : 0 < b -> 0 <= v -> Forall (digit_in b) l -> v <= horner b l v.
Proof.
  intros Hb. revert v. induction l as [|c l IH]; intros v Hv Hl; [simpl; lia|].
  apply Forall_cons in Hl as [(d & Hd & ?) Hl]. simpl. rewrite Hd. simpl.
  etrans; [|apply IH; [nia|done]]. nia.
Qed.

Lemma strtol_digits_spec m b rest : forall ds fuel s v,
  0 < b -> 0 <= v -> cstr_at m s (ds ++ rest) -> Forall (digit_in b) ds -> digits_stop b rest ->
  horner b ds v <= I64_MAX -> (length ds < fuel)%nat ->
  strtol_digits fuel m s b v = Some (horner b ds v, s + Z.of_nat (length ds)).
Proof.
  induction ds as [|c ds IH]; intros [|f] s v Hb Hv H Hd Hs Hov Hf; simpl in Hf; try lia;
    cbn [strtol_digits].
  - rewrite (cstr_at_head _ _ _ H). simpl. rewrite Z.add_0_r.
    destruct rest as [|c rest]; [done|]. simpl in H. rewrite cstr_at_cons in H.
    replace (c =? 0) with false by lia. destruct (digit_value c) as [d|] eqn:E; [|done].
    destruct (Z.leb_spec b d); [done|]. destruct Hs. exists d. split; [done|].
    unfold digit_value in E. repeat case_match; bcases; inv_some; lia.
  - simpl in H. rewrite cstr_at_cons in H. destruct H as (? & -> & H).
    replace (c =? 0) with false by lia. apply Forall_cons in Hd as [(d & Hd & ?) Hds].
    simpl in Hov |- *. rewrite Hd in *. simpl in Hov |- *. replace (b <=? d) with false by lia.
    pose proof (horner_mono b ds (v * b + d) Hb ltac:(nia) Hds).
    replace (v * b + d <=? I64_MAX) with true by lia.
    rewrite IH; auto; [do 2 f_equal; lia|nia|lia].
Qed.

Lemma digit_value_range c d : digit_value c = Some d -> 48 <= c <= 102 /\ 0 <= d < 16.
Proof. unfold digit_value. intros. repeat case_match; bcases; inv_some; lia. Qed.

(** On C strings [strcmp] decides equality and the lexicographic order of
    the contents, and always terminates within the length of the first. *)
Theorem strcmp_decides m a b la lb fuel :
  cstr_at m a la -> cstr_at m b lb -> (length la < fuel)%nat ->
  exists r, strcmp fuel m a b = Some r /\ (r = 0 <-> la = lb) /\ (r < 0 <-> lex_lt la lb).
Proof. apply strcmp_spec. Qed.

(** [strstr] returns a pointer to the first occurrence of the needle, and
    NULL exactly when the needle does not occur. *)
Theorem strstr_first_occurrence m h n lh ln fuel :
  cstr_at m h lh -> cstr_at m n ln -> (length lh + length ln < fuel)%nat ->
  exists r, strstr fuel m h n = Some r /\
    ((exists i, (i <= length lh)%nat /\ r = h + Z.of_nat i /\ ln `prefix_of` drop i lh /\
       forall j, (j < i)%nat -> ~ ln `prefix_of` drop j lh) \/
     (r = 0 /\ forall j, ~ ln `prefix_of` drop j lh)).
Proof.
  intros Hh Hn Hf. unfold strstr. rewrite (cstr_at_head _ _ _ Hn). destruct ln as [|c ln].
  - exists h. split; [done|]. left. exists O. rewrite drop_0.
    repeat split; [lia..|apply prefix_nil|lia].
  - pose proof Hn as Hn'. rewrite cstr_at_cons in Hn'. replace (c =? 0) with false by lia.
    destruct (strstr_from_spec m (c :: ln) n lh fuel h) as (r & -> & [(i & ? & H)|H]); auto.
    + exists r. split; [done|]. left. exists i. split; [lia|done].
    + exists r. eauto.
Qed.

(** [strtol] in base 10 reads an optional sign and the longest run of
    digits, returns the signed number and leaves the end pointer after it,
    for every number that a [long] holds. *)
Theorem strtol_decimal m s sg ds rest fuel :
  sg = [] \/ sg = [43] \/ sg = [45] ->
  cstr_at m s (sg ++ ds ++ rest) -> ds <> [] -> Forall (digit_in 10) ds -> digits_stop 10 rest ->
  horner 10 ds 0 <= I64_MAX -> (length ds < fuel)%nat ->
  strtol fuel m s 10 =
    Some (horner 10 ds 0 * (if decide (sg = [45]) then -1 else 1),
          s + Z.of_nat (length (sg ++ ds))).
Proof.
  intros Hsg H Hne Hd Hs Hov Hf. destruct fuel as [|f]; [lia|].
  assert (exists c, 48 <= c <= 57 /\ head ds = Some c) as (c & Hc & Hh).
  { destruct ds as [|c ds]; [done|]. apply Forall_cons in Hd as [(d & Hd & ?) _].
    exists c. split; [|done]. unfold digit_value in Hd. repeat case_match; bcases; inv_some; lia. }
  assert (m (s + Z.of_nat (length sg)) = c) as Hmc.
  { apply (cstr_at_drop _ _ _ (length sg)) in H; [|rewrite length_app; lia].
    rewrite drop_app_length in H. rewrite (cstr_at_head _ _ _ H).
    destruct ds; simpl in *; congruence. }
  assert (forall sign, (r ← strtol_digits (S f) m (s + Z.of_nat (length sg)) 10 0;
                        Some (fst r * sign, snd r)) =
    Some (horner 10 ds 0 * sign, s + Z.of_nat (length (sg ++ ds)))) as Hdig.
  { intros sign. rewrite (strtol_digits_spec m 10 rest ds); auto; try lia.
    - cbn. do 2 f_equal. rewrite length_app. lia.
    - apply (cstr_at_drop _ _ _ (length sg)) in H; [|rewrite length_app; lia].
      by rewrite drop_app_length in H. }
  unfold strtol. cbn [skip_blank]. destruct Hsg as [-> | [-> | ->]].
  - cbn -[strtol_digits] in Hmc, Hdig. rewrite Z.add_0_r in *. rewrite Hmc.
    replace (c =? 32) with false by lia. replace (c =? 9) with false by lia.
    replace (c =? 10) with false by lia. cbn -[strtol_digits]. rewrite Hmc.
    replace (c =? 45) with false by lia. replace (c =? 43) with false by lia.
    by rewrite Hdig.
  - simpl in H. rewrite cstr_at_cons in H. destruct H as (_ & E & _).
    cbn -[strtol_digits] in Hdig. change (Z.of_nat 1) with 1 in Hdig. rewrite E. cbn -[strtol_digits].
    rewrite E. cbn -[strtol_digits]. by rewrite Hdig.
  - simpl in H. rewrite cstr_at_cons in H. destruct H as (_ & E & _).
    cbn -[strtol_digits] in Hdig. change (Z.of_nat 1) with 1 in Hdig. rewrite E. cbn -[strtol_digits].
    rewrite E. cbn -[strtol_digits]. by rewrite Hdig.
Qed.

(** A memory holding the C string [l] at address 1, to run the routines on. *)
Definition mem_of (l : list Z) : mem := fun a => nth (Z.to_nat (a - 1)) l 0.

Lemma cstr_at_mem_of l : cstring l -> cstr_at (mem_of l) 1 l.
Proof.
  intros H. split; [done|]. split.
  - apply nth_ext with 0 0; [apply length_mread|]. rewrite length_mread. intros i Hi.
    rewrite nth_mread by done. unfold mem_of. f_equal. lia.
  - unfold mem_of. apply nth_overflow. lia.
Qed.

Lemma strcmp_decides_witness :
  exists r, strcmp 9 (mem_of (str "ab")) 1 1 = Some r /\ (r = 0 <-> str "ab" = str "ab") /\
            (r < 0 <-> lex_lt (str "ab") (str "ab")).
Proof.
  apply (strcmp_decides (mem_of (str "ab")) 1 1 (str "ab") (str "ab") 9).
  all: try (apply cstr_at_mem_of; repeat constructor). vm_compute. lia.
Defined.

Lemma strstr_first_occurrence_witness :
  exists r, strstr 9 (mem_of (str "abc")) 1 2 = Some r /\
    ((exists i, (i <= 3)%nat /\ r = 1 + Z.of_nat i /\ str "bc" `prefix_of` drop i (str "abc") /\
       forall j, (j < i)%nat -> ~ str "bc" `prefix_of` drop j (str "abc")) \/
     (r = 0 /\ forall j, ~ str "bc" `prefix_of` drop j (str "abc"))).
Proof.
  apply (strstr_first_occurrence (mem_of (str "abc")) 1 2 (str "abc") (str "bc") 9).
  - apply cstr_at_mem_of. repeat constructor.
  - apply (cstr_at_drop _ 1 (str "abc") 1); [apply cstr_at_mem_of; repeat constructor|].
    vm_compute. lia.
  - vm_compute. lia.
Defined.

Lemma strtol_decimal_witness : strtol 9 (mem_of (str "-42;")) 1 10 = Some (-42, 4).
Proof.
  apply (strtol_decimal (mem_of (str "-42;")) 1 [45] (str "42") (str ";") 9).
  - auto.
  - apply cstr_at_mem_of. repeat constructor.
  - done.
  - repeat constructor; [exists 4|exists 2]; vm_compute; split; done.
  - intros (d & Hd & _). discriminate Hd.
  - vm_compute. done.
  - vm_compute. lia.
Defined.

End Cstr.
