(* ===== verification/Printf.v ===== *)
(** * kernel/lib/printf.c

    The kernel's formatted output. [kvsnprintf] is modelled on the contents of
    its strings; reading the format past its terminator, a [va_arg] of the
    wrong kind and a signed overflow are undefined behaviour: [None]. The
    abstract specification is [render], the whole text a format denotes with no
    buffer in sight; [kvsnprintf_refines] says the code produces its truncation
    and returns its length. *)
From S2P Require Import Prelude KString.

(** ** The output cursor: [*buf], [*remaining], [*written]. *)

Record out := Out { o_buf : list Z; o_remaining : Z; o_written : Z }.

(** The variadic arguments as [va_arg] delivers them. *)
Inductive varg := VInt (v : Z) | VStr (s : option (list Z)).

Definition out_char (o : out) (c : Z) : out :=
  if 1 <? o_remaining o
  then Out (o_buf o ++ [c]) (o_remaining o - 1) (o_written o + 1)
  else Out (o_buf o) (o_remaining o) (o_written o + 1).

(** [if (!s) s = "(null)"], in [out_string] and in [out_padded]. *)
Definition or_null (s : option (list Z)) : list Z := default (str "(null)") s.

Definition out_string (o : out) (s : option (list Z)) : out := fold_left out_char (or_null s) o.

Definition digit_char (upper : bool) (d : Z) : Z :=
  nth (Z.to_nat d) (str (if upper then "0123456789ABCDEF" else "0123456789abcdef")) 0.

(** [while (value && i < sizeof(tmp)) { tmp[i++] = digits[value % base]; value /= base; }]:
    the fuel is the room left in [tmp]; least significant digit first. *)
Fixpoint digits_loop (room : nat) (value base : Z) (upper : bool) : list Z :=
  match room with
  | O => []
  | S k => if value =? 0 then []
           else digit_char upper (value mod base) :: digits_loop k (value / base) base upper
  end.

(** What is stored in [out] ([None]: nothing) and the returned length. *)
Definition unsigned_to_string (out_size : nat) (value base : Z) (upper : bool) :
    option (list Z) * Z :=
  if value =? 0 then ((if (1 <? out_size)%nat then Some [48] else None), 1)
  else let tmp := digits_loop 32 value base upper in
       ((if (out_size =? 0)%nat then None else Some (take (out_size - 1) (rev tmp))),
        Z.of_nat (length tmp)).

(** [while (width > len) { out_char(pad); width--; }] *)
Fixpoint out_fill (o : out) (pad : Z) (n : nat) : out :=
  match n with O => o | S k => out_fill (out_char o pad) pad k end.

Definition out_padded (o : out) (s : option (list Z)) (width : Z) (left : bool) (pad : Z) : out :=
  let s := or_null s in
  let len := Z.of_nat (length s) in
  let '(o, s, len, width) :=
    if negb left && (pad =? 48) && (nth 0 s 0 =? 45)
    then (out_char o 45, tl s, len - 1, width - 1) else (o, s, len, width) in
  let o := if left then o else out_fill o pad (Z.to_nat (width - len)) in
  let o := fold_left out_char s o in
  if left then out_fill o 32 (Z.to_nat (width - len)) else o.

Definition out_unsigned (o : out) (value base : Z) (upper : bool)
    (width : Z) (left : bool) (pad : Z) : out :=
  out_padded o (fst (unsigned_to_string 64 value base upper)) width left pad.

(** Negating the least 64-bit integer is undefined. *)
Definition out_signed (o : out) (value width : Z) (left : bool) (pad : Z) : option out :=
  if value <? 0
  then if value =? I64_MIN then None
       else s ← fst (unsigned_to_string 63 (u64 (- value)) 10 false);
            Some (out_padded o (Some (45 :: s)) width left pad)
  else Some (out_padded o (fst (unsigned_to_string 64 (u64 value) 10 false)) width left pad).

(** The width digits of a conversion; [int] overflow is undefined. *)
Fixpoint parse_width (fmt : list Z) (width : Z) : option (Z * list Z) :=
  match fmt with
  | c :: rest =>
    if (48 <=? c) && (c <=? 57)
    then let w := width * 10 + (c - 48) in
         if w <=? 2147483647 then parse_width rest w else None
    else Some (width, fmt)
  | [] => Some (width, fmt)
  end.

Definition va_int (args : list varg) : option (Z * list varg) :=
  match args with VInt v :: args => Some (v, args) | _ => None end.
Definition va_str (args : list varg) : option (option (list Z) * list varg) :=
  match args with VStr s :: args => Some (s, args) | _ => None end.

(** The character [*fmt]: NUL at the end of the format. *)
Definition peek (fmt : list Z) : Z := match fmt with [] => 0 | c :: _ => c end.

(** The flags, width and length modifier between [%] and the conversion. *)
Record spec := Spec { sp_left : bool; sp_pad : Z; sp_width : Z; sp_long : bool }.

Definition parse_spec (fmt : list Z) : option (spec * list Z) :=
  let '(lft, fmt) := if peek fmt =? 45 then (true, tl fmt) else (false, fmt) in
  let '(pad, fmt) := if peek fmt =? 48 then (48, tl fmt) else (32, fmt) in
  '(width, fmt) ← parse_width fmt 0;
  let '(long, fmt) :=
    if peek fmt =? 108 then (true, (if peek (tl fmt) =? 108 then tl (tl fmt) else tl fmt))
    else if peek fmt =? 122 then (true, tl fmt) else (false, fmt) in
  Some (Spec lft pad width long, fmt).

(** The switch on the conversion character. *)
Definition convert (o : out) (sp : spec) (c : Z) (args : list varg) : option (out * list varg) :=
  let unsigned base upper :=
    '(v, args) ← va_int args;
    let v := if sp_long sp then u64 v else u32 v in
    Some (out_unsigned o v base upper (sp_width sp) (sp_left sp) (sp_pad sp), args) in
  if c =? 37 then Some (out_char o 37, args)
  else if c =? 99 then
    '(v, args) ← va_int args;
    Some (out_padded o (Some (if u8 v =? 0 then [] else [u8 v]))
                     (sp_width sp) (sp_left sp) (sp_pad sp), args)
  else if c =? 115 then
    '(s, args) ← va_str args;
    Some (if 0 <? sp_width sp then out_padded o s (sp_width sp) (sp_left sp) (sp_pad sp)
          else out_string o s, args)
  else if (c =? 100) || (c =? 105) then
    '(v, args) ← va_int args;
    o ← out_signed o (if sp_long sp then i64 v else i32 v) (sp_width sp) (sp_left sp) (sp_pad sp);
    Some (o, args)
  else if c =? 117 then unsigned 10 false
  else if c =? 111 then unsigned 8 false
  else if (c =? 120) || (c =? 88) then unsigned 16 (c =? 88)
  else if c =? 112 then
    '(v, args) ← va_int args;
    let o := out_string o (Some (str "0x")) in
    Some (out_unsigned o (u64 v) 16 false (sp_width sp) (sp_left sp) (sp_pad sp), args)
  else Some (out_char (out_char o 37) c, args).

(** The loop over the format. After a conversion [fmt++] skips its character;
    there is none to skip when the format ended inside the conversion. *)
Fixpoint format_loop (fuel : nat) (fmt : list Z) (args : list varg) (o : out) : option out :=
  match fuel with
  | O => None
  | S f =>
    match fmt with
    | [] => Some o
    | c :: rest =>
      if negb (c =? 37) then format_loop f rest args (out_char o c)
      else
        '(sp, rest) ← parse_spec rest;
        '(o, args) ← convert o sp (peek rest) args;
        match rest with
        | [] => None
        | _ :: rest => format_loop f rest args o
        end
    end
  end.

(** The text left in [buf] (nothing when [size] is 0) and the result. *)
Definition kvsnprintf (size : Z) (fmt : list Z) (args : list varg) : option (list Z * Z) :=
  o ← format_loop (S (length fmt)) fmt args (Out [] size 0);
  Some (o_buf o, o_written o).

Definition ksnprintf (size : Z) (fmt : list Z) (args : list varg) : option (list Z * Z) :=
  kvsnprintf size fmt args.

(** What [kprintf] hands to [console_write], and its result. *)
Definition kprintf (fmt : list Z) (args : list varg) : option (list Z * Z) :=
  kvsnprintf 1024 fmt args.

(** ** Specification: the text a format denotes *)

Definition number (value base : Z) (upper : bool) : list Z :=
  if value =? 0 then [48] else rev (digits_loop 32 value base upper).

Definition padded (s : list Z) (width : Z) (left : bool) (pad : Z) : list Z :=
  let fill c := repeat c (Z.to_nat (width - Z.of_nat (length s))) in
  if left then s ++ fill 32
  else if (pad =? 48) && (nth 0 s 0 =? 45) then 45 :: fill 48 ++ tl s
  else fill pad ++ s.

Definition signed_number (value : Z) : option (list Z) :=
  if value =? I64_MIN then None
  else Some (if value <? 0 then 45 :: number (- value) 10 false else number value 10 false).

Definition render_one (sp : spec) (c : Z) (args : list varg) : option (list Z * list varg) :=
  let pad s := padded s (sp_width sp) (sp_left sp) (sp_pad sp) in
  let unsigned base upper :=
    '(v, args) ← va_int args;
    Some (pad (number (if sp_long sp then u64 v else u32 v) base upper), args) in
  if c =? 37 then Some ([37], args)
  else if c =? 99 then
    '(v, args) ← va_int args; Some (pad (if u8 v =? 0 then [] else [u8 v]), args)
  else if c =? 115 then
    '(s, args) ← va_str args;
    Some (if 0 <? sp_width sp then pad (or_null s) else or_null s, args)
  else if (c =? 100) || (c =? 105) then
    '(v, args) ← va_int args;
    s ← signed_number (if sp_long sp then i64 v else i32 v);
    Some (pad s, args)
  else if c =? 117 then unsigned 10 false
  else if c =? 111 then unsigned 8 false
  else if (c =? 120) || (c =? 88) then unsigned 16 (c =? 88)
  else if c =? 112 then
    '(v, args) ← va_int args; Some (str "0x" ++ pad (number (u64 v) 16 false), args)
  else Some ([37; c], args).

Fixpoint render_loop (fuel : nat) (fmt : list Z) (args : list varg) : option (list Z) :=
  match fuel with
  | O => None
  | S f =>
    match fmt with
    | [] => Some []
    | c :: rest =>
      if negb (c =? 37) then l ← render_loop f rest args; Some (c :: l)
      else
        '(sp, rest) ← parse_spec rest;
        '(l, args) ← render_one sp (peek rest) args;
        match rest with
        | [] => None
        | _ :: rest => l' ← render_loop f rest args; Some (l ++ l')
        end
    end
  end.

Definition render (fmt : list Z) (args : list varg) : option (list Z) :=
  render_loop (S (length fmt)) fmt args.

(** The text a literal format denotes, with every argument symbolic. *)
Ltac render_line := lazy -[number padded u32 u64].

(** ** The output routines emit a text that does not depend on the buffer *)

Definition emit (o : out) (l : list Z) : out := fold_left out_char l o.

Lemma emit_app o l l' : emit o (l ++ l') = emit (emit o l) l'.
Proof. apply fold_left_app. Qed.

Lemma emit_spec l : forall o, 0 <= o_remaining o ->
  o_buf (emit o l) = o_buf o ++ take (Z.to_nat (o_remaining o - 1)) l /\
  o_written (emit o l) = o_written o + Z.of_nat (length l).
Proof.
  induction l as [|c l IH]; intros o Ho; [by rewrite take_nil, app_nil_r, Z.add_0_r|].
  unfold emit in *. cbn [fold_left]. rewrite length_cons.
  destruct (Z.ltb_spec 1 (o_remaining o)) as [H|H].
  - assert (out_char o c = Out (o_buf o ++ [c]) (o_remaining o - 1) (o_written o + 1)) as ->.
    { unfold out_char. by replace (1 <? o_remaining o) with true by lia. }
    match goal with |- context [fold_left _ _ ?o'] => destruct (IH o') as [-> ->] end; simpl; [lia|].
    split; [|lia].
    replace (Z.to_nat (o_remaining o - 1)) with (S (Z.to_nat (o_remaining o - 1 - 1))) by lia.
    simpl. by rewrite <- app_assoc.
  - assert (out_char o c = Out (o_buf o) (o_remaining o) (o_written o + 1)) as ->.
    { unfold out_char. by replace (1 <? o_remaining o) with false by lia. }
    match goal with |- context [fold_left _ _ ?o'] => destruct (IH o') as [-> ->] end; simpl; [lia|].
    split; [|lia]. replace (Z.to_nat (o_remaining o - 1)) with O by lia. by rewrite !take_0.
Qed.

Lemma out_fill_emit n : forall o c, out_fill o c n = emit o (repeat c n).
Proof. induction n as [|n IH]; intros o c; [done|]. simpl. apply IH. Qed.

Lemma out_padded_emit o s width left pad :
  out_padded o s width left pad = emit o (padded (or_null s) width left pad).
Proof.
  unfold out_padded, padded. set (l := or_null s). clearbody l.
  destruct left; simpl.
  - rewrite out_fill_emit, emit_app. done.
  - destruct (pad =? 48) eqn:Ep; simpl; [|by rewrite out_fill_emit, emit_app].
    apply Z.eqb_eq in Ep as ->. destruct (nth 0 l 0 =? 45) eqn:E; simpl.
    + rewrite out_fill_emit. destruct l as [|c l]; [done|]. simpl in *.
      replace (width - 1 - (Z.of_nat (S (length l)) - 1)) with (width - Z.of_nat (S (length l))) by lia.
      change (fold_left out_char) with (fun l o => emit o l). simpl.
      rewrite <- emit_app. done.
    + by rewrite out_fill_emit, emit_app.
Qed.

(** ** Numbers fit the temporary buffer *)

Lemma length_digits_loop room : forall value base upper,
  (length (digits_loop room value base upper) <= room)%nat.
Proof.
  induction room as [|k IH]; intros; simpl; [lia|]. destruct (value =? 0); simpl; [lia|].
  specialize (IH (value / base) base upper). lia.
Qed.

#[global] Arguments digits_loop : simpl never.

Lemma unsigned_to_string_number size value base upper :
  (33 <= size)%nat -> fst (unsigned_to_string size value base upper) = Some (number value base upper).
Proof.
  intros Hs. unfold unsigned_to_string, number. destruct (value =? 0); cbn [fst].
  - replace (1 <? size)%nat with true; [done|]. symmetry. apply Nat.ltb_lt. lia.
  - replace (size =? 0)%nat with false by (symmetry; apply Nat.eqb_neq; lia).
    f_equal. apply take_ge. rewrite length_rev.
    etrans; [apply length_digits_loop|]. lia.
Qed.

Lemma out_signed_emit o v width left pad :
  I64_MIN <= v <= I64_MAX ->
  out_signed o v width left pad =
  s ← signed_number v; Some (emit o (padded s width left pad)).
Proof.
  intros Hv. unfold I64_MIN, I64_MAX in Hv. unfold out_signed, signed_number.
  destruct (Z.ltb_spec v 0).
  - destruct (Z.eqb_spec v I64_MIN) as [|Hne]; [done|]. unfold I64_MIN in Hne.
    rewrite unsigned_to_string_number, u64_small by lia. cbn. by rewrite out_padded_emit.
  - replace (v =? I64_MIN) with false by (unfold I64_MIN; lia).
    rewrite unsigned_to_string_number, u64_small by lia. cbn. by rewrite out_padded_emit.
Qed.

Lemma convert_emit o sp c args :
  convert o sp c args = '(l, args) ← render_one sp c args; Some (emit o l, args).
Proof.
  unfold convert, render_one.
  repeat (match goal with |- context [if ?b then _ else _] => destruct b eqn:? end;
    try (destruct args as [|[v|s] args]; simpl; try done;
         unfold out_unsigned; rewrite ?unsigned_to_string_number by lia;
         rewrite ?out_padded_emit; simpl or_null; rewrite ?emit_app; done)).
  all: try done.
  all: destruct args as [|[v|s] args]; simpl; try done.
  all: unfold out_unsigned; rewrite ?unsigned_to_string_number by lia;
       rewrite ?out_padded_emit; simpl or_null; try done.
  all: rewrite out_signed_emit by (unfold I64_MIN, I64_MAX; wsolve); by destruct (signed_number _).
Qed.

Lemma format_loop_emit fuel : forall fmt args o,
  format_loop fuel fmt args o = l ← render_loop fuel fmt args; Some (emit o l).
Proof.
  induction fuel as [|f IH]; intros fmt args o; [done|]. simpl.
  destruct fmt as [|c rest]; [done|]. destruct (negb (c =? 37)).
  { rewrite IH. by destruct (render_loop f rest args). }
  destruct (parse_spec rest) as [[sp rest']|]; simpl; [|done].
  rewrite convert_emit. destruct (render_one sp (peek rest') args) as [[l args']|]; simpl; [|done].
  destruct rest' as [|c' rest']; [done|]. rewrite IH.
  destruct (render_loop f rest' args'); simpl; [|done]. by rewrite emit_app.
Qed.

(** Every step of the loop shortens the format, so more fuel changes nothing. *)
Lemma parse_width_length fmt : forall w w' rest,
  parse_width fmt w = Some (w', rest) -> (length rest <= length fmt)%nat.
Proof.
  induction fmt as [|c fmt IH]; intros w w' rest H; simpl in H; [by inv_some|].
  repeat case_match; inv_some; simpl; try lia. etrans; [by eapply IH|lia].
Qed.

Lemma length_tl {A} (l : list A) : (length (tl l) <= length l)%nat.
Proof. destruct l; simpl; lia. Qed.

Lemma parse_spec_length fmt sp rest :
  parse_spec fmt = Some (sp, rest) -> (length rest <= length fmt)%nat.
Proof.
  unfold parse_spec. intros H.
  destruct (if peek fmt =? 45 then _ else _) as [l f1] eqn:E1.
  destruct (if peek f1 =? 48 then _ else _) as [p f2] eqn:E2.
  destruct (parse_width f2 0) as [[w f3]|] eqn:E3; [|done]. simpl in H.
  apply parse_width_length in E3.
  pose proof (length_tl fmt). pose proof (length_tl f1).
  pose proof (length_tl f3). pose proof (length_tl (tl f3)).
  repeat case_match; simplify_eq; lia.
Qed.

Lemma render_loop_fuel f1 : forall f2 fmt args,
  (length fmt < f1)%nat -> (length fmt < f2)%nat -> render_loop f1 fmt args = render_loop f2 fmt args.
Proof.
  induction f1 as [|f1 IH]; intros [|f2] fmt args H1 H2; try lia. simpl.
  destruct fmt as [|c rest]; [done|]. simpl in H1, H2. destruct (negb (c =? 37)).
  { by rewrite (IH f2) by lia. }
  destruct (parse_spec rest) as [[sp rest']|] eqn:E; simpl; [|done].
  apply parse_spec_length in E.
  destruct (render_one sp (peek rest') args) as [[l args']|]; simpl; [|done].
  destruct rest' as [|c' rest']; [done|]. simpl in E. by rewrite (IH f2) by lia.
Qed.

Lemma render_nil args : render [] args = Some [].
Proof. done. Qed.

Lemma render_lit c fmt args :
  c <> 37 -> render (c :: fmt) args = l ← render fmt args; Some (c :: l).
Proof.
  intros H. unfold render at 1. cbn [render_loop length]. replace (c =? 37) with false by lia. done.
Qed.

(** Padding does nothing to a text at least as long as the width. *)
Lemma padded_narrow s width left pad : width <= Z.of_nat (length s) -> padded s width left pad = s.
Proof.
  intros H. unfold padded. replace (Z.to_nat (width - _)) with O by lia. simpl.
  rewrite app_nil_r. destruct left; [done|]. destruct (_ && _) eqn:E; [|done]. bcases.
  destruct s; [done|]. simpl in *. by subst.
Qed.

(** ** What the numbers print *)

Lemma digit_char_value upper d : 0 <= d < 16 ->
  Cstr.digit_value (digit_char upper d) = Some d /\ 0 < digit_char upper d < 256.
Proof.
  intros H. assert (d ∈ seqZ 0 16) as Hd by (apply elem_of_seqZ; lia). clear H.
  revert d Hd. apply Forall_forall. destruct upper; vm_compute; repeat constructor; done.
Qed.

Lemma digits_loop_S k v b up : digits_loop (S k) v b up =
  if v =? 0 then [] else digit_char up (v mod b) :: digits_loop k (v / b) b up.
Proof. done. Qed.

Lemma digits_loop_digits room : forall v b up,
  1 < b <= 16 -> 0 <= v ->
  Forall (fun c => Cstr.digit_in b c /\ 0 < c < 256) (digits_loop room v b up).
Proof.
  induction room as [|k IH]; intros v b up Hb Hv; [constructor|]. rewrite digits_loop_S.
  destruct (Z.eqb_spec v 0); constructor.
  - pose proof (Z.mod_pos_bound v b ltac:(lia)).
    destruct (digit_char_value up (v mod b)) as [H1 H2]; [lia|].
    split; [|done]. exists (v mod b). split; [done|lia].
  - apply IH; [done|]. apply Z.div_pos; lia.
Qed.

(** With enough room the reversed digits denote the value. *)
Lemma digits_loop_value room : forall v b up w,
  1 < b <= 16 -> 0 <= v < b ^ Z.of_nat room ->
  Cstr.horner b (rev (digits_loop room v b up)) w =
  w * b ^ Z.of_nat (length (digits_loop room v b up)) + v.
Proof.
  induction room as [|k IH]; intros v b up w Hb Hv.
  { simpl in Hv. change (digits_loop 0 v b up) with (@nil Z). simpl. lia. }
  rewrite digits_loop_S. destruct (Z.eqb_spec v 0) as [->|Hne]; [simpl; lia|].
  rewrite Nat2Z.inj_succ, Z.pow_succ_r in Hv by lia.
  simpl rev. unfold Cstr.horner. rewrite fold_left_app. fold (Cstr.horner b).
  change (fold_left _ (rev ?l) w) with (Cstr.horner b (rev l) w).
  rewrite IH; [|done|split; [apply Z.div_pos; lia|apply Z.div_lt_upper_bound; lia]].
  cbn [fold_left]. pose proof (Z.mod_pos_bound v b ltac:(lia)).
  destruct (digit_char_value up (v mod b)) as [-> _]; [lia|]. simpl default.
  rewrite length_cons, Nat2Z.inj_succ, Z.pow_succ_r by lia. pose proof (Z.div_mod v b ltac:(lia)). nia.
Qed.

Lemma digits_loop_nonempty v b up room : v <> 0 -> digits_loop (S room) v b up <> [].
Proof. intros. rewrite digits_loop_S. by replace (v =? 0) with false by lia. Qed.

(** The printed number is made of digits of the base and reads back as the value. *)
Lemma number_spec v b up : 8 <= b <= 16 -> 0 <= v < 2 ^ 64 ->
  number v b up <> [] /\ Forall (Cstr.digit_in b) (number v b up) /\
  cstring (number v b up) /\ Cstr.horner b (number v b up) 0 = v.
Proof.
  intros Hb Hv. unfold number. destruct (Z.eqb_spec v 0) as [->|Hne].
  - repeat split; [done| |by repeat constructor].
    constructor; [|done]. exists 0. split; [done|lia].
  - pose proof (digits_loop_digits 32 v b up ltac:(lia) ltac:(lia)) as HF.
    repeat split.
    + intros H%(f_equal length). rewrite length_rev in H.
      pose proof (digits_loop_nonempty v b up 31 Hne). by destruct (digits_loop 32 v b up).
    + apply Forall_rev. eapply Forall_impl; [exact HF|]. by intros ? [? _].
    + apply Forall_rev. eapply Forall_impl; [exact HF|]. by intros ? [_ ?].
    + rewrite digits_loop_value; [lia|lia|]. split; [lia|].
      apply Z.lt_le_trans with (2 ^ 64); [lia|].
      transitivity (8 ^ 32); [done|]. apply Z.pow_le_mono_l. lia.
Qed.

(** ** Theorems *)

Lemma kvsnprintf_render size fmt args :
  0 <= size ->
  kvsnprintf size fmt args =
  l ← render fmt args; Some (take (Z.to_nat (size - 1)) l, Z.of_nat (length l)).
Proof.
  intros Hs. unfold kvsnprintf, render. rewrite format_loop_emit.
  destruct (render_loop _ fmt args) as [l|]; [|done]. simpl.
  destruct (emit_spec l (Out [] size 0)) as [-> ->]; [done|]. simpl. do 2 f_equal.
Qed.



(** Printing a 64-bit number and reading it back with [strtol] gives the
    same number: [%lld] and [%llu] agree with the reader on every [long]
    whose magnitude fits. *)
Theorem print_strtol_roundtrip v :
  I64_MIN < v <= I64_MAX ->
  exists text, ksnprintf 64 (str "%lld") [VInt v] = Some (text, Z.of_nat (length text)) /\
    Cstr.strtol (S (length text)) (Cstr.mem_of text) 1 10 = Some (v, 1 + Z.of_nat (length text)).
Proof.
  intros Hv. unfold I64_MIN, I64_MAX in Hv.
  set (a := Z.abs v). pose proof (number_spec a 10 false ltac:(lia) ltac:(lia)) as (Hn & Hd & Hc & Hh).
  set (sg := if v <? 0 then [45] else []).
  assert (render (str "%lld") [VInt v] = Some (sg ++ number a 10 false)) as Hr.
  { norm_str. unfold render. cbn -[number signed_number padded i64].
    unfold signed_number. rewrite i64_small by (unfold I64_MIN, I64_MAX; lia).
    replace (v =? I64_MIN) with false by (unfold I64_MIN; lia). cbn -[number padded].
    rewrite app_nil_r, padded_narrow by lia. subst sg a.
    destruct (Z.ltb_spec v 0); rewrite ?Z.abs_neq, ?Z.abs_eq by lia; done. }
  assert ((length (number a 10 false) <= 32)%nat) as Hlen.
  { unfold number. destruct (a =? 0); [simpl; lia|]. rewrite length_rev. apply length_digits_loop. }
  exists (sg ++ number a 10 false).
  assert ((length sg <= 1)%nat) by (subst sg; case_match; simpl; lia). split.
  - unfold ksnprintf. rewrite kvsnprintf_render, Hr by lia. cbn -[take number]. do 2 f_equal.
    apply take_ge. rewrite length_app. lia.
  - rewrite (Cstr.strtol_decimal (Cstr.mem_of (sg ++ number a 10 false)) 1 sg (number a 10 false) []).
    + rewrite Hh. subst sg a. f_equal. destruct (Z.ltb_spec v 0); simpl decide;
        apply pair_equal_spec; (split; [|done]).
      * rewrite decide_True by done. lia.
      * rewrite decide_False by done. lia.
    + subst sg. case_match; auto.
    + rewrite app_nil_r. apply Cstr.cstr_at_mem_of. unfold cstring. apply Forall_app. split; [|done].
      subst sg. case_match; repeat constructor.
    + done.
    + done.
    + done.
    + rewrite Hh. unfold I64_MAX. lia.
    + rewrite length_app. lia.
Qed.

Example print_strtol_roundtrip_witness :
  exists text, ksnprintf 64 (str "%lld") [VInt (-120)] = Some (text, Z.of_nat (length text)) /\
    Cstr.strtol (S (length text)) (Cstr.mem_of text) 1 10 = Some (-120, 1 + Z.of_nat (length text)).
Proof. apply (print_strtol_roundtrip (-120)). vm_compute. split; done. Defined.

(** A format that ends in a lone percent sign makes [kvsnprintf] read past
    the terminator, for every text before it, every buffer and all arguments. *)
Theorem lone_percent_overrun size pre args :
  37 ∉ pre -> kvsnprintf size (pre ++ [37]) args = None.
Proof.
  intros Hp. unfold kvsnprintf. rewrite format_loop_emit. fold (render (pre ++ [37]) args).
  assert (render (pre ++ [37]) args = None) as ->; [|done].
  induction pre as [|c pre IH]; [done|]. rewrite not_elem_of_cons in Hp.
  simpl. rewrite render_lit by (intros ->; tauto). by rewrite IH by tauto.
Qed.

Example lone_percent_overrun_witness : kvsnprintf 64 (str "50" ++ [37]) [] = None.
Proof. apply (lone_percent_overrun 64 (str "50") []). by apply (bool_decide_unpack _). Defined.
