(* ===== verification/Heap.v ===== *)
(** * kernel/mm/heap.c

    The kernel heap: a first-fit allocator over a doubly linked list of block
    headers inside the static array [heap]. Headers are kept in a map from
    their address; the user bytes between them are the memory [h_mem]. A header
    that [coalesce] swallows stays in the map, as it stays in the array.
    Following a pointer to an address that holds no header is undefined: [None].
    [layout] is the abstract view: the sizes and states of the blocks in address
    order. *)
From stdpp Require Import gmap.
From Stdlib Require Import Sorted Permutation.
From S2P Require Import Prelude KString.

Definition KERNEL_HEAP_SIZE : Z := 16 * 1024 * 1024.
Definition HEAP_MAGIC : Z := 0x544e5548.

Record block := Block {
  b_size : Z; b_free : bool; b_magic : Z; b_next : option Z; b_prev : option Z }.

(** [sizeof(struct heap_block)] *)
Definition HDR : Z := 32.

(** The allocator's statics, what [pmm_record_heap] last recorded, and the user bytes. *)
Record heap_state := Heap {
  h_blocks : gmap Z block;
  heap_head : option Z;
  heap_used_highwater : Z;
  h_rec_used : Z; h_rec_size : Z;
  h_mem : mem }.

Definition set_prev (b : block) (p : option Z) : block :=
  Block (b_size b) (b_free b) (b_magic b) (b_next b) p.
Definition set_free (b : block) (f : bool) : block :=
  Block (b_size b) f (b_magic b) (b_next b) (b_prev b).
Definition set_size_next (b : block) (s : Z) (n : option Z) : block :=
  Block s (b_free b) (b_magic b) n (b_prev b).

Definition with_blocks (h : heap_state) (bs : gmap Z block) : heap_state :=
  Heap bs (heap_head h) (heap_used_highwater h) (h_rec_used h) (h_rec_size h) (h_mem h).
Definition with_mem (h : heap_state) (m : mem) : heap_state :=
  Heap (h_blocks h) (heap_head h) (heap_used_highwater h) (h_rec_used h) (h_rec_size h) m.

(** [(value + 15u) & ~((size_t)15u)] *)
Definition align16 (value : Z) : Z := Z.land (u64 (value + 15)) (Z.lnot 15).

Section Heap.
(** The address the linker gave the array [heap]. *)
Context (heap : Z).

Definition record_heap_usage (h : heap_state) : heap_state :=
  Heap (h_blocks h) (heap_head h) (heap_used_highwater h)
       (heap_used_highwater h) KERNEL_HEAP_SIZE (h_mem h).

Definition heap_init (h : heap_state) : heap_state :=
  record_heap_usage
    (Heap (<[heap := Block (KERNEL_HEAP_SIZE - HDR) true HEAP_MAGIC None None]> (h_blocks h))
          (Some heap) HDR (h_rec_used h) (h_rec_size h) (h_mem h)).

(** [if (p) p->prev = q], for a header pointer [p]. *)
Definition link_back (bs : gmap Z block) (p : option Z) (q : Z) : option (gmap Z block) :=
  match p with
  | None => Some bs
  | Some a => b ← bs !! a; Some (<[a := set_prev b (Some q)]> bs)
  end.

Definition split_block (bs : gmap Z block) (a size : Z) : option (gmap Z block) :=
  b ← bs !! a;
  if b_size b <? u64 (size + HDR + 32) then Some bs
  else
    let n := a + HDR + size in
    let bs := <[n := Block (u64 (b_size b - size - HDR)) true HEAP_MAGIC (b_next b) (Some a)]> bs in
    bs ← link_back bs (b_next b) n;
    Some (<[a := set_size_next b size (Some n)]> bs).

(** The first [if] of [coalesce]: swallow a free successor. *)
Definition merge_next (bs : gmap Z block) (a : Z) : option (gmap Z block) :=
  b ← bs !! a;
  match b_next b with
  | None => Some bs
  | Some n =>
    nb ← bs !! n;
    if (b_magic nb =? HEAP_MAGIC) && b_free nb
    then link_back (<[a := set_size_next b (u64 (b_size b + HDR + b_size nb)) (b_next nb)]> bs)
                   (b_next nb) a
    else Some bs
  end.

Fixpoint coalesce (fuel : nat) (bs : gmap Z block) (a : Z) : option (gmap Z block) :=
  match fuel with
  | O => None
  | S f =>
    b ← bs !! a;
    if negb (b_magic b =? HEAP_MAGIC) then Some bs
    else
      bs ← merge_next bs a;
      b ← bs !! a;
      match b_prev b with
      | None => Some bs
      | Some p =>
        pb ← bs !! p;
        if (b_magic pb =? HEAP_MAGIC) && b_free pb then coalesce f bs p else Some bs
      end
  end.

(** The search loop of [kmalloc]: the block found, if any. *)
Fixpoint find_fit (fuel : nat) (bs : gmap Z block) (b : option Z) (size : Z) : option (option Z) :=
  match fuel with
  | O => None
  | S f =>
    match b with
    | None => Some None
    | Some a =>
      blk ← bs !! a;
      if negb (b_magic blk =? HEAP_MAGIC) then Some None
      else if b_free blk && (size <=? b_size blk) then Some (Some a)
      else find_fit f bs (b_next blk) size
    end
  end.

(** Walks over the list are fuelled by the number of headers. *)
Definition walk_fuel (bs : gmap Z block) : nat := S (size bs).

Definition kmalloc (size : Z) (h : heap_state) : option (heap_state * Z) :=
  let size := align16 size in
  if size =? 0 then Some (h, 0)
  else
    r ← find_fit (walk_fuel (h_blocks h)) (h_blocks h) (heap_head h) size;
    match r with
    | None => Some (h, 0)
    | Some a =>
      bs ← split_block (h_blocks h) a size;
      b ← bs !! a;
      let h := with_blocks h (<[a := set_free b false]> bs) in
      let e := a + HDR + b_size b - heap in
      let h :=
        if heap_used_highwater h <? e
        then record_heap_usage
               (Heap (h_blocks h) (heap_head h) e (h_rec_used h) (h_rec_size h) (h_mem h))
        else h in
      Some (h, a + HDR)
    end.

Definition kfree (ptr : Z) (h : heap_state) : option heap_state :=
  if ptr =? 0 then Some h
  else if (ptr <? heap) || (heap + KERNEL_HEAP_SIZE <=? ptr) then Some h
  else
    let a := ptr - HDR in
    b ← h_blocks h !! a;
    if negb (b_magic b =? HEAP_MAGIC) then Some h
    else
      let bs := <[a := set_free b true]> (h_blocks h) in
      bs ← coalesce (walk_fuel bs) bs a;
      Some (with_blocks h bs).

Definition kcalloc (count size : Z) (h : heap_state) : option (heap_state * Z) :=
  if negb (count =? 0) && (U64_MAX / count <? size) then Some (h, 0)
  else
    let total := u64 (count * size) in
    '(h, ptr) ← kmalloc total h;
    if ptr =? 0 then Some (h, 0)
    else Some (with_mem h (fst (Block.memset (h_mem h) ptr 0 (Z.to_nat total))), ptr).

Definition krealloc (ptr old_size new_size : Z) (h : heap_state) : option (heap_state * Z) :=
  if ptr =? 0 then kmalloc new_size h
  else if new_size =? 0 then h ← kfree ptr h; Some (h, 0)
  else
    b ← h_blocks h !! (ptr - HDR);
    if (b_magic b =? HEAP_MAGIC) && (new_size <=? b_size b)
    then bs ← split_block (h_blocks h) (ptr - HDR) (align16 new_size);
         Some (with_blocks h bs, ptr)
    else
      '(h, new_ptr) ← kmalloc new_size h;
      if new_ptr =? 0 then Some (h, 0)
      else
        b ← h_blocks h !! (ptr - HDR);
        let copy n := with_mem h (fst (Block.memcpy (h_mem h) new_ptr ptr (Z.to_nat n))) in
        let h :=
          if negb (old_size =? 0) then copy (if old_size <? new_size then old_size else new_size)
          else if b_magic b =? HEAP_MAGIC
               then copy (if b_size b <? new_size then b_size b else new_size)
               else h in
        h ← kfree ptr h;
        Some (h, new_ptr).

(** ** The abstract heap: block sizes and states in address order *)

Definition layout : Type := list (Z * bool).

(** The bytes a layout spans, headers included. *)
Definition span (l : layout) : Z := foldr (fun b s => HDR + fst b + s) 0 l.

(** The allocated blocks of a layout that starts at [a]: user pointer and size. *)
Fixpoint live (a : Z) (l : layout) : list (Z * Z) :=
  match l with
  | [] => []
  | (s, f) :: l => (if f then [] else [(a + HDR, s)]) ++ live (a + HDR + s) l
  end.

(** What first fit does to a layout: the new layout and the block's address. *)
Definition split_l (size s : Z) : layout :=
  if s <? size + HDR + 32 then [(s, false)] else [(size, false); (s - size - HDR, true)].
Fixpoint alloc_l (size a : Z) (l : layout) : option (layout * Z) :=
  match l with
  | [] => None
  | (s, f) :: l =>
    if f && (size <=? s) then Some (split_l size s ++ l, a)
    else '(l', p) ← alloc_l size (a + HDR + s) l; Some ((s, f) :: l', p)
  end.

(** A block of size [s] swallows a free successor. *)
Definition absorb (s : Z) (rt : layout) : Z * layout :=
  match rt with (n, true) :: rt' => (s + HDR + n, rt') | _ => (s, rt) end.

(** Freeing the block of size [s] between [lf] (nearest first) and [rt]. *)
Fixpoint coalesce_l (lf : layout) (s : Z) (rt : layout) : layout :=
  let '(s, rt) := absorb s rt in
  match lf with
  | (p, true) :: lf' => coalesce_l lf' p ((s, true) :: rt)
  | _ => rev lf ++ (s, true) :: rt
  end.

(** [seg bs p a l nx]: the headers at [a], linked back to [p] and on to [nx], are [l]. *)
Definition first_addr (a : Z) (l : layout) (nx : option Z) : option Z :=
  match l with [] => nx | _ => Some a end.
Fixpoint seg (bs : gmap Z block) (p : option Z) (a : Z) (l : layout) (nx : option Z) : Prop :=
  match l with
  | [] => True
  | (s, f) :: l =>
    bs !! a = Some (Block s f HEAP_MAGIC (first_addr (a + HDR + s) l nx) p) /\
    seg bs (Some a) (a + HDR + s) l nx
  end.

Definition good_size (s : Z) : Prop := 0 < s /\ s mod 16 = 0.

(** The invariant: the list from [heap_head] tiles the whole array. *)
Definition heap_wf (h : heap_state) (l : layout) : Prop :=
  heap_head h = Some heap /\ seg (h_blocks h) None heap l None /\
  Forall (fun b => good_size (fst b)) l /\ span l = KERNEL_HEAP_SIZE.

(** No two neighbours are free. *)
Fixpoint coalesced (l : layout) : Prop :=
  match l with
  | (_, true) :: ((_, true) :: _) => False
  | _ :: l => coalesced l
  | [] => True
  end.

(** ** Segments *)

Fixpoint last_addr (p : option Z) (a : Z) (l : layout) : option Z :=
  match l with [] => p | (s, _) :: l => last_addr (Some a) (a + HDR + s) l end.

Definition nonneg (l : layout) : Prop := Forall (fun b => 0 <= fst b) l.

Lemma span_app l1 l2 : span (l1 ++ l2) = span l1 + span l2.
Proof. unfold span. induction l1 as [|[s f] l1 IH]; simpl; [done|]. rewrite IH. lia. Qed.

Lemma span_cons s f l : span ((s, f) :: l) = HDR + s + span l.
Proof. done. Qed.

Lemma span_nonneg l : nonneg l -> 0 <= span l.
Proof. unfold HDR. induction 1 as [|[s f] l H _ IH]; [done|]. rewrite span_cons. simpl in H. unfold HDR. lia. Qed.

Lemma first_addr_app a l1 l2 nx :
  first_addr a (l1 ++ l2) nx = first_addr a l1 (first_addr (a + span l1) l2 nx).
Proof. destruct l1; simpl; [|done]. by rewrite Z.add_0_r. Qed.

Lemma seg_app bs l1 : forall p a l2 nx,
  seg bs p a (l1 ++ l2) nx <->
  seg bs p a l1 (first_addr (a + span l1) l2 nx) /\
  seg bs (last_addr p a l1) (a + span l1) l2 nx.
Proof.
  induction l1 as [|[s f] l1 IH]; intros p a l2 nx; simpl; [rewrite Z.add_0_r; tauto|].
  rewrite IH, first_addr_app. rewrite <- !Z.add_assoc. simpl. rewrite !Z.add_assoc. tauto.
Qed.

Lemma seg_ext bs bs' l : forall p a nx,
  nonneg l -> (forall x, a <= x < a + span l -> bs' !! x = bs !! x) ->
  seg bs p a l nx -> seg bs' p a l nx.
Proof.
  induction l as [|[s f] l IH]; intros p a nx Hl H; simpl; [done|].
  apply Forall_cons in Hl as [Hs Hl]. simpl in Hs. pose proof (span_nonneg l Hl).
  rewrite span_cons in H. unfold HDR in *. intros [H1 H2]. split.
  - rewrite H by lia. done.
  - apply IH; [done| |done]. intros x Hx. apply H. lia.
Qed.

(** Replacing the tail of the list by operations that stay inside its bytes. *)
Lemma seg_replace bs bs' l1 : forall p a b1 l2 b2 l2',
  nonneg l1 -> seg bs p a (l1 ++ b1 :: l2) None ->
  (forall x, x < a + span l1 -> bs' !! x = bs !! x) ->
  seg bs' (last_addr p a l1) (a + span l1) (b2 :: l2') None ->
  seg bs' p a (l1 ++ b2 :: l2') None.
Proof.
  intros p a b1 l2 b2 l2' Hl H Hf H2. apply seg_app. apply seg_app in H as [H _].
  split; [|done]. eapply seg_ext; [done| |exact H]. intros x Hx. apply Hf. lia.
Qed.

Lemma seg_length bs l : forall p a nx,
  nonneg l -> seg bs p a l nx -> (length l <= size bs)%nat.
Proof.
  intros p a nx Hl H.
  enough (exists k, length k = length l /\ NoDup k /\ (forall x, x ∈ k -> a <= x /\ x ∈ dom bs))
    as (k & <- & Hnd & Hk).
  { rewrite <- (size_dom bs), <- (size_list_to_set (C := gset Z) k) by done.
    apply subseteq_size. intros x Hx. apply elem_of_list_to_set in Hx. by apply Hk. }
  revert p a H. induction l as [|[s f] l IH]; intros p a H.
  - exists []. split; [done|]. split; [constructor|]. intros x Hx. by apply elem_of_nil in Hx.
  - apply Forall_cons in Hl as [Hs Hl]. simpl in Hs, H. destruct H as [H1 H2].
    destruct (IH Hl _ _ H2) as (k & Hk & Hnd & Hin). exists (a :: k). simpl. rewrite Hk.
    unfold HDR in *. split; [done|]. split.
    + constructor; [|done]. intros Hx. apply Hin in Hx. lia.
    + intros x [->|Hx]%elem_of_cons; [split; [lia|]; apply elem_of_dom; eauto|].
      apply Hin in Hx. split; [lia|tauto].
Qed.

Lemma link_back_seg bs l : forall p a q,
  nonneg l -> seg bs p a l None ->
  exists bs', link_back bs (first_addr a l None) q = Some bs' /\ seg bs' (Some q) a l None /\
    forall x, x <> a -> bs' !! x = bs !! x.
Proof.
  intros p a q Hl H. destruct l as [|[s f] l]; simpl.
  { exists bs. done. }
  simpl in H. destruct H as [H1 H2]. rewrite H1. simpl. eexists. split; [done|].
  apply Forall_cons in Hl as [Hs Hl]. simpl in Hs. split; [split|].
  - by rewrite lookup_insert_eq.
  - eapply seg_ext; [done| |exact H2]. intros x Hx. unfold HDR in Hx. rewrite lookup_insert_ne by lia. done.
  - intros x Hx. by rewrite lookup_insert_ne.
Qed.

Definition split_keep (size s : Z) (f : bool) : layout :=
  if s <? size + HDR + 32 then [(s, f)] else [(size, f); (s - size - HDR, true)].

Lemma split_block_seg bs p a s f l size :
  0 <= size -> s < 2 ^ 63 -> size < 2 ^ 63 -> 0 <= s -> nonneg l ->
  seg bs p a ((s, f) :: l) None ->
  exists bs', split_block bs a size = Some bs' /\ seg bs' p a (split_keep size s f ++ l) None /\
    forall x, x < a -> bs' !! x = bs !! x.
Proof.
  intros Hsz Hs Hsz2 Hs0 Hl [H1 H2]. unfold split_block, split_keep. rewrite H1.
  cbn [mbind option_bind b_size b_next].
  rewrite u64_small by (unfold HDR; lia). destruct (Z.ltb_spec s (size + HDR + 32)) as [Hlt|Hge].
  { exists bs. split; [done|]. split; [split; done|done]. }
  set (n := a + HDR + size). rewrite u64_small by (unfold HDR in *; lia).
  set (bs1 := <[n := _]> bs).
  assert (seg bs1 (Some a) (a + HDR + s) l None) as H3.
  { eapply seg_ext; [done| |exact H2]. intros x Hx. unfold bs1, n, HDR in *.
    rewrite lookup_insert_ne by lia. done. }
  destruct (link_back_seg bs1 l (Some a) (a + HDR + s) n Hl H3) as (bs2 & -> & H4 & Hf).
  cbn [mbind option_bind]. eexists. split; [done|].
  assert (a + HDR + size + HDR + (s - size - HDR) = a + HDR + s) as E by (unfold HDR; lia).
  split.
  - simpl. split; [by rewrite lookup_insert_eq|]. split.
    + unfold n, HDR in *. rewrite lookup_insert_ne by lia. rewrite Hf by lia.
      unfold bs1. rewrite lookup_insert_eq. do 2 f_equal. f_equal. lia.
    + rewrite E. eapply seg_ext; [done| |exact H4]. intros x Hx.
      unfold HDR in *. rewrite lookup_insert_ne by lia. done.
  - intros x Hx. unfold n, bs1, HDR in *. rewrite lookup_insert_ne, Hf by lia.
    unfold bs1. by rewrite lookup_insert_ne by (unfold n, HDR; lia).
Qed.

(** ** First fit *)

Lemma find_fit_spec bs size l : forall fuel p a,
  nonneg l -> seg bs p a l None -> (length l < fuel)%nat ->
  (find_fit fuel bs (first_addr a l None) size = Some None /\ alloc_l size a l = None) \/
  (exists l1 s l2, l = l1 ++ (s, true) :: l2 /\ size <= s /\
     find_fit fuel bs (first_addr a l None) size = Some (Some (a + span l1)) /\
     alloc_l size a l = Some (l1 ++ split_l size s ++ l2, a + span l1)).
Proof.
  induction l as [|[s f] l IH]; intros [|fuel] p a Hl H Hf; simpl in Hf; try lia; [by left|].
  simpl in H. destruct H as [H1 H2]. apply Forall_cons in Hl as [Hs Hl].
  cbn [find_fit first_addr alloc_l]. rewrite H1. cbn. destruct (f && (size <=? s)) eqn:E.
  - apply andb_prop in E as [-> E]. apply Z.leb_le in E. right. exists [], s, l.
    rewrite Z.add_0_r. done.
  - destruct (IH fuel (Some a) (a + HDR + s) Hl H2 ltac:(lia))
      as [[-> ->]|(l1 & s1 & l2 & -> & Hle & -> & ->)]; [by left|].
    right. exists ((s, f) :: l1), s1, l2. cbn [app]. rewrite span_cons, !Z.add_assoc. done.
Qed.

Lemma good_nonneg l : Forall (fun b => good_size (fst b)) l -> nonneg l.
Proof. intros H. eapply Forall_impl; [exact H|]. intros [s f] [? ?]. simpl in *. lia. Qed.

Lemma align16_spec v : 0 <= v <= U64_MAX - 15 ->
  v <= align16 v < v + 16 /\ align16 v mod 16 = 0.
Proof.
  intros Hv. unfold align16, U64_MAX in *. change 15 with (Z.ones 4).
  rewrite land_lnot_ones by lia. change (Z.ones 4) with 15. rewrite u64_small by lia.
  change (2 ^ 4) with 16. Z.div_mod_to_equations. lia.
Qed.

Lemma align16_wraps v : U64_MAX - 15 < v <= U64_MAX -> align16 v = 0.
Proof.
  intros Hv. unfold align16. change 15 with (Z.ones 4). rewrite land_lnot_ones by lia.
  change (Z.ones 4) with 15. unfold U64_MAX, u64 in *. change (2 ^ 4) with 16. wsolve.
Qed.

Lemma align16_range v : 0 <= v <= U64_MAX -> 0 <= align16 v <= U64_MAX /\ align16 v mod 16 = 0.
Proof.
  intros Hv. destruct (Z.le_gt_cases v (U64_MAX - 15)) as [H|H].
  - destruct (align16_spec v ltac:(lia)). unfold U64_MAX in *. Z.div_mod_to_equations. lia.
  - rewrite align16_wraps by lia. unfold U64_MAX. split; [lia|done].
Qed.

(** The blocks of a well-formed heap are no larger than the array. *)
Lemma span_in l b : nonneg l -> b ∈ l -> HDR + fst b <= span l.
Proof.
  intros Hl [l1 [l2 ->]]%list_elem_of_split. rewrite span_app. destruct b as [s f].
  rewrite span_cons. apply Forall_app in Hl as [H1 H2]. apply Forall_cons in H2 as [_ H2].
  apply span_nonneg in H1, H2. simpl. lia.
Qed.

Lemma split_good size s f :
  good_size size -> good_size s -> size <= s ->
  Forall (fun b => good_size (fst b)) (split_keep size s f) /\
  span (split_keep size s f) = HDR + s.
Proof.
  unfold split_keep, good_size, HDR. intros [? ?] [? ?] ?. case_match; bcases.
  - split; [repeat constructor; done|]. simpl. unfold HDR. lia.
  - split; [|simpl; unfold HDR; lia]. repeat constructor; simpl; auto; [lia|].
    Z.div_mod_to_equations. lia.
Qed.

(** ** [kmalloc] *)

Lemma seg_set_free bs p a s f f' l nx :
  0 <= s -> nonneg l -> seg bs p a ((s, f) :: l) nx ->
  exists b, bs !! a = Some b /\ b_size b = s /\ b_magic b = HEAP_MAGIC /\
    seg (<[a := set_free b f']> bs) p a ((s, f') :: l) nx.
Proof.
  intros Hs Hl [H1 H2]. eexists. split; [exact H1|]. do 2 (split; [done|]).
  split; [by rewrite lookup_insert_eq|].
  eapply seg_ext; [done| |exact H2]. intros x Hx. unfold HDR in Hx.
  by rewrite lookup_insert_ne by lia.
Qed.

Lemma split_keep_l size s : exists s' l,
  split_keep size s true = (s', true) :: l /\ split_l size s = (s', false) :: l.
Proof. unfold split_keep, split_l. case_match; eauto. Qed.

Lemma kmalloc_refines h l size :
  heap_wf h l -> 0 <= size <= U64_MAX ->
  match (if align16 size =? 0 then None else alloc_l (align16 size) heap l) with
  | None => kmalloc size h = Some (h, 0)
  | Some (l', x) => exists h', kmalloc size h = Some (h', x + HDR) /\
      heap_wf h' l' /\ h_mem h' = h_mem h
  end.
Proof.
  intros (Hh & Hseg & Hgood & Hspan) Hsize. unfold kmalloc.
  pose proof (align16_range size Hsize) as [Hrange Hm]. set (n := align16 size) in *. clearbody n.
  destruct (Z.eqb_spec n 0) as [|Hn]; [done|]. pose proof (good_nonneg l Hgood) as Hnn.
  assert (l <> []) as Hne by (intros ->; done).
  assert (heap_head h = first_addr heap l None) as -> by (rewrite Hh; by destruct l).
  pose proof (seg_length _ _ _ _ _ Hnn Hseg) as Hlen.
  destruct (find_fit_spec (h_blocks h) n l (walk_fuel (h_blocks h)) None heap Hnn Hseg)
    as [[-> ->]|(l1 & s & l2 & -> & Hle & -> & ->)]; [unfold walk_fuel; lia|done|].
  cbn [mbind option_bind]. pose proof Hgood as Hg. apply Forall_app in Hg as [Hg1 Hg2].
  apply Forall_cons in Hg2 as [Hgs Hg2]. simpl in Hgs. pose proof (good_nonneg _ Hg1) as Hn1.
  pose proof (good_nonneg _ Hg2) as Hn2. assert (s < 2 ^ 63) as Hs63.
  { pose proof (span_in _ (s, true) Hnn ltac:(set_solver)) as Hb. simpl in Hb.
    rewrite Hspan in Hb. unfold KERNEL_HEAP_SIZE, HDR in Hb. lia. }
  pose proof Hseg as [Hs1 Hs2]%seg_app.
  destruct (split_block_seg _ _ _ _ _ _ n ltac:(lia) Hs63 ltac:(lia)
              ltac:(destruct Hgs; lia) Hn2 Hs2) as (bs' & -> & Hs3 & Hf).
  destruct (split_good n s true) as [Hgk Hsk]; [split; [lia|done]|done..|].
  destruct (split_keep_l n s) as (s' & t & Ek & El). rewrite Ek in *. rewrite El.
  apply Forall_cons in Hgk as [Hgs' Hgt]. simpl in Hgs'.
  destruct (seg_set_free bs' (last_addr None heap l1) (heap + span l1) s' true false (t ++ l2) None) as (b & Hb & Hbs & _ & Hs4);
    [destruct Hgs'; lia|apply Forall_app; split; [by apply good_nonneg|done]|done|].
  cbn [mbind option_bind]. rewrite Hb. cbn [mbind option_bind].
  eexists. split; [done|].
  assert (seg (<[heap + span l1:=set_free b false]> bs') None heap
            (l1 ++ ((s', false) :: t) ++ l2) None) as HS.
  { eapply seg_replace; [done|exact Hseg| |exact Hs4]. intros x Hx.
    rewrite lookup_insert_ne by lia. by apply Hf. }
  cbn [heap_used_highwater with_blocks].
  split; [|by case_match]. assert (forall g, h_blocks g = <[heap + span l1:=set_free b false]> bs' ->
    heap_head g = Some heap -> heap_wf g (l1 ++ ((s', false) :: t) ++ l2)) as Hwf.
  { intros g Hgb Hgh. split; [done|]. rewrite Hgb. split; [done|]. split.
    - rewrite !Forall_app. repeat split; auto.
    - rewrite !span_app in *. rewrite span_cons in *. lia. }
  case_match; apply Hwf; done.
Qed.

(** ** [kfree] *)

Lemma merge_next_seg bs p a s f l :
  0 <= s -> nonneg l -> HDR + s + span l < 2 ^ 63 -> seg bs p a ((s, f) :: l) None ->
  exists bs', merge_next bs a = Some bs' /\
    (let '(s', l') := absorb s l in
     seg bs' p a ((s', f) :: l') None) /\
    forall x, x < a -> bs' !! x = bs !! x.
Proof.
  intros Hs Hl Hspan [H1 H2]. unfold merge_next. rewrite H1. cbn [mbind option_bind b_next].
  destruct l as [|[n fn] l]; [exists bs; done|]. simpl in H2. destruct H2 as [H2 H3].
  cbn [first_addr]. rewrite H2. cbn [mbind option_bind b_magic b_free]. rewrite Z.eqb_refl.
  cbn [andb]. destruct fn; [|exists bs; done].
  apply Forall_cons in Hl as [Hn Hl]. simpl in Hn. pose proof (span_nonneg l Hl).
  rewrite span_cons in Hspan. cbn [b_size b_next]. rewrite u64_small by (unfold HDR in *; lia).
  set (bs1 := <[a := _]> bs).
  assert (a + HDR + (s + HDR + n) = a + HDR + s + HDR + n) as E by lia.
  assert (seg bs1 (Some (a + HDR + s)) (a + HDR + s + HDR + n) l None) as H4.
  { eapply seg_ext; [done| |exact H3]. intros x Hx. unfold bs1, HDR in *.
    by rewrite lookup_insert_ne by lia. }
  destruct (link_back_seg bs1 l _ _ a Hl H4) as (bs2 & -> & H5 & Hf).
  exists bs2. split; [done|]. split.
  - cbn [absorb seg]. rewrite E. split; [|done]. rewrite Hf by (unfold HDR; lia).
    unfold bs1. by rewrite lookup_insert_eq.
  - intros x Hx. rewrite Hf by (unfold HDR; lia). unfold bs1. by rewrite lookup_insert_ne by lia.
Qed.

Lemma last_addr_snoc p a l s f : last_addr p a (l ++ [(s, f)]) = Some (a + span l).
Proof.
  revert p a. induction l as [|[s' f'] l IH]; intros p a; simpl; [f_equal; lia|].
  rewrite IH. f_equal. lia.
Qed.

Lemma coalesce_seg lf : forall fuel bs s rt,
  nonneg (rev lf ++ (s, true) :: rt) -> span (rev lf ++ (s, true) :: rt) < 2 ^ 63 ->
  (length lf < fuel)%nat -> seg bs None heap (rev lf ++ (s, true) :: rt) None ->
  exists bs', coalesce fuel bs (heap + span (rev lf)) = Some bs' /\
    seg bs' None heap (coalesce_l lf s rt) None.
Proof.
  induction lf as [|[q fq] lf IH]; intros [|fuel] bs s rt Hnn Hsp Hf H; simpl in Hf; try lia.
  - cbn [rev app] in *. change (span []) with 0. rewrite Z.add_0_r.
    apply Forall_cons in Hnn as [Hs Hr]. destruct (merge_next_seg bs None heap s true rt Hs Hr) as (bs' & Em & Hm & _);
      [rewrite span_cons in Hsp; lia|done|].
    destruct H as [H _]. cbn [coalesce]. rewrite H. cbn [mbind option_bind b_magic]. rewrite Z.eqb_refl.
    cbn [negb]. rewrite Em. cbn [mbind option_bind].
    cbn [coalesce_l rev app]. revert Hm. destruct (absorb s rt) as [s' l'].
    intros Hm. pose proof Hm as Hm'. cbn [seg] in Hm'. destruct Hm' as [-> _]. exists bs'. done.
  - pose proof Hnn as Hnn'. apply Forall_app in Hnn' as [Hn1 Hn2].
    apply Forall_cons in Hn2 as [Hs Hr]. simpl in Hs.
    pose proof H as [H1 H2]%seg_app. rewrite span_app, span_cons in Hsp.
    pose proof (span_nonneg _ Hn1).
    destruct (merge_next_seg bs _ _ s true rt Hs Hr ltac:(lia) H2) as (bs' & Em & Hm & Hfr).
    cbn [coalesce]. pose proof H2 as [H3 _]. rewrite H3. cbn [mbind option_bind b_magic].
    rewrite Z.eqb_refl. cbn [negb]. rewrite Em. cbn [mbind option_bind coalesce_l].
    assert (HDR + s + span rt = (let '(s', l') := absorb s rt in HDR + s' + span l')) as Esp.
    { destruct rt as [|[n []] rt]; cbn [absorb]; rewrite ?span_cons; lia. }
    assert (let '(s', l') := absorb s rt in 0 <= s' /\ nonneg l') as Enn.
    { destruct rt as [|[n []] rt]; cbn [absorb]; auto. apply Forall_cons in Hr as [Hn ?]. simpl in Hn.
      unfold HDR. split; [lia|done]. }
    revert Hm Esp Enn.
    destruct (absorb s rt) as [s' l'].
    intros Hm Esp Enn. assert (seg bs' None heap (rev ((q, fq) :: lf) ++ (s', true) :: l') None) as HS
      by (by eapply seg_replace).
    pose proof Hm as Hm'. cbn [seg] in Hm'. destruct Hm' as [-> _]. cbn [mbind option_bind b_prev]. simpl rev. rewrite last_addr_snoc.
    simpl rev in HS. rewrite <- app_assoc in HS. pose proof HS as [_ [Hq _]]%seg_app.
    rewrite Hq. cbn [mbind option_bind b_magic b_free]. rewrite Z.eqb_refl. cbn [andb].
    destruct fq.
    + apply IH; [| |lia|done].
      * simpl rev in Hn1. apply Forall_app in Hn1 as [Hn1 [Hq0 _]%Forall_cons]. destruct Enn.
        unfold nonneg. rewrite Forall_app, Forall_cons. split; [done|]. split; [done|].
        by constructor.
      * simpl rev in Hsp. rewrite span_app in Hsp. rewrite span_app, !span_cons in *.
        simpl in Hsp. lia.
    + exists bs'. split; [done|]. simpl rev. rewrite <- app_assoc. done.
Qed.

Lemma coalesce_l_good lf : forall s rt,
  Forall (fun b => good_size (fst b)) (rev lf ++ (s, true) :: rt) ->
  Forall (fun b => good_size (fst b)) (coalesce_l lf s rt) /\
  span (coalesce_l lf s rt) = span (rev lf ++ (s, true) :: rt).
Proof.
  induction lf as [|[q fq] lf IH]; intros s rt H; apply Forall_app in H as [H1 H2];
    apply Forall_cons in H2 as [Hs Hr]; simpl in Hs; simpl coalesce_l;
    set (m := absorb s rt);
    assert (good_size m.1 /\ Forall (fun b => good_size (fst b)) m.2 /\
            span ((s, true) :: rt) = span ((m.1, true) :: m.2)) as (Gm1 & Gm2 & Em)
    by (subst m; destruct rt as [|[n []] rt]; auto; apply Forall_cons in Hr as [[? ?] ?];
        simpl in *; unfold good_size, HDR in *; repeat split; auto; [lia|Z.div_mod_to_equations; lia|lia]);
    destruct m as [s' rt']; simpl in Gm1, Gm2, Em.
  - simpl. split; [by constructor|done].
  - simpl rev in *. destruct fq.
    + apply Forall_app in H1 as [H1 [Hq _]%Forall_cons].
      destruct (IH q ((s', true) :: rt')) as [IH1 IH2].
      { apply Forall_app. split; [done|]. constructor; [done|]. by constructor. }
      split; [done|]. rewrite IH2, <- app_assoc, !span_app. simpl in *. lia.
    + split; [apply Forall_app; split; [done|by constructor]|]. rewrite !span_app. simpl in *. lia.
Qed.

Lemma kfree_refines h lf s rt :
  0 <= heap -> heap_wf h (rev lf ++ (s, false) :: rt) ->
  exists h', kfree (heap + span (rev lf) + HDR) h = Some h' /\
    heap_wf h' (coalesce_l lf s rt) /\ h_mem h' = h_mem h.
Proof.
  intros Hp (Hh & Hseg & Hgood & Hspan). unfold kfree.
  pose proof (good_nonneg _ Hgood) as Hnn. pose proof Hnn as [Hn1 [Hs Hn2]%Forall_cons]%Forall_app.
  simpl in Hs. pose proof (span_nonneg _ Hn1). pose proof (span_nonneg _ Hn2).
  pose proof Hspan as Hsp. rewrite span_app, span_cons in Hsp.
  assert (0 < s) by (apply Forall_app in Hgood as [_ [[? _] _]%Forall_cons]; done).
  replace (_ =? 0) with false by (unfold HDR; lia).
  replace (_ <? heap) with false by (unfold HDR; lia).
  replace (heap + KERNEL_HEAP_SIZE <=? _) with false by lia. cbn [orb].
  replace (heap + span (rev lf) + HDR - HDR) with (heap + span (rev lf)) by lia.
  pose proof Hseg as [Hs1 Hs2]%seg_app.
  destruct (seg_set_free (h_blocks h) (last_addr None heap (rev lf)) (heap + span (rev lf))
              s false true rt None) as (b & -> & _ & Hbm & Hs3); [done..|].
  cbn [mbind option_bind]. rewrite Hbm, Z.eqb_refl. cbn [negb].
  set (bs := <[_ := set_free b true]> _).
  assert (seg bs None heap (rev lf ++ (s, true) :: rt) None) as HS.
  { eapply seg_replace; [done|exact Hseg| |done]. intros x Hx. unfold bs.
    by rewrite lookup_insert_ne by lia. }
  assert (Forall (fun b => good_size (fst b)) (rev lf ++ (s, true) :: rt)) as HG.
  { apply Forall_app in Hgood as [? [? ?]%Forall_cons]. apply Forall_app. split; [done|].
    by constructor. }
  assert (span (rev lf ++ (s, true) :: rt) = KERNEL_HEAP_SIZE) as HSp
    by (rewrite <- Hspan, !span_app; done).
  pose proof (good_nonneg _ HG) as HN. pose proof (seg_length _ _ _ _ _ HN HS) as HL.
  rewrite length_app, length_rev in HL.
  destruct (coalesce_seg lf (walk_fuel bs) bs s rt) as (bs' & -> & HS'); [done| | |done|].
  { rewrite HSp. done. }
  { unfold walk_fuel. lia. }
  destruct (coalesce_l_good lf s rt HG) as [HG' HSp'].
  eexists. split; [done|]. split; [|done]. split; [done|]. split; [done|]. split; [done|].
  by rewrite HSp'.
Qed.

(** ** The allocated blocks *)

Lemma live_app l1 : forall a l2, live a (l1 ++ l2) = live a l1 ++ live (a + span l1) l2.
Proof.
  induction l1 as [|[s f] l1 IH]; intros a l2; simpl; [by rewrite Z.add_0_r|].
  rewrite IH, <- app_assoc. do 3 f_equal. lia.
Qed.

Lemma live_absorb a s rt :
  live a (((absorb s rt).1, true) :: (absorb s rt).2) = live a ((s, true) :: rt).
Proof.
  destruct rt as [|[n []] rt]; cbn [absorb fst snd]; try done. simpl. f_equal. lia.
Qed.

Lemma live_coalesce lf : forall a s rt,
  live a (coalesce_l lf s rt) = live a (rev lf ++ (s, true) :: rt).
Proof.
  induction lf as [|[q fq] lf IH]; intros a s rt; simpl coalesce_l;
    pose proof (fun a => live_absorb a s rt) as Ha; revert Ha;
    destruct (absorb s rt) as [s' rt']; cbn [fst snd]; intros Ha.
  - simpl rev. rewrite !app_nil_l. apply Ha.
  - destruct fq.
    + rewrite IH. simpl rev. rewrite <- app_assoc, !live_app. f_equal.
      replace (a + span (rev lf) + span [(q, true)]) with (a + span (rev lf) + HDR + q)
        by (simpl; lia).
      exact (Ha (a + span (rev lf) + HDR + q)).
    + cbn [rev]. rewrite (live_app (rev lf ++ _)), (live_app (rev lf ++ _)). f_equal. apply Ha.
Qed.

Lemma alloc_l_inv size l : forall a l' x, alloc_l size a l = Some (l', x) ->
  exists l1 s l2, l = l1 ++ (s, true) :: l2 /\ size <= s /\ l' = l1 ++ split_l size s ++ l2 /\
    x = a + span l1.
Proof.
  induction l as [|[s f] l IH]; intros a l' x H; simpl in H; [done|].
  destruct (f && (size <=? s)) eqn:E.
  - apply andb_prop in E as [-> E]. apply Z.leb_le in E. simplify_eq. exists [], s, l.
    rewrite Z.add_0_r. done.
  - destruct (alloc_l size (a + HDR + s) l) as [[l1 p]|] eqn:E2; [|done]. simplify_eq/=.
    destruct (IH _ _ _ E2) as (k1 & s' & k2 & -> & ? & -> & ->).
    exists ((s, f) :: k1), s', k2. rewrite span_cons. repeat split; auto. lia.
Qed.

Lemma live_split_l a size s l : live a (split_l size s ++ l) =
  (a + HDR, if s <? size + HDR + 32 then s else size) :: live (a + HDR + s) l.
Proof. unfold split_l. case_match; simpl; [done|]. do 2 f_equal. lia. Qed.

Lemma live_alloc size a l l' x : alloc_l size a l = Some (l', x) ->
  exists L1 L2 sz, live a l = L1 ++ L2 /\ live a l' = L1 ++ (x + HDR, sz) :: L2 /\ size <= sz.
Proof.
  intros (l1 & s & l2 & -> & Hle & -> & ->)%alloc_l_inv.
  exists (live a l1), (live (a + span l1 + HDR + s) l2). eexists.
  rewrite (live_app l1 a (_ :: l2)), (live_app l1 a (split_l _ _ ++ l2)), live_split_l. split; [done|]. split; [done|]. case_match; lia.
Qed.

Lemma live_inv p sz l : forall a, (p, sz) ∈ live a l ->
  exists l1 l2, l = l1 ++ (sz, false) :: l2 /\ p = a + span l1 + HDR.
Proof.
  induction l as [|[s f] l IH]; intros a H; simpl in H; [by apply elem_of_nil in H|].
  apply elem_of_app in H as [H|H].
  - destruct f; [by apply elem_of_nil in H|]. apply list_elem_of_singleton in H. simplify_eq.
    exists [], l. split; [done|]. simpl. lia.
  - destruct (IH _ H) as (l1 & l2 & -> & ->). exists ((s, f) :: l1), l2. split; [done|].
    rewrite span_cons. lia.
Qed.

(** Allocated blocks lie inside the span, aligned, each ending a header before the next. *)
Definition before (b1 b2 : Z * Z) : Prop := b1.1 + b1.2 + HDR <= b2.1.
Definition inside (lo hi : Z) (b : Z * Z) : Prop :=
  lo + HDR <= b.1 /\ 0 < b.2 /\ b.1 + b.2 <= hi /\ (b.1 - lo) mod 16 = 0.

Lemma live_inside l : forall a, Forall (fun b => good_size (fst b)) l ->
  Forall (inside a (a + span l)) (live a l).
Proof.
  induction l as [|[s f] l IH]; intros a H; [constructor|].
  pose proof (span_nonneg _ (good_nonneg _ H)) as Hsp.
  apply Forall_cons in H as [[Hs Hm] H]. simpl in Hs, Hm.
  pose proof (span_nonneg _ (good_nonneg _ H)). rewrite span_cons in *.
  cbn [live]. apply Forall_app. unfold inside, HDR in *. split.
  - destruct f; [constructor|]. constructor; [|constructor]. simpl. repeat split; try lia.
    replace (a + 32 - a) with 32 by lia. done.
  - eapply Forall_impl; [by apply IH|]. intros [p n] (? & ? & ? & E). simpl in *.
    repeat split; try lia. replace (p - a) with (p - (a + 32 + s) + 2 * 16 + s) by lia.
    Z.div_mod_to_equations. lia.
Qed.

Lemma live_sorted l : forall a, Forall (fun b => good_size (fst b)) l ->
  StronglySorted before (live a l).
Proof.
  induction l as [|[s f] l IH]; intros a H; [constructor|].
  apply Forall_cons in H as [[Hs _] H]. simpl in Hs. cbn [live].
  destruct f; [by apply IH|]. simpl. constructor; [by apply IH|].
  eapply Forall_impl; [by apply live_inside|]. intros [p n] (? & ?). unfold before. simpl in *. lia.
Qed.

(** ** Coalescing is complete *)

Definition hd_free (l : layout) : Prop := match l with (_, true) :: _ => True | _ => False end.

Lemma coalesced_cons b l : coalesced (b :: l) <-> coalesced l /\ ~ (b.2 = true /\ hd_free l).
Proof. destruct b as [s []], l as [|[s' []] l]; simpl; intuition auto; done. Qed.

Lemma coalesced_rev_app lf : forall rt,
  coalesced (rev lf ++ rt) <-> coalesced (rev lf) /\ coalesced rt /\ ~ (hd_free lf /\ hd_free rt).
Proof.
  induction lf as [|b lf IH]; intros rt; simpl; [tauto|].
  rewrite <- app_assoc. simpl. rewrite IH, (IH [b]), !coalesced_cons.
  destruct b as [s []]; simpl; intuition discriminate.
Qed.

Lemma coalesced_coalesce lf s rt :
  coalesced (rev lf ++ (s, false) :: rt) -> coalesced (coalesce_l lf s rt).
Proof.
  intros (H1 & H2 & _)%coalesced_rev_app.
  assert (coalesced (absorb s rt).2 /\ ~ hd_free (absorb s rt).2) as [H3 H4].
  { apply coalesced_cons in H2 as [H2 _]. destruct rt as [|[n []] rt]; cbn [absorb snd]; auto.
    apply coalesced_cons in H2. simpl in H2. tauto. }
  revert H3 H4.
  destruct lf as [|[q []] lf]; simpl coalesce_l; destruct (absorb s rt) as [s' rt']; simpl; intros H3 H4.
  - simpl. destruct rt' as [|[? []] ?]; simpl in *; tauto.
  - simpl in H1. apply coalesced_rev_app in H1 as (H1 & _ & H5).
    assert (coalesced (rev lf ++ (q + HDR + s', true) :: rt')) as HC.
    { apply coalesced_rev_app. rewrite coalesced_cons. simpl in *. tauto. }
    destruct lf as [|[q' []] lf]; simpl in *; [done|tauto|done].
  - change (coalesced (rev ((q, false) :: lf) ++ (s', true) :: rt')).
    apply coalesced_rev_app. rewrite coalesced_cons. simpl. tauto.
Qed.

Lemma coalesced_alloc size a l l' x :
  alloc_l size a l = Some (l', x) -> coalesced l -> coalesced l'.
Proof.
  intros (l1 & s & l2 & -> & Hle & -> & ->)%alloc_l_inv.
  rewrite <- (rev_involutive l1), !coalesced_rev_app, coalesced_cons. intros (H1 & (H2 & H3) & H4).
  unfold split_l. case_match; simpl app; rewrite !coalesced_cons; simpl in *;
    intuition discriminate.
Qed.

(** ** Clients *)

(** What a client holds: pointers and the sizes it asked for. *)
Definition holds (h : heap_state) (l : layout) (L : list (Z * Z)) : Prop :=
  exists B, live heap l ≡ₚ B /\ Forall2 (fun b c => b.1 = c.1 /\ c.2 <= b.2) B L.

(** The states reachable by a client that frees only what it holds, once. *)
Inductive heap_reach : heap_state -> list (Z * Z) -> Prop :=
| reach_init h : heap_reach (heap_init h) []
| reach_store h L m : heap_reach h L -> heap_reach (with_mem h m) L
| reach_malloc h L n h' p : heap_reach h L -> 0 <= n <= U64_MAX ->
    kmalloc n h = Some (h', p) -> p <> 0 -> heap_reach h' ((p, n) :: L)
| reach_calloc h L k n h' p : heap_reach h L -> 0 <= k <= U64_MAX -> 0 <= n <= U64_MAX ->
    kcalloc k n h = Some (h', p) -> p <> 0 -> heap_reach h' ((p, k * n) :: L)
| reach_free h L1 p n L2 h' : heap_reach h (L1 ++ (p, n) :: L2) ->
    kfree p h = Some h' -> heap_reach h' (L1 ++ L2)
| reach_realloc h L1 p n L2 old new h' p' : heap_reach h (L1 ++ (p, n) :: L2) ->
    0 < new <= U64_MAX -> krealloc p old new h = Some (h', p') -> p' <> 0 ->
    heap_reach h' (L1 ++ (p', new) :: L2).

Lemma heap_init_wf h : heap_wf (heap_init h) [(KERNEL_HEAP_SIZE - HDR, true)].
Proof.
  split; [done|]. split; [|split; [by repeat constructor|done]].
  split; [|done]. simpl. by rewrite lookup_insert_eq.
Qed.

Lemma wf_lookup h l1 s f l2 : heap_wf h (l1 ++ (s, f) :: l2) ->
  exists b, h_blocks h !! (heap + span l1) = Some b /\ b_size b = s /\ b_magic b = HEAP_MAGIC.
Proof. intros (_ & [_ [H _]]%seg_app & _). eexists. split; [exact H|]. done. Qed.

Lemma kmalloc_holds h l L n h' p :
  0 < heap -> heap_wf h l -> holds h l L -> 0 <= n <= U64_MAX ->
  kmalloc n h = Some (h', p) -> p <> 0 ->
  exists l' L1 L2 sz, heap_wf h' l' /\ holds h' l' ((p, n) :: L) /\ h_mem h' = h_mem h /\
    live heap l = L1 ++ L2 /\ live heap l' = L1 ++ (p, sz) :: L2 /\ n <= sz.
Proof.
  intros Hp Hwf (B & HB & HF) Hn Hk Hp0. pose proof (kmalloc_refines h l n Hwf Hn) as Hr.
  destruct (align16 n =? 0) eqn:E; [congruence|]. bcases.
  destruct (alloc_l (align16 n) heap l) as [[l' x]|] eqn:Ea; [|congruence].
  destruct Hr as (h2 & Hk2 & Hwf2 & Hm2). rewrite Hk2 in Hk. simplify_eq.
  destruct (live_alloc _ _ _ _ _ Ea) as (L1 & L2 & sz & EL & EL' & Hle).
  assert (n <= align16 n).
  { destruct (Z.le_gt_cases n (U64_MAX - 15)); [apply align16_spec; lia|].
    rewrite align16_wraps in E by lia. done. }
  exists l', L1, L2, sz. split; [done|]. split; [|split; [done|split; [done|split; [done|lia]]]].
  exists ((x + HDR, sz) :: B). split; [rewrite EL', <- HB, EL; by rewrite Permutation_middle|].
  constructor; [simpl; lia|done].
Qed.

(** Taking one held block out of the heap's allocated ones. *)
Lemma holds_split h l L1 p n L2 : holds h l (L1 ++ (p, n) :: L2) ->
  exists l1 sz l2, l = l1 ++ (sz, false) :: l2 /\ p = heap + span l1 + HDR /\ n <= sz /\
    (forall h' l' L', live heap l' ≡ₚ L' ++ (live heap l1 ++ live (heap + span l1 + HDR + sz) l2) ->
       forall Lc, Forall2 (fun b c => b.1 = c.1 /\ c.2 <= b.2) L' Lc -> holds h' l' (L1 ++ Lc ++ L2)).
Proof.
  intros (B & HB & HF). apply Forall2_app_inv_r in HF as (B1 & B2' & HF1 & HF2 & ->).
  inversion HF2 as [|[q sz] ? B2 ? [Hq Hn] HF3]; subst. simpl in Hq, Hn. subst q.
  destruct (live_inv p sz l heap) as (l1 & l2 & -> & ->).
  { rewrite HB. set_solver. }
  exists l1, sz, l2. repeat split; auto. intros h' l' L' Hl' Lc Hc.
  exists (B1 ++ L' ++ B2). split; [|by repeat apply Forall2_app].
  rewrite Hl'. assert (live heap l1 ++ live (heap + span l1 + HDR + sz) l2 ≡ₚ B1 ++ B2) as ->.
  { rewrite live_app in HB. simpl in HB. rewrite <- !Permutation_middle in HB.
    by apply Permutation_cons_inv in HB. }
  rewrite !(assoc_L (++)). f_equiv. apply Permutation_app_comm.
Qed.

Lemma rev_case (l1 : layout) : exists lf, l1 = rev lf.
Proof. exists (rev l1). by rewrite rev_involutive. Qed.

Lemma kfree_holds h l L1 p n L2 :
  0 < heap -> heap_wf h l -> holds h l (L1 ++ (p, n) :: L2) ->
  exists h' l', kfree p h = Some h' /\ heap_wf h' l' /\ holds h' l' (L1 ++ L2) /\
    h_mem h' = h_mem h /\ (coalesced l -> coalesced l').
Proof.
  intros Hp Hwf (l1 & sz & l2 & -> & -> & Hle & Hrest)%holds_split.
  destruct (rev_case l1) as [lf ->].
  destruct (kfree_refines h lf sz l2 ltac:(lia) Hwf) as (h' & -> & Hwf' & Hm').
  exists h', (coalesce_l lf sz l2). split; [done|]. split; [done|].
  split; [|split; [done|apply coalesced_coalesce]].
  apply (Hrest _ _ []) with (Lc := []); [|constructor]. rewrite live_coalesce, live_app. done.
Qed.

(** Shrinking (or keeping) a block in place. *)
Lemma shrink_holds h l L1 p n L2 new b :
  0 < heap -> heap_wf h l -> holds h l (L1 ++ (p, n) :: L2) -> 0 < new ->
  h_blocks h !! (p - HDR) = Some b -> new <= b_size b ->
  exists bs l', split_block (h_blocks h) (p - HDR) (align16 new) = Some bs /\
    heap_wf (with_blocks h bs) l' /\ holds (with_blocks h bs) l' (L1 ++ (p, new) :: L2).
Proof.
  intros Hp Hwf (l1 & sz & l2 & -> & -> & Hle & Hrest)%holds_split Hnew Hb Hsz.
  destruct (wf_lookup _ _ _ _ _ Hwf) as (b' & Hb' & Hbs & _).
  replace (heap + span l1 + HDR - HDR) with (heap + span l1) in * by lia.
  rewrite Hb' in Hb. simplify_eq. destruct Hwf as (Hh & Hseg & Hgood & Hspan).
  pose proof (good_nonneg _ Hgood) as Hnn. pose proof Hnn as [Hn1 [_ Hn2]%Forall_cons]%Forall_app.
  pose proof Hgood as [Hg1 [[Hs0 Hsm] Hg2]%Forall_cons]%Forall_app. simpl in Hs0, Hsm.
  pose proof (span_in _ (b_size b, false) Hnn ltac:(set_solver)) as Hspi. simpl in Hspi.
  rewrite Hspan in Hspi. unfold KERNEL_HEAP_SIZE, HDR in Hspi.
  pose proof (align16_spec new ltac:(unfold U64_MAX; lia)) as [Ha Hm].
  set (k := align16 new) in *. assert (k <= b_size b) by (Z.div_mod_to_equations; lia).
  pose proof Hseg as [Hs1 Hs2]%seg_app.
  destruct (split_block_seg (h_blocks h) (last_addr None heap l1) (heap + span l1) (b_size b) false
              l2 k ltac:(lia) ltac:(lia) ltac:(lia) ltac:(lia) Hn2 Hs2)
    as (bs & -> & Hs3 & Hf).
  destruct (split_good k (b_size b) false) as [Hgk Hsk]; [split; [lia|done]|done..|].
  exists bs, (l1 ++ split_keep k (b_size b) false ++ l2). split; [done|].
  assert (exists s' t, split_keep k (b_size b) false = (s', false) :: t /\ new <= s' /\
    live (heap + span l1) (((s', false) :: t) ++ l2) =
      (heap + span l1 + HDR, s') :: live (heap + span l1 + HDR + b_size b) l2)
    as (s' & t & Ek & Hs' & El).
  { unfold split_keep. case_match; eexists _, _; (split; [done|]); (split; [lia|]); [done|].
    simpl. do 2 f_equal. lia. }
  rewrite Ek in *. split.
  - split; [done|]. split; [eapply seg_replace; [done|exact Hseg|done|done]|]. split.
    + rewrite !Forall_app. repeat split; auto.
    + rewrite !span_app in *. rewrite !span_cons in *. lia.
  - apply (Hrest _ _ [(heap + span l1 + HDR, s')]) with (Lc := [(heap + span l1 + HDR, new)]).
    + rewrite live_app, El. simpl. by rewrite Permutation_middle.
    + by repeat constructor.
Qed.

Lemma wf_with_mem h l m : heap_wf h l -> heap_wf (with_mem h m) l.
Proof. done. Qed.
Lemma holds_with_mem h l L m : holds h l L -> holds (with_mem h m) l L.
Proof. done. Qed.

Lemma krealloc_holds h l L1 p n L2 old new h' p' :
  0 < heap -> heap_wf h l -> holds h l (L1 ++ (p, n) :: L2) -> 0 < new <= U64_MAX ->
  krealloc p old new h = Some (h', p') -> p' <> 0 ->
  exists l', heap_wf h' l' /\ holds h' l' (L1 ++ (p', new) :: L2).
Proof.
  intros Hp Hwf HL Hnew Hk Hp'. unfold krealloc in Hk.
  destruct (holds_split _ _ _ _ _ _ HL) as (l1 & sz & l2 & El & Ep & Hle & _). subst l.
  pose proof Hwf as (_ & _ & Hgood & _). pose proof (good_nonneg _ Hgood) as Hnn.
  pose proof Hnn as [Hn1 _]%Forall_app. pose proof (span_nonneg _ Hn1).
  replace (p =? 0) with false in Hk by (unfold HDR in *; lia).
  replace (new =? 0) with false in Hk by lia.
  destruct (h_blocks h !! (p - HDR)) as [b|] eqn:Eb; [|done]. cbn [mbind option_bind] in Hk.
  destruct (_ && _) eqn:Ec.
  - bcases. destruct (shrink_holds h (l1 ++ (sz, false) :: l2) L1 p n L2 new b Hp Hwf HL ltac:(lia) Eb ltac:(lia))
      as (bs & l' & Es & Hwf' & HL').
    rewrite Es in Hk. simplify_eq/=. eauto.
  - destruct (kmalloc new h) as [[h1 q]|] eqn:Em; [|done]. cbn [mbind option_bind] in Hk.
    destruct (Z.eqb_spec q 0) as [->|Hq]; [by simplify_eq|].
    destruct (kmalloc_holds h _ _ new h1 q Hp Hwf HL ltac:(lia) Em Hq)
      as (l' & ? & ? & ? & Hwf1 & HL1 & _).
    destruct (h_blocks h1 !! (p - HDR)) as [b1|] eqn:Eb1; [|done]. cbn [mbind option_bind] in Hk.
    set (h2 := if negb (old =? 0) then _ else _) in Hk.
    assert (heap_wf h2 l' /\ holds h2 l' (((q, new) :: L1) ++ (p, n) :: L2)) as [Hwf2 HL2].
    { subst h2. repeat case_match; done. }
    destruct (kfree_holds _ _ _ _ _ _ Hp Hwf2 HL2) as (h3 & l3 & Ef & Hwf3 & HL3 & _).
    rewrite Ef in Hk. simplify_eq/=. exists l3. split; [done|].
    destruct HL3 as (B & HB & HF). inversion HF as [|b0 ? B0 ? Hb0 HF0]; subst.
    apply Forall2_app_inv_r in HF0 as (B1 & B2 & HF1 & HF2 & ->).
    exists (B1 ++ b0 :: B2). split; [by rewrite HB, Permutation_middle|].
    apply Forall2_app; [done|]. by constructor.
Qed.

Lemma heap_reach_inv h L : 0 < heap -> heap_reach h L -> exists l, heap_wf h l /\ holds h l L.
Proof.
  intros Hp. induction 1 as [h|h L m _ (l & Hwf & HL)|h L n h' p _ (l & Hwf & HL) Hn Hk Hp0
    |h L k n h' p _ (l & Hwf & HL) Hkr Hn Hk Hp0|h L1 p n L2 h' _ (l & Hwf & HL) Hk
    |h L1 p n L2 old new h' p' _ (l & Hwf & HL) Hn Hk Hp0].
  - eexists. split; [apply heap_init_wf|]. exists []. simpl. split; [done|constructor].
  - exists l. done.
  - destruct (kmalloc_holds _ _ _ _ _ _ Hp Hwf HL Hn Hk Hp0) as (l' & ? & ? & ? & ? & ? & _). eauto.
  - unfold kcalloc in Hk. destruct (_ && _) eqn:E; [simplify_eq|].
    assert (k * n <= U64_MAX) as Hle.
    { destruct (Z.eqb_spec k 0) as [->|]; [unfold U64_MAX; lia|]. cbn [negb andb] in E.
      apply Z.ltb_ge in E. transitivity (k * (U64_MAX / k)); [nia|].
      apply Z.mul_div_le. lia. }
    rewrite u64_small in Hk by (unfold U64_MAX in *; nia).
    destruct (kmalloc (k * n) h) as [[h1 q]|] eqn:Em; [|done]. cbn [mbind option_bind] in Hk.
    destruct (Z.eqb_spec q 0); simplify_eq.
    destruct (kmalloc_holds h l L (k * n) _ _ Hp Hwf HL ltac:(nia) Em Hp0) as (l' & ? & ? & ? & ? & ? & _).
    exists l'. done.
  - destruct (kfree_holds _ _ _ _ _ _ Hp Hwf HL) as (h2 & l' & E & ? & ? & _).
    rewrite E in Hk. simplify_eq. eauto.
  - by eapply krealloc_holds.
Qed.

End Heap.

(** ** Theorems *)

(** Two blocks that share no byte. *)
Definition disjoint_blocks (b c : Z * Z) : Prop := b.1 + b.2 <= c.1 \/ c.1 + c.2 <= b.1.

Lemma sorted_pairwise l : StronglySorted before l -> pairwise disjoint_blocks l.
Proof.
  induction 1 as [|b l _ IH H]; simpl; [done|]. split; [|done].
  eapply Forall_impl; [exact H|]. unfold before, disjoint_blocks, HDR. intros. lia.
Qed.

Lemma live_pairwise heap h l B : heap_wf heap h l -> live heap l ≡ₚ B -> pairwise disjoint_blocks B.
Proof.
  intros (_ & _ & Hg & _) HB. eapply pairwise_perm; [|exact HB|].
  - unfold disjoint_blocks. tauto.
  - by apply sorted_pairwise, live_sorted.
Qed.

(** C7 In every state a client reaches through [kmalloc], [kcalloc], [krealloc]
    and [kfree], the blocks it holds are pairwise disjoint, 16-byte aligned
    relative to the array and inside it, and the header list is well formed. *)
Theorem heap_reach_safe heap h L :
  0 < heap -> heap_reach heap h L ->
  (exists l, heap_wf heap h l) /\
  (forall i p n, L !! i = Some (p, n) ->
     heap + HDR <= p /\ p + n <= heap + KERNEL_HEAP_SIZE /\ (p - heap) mod 16 = 0) /\
  (forall i j b c, i <> j -> L !! i = Some b -> L !! j = Some c -> disjoint_blocks b c).
Proof.
  intros Hp (l & Hwf & B & HB & HF)%heap_reach_inv; [|done].
  pose proof (live_pairwise _ _ _ _ Hwf HB) as Hd. split; [eauto|].
  destruct Hwf as (_ & _ & Hg & Hspan).
  pose proof (live_inside l heap Hg) as Hi. rewrite HB, Hspan in Hi. split.
  - intros i p n HL. destruct (Forall2_lookup_r _ _ _ _ _ HF HL) as ([q s] & HBi & E & Hle).
    rewrite Forall_lookup in Hi. specialize (Hi _ _ HBi). destruct Hi as (? & ? & ? & ?).
    simpl in *. subst q. repeat split; auto; lia.
  - intros i j [p n] [q k] Hij HLi HLj.
    destruct (Forall2_lookup_r _ _ _ _ _ HF HLi) as ([p' s] & HBi & E1 & ?).
    destruct (Forall2_lookup_r _ _ _ _ _ HF HLj) as ([q' t] & HBj & E2 & ?).
    simpl in *. subst p' q'.
    pose proof (pairwise_lookup disjoint_blocks B i j _ _ ltac:(unfold disjoint_blocks; tauto)
                  Hd Hij HBi HBj) as HR.
    unfold disjoint_blocks in *. simpl in *. lia.
Qed.

(** C8 [kmalloc] is first fit: it fails, changing nothing, exactly when the
    rounded size is zero or no free block holds it; otherwise it allocates from
    the first free block that does, splitting off a remainder of 32 bytes or more. *)
Theorem kmalloc_first_fit heap h l size :
  heap_wf heap h l -> 0 <= size <= U64_MAX ->
  match (if align16 size =? 0 then None else alloc_l (align16 size) heap l) with
  | None => kmalloc heap size h = Some (h, 0)
  | Some (l', x) => exists h', kmalloc heap size h = Some (h', x + HDR) /\
      heap_wf heap h' l' /\ h_mem h' = h_mem h /\ (coalesced l -> coalesced l')
  end.
Proof.
  intros Hwf Hs. pose proof (kmalloc_refines heap h l size Hwf Hs) as H.
  destruct (align16 size =? 0); [done|].
  destruct (alloc_l (align16 size) heap l) as [[l' x]|] eqn:E; [|done].
  destruct H as (h' & ? & ? & ?). exists h'. repeat split; auto; try apply H0.
  by eapply coalesced_alloc.
Qed.

(** Freeing a held block always succeeds, releases exactly that block,
    leaves the bytes of the others alone, and merges it with its free
    neighbours: a heap without adjacent free blocks stays that way. *)
Theorem kfree_coalesces heap h l L1 p n L2 :
  0 < heap -> heap_wf heap h l -> holds heap h l (L1 ++ (p, n) :: L2) ->
  exists h' l', kfree heap p h = Some h' /\ heap_wf heap h' l' /\ holds heap h' l' (L1 ++ L2) /\
    h_mem h' = h_mem h /\ (coalesced l -> coalesced l').
Proof. apply kfree_holds. Qed.

(** [krealloc] keeps the first [min(n, new)] bytes of the block, whether it
    shrinks in place or moves, when told the old size or 0. *)
Theorem krealloc_keeps_contents heap h l L1 p n L2 old new h' p' :
  0 < heap -> heap_wf heap h l -> holds heap h l (L1 ++ (p, n) :: L2) ->
  0 < new <= U64_MAX -> old = 0 \/ old = n ->
  krealloc heap p old new h = Some (h', p') -> p' <> 0 ->
  forall i, 0 <= i < Z.min n new -> h_mem h' (p' + i) = h_mem h (p + i).
Proof.
  intros Hp Hwf HL Hnew Hold Hk Hp' i Hi. unfold krealloc in Hk.
  destruct (holds_split _ _ _ _ _ _ _ HL) as (l1 & sz & l2 & El & Ep & Hle & _). subst l.
  pose proof Hwf as (_ & _ & Hgood & _). pose proof (good_nonneg _ Hgood) as Hnn.
  pose proof Hnn as [Hn1 _]%Forall_app. pose proof (span_nonneg _ Hn1).
  replace (p =? 0) with false in Hk by (unfold HDR in *; lia).
  replace (new =? 0) with false in Hk by lia.
  destruct (h_blocks h !! (p - HDR)) as [b|] eqn:Eb; [|done]. cbn [mbind option_bind] in Hk.
  destruct (_ && _) eqn:Ec.
  { destruct (split_block _ _ _); [|done]. by simplify_eq/=. }
  destruct (kmalloc heap new h) as [[h1 q]|] eqn:Em; [|done]. cbn [mbind option_bind] in Hk.
  destruct (Z.eqb_spec q 0) as [->|Hq]; [by simplify_eq|].
  destruct (kmalloc_holds heap h _ _ new h1 q Hp Hwf HL ltac:(lia) Em Hq)
    as (l' & M1 & M2 & szq & Hwf1 & HL1 & Hm1 & EL & EL' & Hszq).
  assert ((p, sz) ∈ live heap (l1 ++ (sz, false) :: l2)) as Hin
    by (rewrite live_app; subst p; set_solver).
  assert (disjoint_blocks (q, szq) (p, sz)) as Hd.
  { pose proof (live_pairwise _ _ _ ((q, szq) :: live heap (l1 ++ (sz, false) :: l2)) Hwf1) as Hd.
    rewrite EL', EL in Hd. destruct Hd as [Hd _]; [by rewrite Permutation_middle|].
    rewrite <- EL, Forall_forall in Hd. by apply Hd. }
  destruct (live_inv p sz l' heap) as (k1 & k2 & -> & Ep1).
  { rewrite EL'. rewrite EL in Hin. set_solver. }
  destruct (wf_lookup _ _ _ _ _ _ Hwf1) as (b1 & Hb1 & Hbs1 & Hbm1).
  replace (heap + span k1) with (p - HDR) in Hb1 by lia.
  rewrite Hb1 in Hk. cbn [mbind option_bind] in Hk. rewrite Hbm1, Z.eqb_refl in Hk.
  set (h2 := if negb (old =? 0) then _ else _) in Hk.
  assert (heap_wf heap h2 _ /\ holds heap h2 _ (((q, new) :: L1) ++ (p, n) :: L2)) as [Hwf2 HL2]
    by (subst h2; repeat case_match; (split; [exact Hwf1|exact HL1])).
  destruct (kfree_holds _ _ _ _ _ _ _ Hp Hwf2 HL2) as (h3 & l3 & Ef & _ & _ & Hm3 & _).
  rewrite Ef in Hk. injection Hk as <- <-. rewrite Hm3.
  assert (exists k, h_mem h2 = fst (Block.memcpy (h_mem h1) q p (Z.to_nat k)) /\ Z.min n new <= k <= sz)
    as (k & -> & Hk).
  { clear Hwf2 HL2 Ef Hm3. subst h2. destruct (Z.eqb_spec old 0); cbn [negb].
    - eexists. split; [done|]. case_match; bcases; lia.
    - eexists. split; [done|]. case_match; bcases; lia. }
  cbn [Block.memcpy fst]. rewrite Hm1.
  rewrite (Block.copy_forward_spec _ _ _ (Z.of_nat (Z.to_nat k))); [|unfold disjoint_blocks in Hd; simpl in Hd; lia|done].
  unfold mem_copy. zcases; try lia. f_equal. lia.
Qed.

(** ** Witnesses: a heap at 65536 with two blocks allocated *)

Definition empty_heap : heap_state := Heap ∅ None 0 0 0 (fun _ => 0).
Definition demo_init : heap_state := heap_init 65536 empty_heap.
Definition demo1 : heap_state := default empty_heap (fst <$> kmalloc 65536 100 demo_init).
Definition demo2 : heap_state := default empty_heap (fst <$> kmalloc 65536 16 demo1).

Lemma demo1_eq : kmalloc 65536 100 demo_init = Some (demo1, 65568).
Proof. vm_compute. reflexivity. Qed.
Lemma demo2_eq : kmalloc 65536 16 demo1 = Some (demo2, 65712).
Proof. vm_compute. reflexivity. Qed.

Lemma demo_reach : heap_reach 65536 demo2 [(65712, 16); (65568, 100)].
Proof.
  eapply reach_malloc; [|done|exact demo2_eq|done].
  eapply reach_malloc; [|done|exact demo1_eq|done]. constructor.
Qed.

Lemma demo_wf : exists l, heap_wf 65536 demo2 l /\ holds 65536 demo2 l [(65712, 16); (65568, 100)].
Proof. by apply heap_reach_inv, demo_reach. Qed.

Lemma heap_reach_safe_witness : disjoint_blocks (65712, 16) (65568, 100).
Proof.
  refine (proj2 (proj2 (heap_reach_safe 65536 demo2 _ _ demo_reach)) 0%nat 1%nat _ _ _ _ _);
    done.
Defined.

Lemma kmalloc_first_fit_witness :
  match (if align16 100 =? 0 then None
         else alloc_l (align16 100) 65536 [(KERNEL_HEAP_SIZE - HDR, true)]) with
  | None => kmalloc 65536 100 demo_init = Some (demo_init, 0)
  | Some (l', x) => exists h', kmalloc 65536 100 demo_init = Some (h', x + HDR) /\
      heap_wf 65536 h' l' /\ h_mem h' = h_mem demo_init /\
      (coalesced [(KERNEL_HEAP_SIZE - HDR, true)] -> coalesced l')
  end.
Proof. apply (kmalloc_first_fit 65536); [apply heap_init_wf|vm_compute; split; done]. Defined.

Lemma kfree_coalesces_witness : exists h', kfree 65536 65568 demo2 = Some h'.
Proof.
  destruct demo_wf as (l & Hwf & HL).
  destruct (kfree_coalesces 65536 demo2 l [(65712, 16)] 65568 100 [] ltac:(done) Hwf HL)
    as (h' & _ & E & _).
  exists h'. exact E.
Defined.

Definition demo3 : heap_state := default empty_heap (fst <$> krealloc 65536 65568 100 500 demo2).

Lemma demo3_eq : krealloc 65536 65568 100 500 demo2 = Some (demo3, 65760).
Proof.
  unfold demo3. assert (snd <$> krealloc 65536 65568 100 500 demo2 = Some 65760) as E
    by (vm_compute; reflexivity).
  destruct (krealloc 65536 65568 100 500 demo2) as [[h p]|]; [|discriminate E].
  injection E as ->. reflexivity.
Qed.

Lemma krealloc_keeps_contents_witness :
  h_mem demo3 (65760 + 99) = h_mem demo2 (65568 + 99).
Proof.
  destruct demo_wf as (l & Hwf & HL).
  refine (krealloc_keeps_contents 65536 demo2 l [(65712, 16)] 65568 100 [] 100 500 demo3 65760
            _ Hwf HL _ _ _ _ 99 _); [done|vm_compute; split; done|by right| |done|by split].
  exact demo3_eq.
Defined.
