(* ===== verification/Pmm.v ===== *)
(** * kernel/mm/pmm.c

    The physical frame allocator: a bump cursor over the largest usable region
    and a bounded stack of freed frames. The memory map is read from the
    multiboot tag in memory. [free_stack] is the used part of the array, its
    top first, so [free_stack_count] is its length. *)
From S2P Require Import Prelude.

Definition PAGE_SIZE : Z := 4096.

(** Arithmetic on page-aligned addresses. *)
Ltac pages := unfold U64_MAX, PAGE_SIZE in *; Z.div_mod_to_equations; lia.

Definition PMM_FREE_STACK_MAX : nat := Z.to_nat 65536.

Record memory_stats := Stats {
  total_bytes : Z; usable_bytes : Z; allocated_frames : Z; free_frames_estimate : Z }.

Record pmm := Pmm {
  stats : memory_stats; frame_cursor : Z; frame_limit : Z; free_stack : list Z }.

(** The fields of [struct boot_info] that [pmm_init] reads; 0 for NULL. *)
Record boot_memory := BootMemory {
  bm_mmap : Z; bm_mem_lower_kib : Z; bm_mem_upper_kib : Z;
  bm_rootfs_end : Z; bm_install_end : Z }.

Definition align_up (value alignment : Z) : Z :=
  Z.land (u64 (value + alignment - 1)) (Z.lnot (alignment - 1)).

(** The locals of the loop over the memory map. *)
Record mmap_acc := Acc { best_start : Z; best_len : Z; highest : Z; usable : Z }.

Definition mmap_entry (m : mem) (entry : Z) (a : mmap_acc) : mmap_acc :=
  let addr := mget 8 m entry in
  let len := mget 8 m (entry + 8) in
  let type := mget 4 m (entry + 16) in
  if negb (type =? 1) then a
  else
    let start := addr in
    let limit := u64 (addr + len) in
    let a := if highest a <? limit then Acc (best_start a) (best_len a) limit (usable a) else a in
    if 0x100000 <? limit
    then
      let start := if start <? 0x100000 then 0x100000 else start in
      let a := Acc (best_start a) (best_len a) (highest a) (u64 (usable a + u64 (limit - start))) in
      if best_len a <? u64 (limit - start)
      then Acc start (u64 (limit - start)) (highest a) (usable a) else a
    else a.

(** [while (entry < end)]; [None] when the fuel runs out (an entry size of 0). *)
Fixpoint mmap_loop (fuel : nat) (m : mem) (entry e entry_size : Z) (a : mmap_acc) : option mmap_acc :=
  match fuel with
  | O => None
  | S f => if entry <? e then mmap_loop f m (entry + entry_size) e entry_size (mmap_entry m entry a)
           else Some a
  end.

(** The region [pmm_init] settles on, with total and usable bytes. *)
Definition pick_region (m : mem) (b : boot_memory) : option (Z * Z * Z * Z) :=
  if bm_mmap b =? 0
  then
    let total := u64 (u64 (bm_mem_lower_kib b + bm_mem_upper_kib b) * 1024) in
    let usable := u64 (bm_mem_upper_kib b * 1024) in
    Some (0x200000, (if 0x200000 <? usable then usable - 0x200000 else 0), total, usable)
  else
    let size := mget 4 m (bm_mmap b + 4) in
    let entry_size := mget 4 m (bm_mmap b + 8) in
    a ← mmap_loop (S (Z.to_nat size)) m (bm_mmap b + 16) (bm_mmap b + size) entry_size (Acc 0 0 0 0);
    Some (best_start a, best_len a, highest a, usable a).

Definition reserved_end (kernel_end : Z) (b : boot_memory) : Z :=
  let r := align_up kernel_end PAGE_SIZE in
  let r := if negb (bm_rootfs_end b =? 0) && (r <? bm_rootfs_end b)
           then align_up (bm_rootfs_end b) PAGE_SIZE else r in
  if negb (bm_install_end b =? 0) && (r <? bm_install_end b)
  then align_up (bm_install_end b) PAGE_SIZE else r.

(** [kernel_end] is the linker's symbol. *)
Definition pmm_init (kernel_end : Z) (m : mem) (b : boot_memory) : option pmm :=
  '(best_start, best_len, total, usable) ← pick_region m b;
  let r := reserved_end kernel_end b in
  let cursor := align_up best_start PAGE_SIZE in
  let cursor := if (cursor <? r) && (r <? u64 (best_start + best_len)) then r else cursor in
  let limit := align_up (u64 (best_start + best_len)) PAGE_SIZE in
  let limit := if limit <? cursor then cursor else limit in
  Some (Pmm (Stats total usable 0 ((limit - cursor) / PAGE_SIZE)) cursor limit []).

Definition count_alloc (s : memory_stats) : memory_stats :=
  Stats (total_bytes s) (usable_bytes s) (u64 (allocated_frames s + 1))
        (if free_frames_estimate s =? 0 then 0 else free_frames_estimate s - 1).

(** Returns the frame, 0 when there is none. *)
Definition pmm_alloc_frame (p : pmm) : pmm * Z :=
  match free_stack p with
  | frame :: rest =>
    (Pmm (count_alloc (stats p)) (frame_cursor p) (frame_limit p) rest, frame)
  | [] =>
    if frame_limit p <? u64 (frame_cursor p + PAGE_SIZE) then (p, 0)
    else (Pmm (count_alloc (stats p)) (frame_cursor p + PAGE_SIZE) (frame_limit p) [],
          frame_cursor p)
  end.

Definition pmm_free_frame (frame : Z) (p : pmm) : pmm :=
  if (frame =? 0) || negb (Z.land frame (PAGE_SIZE - 1) =? 0) then p
  else if (PMM_FREE_STACK_MAX <=? length (free_stack p))%nat then p
  else
    let s := stats p in
    Pmm (Stats (total_bytes s) (usable_bytes s)
               (if allocated_frames s =? 0 then 0 else allocated_frames s - 1)
               (u64 (free_frames_estimate s + 1)))
        (frame_cursor p) (frame_limit p) (frame :: free_stack p).

(** ** Invariant *)

Section Pool.
(** The bounds of the pool that [pmm_init] chose. *)
Context (lo hi : Z).

(** [held]: the frames handed out and not given back. *)
Record pool_ok (p : pmm) (held : list Z) : Prop := {
  po_limit : frame_limit p = hi;
  po_cursor : lo <= frame_cursor p <= hi /\ frame_cursor p mod PAGE_SIZE = 0;
  po_nodup : NoDup (held ++ free_stack p);
  po_frames : forall f, f ∈ held ++ free_stack p ->
    lo <= f < frame_cursor p /\ f mod PAGE_SIZE = 0;
  po_estimate : free_frames_estimate (stats p) =
    (hi - frame_cursor p) / PAGE_SIZE + Z.of_nat (length (free_stack p)) }.

(** A client that frees only frames it holds. *)
Inductive pool_reach (p0 : pmm) : pmm -> list Z -> Prop :=
| pool_start : pool_reach p0 p0 []
| pool_alloc p held p' f : pool_reach p0 p held ->
    pmm_alloc_frame p = (p', f) -> f <> 0 -> pool_reach p0 p' (f :: held)
| pool_free p held1 f held2 : pool_reach p0 p (held1 ++ f :: held2) ->
    pool_reach p0 (pmm_free_frame f p) (held1 ++ held2).

Hypothesis Hlo : 0 < lo.
Hypothesis Hhi : hi mod PAGE_SIZE = 0 /\ hi <= U64_MAX - PAGE_SIZE.

Lemma free_stack_bound : Z.of_nat PMM_FREE_STACK_MAX = 65536.
Proof. unfold PMM_FREE_STACK_MAX. rewrite Z2Nat.id; lia. Qed.

Lemma alloc_pool_ok p held p' f :
  pool_ok p held -> pmm_alloc_frame p = (p', f) -> f <> 0 -> pool_ok p' (f :: held).
Proof.
  intros [Hl [Hc Hcm] Hnd Hfr Hest] Ha Hf. unfold pmm_alloc_frame in Ha.
  assert (0 <= (hi - frame_cursor p) / PAGE_SIZE) by (apply Z.div_pos; unfold PAGE_SIZE; lia).
  destruct (free_stack p) as [|g rest] eqn:E.
  - destruct (Z.ltb_spec (frame_limit p) (u64 (frame_cursor p + PAGE_SIZE))) as [Hlt|Hge]; simplify_eq.
    unfold U64_MAX, PAGE_SIZE in *. rewrite u64_small in Hge by lia.
    rewrite app_nil_r in *. split; simpl; try done.
    + split; [lia|]. pages.
    + rewrite app_nil_r. constructor; [|done]. intros Hin. apply Hfr in Hin. lia.
    + intros f. rewrite app_nil_r. intros [->|Hin]%elem_of_cons; [split; [lia|done]|].
      apply Hfr in Hin. split; [lia|tauto].
    + rewrite Hest in *. simpl in *. rewrite Z.add_0_r in *.
      case_match; bcases; pages.
  - simplify_eq. rewrite <- Permutation_middle in Hnd. split; simpl; try done.
    + intros g Hg. apply Hfr. elems.
    + rewrite Hest. simpl. case_match; bcases; lia.
Qed.

Lemma free_pool_ok p held1 f held2 :
  pool_ok p (held1 ++ f :: held2) -> pool_ok (pmm_free_frame f p) (held1 ++ held2).
Proof.
  intros [Hl [Hc Hcm] Hnd Hfr Hest].
  assert (lo <= f < frame_cursor p /\ f mod PAGE_SIZE = 0) as [Hf Hfm] by (apply Hfr; elems).
  assert (NoDup ((held1 ++ held2) ++ f :: free_stack p)) as Hnd'.
  { rewrite <- !Permutation_middle. rewrite <- !app_assoc in Hnd. simpl in Hnd.
    rewrite <- Permutation_middle in Hnd. by rewrite <- app_assoc. }
  unfold pmm_free_frame. replace (f =? 0) with false by lia.
  assert (Z.land f (PAGE_SIZE - 1) = 0) as ->.
  { change (PAGE_SIZE - 1) with (Z.ones 12). rewrite land_ones_mod by lia. done. }
  cbn [orb negb Z.eqb]. destruct (PMM_FREE_STACK_MAX <=? length (free_stack p))%nat eqn:E.
  - split; auto.
    + rewrite <- Permutation_middle in Hnd'. by inversion Hnd'.
    + intros g Hg. apply Hfr. elems.
  - apply Nat.leb_gt in E. pose proof free_stack_bound. split; simpl; auto.
    + intros g Hg. apply Hfr. elems.
    + rewrite Hest. unfold U64_MAX, PAGE_SIZE in *. rewrite u64_small; [lia|].
      pose proof (Z.div_pos (hi - frame_cursor p) 4096 ltac:(lia) ltac:(done)).
      split; [lia|]. pose proof (Z.div_le_upper_bound (hi - frame_cursor p) 4096 hi ltac:(lia)).
      pages.
Qed.

Lemma pool_reach_ok p0 p held : pool_ok p0 [] -> pool_reach p0 p held -> pool_ok p held.
Proof.
  intros H0. induction 1; [done|by eapply alloc_pool_ok|by apply free_pool_ok].
Qed.

End Pool.

(** ** [pmm_init] establishes the invariant *)

Lemma align_up_spec v : 0 <= v <= U64_MAX - PAGE_SIZE ->
  v <= align_up v PAGE_SIZE < v + PAGE_SIZE /\ align_up v PAGE_SIZE mod PAGE_SIZE = 0.
Proof.
  intros Hv. unfold align_up, U64_MAX, PAGE_SIZE in *. change (4096 - 1) with (Z.ones 12).
  rewrite land_lnot_ones by lia. rewrite u64_small by lia. change (2 ^ 12) with 4096.
  pages.
Qed.

Lemma align_up_mod v : align_up v PAGE_SIZE mod PAGE_SIZE = 0.
Proof.
  unfold align_up, PAGE_SIZE. change (4096 - 1) with (Z.ones 12).
  rewrite land_lnot_ones by lia. change (2 ^ 12) with 4096. pages.
Qed.

Lemma align_up_range v : 0 <= align_up v PAGE_SIZE.
Proof.
  unfold align_up, PAGE_SIZE. change (4096 - 1) with (Z.ones 12).
  rewrite land_lnot_ones by lia. pose proof (u64_range (v + 4096 - 1)).
  change (2 ^ 12) with 4096. pages.
Qed.

Lemma reserved_end_mod k b : reserved_end k b mod PAGE_SIZE = 0.
Proof. unfold reserved_end. repeat case_match; apply align_up_mod. Qed.

Lemma pmm_init_ok k m b p :
  pmm_init k m b = Some p -> 0 < frame_cursor p -> frame_limit p <= U64_MAX - PAGE_SIZE ->
  pool_ok (frame_cursor p) (frame_limit p) p [] /\ frame_limit p mod PAGE_SIZE = 0.
Proof.
  intros H Hlo Hhi. unfold pmm_init in H.
  destruct (pick_region m b) as [[[[bs bl] t] u]|]; [|done]. simplify_eq/=.
  set (c := if _ && _ then _ else _) in *. set (l := if _ <? c then c else _) in *.
  assert (c mod PAGE_SIZE = 0) by (unfold c; case_match; [apply reserved_end_mod|apply align_up_mod]).
  assert (c <= l /\ l mod PAGE_SIZE = 0) as [? ?].
  { unfold l. case_match; bcases; split; try lia; try done. apply align_up_mod. }
  split; [|done]. split; simpl; auto; try lia; [constructor|].
  intros f Hf. by apply elem_of_nil in Hf.
Qed.

(** C19 However a client interleaves allocations and frees, [pmm_alloc_frame]
    hands out page-aligned frames of the pool, none of them twice while held. *)
Theorem frames_distinct k m b p0 p held :
  pmm_init k m b = Some p0 -> 0 < frame_cursor p0 -> frame_limit p0 <= U64_MAX - PAGE_SIZE ->
  pool_reach p0 p held ->
  NoDup held /\ forall f, f ∈ held ->
    frame_cursor p0 <= f /\ f + PAGE_SIZE <= frame_limit p0 /\ f mod PAGE_SIZE = 0.
Proof.
  intros Hi Hlo Hhi Hr. destruct (pmm_init_ok k m b p0 Hi Hlo Hhi) as [H0 Hm].
  destruct (pool_reach_ok _ _ Hlo (conj Hm Hhi) _ _ _ H0 Hr) as [_ [Hc Hcm] Hnd Hfr _].
  apply NoDup_app in Hnd as (Hnd & _). split; [done|]. intros f Hf.
  destruct (Hfr f) as [? Hfm]; [elems|]. unfold PAGE_SIZE in *. repeat split; try done; [lia|].
  pages.
Qed.

(** The estimate of free frames is exact: on every reachable state an
    allocation fails exactly when the estimate is zero. *)
Theorem estimate_exact k m b p0 p held :
  pmm_init k m b = Some p0 -> 0 < frame_cursor p0 -> frame_limit p0 <= U64_MAX - PAGE_SIZE ->
  pool_reach p0 p held ->
  (snd (pmm_alloc_frame p) = 0 <-> free_frames_estimate (stats p) = 0).
Proof.
  intros Hi Hlo Hhi Hr. destruct (pmm_init_ok k m b p0 Hi Hlo Hhi) as [H0 Hm].
  destruct (pool_reach_ok _ _ Hlo (conj Hm Hhi) _ _ _ H0 Hr) as [Hl [Hc Hcm] Hnd Hfr ->].
  unfold pmm_alloc_frame. destruct (free_stack p) as [|f rest]; simpl.
  - rewrite Hl. unfold U64_MAX, PAGE_SIZE in *. rewrite u64_small by lia.
    destruct (Z.ltb_spec (frame_limit p0) (frame_cursor p + 4096)); simpl;
      pages.
  - destruct (Hfr f) as [? _]; [elems|].
    pose proof (Z.div_pos (frame_limit p0 - frame_cursor p) PAGE_SIZE ltac:(lia) ltac:(done)). lia.
Qed.

(** [n] allocations in a row. *)
Definition alloc_n (n : nat) (p : pmm) : pmm := Nat.iter n (fun p => fst (pmm_alloc_frame p)) p.

Lemma alloc_n_bump n : forall p, free_stack p = [] ->
  frame_limit p <= U64_MAX - PAGE_SIZE -> 0 <= frame_cursor p ->
  frame_cursor p + PAGE_SIZE * Z.of_nat n <= frame_limit p ->
  free_stack (alloc_n n p) = [] /\ frame_limit (alloc_n n p) = frame_limit p /\
  frame_cursor (alloc_n n p) = frame_cursor p + PAGE_SIZE * Z.of_nat n.
Proof.
  induction n as [|n IH]; intros p Hs Hl Hp Hc; [cbn; rewrite Z.add_0_r; auto|].
  destruct (IH p Hs Hl Hp) as (H1 & H2 & H3); [unfold PAGE_SIZE in *; lia|].
  change (alloc_n (S n) p) with (fst (pmm_alloc_frame (alloc_n n p))).
  unfold pmm_alloc_frame. rewrite H1, H2, H3. unfold PAGE_SIZE, U64_MAX in *.
  rewrite u64_small by lia. replace (_ <? _) with false by lia. simpl. repeat split; auto. lia.
Qed.

(** The pool is rounded up, not down: without a memory map, when the memory
    above 1 MiB is not a whole number of pages, the last frame handed out
    reaches past the end of that memory. *)
Theorem last_frame_past_end k m b p :
  bm_mmap b = 0 -> 0x200000 < bm_mem_upper_kib b * 1024 -> bm_mem_upper_kib b < 2 ^ 32 ->
  bm_mem_upper_kib b mod 4 <> 0 ->
  pmm_init k m b = Some p ->
  frame_cursor p < bm_mem_upper_kib b * 1024 ->
  exists n, let f := snd (pmm_alloc_frame (alloc_n n p)) in
    f <> 0 /\ usable_bytes (stats p) < f + PAGE_SIZE.
Proof.
  intros Hb Hu1 Hu2 Hm Hi Hc. set (e := bm_mem_upper_kib b * 1024) in *.
  unfold pmm_init, pick_region in Hi. rewrite Hb in Hi. cbn [Z.eqb mbind option_bind] in Hi.
  change (u64 (bm_mem_upper_kib b * 1024)) with (u64 e) in Hi.
  rewrite (u64_small e) in Hi by lia. replace (0x200000 <? e) with true in Hi by lia.
  replace (0x200000 + (e - 0x200000)) with e in Hi by lia. rewrite (u64_small e) in Hi by lia.
  destruct (align_up_spec e) as [Hl1 Hl2]; [unfold U64_MAX, PAGE_SIZE; lia|].
  set (l := align_up e PAGE_SIZE) in *. set (c := if _ && _ then _ else _) in Hi.
  injection Hi as <-. cbn [frame_cursor stats usable_bytes] in *.
  replace (l <? c) with false in * by lia.
  assert (0 <= c /\ c mod PAGE_SIZE = 0) as [Hc0 Hcm].
  { unfold c. case_match; (split; [|try apply reserved_end_mod; apply align_up_mod]).
    - unfold reserved_end. repeat case_match; apply align_up_range.
    - apply align_up_range. }
  assert (e < l) as Hel.
  { unfold e, PAGE_SIZE in *. pages. }
  assert (exists q, l = c + PAGE_SIZE * (q + 1) /\ 0 <= q /\ (l - c) / PAGE_SIZE = q + 1)
    as (q & Hlq & Hq0 & ->) by (exists ((l - c) / PAGE_SIZE - 1); pages).
  exists (Z.to_nat q). set (p := Pmm _ c l []).
  destruct (alloc_n_bump (Z.to_nat q) p) as (H1 & H2 & H3); try done.
  { unfold p, U64_MAX, PAGE_SIZE in *. cbn [frame_limit]. lia. }
  { unfold p, PAGE_SIZE in *. cbn [frame_limit frame_cursor]. lia. }
  clearbody l c. cbv zeta. unfold pmm_alloc_frame. rewrite H1, H2, H3.
  subst p. cbn [frame_limit frame_cursor]. clear H1 H2 H3. rewrite Z2Nat.id by done.
  unfold PAGE_SIZE in *. rewrite u64_small by lia.
  destruct (Z.ltb_spec l (c + 4096 * q + 4096)); [lia|]. simpl. lia.
Qed.

(** ** Witnesses *)

(** A pool without a memory map: 4098 KiB above 1 MiB, the kernel ending at 2 MiB. *)
Definition small_boot : boot_memory := BootMemory 0 640 4098 0 0.

Definition small_pool : pmm := Pmm (Stats 4851712 4196352 0 513) 0x200000 0x401000 [].

Lemma small_pool_init : pmm_init 0x200000 (fun _ => 0) small_boot = Some small_pool.
Proof. vm_compute. reflexivity. Qed.

(** Two allocations, the first freed, and a third that reuses it. *)
Lemma small_pool_reach : pool_reach small_pool
  (Pmm (Stats 4851712 4196352 2 511) 0x202000 0x401000 []) [0x200000; 0x201000].
Proof.
  eapply (pool_alloc small_pool (Pmm (Stats 4851712 4196352 1 512) 0x202000 0x401000 [0x200000]));
    [|vm_compute; reflexivity|done].
  change [0x201000] with ([0x201000] ++ []).
  apply (pool_free small_pool (Pmm (Stats 4851712 4196352 2 511) 0x202000 0x401000 []) [0x201000] 0x200000 []).
  eapply (pool_alloc small_pool (Pmm (Stats 4851712 4196352 1 512) 0x201000 0x401000 []));
    [|vm_compute; reflexivity|done].
  eapply (pool_alloc small_pool small_pool); [apply pool_start|vm_compute; reflexivity|done].
Qed.

Lemma frames_distinct_witness :
  NoDup [0x200000; 0x201000] /\ forall f, f ∈ [0x200000; 0x201000] ->
    0x200000 <= f /\ f + PAGE_SIZE <= 0x401000 /\ f mod PAGE_SIZE = 0.
Proof.
  eapply (frames_distinct _ _ _ small_pool _ _ small_pool_init); [done|done|].
  apply small_pool_reach.
Defined.

Lemma estimate_exact_witness :
  snd (pmm_alloc_frame (Pmm (Stats 4851712 4196352 2 511) 0x202000 0x401000 [])) = 0 <-> 511 = 0.
Proof.
  apply (estimate_exact _ _ _ small_pool (Pmm (Stats 4851712 4196352 2 511) 0x202000 0x401000 [])
    [0x200000; 0x201000] small_pool_init); [done|done|].
  apply small_pool_reach.
Defined.

Lemma last_frame_past_end_witness :
  exists n, let f := snd (pmm_alloc_frame (alloc_n n small_pool)) in
    f <> 0 /\ 4196352 < f + PAGE_SIZE.
Proof.
  apply (last_frame_past_end 0x200000 (fun _ => 0) small_boot small_pool);
    [done|done|done|done|apply small_pool_init|done].
Defined.
