(* ===== verification/Digest.v ===== *)
(** * Iterated hash functions over 64-byte blocks

    SHA-1 (kernel/lib/crypto.c) and SHA-256 (userspace/libc/src/tls.c) are the
    same program around two compression functions: the context, [update],
    [final] and HMAC. [BlockHash] is what they ask of the compression function's
    file; the streaming theorem, HMAC and the counting of output blocks are
    proved here once for both.

    Bytes are lists of 8-bit [Z], 32-bit words are [Z] reduced by [u32]. The
    context keeps the 64-byte array [sha_block] with whatever stale bytes it
    holds past [sha_used]; [represents] says what a context stands for. *)
From S2P Require Import Prelude.

Definition load_be32 (p : list Z) : Z :=
  Z.lor (Z.lor (Z.lor (Z.shiftl (nth 0 p 0) 24) (Z.shiftl (nth 1 p 0) 16))
               (Z.shiftl (nth 2 p 0) 8)) (nth 3 p 0).

Definition store_be32 (v : Z) : list Z :=
  [u8 (Z.shiftr v 24); u8 (Z.shiftr v 16); u8 (Z.shiftr v 8); u8 v].

(** [p[i] = (uint8_t)v; v >>= 8] for [i] from 7 down to 0. *)
Definition store_be64 (v : Z) : list Z :=
  map (fun i => u8 (Z.shiftr v (8 * (7 - Z.of_nat i)))) (seq 0 8).

(** The compression function on a chaining value and a 64-byte block, the
    initial value, and the number of words of the digest. *)
Class BlockHash := {
  bh_compress : list Z -> list Z -> list Z;
  bh_H0 : list Z;
  bh_words : nat;
  bh_words_max : (bh_words <= 16)%nat
}.

Record hash_ctx := Ctx { sha_h : list Z; sha_bytes : Z; sha_block : list Z; sha_used : nat }.

Section Streaming.
Context {BH : BlockHash}.

Definition hash_transform (ctx : hash_ctx) (block : list Z) : hash_ctx :=
  Ctx (bh_compress (sha_h ctx) block) (sha_bytes ctx) (sha_block ctx) (sha_used ctx).

Definition hash_init : hash_ctx := Ctx bh_H0 0 (replicate 64 0) 0.

(** [while (len)]: fill the block, and transform it when it is full. *)
Fixpoint update_loop (fuel : nat) (ctx : hash_ctx) (p : list Z) : option hash_ctx :=
  match fuel with
  | O => None
  | S f =>
    match p with
    | [] => Some ctx
    | _ =>
      let n := Nat.min (64 - sha_used ctx) (length p) in
      let ctx := Ctx (sha_h ctx) (sha_bytes ctx)
                     (list_inserts (sha_used ctx) (take n p) (sha_block ctx))
                     (sha_used ctx + n)%nat in
      let ctx :=
        if (sha_used ctx =? 64)%nat
        then let c := hash_transform ctx (sha_block ctx) in
             Ctx (sha_h c) (sha_bytes c) (sha_block c) 0
        else ctx in
      update_loop f ctx (drop n p)
    end
  end.

Definition hash_update (ctx : hash_ctx) (data : list Z) : option hash_ctx :=
  update_loop (S (length data))
    (Ctx (sha_h ctx) (u64 (sha_bytes ctx + Z.of_nat (length data))) (sha_block ctx) (sha_used ctx))
    data.

(** [while (ctx->used != 56) hash_update(ctx, &zero, 1)] *)
Fixpoint pad_loop (fuel : nat) (ctx : hash_ctx) : option hash_ctx :=
  match fuel with
  | O => None
  | S f => if (sha_used ctx =? 56)%nat then Some ctx
           else ctx ← hash_update ctx [0]; pad_loop f ctx
  end.

Definition hash_final (ctx : hash_ctx) : option (list Z) :=
  let bits := u64 (sha_bytes ctx * 8) in
  ctx ← hash_update ctx [0x80];
  ctx ← pad_loop 65 ctx;
  ctx ← hash_update ctx (store_be64 bits);
  Some (concat (map (fun i => store_be32 (nth i (sha_h ctx) 0)) (seq 0 bh_words))).

(** The digest of one buffer. *)
Definition hash_once (data : list Z) : option (list Z) :=
  ctx ← hash_update hash_init data; hash_final ctx.

Definition hmac_pad (k0 : list Z) (x : Z) : list Z := map (fun b => Z.lxor b x) k0.

(** HMAC: the key is hashed when it is longer than a block. *)
Definition hash_hmac (key data : list Z) : option (list Z) :=
  k0 ← (if (64 <? length key)%nat
        then digest ← hash_once key; Some (list_inserts 0 digest (replicate 64 0))
        else Some (list_inserts 0 key (replicate 64 0)));
  ctx ← hash_update hash_init (hmac_pad k0 0x36);
  ctx ← hash_update ctx data;
  digest ← hash_final ctx;
  ctx ← hash_update hash_init (hmac_pad k0 0x5c);
  ctx ← hash_update ctx digest;
  hash_final ctx.

(** ** Reference definitions *)

(** Compress whole 64-byte blocks; the bytes left over stay pending. *)
Fixpoint absorb_upto (n : nat) (h l : list Z) : list Z * list Z :=
  match n with
  | O => (h, l)
  | S n => if decide (64 <= length l)%nat then absorb_upto n (bh_compress h (take 64 l)) (drop 64 l)
           else (h, l)
  end.

Definition absorb (h l : list Z) : list Z * list Z := absorb_upto (length l) h l.

Definition hash_pad (l : list Z) : list Z :=
  l ++ [0x80] ++ replicate (Z.to_nat ((55 - Z.of_nat (length l)) mod 64)) 0 ++
  store_be64 (8 * Z.of_nat (length l)).

Definition hash_spec (l : list Z) : list Z :=
  concat (map (fun i => store_be32 (nth i (fst (absorb bh_H0 (hash_pad l))) 0)) (seq 0 bh_words)).

Definition hmac_spec (key data : list Z) : list Z :=
  let k := if (64 <? length key)%nat then hash_spec key else key in
  let k0 := k ++ replicate (64 - length k) 0 in
  hash_spec (hmac_pad k0 0x5c ++ hash_spec (hmac_pad k0 0x36 ++ data)).

(** ** Contexts up to their stale bytes *)

(** What a context stands for: chaining value, length and pending bytes. *)
Definition pending (ctx : hash_ctx) : list Z := take (sha_used ctx) (sha_block ctx).

Definition ctx_ok (ctx : hash_ctx) : Prop :=
  length (sha_block ctx) = 64%nat /\ (sha_used ctx < 64)%nat.

(** [represents ctx h p n] : chaining value [h], pending bytes [p], [n] bytes fed. *)
Definition represents (ctx : hash_ctx) (hp : list Z * list Z) (n : Z) : Prop :=
  ctx_ok ctx /\ (sha_h ctx, pending ctx) = hp /\ sha_bytes ctx = n.

Lemma absorb_upto_enough n : forall h l, (length l <= n)%nat -> absorb_upto n h l = absorb h l.
Proof.
  unfold absorb. induction n as [n IH] using lt_wf_ind. intros h l Hl.
  destruct n as [|n]; [by replace (length l) with 0%nat by lia|].
  destruct (length l) as [|k] eqn:E; [by destruct l|]. cbn [absorb_upto].
  destruct (decide (64 <= length l)%nat); [|done].
  assert (length (drop 64 l) <= k)%nat by (rewrite length_drop; lia).
  rewrite IH by lia. destruct (decide (k < S n)%nat) as [Hk|]; [|lia].
  symmetry. by apply IH.
Qed.

Lemma absorb_short h l : (length l < 64)%nat -> absorb h l = (h, l).
Proof.
  intros H. unfold absorb. destruct (length l) eqn:E; [done|]. cbn [absorb_upto].
  destruct (decide _); [lia|done].
Qed.

Lemma absorb_long h l : (64 <= length l)%nat ->
  absorb h l = absorb (bh_compress h (take 64 l)) (drop 64 l).
Proof.
  intros H. unfold absorb at 1. destruct (length l) as [|n] eqn:E; [lia|]. cbn [absorb_upto].
  destruct (decide _); [|lia]. apply absorb_upto_enough. rewrite length_drop. lia.
Qed.

(** Induction over the blocks of a message. *)
Lemma absorb_ind (P : list Z -> list Z -> Prop) :
  (forall h l, (64 <= length l)%nat -> P (bh_compress h (take 64 l)) (drop 64 l) -> P h l) ->
  (forall h l, (length l < 64)%nat -> P h l) -> forall h l, P h l.
Proof.
  intros H1 H2 h l. remember (length l) as n eqn:E. revert h l E.
  induction n as [n IH] using lt_wf_ind. intros h l ->.
  destruct (decide (64 <= length l)%nat); [|apply H2; lia].
  apply H1; [done|]. apply (IH (length (drop 64 l))); [rewrite length_drop; lia|done].
Qed.

Lemma absorb_app h a b : absorb h (a ++ b) = let '(h', p) := absorb h a in absorb h' (p ++ b).
Proof.
  revert h a. refine (absorb_ind _ _ _); intros h a Hl; [intros IH|].
  - rewrite (absorb_long h a), absorb_long by (rewrite ?length_app; lia).
    by rewrite take_app_le, drop_app_le by lia.
  - by rewrite (absorb_short h a).
Qed.

Lemma absorb_pending h l : length (snd (absorb h l)) = (length l mod 64)%nat.
Proof.
  revert h l. refine (absorb_ind _ _ _); intros h l Hl; [intros IH|].
  - rewrite absorb_long, IH, length_drop by done.
    replace (length l) with (length l - 64 + 1 * 64)%nat at 2 by lia.
    by rewrite Nat.Div0.mod_add.
  - rewrite absorb_short, Nat.mod_small by done. done.
Qed.

Lemma pending_length ctx : ctx_ok ctx -> length (pending ctx) = sha_used ctx.
Proof. intros [H1 H2]. unfold pending. rewrite length_take. lia. Qed.

Lemma take_inserts (l k : list Z) i :
  (i + length k <= length l)%nat -> take (i + length k) (list_inserts i k l) = take i l ++ k.
Proof.
  intros H. apply list_eq. intros j. destruct (decide (j < i + length k)%nat) as [Hj|Hj].
  - rewrite lookup_take_lt by done. destruct (decide (j < i)%nat).
    + rewrite list_lookup_inserts_lt by done. rewrite lookup_app_l by (rewrite length_take; lia).
      by rewrite lookup_take_lt.
    + rewrite list_lookup_inserts by lia.
      rewrite lookup_app_r by (rewrite length_take; lia). f_equal. rewrite length_take. lia.
  - rewrite lookup_take_ge by lia. symmetry. apply lookup_ge_None_2.
    rewrite length_app, length_take. lia.
Qed.

Lemma update_loop_S fuel ctx p : p <> [] ->
  let n := Nat.min (64 - sha_used ctx) (length p) in
  let blk := list_inserts (sha_used ctx) (take n p) (sha_block ctx) in
  update_loop (S fuel) ctx p =
  update_loop fuel (if (sha_used ctx + n =? 64)%nat
                    then Ctx (bh_compress (sha_h ctx) blk) (sha_bytes ctx) blk 0
                    else Ctx (sha_h ctx) (sha_bytes ctx) blk (sha_used ctx + n)) (drop n p).
Proof.
  intros Hp. destruct p as [|x p]; [done|]. cbv zeta.
  cbn [update_loop hash_transform sha_h sha_bytes sha_block sha_used]. reflexivity.
Qed.

(** The loop absorbs its input. *)
Lemma update_loop_absorb fuel : forall ctx p, ctx_ok ctx -> (length p < fuel)%nat ->
  exists ctx', update_loop fuel ctx p = Some ctx' /\
    represents ctx' (absorb (sha_h ctx) (pending ctx ++ p)) (sha_bytes ctx).
Proof.
  induction fuel as [|fuel IH]; intros ctx p Hok Hf; [lia|].
  pose proof (pending_length ctx Hok) as Hpl. destruct Hok as [Hb Hu].
  destruct p as [|x p']; [exists ctx|].
  { rewrite app_nil_r, absorb_short by lia. split; [done|]. by repeat split. }
  set (p := x :: p') in *. assert (0 < length p)%nat by (simpl; lia).
  set (n := Nat.min (64 - sha_used ctx) (length p)).
  assert (length (take n p) = n) as Hn by (rewrite length_take; lia).
  set (blk := list_inserts (sha_used ctx) (take n p) (sha_block ctx)).
  assert (take (sha_used ctx + n) blk = pending ctx ++ take n p) as Hblk.
  { unfold blk, pending. replace (sha_used ctx + n)%nat with (sha_used ctx + length (take n p))%nat by lia.
    apply take_inserts. lia. }
  assert (length blk = 64%nat) as Hbl by (unfold blk; by rewrite length_inserts).
  assert (length (drop n p) < fuel)%nat as Hf' by (rewrite length_drop; lia).
  rewrite update_loop_S by done. cbv zeta. fold n. fold blk.
  destruct (Nat.eqb_spec (sha_used ctx + n) 64) as [E|E].
  - destruct (IH (Ctx (bh_compress (sha_h ctx) blk) (sha_bytes ctx) blk 0) (drop n p))
      as (c & -> & Hc); [split; simpl; lia|done|]. exists c. split; [done|].
    cbn [sha_h sha_bytes] in Hc. unfold pending in Hc; cbn [sha_used sha_block take] in Hc.
    rewrite absorb_long by (rewrite length_app; lia).
    rewrite take_app_ge, drop_app_ge by lia. rewrite Hpl.
    replace (64 - sha_used ctx)%nat with n by lia.
    rewrite <- Hblk, E. by rewrite take_ge by lia.
  - destruct (IH (Ctx (sha_h ctx) (sha_bytes ctx) blk (sha_used ctx + n)) (drop n p))
      as (c & -> & Hc); [split; simpl; lia|done|]. exists c. split; [done|].
    cbn [sha_h sha_bytes] in Hc.
    unfold pending in Hc; cbn [sha_used sha_block] in Hc.
    by rewrite Hblk, <- app_assoc, take_drop in Hc.
Qed.

Lemma update_represents ctx h p n data :
  represents ctx (h, p) n ->
  exists ctx', hash_update ctx data = Some ctx' /\
    represents ctx' (absorb h (p ++ data)) (u64 (n + Z.of_nat (length data))).
Proof.
  intros (Hok & [= Hh Hp] & Hn). unfold hash_update.
  destruct (update_loop_absorb (S (length data))
    (Ctx (sha_h ctx) (u64 (sha_bytes ctx + Z.of_nat (length data))) (sha_block ctx) (sha_used ctx))
    data) as (c & Hc & Hr); [done|lia|]. exists c. split; [done|].
  cbn [sha_h sha_bytes] in Hr. change (pending (Ctx _ _ _ _)) with (pending ctx) in Hr.
  rewrite Hh, Hp, Hn in Hr. done.
Qed.

(** Feeding [data] to a context that has absorbed [l]. *)
Lemma update_feed ctx h l n data :
  represents ctx (absorb h l) n ->
  exists ctx', hash_update ctx data = Some ctx' /\
    represents ctx' (absorb h (l ++ data)) (u64 (n + Z.of_nat (length data))).
Proof.
  rewrite absorb_app. destruct (absorb h l) as [h' p]. apply update_represents.
Qed.

Lemma represents_used ctx h l n :
  represents ctx (absorb h l) n -> sha_used ctx = (length l mod 64)%nat.
Proof.
  intros (Hok & E & _). rewrite <- (absorb_pending h l), <- E. simpl.
  by rewrite pending_length.
Qed.

Lemma pad_loop_feed k : forall fuel ctx h l n,
  represents ctx (absorb h l) n -> (k < fuel)%nat ->
  ((length l + k) mod 64 = 56)%nat ->
  (forall j, (j < k)%nat -> ((length l + j) mod 64 <> 56)%nat) ->
  exists ctx' n', pad_loop fuel ctx = Some ctx' /\
    represents ctx' (absorb h (l ++ replicate k 0)) n'.
Proof.
  induction k as [|k IH]; intros fuel ctx h l n Hr Hf Hk Hj; (destruct fuel as [|fuel]; [lia|]);
    cbn [pad_loop]; rewrite (represents_used _ _ _ _ Hr).
  - rewrite Nat.add_0_r in Hk. rewrite Hk. exists ctx, n. by rewrite app_nil_r.
  - specialize (Hj 0%nat ltac:(lia)) as H0. rewrite Nat.add_0_r in H0.
    destruct (Nat.eqb_spec (length l mod 64) 56); [done|].
    destruct (update_feed ctx h l n [0] Hr) as (c & -> & Hc). cbn [mbind option_bind].
    destruct (IH fuel c h (l ++ [0]) _ Hc) as (c' & n' & -> & Hc'); [lia| | |].
    + rewrite length_app. simpl. by rewrite <- Nat.add_assoc.
    + intros j Hjk. rewrite length_app. simpl. rewrite <- Nat.add_assoc. apply (Hj (S j)). lia.
    + exists c', n'. split; [done|]. by rewrite <- app_assoc in Hc'.
Qed.

Lemma length_store_be64 v : length (store_be64 v) = 8%nat.
Proof. done. Qed.

#[local] Opaque hash_update absorb.

(** The number of zero bytes up to byte 56 of a block. *)
Lemma pad_count n : let k := Z.to_nat ((55 - Z.of_nat n) mod 64) in
  (k < 65)%nat /\ ((n + 1 + k) mod 64 = 56)%nat /\
  (forall j, (j < k)%nat -> ((n + 1 + j) mod 64 <> 56)%nat).
Proof.
  pose proof (Z.mod_pos_bound (55 - Z.of_nat n) 64 ltac:(lia)) as Hz. cbv zeta.
  split; [lia|]. split; [|intros j Hj Hjm; apply (f_equal Z.of_nat) in Hjm];
    [apply Nat2Z.inj|]; rewrite Nat2Z.inj_mod, !Nat2Z.inj_add in *;
    change (Z.of_nat 64) with 64 in *; Z.div_mod_to_equations; lia.
Qed.

(** Finishing a context that has absorbed the message [l]. *)
Lemma final_spec ctx l :
  Z.of_nat (length l) < 2 ^ 61 ->
  represents ctx (absorb bh_H0 l) (u64 (Z.of_nat (length l))) ->
  hash_final ctx = Some (hash_spec l).
Proof.
  intros Hl Hr. unfold hash_final. destruct Hr as (Hok & E & Hn). pose proof Hn as Hbits.
  rewrite u64_small in Hbits by lia.
  assert (u64 (sha_bytes ctx * 8) = 8 * Z.of_nat (length l)) as -> by
    (rewrite Hbits, u64_small; lia).
  destruct (update_feed ctx bh_H0 l _ [0x80] (conj Hok (conj E Hn))) as (c & -> & Hc).
  rewrite bind_some.
  set (k := Z.to_nat ((55 - Z.of_nat (length l)) mod 64)).
  destruct (pad_count (length l)) as (Hk1 & Hk2 & Hk3). fold k in Hk1, Hk2, Hk3.
  destruct (pad_loop_feed k 65 c bh_H0 (l ++ [0x80]) _ Hc) as (c2 & n2 & -> & Hc2);
    [done|by rewrite length_app|intros j; rewrite length_app; apply Hk3|].
  rewrite bind_some.
  destruct (update_feed c2 bh_H0 _ _ (store_be64 (8 * Z.of_nat (length l))) Hc2)
    as (c3 & -> & (_ & E3 & _)). rewrite bind_some.
  unfold hash_spec, hash_pad. rewrite <- !app_assoc in E3. fold k. by rewrite <- E3.
Qed.

Lemma init_represents : represents hash_init (absorb bh_H0 []) 0.
Proof. rewrite absorb_short by (simpl; lia). split; [split; simpl; lia|done]. Qed.

(** Hashing fed to a fresh context in two parts. *)
Lemma two_updates a b :
  Z.of_nat (length (a ++ b)) < 2 ^ 61 ->
  (c ← hash_update hash_init a; c ← hash_update c b; hash_final c) = Some (hash_spec (a ++ b)).
Proof.
  intros Hl. destruct (update_feed _ _ _ _ a init_represents) as (c & -> & Hc).
  cbn [mbind option_bind app] in *.
  destruct (update_feed _ _ _ _ b Hc) as (c2 & -> & Hc2). cbn [mbind option_bind].
  apply final_spec; [done|]. rewrite length_app in *. rewrite Z.add_0_l in Hc2.
  rewrite (u64_small (Z.of_nat (length a))) in Hc2 by lia. by rewrite Nat2Z.inj_add.
Qed.


(** Feed a message piece by piece. *)
Definition hash_feed (ctx : hash_ctx) (chunks : list (list Z)) : option hash_ctx :=
  foldl (fun c data => c ← c; hash_update c data) (Some ctx) chunks.

Lemma feed_represents chunks : forall ctx l n,
  represents ctx (absorb bh_H0 l) n -> n = u64 (Z.of_nat (length l)) ->
  exists ctx' n', hash_feed ctx chunks = Some ctx' /\
    represents ctx' (absorb bh_H0 (l ++ concat chunks)) n' /\
    n' = u64 (Z.of_nat (length (l ++ concat chunks))).
Proof.
  induction chunks as [|d chunks IH]; intros ctx l n Hr Hn.
  - exists ctx, n. simpl. by rewrite app_nil_r.
  - unfold hash_feed. cbn [foldl mbind option_bind].
    destruct (update_feed _ _ _ _ d Hr) as (c & -> & Hc).
    cbn [concat]. rewrite app_assoc. eapply IH; [exact Hc|]. subst n. rewrite length_app.
    unfold u64. by rewrite Zplus_mod_idemp_l, Nat2Z.inj_add.
Qed.

(** A context that was fed [l]. *)
Definition fed (ctx : hash_ctx) (l : list Z) : Prop :=
  represents ctx (absorb bh_H0 l) (u64 (Z.of_nat (length l))).

Lemma fed_init : fed hash_init [].
Proof. apply init_represents. Qed.

Lemma fed_update ctx l data : fed ctx l ->
  exists ctx', hash_update ctx data = Some ctx' /\ fed ctx' (l ++ data).
Proof.
  intros Hr. destruct (update_feed _ _ _ _ data Hr) as (c & Hc & Hr'). exists c. split; [done|].
  unfold fed. rewrite length_app, Nat2Z.inj_add. unfold u64 in *.
  by rewrite Zplus_mod_idemp_l in Hr'.
Qed.

Lemma fed_final ctx l : fed ctx l -> Z.of_nat (length l) < 2 ^ 61 ->
  hash_final ctx = Some (hash_spec l).
Proof. intros Hr Hl. by apply final_spec. Qed.

Lemma hash_once_eq data : Z.of_nat (length data) < 2 ^ 61 -> hash_once data = Some (hash_spec data).
Proof.
  intros Hl. unfold hash_once.
  destruct (update_feed _ _ _ _ data init_represents) as (c & -> & Hc).
  by apply final_spec.
Qed.

Lemma length_words (f : nat -> Z) l : length (concat (map (fun i => store_be32 (f i)) l)) = (4 * length l)%nat.
Proof. induction l as [|i l IH]; [done|]. cbn [map concat]. rewrite length_app, IH. cbn. lia. Qed.

Lemma length_hash_spec l : length (hash_spec l) = (4 * bh_words)%nat.
Proof.
  unfold hash_spec. rewrite (length_words (fun i => nth i (absorb bh_H0 (hash_pad l)).1 0)).
  by rewrite length_seq.
Qed.

Lemma inserts_front (k l : list Z) : (length k <= length l)%nat ->
  list_inserts 0 k l = k ++ drop (length k) l.
Proof.
  intros H. rewrite <- (take_drop (length k) (list_inserts 0 k l)).
  pose proof (take_inserts l k 0 ltac:(lia)) as E. simpl in E. rewrite E. f_equal.
  apply list_eq. intros i. rewrite !lookup_drop. by apply list_lookup_inserts_ge; lia.
Qed.

Lemma hmac_eq key data :
  Z.of_nat (length key) < 2 ^ 61 -> Z.of_nat (length data) + 64 < 2 ^ 61 ->
  hash_hmac key data = Some (hmac_spec key data).
Proof.
  intros Hk Hd. unfold hash_hmac, hmac_spec.
  pose proof bh_words_max.
  set (k := if (64 <? length key)%nat then hash_spec key else key).
  set (k0 := k ++ replicate (64 - length k) 0).
  assert (length k <= 64)%nat.
  { unfold k. destruct (Nat.ltb_spec 64 (length key)); [rewrite length_hash_spec; lia|lia]. }
  replace (if (64 <? length key)%nat then _ else _) with (Some k0).
  2:{ unfold k0, k in *. destruct (64 <? length key)%nat.
      - rewrite hash_once_eq by done. cbn [mbind option_bind]. rewrite inserts_front by done.
        by rewrite drop_replicate.
      - rewrite inserts_front by (rewrite length_replicate; lia). by rewrite drop_replicate. }
  assert (length k0 = 64%nat) as Hk0 by (unfold k0; rewrite length_app, length_replicate; lia).
  cbn [mbind option_bind].
  pose proof (two_updates (hmac_pad k0 0x36) data) as H1.
  pose proof (two_updates (hmac_pad k0 0x5c) (hash_spec (hmac_pad k0 0x36 ++ data))) as H2.
  unfold hmac_pad in H1, H2. rewrite !length_app, !length_map, Hk0 in H1, H2.
  rewrite length_hash_spec in H2. unfold hmac_pad.
  destruct (hash_update hash_init _) as [c|]; [|by specialize (H1 ltac:(lia))].
  cbn [mbind option_bind] in *.
  destruct (hash_update c data) as [c'|]; [|by specialize (H1 ltac:(lia))].
  cbn [mbind option_bind] in *. rewrite H1 by lia. cbn [mbind option_bind]. apply H2. lia.
Qed.

Lemma length_hmac_spec key data : length (hmac_spec key data) = (4 * bh_words)%nat.
Proof. apply length_hash_spec. Qed.

(** Two more pieces, and the streaming theorem both hashes are instances of. *)
Lemma hash_streaming chunks :
  Z.of_nat (length (concat chunks)) < 2 ^ 61 ->
  (ctx ← hash_feed hash_init chunks; hash_final ctx) = Some (hash_spec (concat chunks)).
Proof.
  intros Hl. destruct (feed_represents chunks hash_init [] 0 init_represents)
    as (c & n & -> & Hr & ->); [done|]. rewrite bind_some. by apply final_spec.
Qed.
End Streaming.

(** ** Output made of blocks of [d] bytes, cut to length *)

Section Blocks.
Context (d : nat).

Definition blocks (f : nat -> list Z) (n : nat) : list Z := concat (map f (seq 0 n)).

Lemma blocks_S f n : blocks f (S n) = blocks f n ++ f n.
Proof. unfold blocks. rewrite seq_S, map_app, concat_app. simpl. by rewrite app_nil_r. Qed.

Lemma length_blocks f n : (forall i, length (f i) = d) -> length (blocks f n) = (d * n)%nat.
Proof.
  intros Hf. induction n as [|n IH]; [done|]. rewrite blocks_S, length_app, IH, Hf. lia.
Qed.

Lemma blocks_le f n k m : (forall i, length (f i) = d) -> (n <= d * k)%nat -> (k <= m)%nat ->
  take n (blocks f m) = take n (blocks f k).
Proof.
  intros Hf Hn. induction 1 as [|m Hm IH]; [done|].
  rewrite blocks_S, take_app_le; [done|]. rewrite length_blocks by done. nia.
Qed.

(** The output after [k] blocks, and what one more block adds to it. *)
Lemma blocks_step f k n : (forall i, length (f i) = d) -> (d * k < n)%nat ->
  take n (blocks f k) ++ take (Nat.min (n - length (take n (blocks f k))) d) (f k) =
  take n (blocks f (S k)).
Proof.
  intros Hf Hn. pose proof (length_blocks f k Hf) as Hl.
  rewrite (take_ge (blocks f k)) by lia. rewrite Hl, blocks_S.
  rewrite take_app_ge by lia. f_equal. rewrite Hl.
  destruct (decide (n - d * k <= d)%nat); [by rewrite Nat.min_l|].
  rewrite Nat.min_r by lia. rewrite !take_ge; rewrite ?Hf; nia || done.
Qed.

Lemma blocks_full f n k : (0 < d)%nat -> (forall i, length (f i) = d) -> (n <= d * k)%nat ->
  take n (blocks f k) = take n (blocks f n).
Proof.
  intros Hd Hf Hn. destruct (decide (k <= n)%nat).
  - symmetry. by apply blocks_le.
  - apply blocks_le; [done|nia|lia].
Qed.

Lemma length_take_blocks f n k : (forall i, length (f i) = d) ->
  length (take n (blocks f k)) = Nat.min n (d * k).
Proof. intros Hf. by rewrite length_take, length_blocks. Qed.

End Blocks.
