(* ===== verification/Sha1.v ===== *)
(** * kernel/lib/crypto.c: SHA-1, HMAC, PBKDF2 and the WPA PRF

    The compression function and what is built on HMAC; the streaming code is
    [Digest]'s, with SHA-1's compression function. The reference definitions
    [sha1_spec], [hmac_sha1_spec], [pbkdf2_spec] and [prf_spec] are those of
    FIPS 180-4, RFC 2104, RFC 8018 and IEEE 802.11. *)
From S2P Require Import Prelude.
From S2P Require Export Digest.

Definition rol32 (v n : Z) : Z := Z.lor (u32 (Z.shiftl v n)) (Z.shiftr v (32 - n)).

(** The message schedule: [w[i]] for [i] below 80. *)
Definition schedule (block : list Z) : list Z :=
  Nat.iter 64
    (fun w => w ++ [rol32 (Z.lxor (Z.lxor (Z.lxor (nth (length w - 3) w 0) (nth (length w - 8) w 0))
                                          (nth (length w - 14) w 0))
                                  (nth (length w - 16) w 0)) 1])
    (map (fun i => load_be32 (drop (i * 4) block)) (seq 0 16)).

(** One round on the working variables [a] to [e]. *)
Definition sha1_round (w : list Z) (s : Z * Z * Z * Z * Z) (i : nat) : Z * Z * Z * Z * Z :=
  let '(a, b, c, d, e) := s in
  let '(f, k) :=
    if (i <? 20)%nat then (Z.lor (Z.land b c) (Z.land (u32 (Z.lnot b)) d), 0x5a827999)
    else if (i <? 40)%nat then (Z.lxor (Z.lxor b c) d, 0x6ed9eba1)
    else if (i <? 60)%nat
         then (Z.lor (Z.lor (Z.land b c) (Z.land b d)) (Z.land c d), 0x8f1bbcdc)
    else (Z.lxor (Z.lxor b c) d, 0xca62c1d6) in
  let t := u32 (rol32 a 5 + f + e + k + nth i w 0) in
  (t, a, rol32 b 30, c, d).

(** [sha1_transform] on the chaining value. *)
Definition compress (h : list Z) (block : list Z) : list Z :=
  let w := schedule block in
  let '(a, b, c, d, e) :=
    foldl (sha1_round w) (nth 0 h 0, nth 1 h 0, nth 2 h 0, nth 3 h 0, nth 4 h 0) (seq 0 80) in
  [u32 (nth 0 h 0 + a); u32 (nth 1 h 0 + b); u32 (nth 2 h 0 + c); u32 (nth 3 h 0 + d);
   u32 (nth 4 h 0 + e)].

Definition sha1_H0 : list Z := [0x67452301; 0xefcdab89; 0x98badcfe; 0x10325476; 0xc3d2e1f0].

(** What SHA-1 gives the streaming code of [Digest]. *)
#[local] Instance sha1_hash : BlockHash := {|
  bh_compress := compress; bh_H0 := sha1_H0; bh_words := 5; bh_words_max := ltac:(lia) |}.

Definition sha1_init : hash_ctx := hash_init.
Definition sha1_update (ctx : hash_ctx) (data : list Z) : option hash_ctx := hash_update ctx data.
Definition sha1_final (ctx : hash_ctx) : option (list Z) := hash_final ctx.
Definition tnu_sha1 (data : list Z) : option (list Z) := hash_once data.
Definition tnu_hmac_sha1 (key data : list Z) : option (list Z) := hash_hmac key data.

(** The functions of the standards. *)
Definition sha1_spec : list Z -> list Z := hash_spec.
Definition hmac_sha1_spec : list Z -> list Z -> list Z := hmac_spec.

(** [for (j) t[j] ^= u[j]] *)
Definition xor_into (t u : list Z) : list Z := zip_with Z.lxor t u.

(** The inner loop of PBKDF2, [i] iterations left. *)
Fixpoint pbkdf2_inner (i : nat) (pass u t : list Z) : option (list Z) :=
  match i with
  | O => Some t
  | S i => u ← tnu_hmac_sha1 pass u; pbkdf2_inner i pass u (xor_into t u)
  end.

(** [salt_block] has 36 bytes: a longer SSID is written past its end. *)
Fixpoint pbkdf2_loop (fuel : nat) (pass ssid : list Z) (iterations block : Z) (out_len : nat)
    (out : list Z) : option (list Z) :=
  match fuel with
  | O => None
  | S f =>
    if (length out <? out_len)%nat
    then
      if (36 <? length ssid + 4)%nat then None
      else
        u ← tnu_hmac_sha1 pass (ssid ++ store_be32 block);
        t ← pbkdf2_inner (Z.to_nat (iterations - 1)) pass u u;
        let n := Nat.min (out_len - length out) 20 in
        pbkdf2_loop f pass ssid iterations (u32 (block + 1)) out_len (out ++ take n t)
    else Some out
  end.

(** The bytes written to [out]; [None] when the salt overflows its buffer. *)
Definition tnu_pbkdf2_hmac_sha1 (passphrase ssid : list Z) (iterations : Z) (out_len : nat)
    : option (list Z) :=
  pbkdf2_loop (S out_len) passphrase ssid iterations 1 out_len [].

Definition tnu_wpa_pmk_from_passphrase (passphrase ssid : list Z) : option (list Z) :=
  tnu_pbkdf2_hmac_sha1 passphrase ssid 4096 32.

Fixpoint prf_loop (fuel : nat) (key prefix : list Z) (counter : Z) (out_len : nat)
    (out : list Z) : option (list Z) :=
  match fuel with
  | O => None
  | S f =>
    if (length out <? out_len)%nat
    then
      digest ← tnu_hmac_sha1 key (prefix ++ [counter]);
      let n := Nat.min (out_len - length out) 20 in
      prf_loop f key prefix (u8 (counter + 1)) out_len (out ++ take n digest)
    else Some out
  end.

(** The bytes written to [out]: none when the input does not fit its buffer. *)
Definition tnu_wpa_prf (key label data : list Z) (out_len : nat) : option (list Z) :=
  let base_len := (length label + 1 + length data + 1)%nat in
  if (128 <? base_len)%nat then Some []
  else prf_loop (S out_len) key (label ++ [0] ++ data) 0 out_len [].

(** The compression function is only computed with, never reasoned about. *)
#[local] Opaque compress.

(** [U_1] to [U_c] xored together, for block [i]. *)
Definition pbkdf2_F (pass salt : list Z) (c : nat) (i : Z) : list Z :=
  let u1 := hmac_sha1_spec pass (salt ++ store_be32 i) in
  snd (Nat.iter (c - 1) (fun ut => let u := hmac_sha1_spec pass (fst ut) in (u, xor_into (snd ut) u))
                (u1, u1)).

Definition pbkdf2_spec (pass salt : list Z) (c : nat) (out_len : nat) : list Z :=
  take out_len (concat (map (fun i => pbkdf2_F pass salt c (Z.of_nat i)) (seq 1 out_len))).

Definition prf_spec (key label data : list Z) (out_len : nat) : list Z :=
  take out_len (concat (map (fun i => hmac_sha1_spec key ((label ++ [0] ++ data) ++ [Z.of_nat i]))
                            (seq 0 out_len))).

(** Feed a message piece by piece. *)
Definition sha1_feed (ctx : hash_ctx) (chunks : list (list Z)) : option hash_ctx :=
  foldl (fun c data => c ← c; sha1_update c data) (Some ctx) chunks.

Lemma length_hmac_sha1_spec key data : length (hmac_sha1_spec key data) = 20%nat.
Proof. apply (length_hmac_spec (BH := sha1_hash)). Qed.

Lemma hmac_sha1_eq key data :
  Z.of_nat (length key) < 2 ^ 61 -> Z.of_nat (length data) + 64 < 2 ^ 61 ->
  tnu_hmac_sha1 key data = Some (hmac_sha1_spec key data).
Proof. apply (hmac_eq (BH := sha1_hash)). Qed.

#[local] Opaque hmac_sha1_spec.

Lemma pbkdf2_inner_eq pass n : Z.of_nat (length pass) < 2 ^ 61 -> forall u t, length u = 20%nat ->
  pbkdf2_inner n pass u t =
  Some (snd (Nat.iter n (fun ut => let u := hmac_sha1_spec pass (fst ut) in (u, xor_into (snd ut) u))
                      (u, t))).
Proof.
  intros Hp. induction n as [|n IH]; intros u t Hu; [done|]. cbn [pbkdf2_inner].
  rewrite hmac_sha1_eq by lia. cbn [mbind option_bind]. rewrite IH by apply length_hmac_sha1_spec.
  by rewrite Nat.iter_succ_r.
Qed.

Lemma length_xor_into t u : length (xor_into t u) = Nat.min (length t) (length u).
Proof. apply length_zip_with. Qed.

Lemma length_pbkdf2_F pass salt c i : length (pbkdf2_F pass salt c i) = 20%nat.
Proof.
  unfold pbkdf2_F. generalize (c - 1)%nat as n. intros n.
  enough (forall n, let ut := Nat.iter n (fun ut => let u := hmac_sha1_spec pass (fst ut) in
    (u, xor_into (snd ut) u)) (hmac_sha1_spec pass (salt ++ store_be32 i),
                                hmac_sha1_spec pass (salt ++ store_be32 i)) in
    length (snd ut) = 20%nat) as H by apply (H n).
  clear n. induction n as [|n IH]; [done|]. cbv zeta in *. rewrite Nat.iter_succ. cbn [snd].
  by rewrite length_xor_into, IH, length_hmac_sha1_spec.
Qed.

(** The loop invariant of PBKDF2: [k] blocks are out, [k + 1] is the next index. *)
Lemma pbkdf2_loop_eq pass ssid it n fuel : forall k,
  Z.of_nat (length pass) < 2 ^ 61 -> (length ssid <= 32)%nat -> Z.of_nat n < 2 ^ 32 ->
  (k <= n < k + fuel)%nat ->
  let f i := pbkdf2_F pass ssid (Z.to_nat it) (Z.of_nat (S i)) in
  pbkdf2_loop fuel pass ssid it (Z.of_nat (S k)) n (take n (blocks f k)) =
  Some (take n (blocks f n)).
Proof.
  induction fuel as [|fuel IH]; intros k Hp Hs Hn Hk f;
    (assert (forall i, length (f i) = 20%nat) as Hf by (intros; unfold f; apply length_pbkdf2_F)).
  - lia.
  - cbn [pbkdf2_loop]. rewrite (length_take_blocks 20) at 1 by done.
    destruct (Nat.ltb_spec (Nat.min n (20 * k)) n) as [Hlt|Hge].
    + replace (36 <? length ssid + 4)%nat with false by (symmetry; apply Nat.ltb_ge; lia).
      rewrite hmac_sha1_eq by (rewrite ?length_app; simpl; lia). rewrite bind_some.
      rewrite pbkdf2_inner_eq by done. rewrite bind_some.
      replace (Z.to_nat (it - 1)) with (Z.to_nat it - 1)%nat by lia.
      fold (pbkdf2_F pass ssid (Z.to_nat it) (Z.of_nat (S k))). fold (f k).
      rewrite (blocks_step 20) by (try done; lia). rewrite u32_small by lia.
      replace (Z.of_nat (S k) + 1) with (Z.of_nat (S (S k))) by lia. apply IH; lia || done.
    + f_equal. apply (blocks_full 20); [lia|done|lia].
Qed.

Lemma prf_loop_eq key prefix n fuel : forall k,
  Z.of_nat (length key) < 2 ^ 61 -> (length prefix <= 127)%nat -> (n <= 20 * 256)%nat ->
  (k <= n < k + fuel)%nat ->
  let f i := hmac_sha1_spec key (prefix ++ [Z.of_nat i]) in
  prf_loop fuel key prefix (u8 (Z.of_nat k)) n (take n (blocks f k)) = Some (take n (blocks f n)).
Proof.
  induction fuel as [|fuel IH]; intros k Hp Hs Hn Hk f;
    (assert (forall i, length (f i) = 20%nat) as Hf by (intros; unfold f; apply length_hmac_sha1_spec)).
  - lia.
  - cbn [prf_loop]. rewrite (length_take_blocks 20) at 1 by done.
    destruct (Nat.ltb_spec (Nat.min n (20 * k)) n) as [Hlt|Hge].
    + rewrite hmac_sha1_eq by (rewrite ?length_app; simpl; lia). rewrite bind_some.
      rewrite (u8_small (Z.of_nat k)) by lia. fold (f k).
      rewrite (blocks_step 20) by (try done; lia).
      replace (Z.of_nat k + 1) with (Z.of_nat (S k)) by lia. apply IH; lia || done.
    + f_equal. apply (blocks_full 20); [lia|done|lia].
Qed.

(** ** The properties *)

(** C18 Streaming SHA-1: however a message is cut into pieces for
    [sha1_update], the digest is the FIPS 180-4 padding of the whole message
    folded through the compression function. *)
Theorem sha1_streaming chunks :
  Z.of_nat (length (concat chunks)) < 2 ^ 61 ->
  (ctx ← sha1_feed sha1_init chunks; sha1_final ctx) = Some (sha1_spec (concat chunks)).
Proof. apply (hash_streaming (BH := sha1_hash)). Qed.

(** PBKDF2-HMAC-SHA1: for an SSID that fits its buffer the output is the
    first [out_len] bytes of the blocks of RFC 8018 over RFC 2104's HMAC. *)
Theorem pbkdf2_correct passphrase ssid iterations out_len :
  Z.of_nat (length passphrase) < 2 ^ 61 -> (length ssid <= 32)%nat -> Z.of_nat out_len < 2 ^ 32 ->
  tnu_pbkdf2_hmac_sha1 passphrase ssid iterations out_len =
  Some (pbkdf2_spec passphrase ssid (Z.to_nat iterations) out_len).
Proof.
  intros Hp Hs Hn. unfold tnu_pbkdf2_hmac_sha1, pbkdf2_spec. rewrite <- seq_shift, map_map.
  rewrite <- (take_nil out_len). apply (pbkdf2_loop_eq _ _ _ _ _ 0); [done|done|done|lia].
Qed.

(** The WPA PRF: the first [out_len] bytes of
    [HMAC(key, label 0 data counter)] for the counters from 0, when the input
    fits the 128-byte buffer and the counter its byte; nothing when it does not fit. *)
Theorem wpa_prf_correct key label data out_len :
  Z.of_nat (length key) < 2 ^ 61 -> (out_len <= 20 * 256)%nat ->
  tnu_wpa_prf key label data out_len =
  Some (if (length label + length data <=? 126)%nat then prf_spec key label data out_len else []).
Proof.
  intros Hk Hn. unfold tnu_wpa_prf, prf_spec.
  destruct (Nat.leb_spec (length label + length data) 126) as [Hle|Hgt].
  - replace (128 <? _)%nat with false by (symmetry; apply Nat.ltb_ge; lia).
    pose proof (prf_loop_eq key (label ++ [0] ++ data) out_len (S out_len) 0 Hk) as H.
    cbv zeta in H. change (blocks _ 0) with (@nil Z) in H. rewrite take_nil in H.
    apply H; [|done|lia]. rewrite !length_app. simpl. lia.
  - by replace (128 <? _)%nat with true by (symmetry; apply Nat.ltb_lt; lia).
Qed.

(** ** Witnesses: FIPS 180-4's message in two pieces, a vector of RFC 6070 *)

Lemma sha1_streaming_witness :
  (ctx ← sha1_feed sha1_init [str "a"; str "bc"]; sha1_final ctx) = Some (sha1_spec (str "abc")) /\
  tnu_sha1 (str "abc") =
    Some [0xa9; 0x99; 0x3e; 0x36; 0x47; 0x06; 0x81; 0x6a; 0xba; 0x3e;
          0x25; 0x71; 0x78; 0x50; 0xc2; 0x6c; 0x9c; 0xd0; 0xd8; 0x9d].
Proof. split; [apply (sha1_streaming [str "a"; str "bc"]); done|by vm_compute]. Defined.

Lemma pbkdf2_correct_witness :
  tnu_pbkdf2_hmac_sha1 (str "password") (str "salt") 2 20 =
    Some (pbkdf2_spec (str "password") (str "salt") 2 20) /\
  tnu_pbkdf2_hmac_sha1 (str "password") (str "salt") 2 20 =
    Some [0xea; 0x6c; 0x01; 0x4d; 0xc7; 0x2d; 0x6f; 0x8c; 0xcd; 0x1e;
          0xd9; 0x2a; 0xce; 0x1d; 0x41; 0xf0; 0xd8; 0xde; 0x89; 0x57].
Proof.
  split; [|by vm_compute]. apply (pbkdf2_correct (str "password") (str "salt") 2 20); vm_compute; lia || done.
Defined.

Lemma wpa_prf_correct_witness :
  tnu_wpa_prf (replicate 20 11) (str "prefix") (str "Hi There") 64 =
  Some (prf_spec (replicate 20 11) (str "prefix") (str "Hi There") 64).
Proof. apply (wpa_prf_correct (replicate 20 11) (str "prefix") (str "Hi There") 64); vm_compute; lia || done. Defined.
