(* ===== verification/Aes.v ===== *)
(** * kernel/lib/crypto.c: AES-128

    The cipher computes its S-box from the field inverse instead of a table.
    [aes_decrypt] is the inverse cipher of FIPS 197, which the source does not
    have: it is the specification that encryption is invertible. *)
From Stdlib Require Import Btauto.
From S2P Require Import Prelude.

Definition aes_xtime (x : Z) : Z :=
  u8 (Z.lxor (Z.shiftl x 1) (if Z.land x 0x80 =? 0 then 0 else 0x1b)).

(** [while (b)]: a byte has at most eight bits to shift out. *)
Fixpoint aes_mul_loop (fuel : nat) (a b r : Z) : option Z :=
  match fuel with
  | O => None
  | S f => if b =? 0 then Some r
           else aes_mul_loop f (aes_xtime a) (Z.shiftr b 1)
                             (if Z.land b 1 =? 0 then r else Z.lxor r a)
  end.

Definition aes_mul (a b : Z) : Z := default 0 (aes_mul_loop 9 a b 0).

Fixpoint aes_pow_loop (fuel : nat) (a n r : Z) : option Z :=
  match fuel with
  | O => None
  | S f => if n =? 0 then Some r
           else aes_pow_loop f (aes_mul a a) (Z.shiftr n 1)
                             (if Z.land n 1 =? 0 then r else aes_mul r a)
  end.

Definition aes_pow (a n : Z) : Z := default 0 (aes_pow_loop 9 a n 1).

Definition aes_sbox (x : Z) : Z :=
  let y := if x =? 0 then 0 else aes_pow x 254 in
  let rot k := Z.lor (Z.shiftl y k) (Z.shiftr y (8 - k)) in
  u8 (Z.lxor (Z.lxor (Z.lxor (Z.lxor (Z.lxor 0x63 y) (rot 1)) (rot 2)) (rot 3)) (rot 4)).

(** The state: sixteen bytes. *)
Definition aes_sub_bytes (s : list Z) : list Z := map aes_sbox s.

Definition aes_shift_rows (s : list Z) : list Z :=
  map (fun i => nth i s 0) [0; 5; 10; 15; 4; 9; 14; 3; 8; 13; 2; 7; 12; 1; 6; 11]%nat.

(** The new bytes of one column. *)
Definition mix_column (a0 a1 a2 a3 : Z) : list Z :=
  [Z.lxor (Z.lxor (Z.lxor (aes_mul a0 2) (aes_mul a1 3)) a2) a3;
   Z.lxor (Z.lxor (Z.lxor a0 (aes_mul a1 2)) (aes_mul a2 3)) a3;
   Z.lxor (Z.lxor (Z.lxor a0 a1) (aes_mul a2 2)) (aes_mul a3 3);
   Z.lxor (Z.lxor (Z.lxor (aes_mul a0 3) a1) a2) (aes_mul a3 2)].

Definition aes_mix_columns (s : list Z) : list Z :=
  concat (map (fun c => mix_column (nth (c * 4) s 0) (nth (c * 4 + 1) s 0)
                                   (nth (c * 4 + 2) s 0) (nth (c * 4 + 3) s 0)) (seq 0 4)).

Definition aes_add_round_key (s rk : list Z) : list Z := zip_with Z.lxor s rk.

Definition rcon : list Z := [0x01; 0x02; 0x04; 0x08; 0x10; 0x20; 0x40; 0x80; 0x1b; 0x36].

(** One turn of [while (bytes < 176)]: four more bytes; [bytes] is the length. *)
Definition expand_step (st : list Z * nat) : list Z * nat :=
  let '(rk, rcon_index) := st in
  let bytes := length rk in
  let temp := take 4 (drop (bytes - 4) rk) in
  let '(temp, rcon_index) :=
    if (bytes mod 16 =? 0)%nat
    then ([Z.lxor (aes_sbox (nth 1 temp 0)) (nth rcon_index rcon 0); aes_sbox (nth 2 temp 0);
           aes_sbox (nth 3 temp 0); aes_sbox (nth 0 temp 0)], S rcon_index)
    else (temp, rcon_index) in
  (rk ++ map (fun i => Z.lxor (nth (bytes - 16 + i) rk 0) (nth i temp 0)) (seq 0 4), rcon_index).

Fixpoint expand_loop (fuel : nat) (st : list Z * nat) : option (list Z) :=
  match fuel with
  | O => None
  | S f => if (length st.1 <? 176)%nat then expand_loop f (expand_step st) else Some st.1
  end.

Definition aes_expand_key (key : list Z) : list Z := default [] (expand_loop 41 (take 16 key, 0%nat)).

(** The key of round [r]. *)
Definition round_key (rks : list Z) (r : nat) : list Z := take 16 (drop (r * 16) rks).

Definition aes_round (rks : list Z) (state : list Z) (r : nat) : list Z :=
  aes_add_round_key (aes_mix_columns (aes_shift_rows (aes_sub_bytes state))) (round_key rks r).

(** Input and output may be the same buffer: the input is copied first. *)
Definition tnu_aes128_encrypt_block (key inp : list Z) : list Z :=
  let rks := aes_expand_key key in
  let state := aes_add_round_key (take 16 inp) (round_key rks 0) in
  let state := foldl (aes_round rks) state (seq 1 9) in
  aes_add_round_key (aes_shift_rows (aes_sub_bytes state)) (round_key rks 10).

(** ** The inverse cipher *)

Definition byte (x : Z) : Prop := 0 <= x < 256.
Definition bytes (n : nat) (l : list Z) : Prop := length l = n /\ Forall byte l.

(** The inverse S-box as a table: the byte that [aes_sbox] sends to each byte. *)
Definition inv_sbox_table : list Z := Eval vm_compute in
  let sbox := map (fun x => aes_sbox (Z.of_nat x)) (seq 0 256) in
  map (fun y => default 0 (head (filter (fun x => nth (Z.to_nat x) sbox 0 = Z.of_nat y)
                                        (map Z.of_nat (seq 0 256))))) (seq 0 256).

Definition inv_sbox (y : Z) : Z := nth (Z.to_nat y) inv_sbox_table 0.

Definition inv_sub_bytes (s : list Z) : list Z := map inv_sbox s.

Definition inv_shift_rows (s : list Z) : list Z :=
  map (fun i => nth i s 0) [0; 13; 10; 7; 4; 1; 14; 11; 8; 5; 2; 15; 12; 9; 6; 3]%nat.

(** One output byte of a column operation. *)
Definition row (c0 c1 c2 c3 a0 a1 a2 a3 : Z) : Z :=
  Z.lxor (Z.lxor (Z.lxor (aes_mul a0 c0) (aes_mul a1 c1)) (aes_mul a2 c2)) (aes_mul a3 c3).

Definition inv_mix_column (a0 a1 a2 a3 : Z) : list Z :=
  [row 14 11 13 9 a0 a1 a2 a3; row 9 14 11 13 a0 a1 a2 a3;
   row 13 9 14 11 a0 a1 a2 a3; row 11 13 9 14 a0 a1 a2 a3].

Definition inv_mix_columns (s : list Z) : list Z :=
  concat (map (fun c => inv_mix_column (nth (c * 4) s 0) (nth (c * 4 + 1) s 0)
                                       (nth (c * 4 + 2) s 0) (nth (c * 4 + 3) s 0)) (seq 0 4)).

Definition inv_round (rks : list Z) (state : list Z) (r : nat) : list Z :=
  inv_sub_bytes (inv_shift_rows (inv_mix_columns (aes_add_round_key state (round_key rks r)))).

Definition aes_decrypt (key out : list Z) : list Z :=
  let rks := aes_expand_key key in
  let state := inv_sub_bytes (inv_shift_rows (aes_add_round_key out (round_key rks 10))) in
  let state := foldl (inv_round rks) state (rev (seq 1 9)) in
  aes_add_round_key state (round_key rks 0).

(** ** Field arithmetic on bytes *)

Definition coeffs : list Z := [1; 2; 3; 9; 11; 13; 14].

Lemma mul_byte_check : forallb (fun c => bytes_all (fun a =>
  (0 <=? aes_mul a c) && (aes_mul a c <? 256))) coeffs = true.
Proof. vm_compute. reflexivity. Qed.

Lemma mul_byte a c : In c coeffs -> byte a -> byte (aes_mul a c).
Proof.
  intros Hc Ha. pose proof mul_byte_check as H. rewrite forallb_forall in H.
  apply H in Hc. pose proof (bytes_check _ Hc a Ha) as H'. unfold byte. cbv beta in H'. bcases. lia.
Qed.

(** The shift loops end: [n] turns for a number of [n] bits. *)
Lemma aes_mul_loop_total n : forall a b r, 0 <= b < 2 ^ Z.of_nat n ->
  exists x, aes_mul_loop (S n) a b r = Some x.
Proof.
  induction n as [|n IH]; intros a b r Hb; [exists r; by replace b with 0 by lia|].
  rewrite Nat2Z.inj_succ, Z.pow_succ_r in Hb by lia.
  change (aes_mul_loop (S (S n)) a b r) with
    (if b =? 0 then Some r else aes_mul_loop (S n) (aes_xtime a) (Z.shiftr b 1)
       (if Z.land b 1 =? 0 then r else Z.lxor r a)).
  destruct (b =? 0); [eauto|]. apply IH. rewrite Z.shiftr_div_pow2 by lia. simpl (2 ^ 1).
  Z.div_mod_to_equations. lia.
Qed.

Lemma aes_pow_loop_total n : forall a b r, 0 <= b < 2 ^ Z.of_nat n ->
  exists x, aes_pow_loop (S n) a b r = Some x.
Proof.
  induction n as [|n IH]; intros a b r Hb; [exists r; by replace b with 0 by lia|].
  rewrite Nat2Z.inj_succ, Z.pow_succ_r in Hb by lia.
  change (aes_pow_loop (S (S n)) a b r) with
    (if b =? 0 then Some r else aes_pow_loop (S n) (aes_mul a a) (Z.shiftr b 1)
       (if Z.land b 1 =? 0 then r else aes_mul r a)).
  destruct (b =? 0); [eauto|]. apply IH. rewrite Z.shiftr_div_pow2 by lia. simpl (2 ^ 1).
  Z.div_mod_to_equations. lia.
Qed.

Lemma xtime_lxor_check : bytes_all (fun a => bytes_all (fun b =>
  aes_xtime (Z.lxor a b) =? Z.lxor (aes_xtime a) (aes_xtime b))) = true.
Proof. vm_compute. reflexivity. Qed.

Lemma xtime_lxor a b : byte a -> byte b ->
  aes_xtime (Z.lxor a b) = Z.lxor (aes_xtime a) (aes_xtime b).
Proof.
  intros Ha Hb. apply Z.eqb_eq. exact (bytes_check2 (fun a b => _ =? _) xtime_lxor_check a b Ha Hb).
Qed.

Lemma aes_mul_loop_lxor f : forall a b c ra rb x y, byte a -> byte b ->
  aes_mul_loop f a c ra = Some x -> aes_mul_loop f b c rb = Some y ->
  aes_mul_loop f (Z.lxor a b) c (Z.lxor ra rb) = Some (Z.lxor x y).
Proof.
  induction f as [|f IH]; intros a b c ra rb x y Ha Hb Hx Hy; [done|]. cbn [aes_mul_loop] in *.
  destruct (c =? 0); [by simplify_eq|]. rewrite xtime_lxor by done.
  replace (if _ =? 0 then Z.lxor ra rb else _) with
    (Z.lxor (if Z.land c 1 =? 0 then ra else Z.lxor ra a)
            (if Z.land c 1 =? 0 then rb else Z.lxor rb b)).
  2:{ destruct (_ =? 0); [done|]. apply Z.bits_inj'. intros n _. rewrite !Z.lxor_spec. btauto. }
  apply IH; [apply u8_range|apply u8_range|done|done].
Qed.

(** Multiplication is linear. *)
Lemma mul_lxor c a b : byte c -> byte a -> byte b ->
  aes_mul (Z.lxor a b) c = Z.lxor (aes_mul a c) (aes_mul b c).
Proof.
  intros Hc Ha Hb. unfold aes_mul.
  destruct (aes_mul_loop_total 8 a c 0 Hc) as [x Hx], (aes_mul_loop_total 8 b c 0 Hc) as [y Hy].
  change (aes_mul_loop 9 (Z.lxor a b) c 0) with (aes_mul_loop 9 (Z.lxor a b) c (Z.lxor 0 0)).
  by rewrite (aes_mul_loop_lxor 9 a b c 0 0 x y Ha Hb Hx Hy), Hx, Hy.
Qed.

Lemma coeff_byte c : In c coeffs -> byte c.
Proof. unfold coeffs, byte. simpl. intuition lia. Qed.

Lemma mul_1_check : bytes_all (fun a => aes_mul a 1 =? a) = true.
Proof. vm_compute. reflexivity. Qed.

Lemma mul_1 a : byte a -> aes_mul a 1 = a.
Proof. intros Ha. apply Z.eqb_eq. exact (bytes_check _ mul_1_check a Ha). Qed.

Lemma row_byte c0 c1 c2 c3 a0 a1 a2 a3 :
  Forall (fun c => In c coeffs) [c0; c1; c2; c3] -> Forall byte [a0; a1; a2; a3] ->
  byte (row c0 c1 c2 c3 a0 a1 a2 a3).
Proof.
  rewrite !Forall_cons. intros (?&?&?&?&_) (?&?&?&?&_).
  repeat apply lxor_byte; by apply mul_byte.
Qed.

Lemma row_lxor c0 c1 c2 c3 a0 a1 a2 a3 b0 b1 b2 b3 :
  Forall (fun c => In c coeffs) [c0; c1; c2; c3] ->
  Forall byte [a0; a1; a2; a3] -> Forall byte [b0; b1; b2; b3] ->
  row c0 c1 c2 c3 (Z.lxor a0 b0) (Z.lxor a1 b1) (Z.lxor a2 b2) (Z.lxor a3 b3) =
  Z.lxor (row c0 c1 c2 c3 a0 a1 a2 a3) (row c0 c1 c2 c3 b0 b1 b2 b3).
Proof.
  rewrite !Forall_cons. intros (?&?&?&?&_) (?&?&?&?&_) (?&?&?&?&_). unfold row.
  rewrite !mul_lxor by (done || by apply coeff_byte). apply Z.bits_inj'. intros n _. rewrite !Z.lxor_spec. btauto.
Qed.

(** ** Each step of a round is undone *)

(** [d . M . a]: a row of the inverse matrix after the matrix of [mix_column]. *)
Definition unmix (d0 d1 d2 d3 a0 a1 a2 a3 : Z) : Z :=
  row d0 d1 d2 d3 (row 2 3 1 1 a0 a1 a2 a3) (row 1 2 3 1 a0 a1 a2 a3)
                  (row 1 1 2 3 a0 a1 a2 a3) (row 3 1 1 2 a0 a1 a2 a3).

Ltac in_coeffs := repeat apply Forall_cons_2; try apply Forall_nil_2; unfold coeffs; simpl; tauto.
Ltac in_bytes := repeat apply Forall_cons_2; try apply Forall_nil_2; repeat apply lxor_byte; assumption.

Lemma unmix_lxor d0 d1 d2 d3 a0 a1 a2 a3 b0 b1 b2 b3 :
  Forall (fun c => In c coeffs) [d0; d1; d2; d3] ->
  Forall byte [a0; a1; a2; a3] -> Forall byte [b0; b1; b2; b3] ->
  unmix d0 d1 d2 d3 (Z.lxor a0 b0) (Z.lxor a1 b1) (Z.lxor a2 b2) (Z.lxor a3 b3) =
  Z.lxor (unmix d0 d1 d2 d3 a0 a1 a2 a3) (unmix d0 d1 d2 d3 b0 b1 b2 b3).
Proof.
  intros Hd Ha Hb. unfold unmix. rewrite !(row_lxor _ _ _ _ a0 a1 a2 a3) by (assumption || in_coeffs).
  apply row_lxor; [assumption| |]; repeat apply Forall_cons_2; try apply Forall_nil_2;
    apply row_byte; assumption || in_coeffs.
Qed.

(** A linear function of four bytes is the sum of its values on each. *)
Lemma unmix_split d0 d1 d2 d3 a0 a1 a2 a3 :
  Forall (fun c => In c coeffs) [d0; d1; d2; d3] -> Forall byte [a0; a1; a2; a3] ->
  unmix d0 d1 d2 d3 a0 a1 a2 a3 =
  Z.lxor (unmix d0 d1 d2 d3 a0 0 0 0) (Z.lxor (unmix d0 d1 d2 d3 0 a1 0 0)
    (Z.lxor (unmix d0 d1 d2 d3 0 0 a2 0) (unmix d0 d1 d2 d3 0 0 0 a3))).
Proof.
  intros Hd Ha. rewrite !Forall_cons in Ha. destruct Ha as (?&?&?&?&_).
  assert (byte 0) by (unfold byte; lia).
  rewrite <- !unmix_lxor by (assumption || in_bytes).
  by rewrite !Z.lxor_0_r, !Z.lxor_0_l.
Qed.

(** The rows of the inverse matrix pick one byte each. *)
Definition unmix_picks (d0 d1 d2 d3 : Z) (i : nat) : bool :=
  bytes_all (fun a =>
    forallb (fun j => let at_j k := if (j =? k)%nat then a else 0 in
      unmix d0 d1 d2 d3 (at_j 0%nat) (at_j 1%nat) (at_j 2%nat) (at_j 3%nat) =?
      (if (i =? j)%nat then a else 0)) (seq 0 4)).

Lemma unmix_pick d0 d1 d2 d3 i a0 a1 a2 a3 :
  Forall (fun c => In c coeffs) [d0; d1; d2; d3] -> Forall byte [a0; a1; a2; a3] ->
  unmix_picks d0 d1 d2 d3 i = true -> (i < 4)%nat ->
  unmix d0 d1 d2 d3 a0 a1 a2 a3 = nth i [a0; a1; a2; a3] 0.
Proof.
  intros Hd Ha Hp Hi. rewrite unmix_split by done.
  rewrite !Forall_cons in Ha. destruct Ha as (H0&H1&H2&H3&_).
  assert (forall a j, byte a -> (j < 4)%nat ->
    unmix d0 d1 d2 d3 (if (j =? 0)%nat then a else 0) (if (j =? 1)%nat then a else 0)
      (if (j =? 2)%nat then a else 0) (if (j =? 3)%nat then a else 0) =
    (if (i =? j)%nat then a else 0)) as H.
  { intros a j Hb Hj. unfold unmix_picks in Hp.
    pose proof (bytes_check _ Hp a Hb) as Hc. cbv beta in Hc. rewrite forallb_forall in Hc.
    apply Z.eqb_eq, (Hc j). apply in_seq. lia. }
  pose proof (H a0 0%nat H0 ltac:(lia)) as E0. pose proof (H a1 1%nat H1 ltac:(lia)) as E1.
  pose proof (H a2 2%nat H2 ltac:(lia)) as E2. pose proof (H a3 3%nat H3 ltac:(lia)) as E3.
  cbn [Nat.eqb] in E0, E1, E2, E3. rewrite E0, E1, E2, E3.
  destruct i as [|[|[|[|]]]]; cbn [Nat.eqb nth]; rewrite ?Z.lxor_0_r, ?Z.lxor_0_l; done || lia.
Qed.

Lemma picks_all : unmix_picks 14 11 13 9 0 && unmix_picks 9 14 11 13 1 &&
  unmix_picks 13 9 14 11 2 && unmix_picks 11 13 9 14 3 = true.
Proof. vm_compute. reflexivity. Qed.

#[local] Opaque aes_mul unmix_picks.

Lemma unmix_rows i d0 d1 d2 d3 a0 a1 a2 a3 :
  unmix_picks d0 d1 d2 d3 i = true -> (i < 4)%nat ->
  Forall (fun c => In c coeffs) [d0; d1; d2; d3] -> Forall byte [a0; a1; a2; a3] ->
  row d0 d1 d2 d3 (row 2 3 1 1 a0 a1 a2 a3) (row 1 2 3 1 a0 a1 a2 a3)
                  (row 1 1 2 3 a0 a1 a2 a3) (row 3 1 1 2 a0 a1 a2 a3) = nth i [a0; a1; a2; a3] 0.
Proof. intros. by apply unmix_pick. Qed.

Lemma inv_mix_column_mix a0 a1 a2 a3 : Forall byte [a0; a1; a2; a3] ->
  match mix_column a0 a1 a2 a3 with
  | [b0; b1; b2; b3] => Forall byte [b0; b1; b2; b3] /\ inv_mix_column b0 b1 b2 b3 = [a0; a1; a2; a3]
  | _ => False
  end.
Proof.
  intros Ha. pose proof Ha as Hb. rewrite !Forall_cons in Hb. destruct Hb as (H0&H1&H2&H3&_).
  unfold mix_column.
  replace (Z.lxor (Z.lxor (Z.lxor (aes_mul a0 2) (aes_mul a1 3)) a2) a3) with (row 2 3 1 1 a0 a1 a2 a3)
    by (unfold row; by rewrite !mul_1).
  replace (Z.lxor (Z.lxor (Z.lxor a0 (aes_mul a1 2)) (aes_mul a2 3)) a3) with (row 1 2 3 1 a0 a1 a2 a3)
    by (unfold row; by rewrite !mul_1).
  replace (Z.lxor (Z.lxor (Z.lxor a0 a1) (aes_mul a2 2)) (aes_mul a3 3)) with (row 1 1 2 3 a0 a1 a2 a3)
    by (unfold row; by rewrite !mul_1).
  replace (Z.lxor (Z.lxor (Z.lxor (aes_mul a0 3) a1) a2) (aes_mul a3 2)) with (row 3 1 1 2 a0 a1 a2 a3)
    by (unfold row; by rewrite !mul_1).
  split; [repeat apply Forall_cons_2; try apply Forall_nil_2; apply row_byte; assumption || in_coeffs|].
  unfold inv_mix_column. pose proof picks_all as Hp. bcases.
  rewrite (unmix_rows 0 14 11 13 9), (unmix_rows 1 9 14 11 13), (unmix_rows 2 13 9 14 11),
    (unmix_rows 3 11 13 9 14); first [assumption | in_coeffs | lia | reflexivity].
Qed.

Lemma mix_column_bytes a0 a1 a2 a3 : Forall byte [a0; a1; a2; a3] ->
  bytes 4 (mix_column a0 a1 a2 a3).
Proof.
  intros Ha. pose proof (inv_mix_column_mix _ _ _ _ Ha) as H. split; [done|].
  unfold mix_column in *. tauto.
Qed.

(** A 16-byte state, its bytes in the context. *)
Ltac state16 s :=
  let Hl := fresh in let Hb := fresh in
  intros [Hl Hb]; do 16 (destruct s as [|? s]; [discriminate Hl|]);
  destruct s; [clear Hl|discriminate Hl]; rewrite !Forall_cons in Hb; destruct_and! Hb.

Lemma inv_mix_columns_mix s : bytes 16 s ->
  bytes 16 (aes_mix_columns s) /\ inv_mix_columns (aes_mix_columns s) = s.
Proof.
  state16 s. unfold aes_mix_columns. cbn [seq map concat nth Nat.mul Nat.add].
  repeat match goal with
  | |- context [mix_column ?a0 ?a1 ?a2 ?a3] =>
    let H := fresh in
    assert (Forall byte [a0; a1; a2; a3]) as H by (repeat apply Forall_cons_2; done);
    apply inv_mix_column_mix in H; revert H; generalize (mix_column a0 a1 a2 a3)
  end.
  intros l1 K1 l2 K2 l3 K3 l4 K4.
  destruct l1 as [|? [|? [|? [|? [|]]]]]; try done. destruct l2 as [|? [|? [|? [|? [|]]]]]; try done.
  destruct l3 as [|? [|? [|? [|? [|]]]]]; try done. destruct l4 as [|? [|? [|? [|? [|]]]]]; try done.
  destruct K1 as [B1 E1], K2 as [B2 E2], K3 as [B3 E3], K4 as [B4 E4].
  split; [split; [done|]|].
  - cbn [app]. rewrite !Forall_cons in *. tauto.
  - unfold inv_mix_columns. cbn [app seq map concat nth Nat.mul Nat.add].
    by rewrite E1, E2, E3, E4.
Qed.

Lemma inv_shift_rows_shift s : bytes 16 s ->
  bytes 16 (aes_shift_rows s) /\ inv_shift_rows (aes_shift_rows s) = s.
Proof.
  state16 s. split; [split; [done|]|done].
  unfold aes_shift_rows. cbn [map nth]. rewrite !Forall_cons. tauto.
Qed.

Lemma sbox_check : bytes_all (fun x => (0 <=? aes_sbox x) && (aes_sbox x <? 256) &&
  (inv_sbox (aes_sbox x) =? x)) = true.
Proof. vm_compute. reflexivity. Qed.

Lemma sbox_byte x : byte x -> byte (aes_sbox x) /\ inv_sbox (aes_sbox x) = x.
Proof.
  intros Hx. pose proof (bytes_check _ sbox_check x Hx) as H. cbv beta in H. bcases.
  unfold byte. auto.
Qed.

Lemma inv_sub_bytes_sub n s : bytes n s ->
  bytes n (aes_sub_bytes s) /\ inv_sub_bytes (aes_sub_bytes s) = s.
Proof.
  intros [<- Hb]. unfold bytes, aes_sub_bytes, inv_sub_bytes. rewrite length_map.
  assert (Forall byte (map aes_sbox s) /\ map inv_sbox (map aes_sbox s) = s) as [H1 H2].
  { induction Hb as [|x s Hx Hb [IH1 IH2]]; [done|]. destruct (sbox_byte x Hx) as [Hx1 Hx2].
    cbn [map]. rewrite Hx2, IH2. by split; [constructor|]. }
  auto.
Qed.

(** ** The key schedule *)

Lemma nth_byte l i : Forall byte l -> byte (nth i l 0).
Proof.
  intros Hl. destruct (decide (i < length l)%nat) as [Hi|Hi].
  - apply Forall_nth; [done|lia].
  - rewrite nth_overflow by lia. unfold byte. lia.
Qed.

Lemma rcon_bytes : Forall byte rcon.
Proof. unfold rcon, byte. repeat apply Forall_cons_2; try apply Forall_nil_2; lia. Qed.

Lemma expand_step_bytes rk i : Forall byte rk ->
  Forall byte (expand_step (rk, i)).1 /\ length (expand_step (rk, i)).1 = (length rk + 4)%nat.
Proof.
  intros Hrk. unfold expand_step.
  set (t := if (_ =? 0)%nat then _ else _).
  assert (Forall byte t.1) as Ht.
  { subst t. assert (Forall byte (take 4 (drop (length rk - 4) rk))) as H
      by by apply Forall_take, Forall_drop.
    destruct (_ =? 0)%nat; [|done]. cbn [fst].
    repeat apply Forall_cons_2; try apply Forall_nil_2.
    - apply lxor_byte; [apply sbox_byte|]; apply nth_byte; [done|apply rcon_bytes].
    - by apply sbox_byte, nth_byte.
    - by apply sbox_byte, nth_byte.
    - by apply sbox_byte, nth_byte. }
  destruct t as [temp j]. cbn [fst] in *. rewrite length_app, length_map, length_seq. split; [|done].
  apply Forall_app. split; [done|]. apply Forall_map, Forall_true.
  intros k. apply lxor_byte; by apply nth_byte.
Qed.

(** The schedule ends with its 176 bytes: [n] words are left to add. *)
Lemma expand_loop_bytes n : forall fuel rk i, Forall byte rk ->
  (length rk + 4 * n = 176)%nat -> (n < fuel)%nat ->
  exists rks, expand_loop fuel (rk, i) = Some rks /\ bytes 176 rks.
Proof.
  induction n as [|n IH]; intros fuel rk i Hb Hl Hf; (destruct fuel as [|fuel]; [lia|]);
    cbn [expand_loop fst].
  - replace (length rk <? 176)%nat with false by (symmetry; apply Nat.ltb_ge; lia).
    exists rk. repeat split; [lia|done].
  - replace (length rk <? 176)%nat with true by (symmetry; apply Nat.ltb_lt; lia).
    destruct (expand_step_bytes rk i Hb) as [Hb' Hl'].
    destruct (expand_step (rk, i)) as [rk' j]. cbn [fst] in *.
    apply IH; [done|lia|lia].
Qed.

Lemma aes_expand_key_bytes key : bytes 16 key -> bytes 176 (aes_expand_key key).
Proof.
  intros [Hl Hb]. unfold aes_expand_key. rewrite take_ge by lia.
  destruct (expand_loop_bytes 40 41 key 0 Hb) as (rks & -> & H); [lia|lia|done].
Qed.

Lemma round_key_bytes key r : bytes 16 key -> (r <= 10)%nat ->
  bytes 16 (round_key (aes_expand_key key) r).
Proof.
  intros Hk Hr. destruct (aes_expand_key_bytes key Hk) as [Hl Hb]. unfold round_key. split.
  - rewrite length_take, length_drop, Hl. lia.
  - by apply Forall_take, Forall_drop.
Qed.

Lemma add_round_key_twice s rk : bytes 16 s -> bytes 16 rk ->
  bytes 16 (aes_add_round_key s rk) /\ aes_add_round_key (aes_add_round_key s rk) rk = s.
Proof.
  intros [Hs1 Hs2] [Hr1 Hr2]. unfold bytes, aes_add_round_key.
  rewrite length_zip_with, Hs1, Hr1. rewrite <- Hr1 in Hs1. clear Hr1.
  revert rk Hs1 Hr2. induction Hs2 as [|x s Hx Hs IH]; intros rk Hl Hrk; [done|].
  destruct Hrk as [|k rk Hk Hrk]; [done|]. injection Hl as Hl.
  destruct (IH rk Hl Hrk) as [[_ IH1] IH2]. cbn [zip_with]. rewrite lxor_cancel, IH2.
  split; [split; [done|]|done]. constructor; [by apply lxor_byte|done].
Qed.

(** ** Rounds *)

Section Rounds.
Context (rks : list Z) (Hrks : forall r, (r <= 10)%nat -> bytes 16 (round_key rks r)).

Lemma inv_round_round s r : bytes 16 s -> (r <= 10)%nat ->
  bytes 16 (aes_round rks s r) /\ inv_round rks (aes_round rks s r) r = s.
Proof.
  intros Hs Hr. unfold aes_round, inv_round.
  destruct (inv_sub_bytes_sub 16 s Hs) as [H1 E1].
  destruct (inv_shift_rows_shift _ H1) as [H2 E2].
  destruct (inv_mix_columns_mix _ H2) as [H3 E3].
  destruct (add_round_key_twice _ _ H3 (Hrks r Hr)) as [H4 E4].
  split; [done|]. by rewrite E4, E3, E2, E1.
Qed.

Lemma inv_rounds l : forall s, bytes 16 s -> Forall (fun r => (r <= 10)%nat) l ->
  bytes 16 (foldl (aes_round rks) s l) /\
  foldl (inv_round rks) (foldl (aes_round rks) s l) (rev l) = s.
Proof.
  induction l as [|r l IH]; intros s Hs Hl; [done|]. apply Forall_cons in Hl as [Hr Hl].
  destruct (inv_round_round s r Hs Hr) as [H1 E1]. cbn [foldl rev].
  destruct (IH _ H1 Hl) as [H2 E2]. split; [done|]. rewrite foldl_app, E2. done.
Qed.

End Rounds.

Lemma encrypt_decrypt key block :
  bytes 16 key -> bytes 16 block ->
  bytes 16 (tnu_aes128_encrypt_block key block) /\
  aes_decrypt key (tnu_aes128_encrypt_block key block) = block.
Proof.
  intros Hk Hb. unfold tnu_aes128_encrypt_block, aes_decrypt.
  pose proof (fun r => round_key_bytes key r Hk) as Hrk. revert Hrk.
  generalize (aes_expand_key key) as rks. intros rks Hrk.
  destruct (add_round_key_twice (take 16 block) (round_key rks 0)) as [H0 E0].
  { rewrite take_ge; [done|]. destruct Hb. lia. } { apply Hrk. lia. }
  destruct (inv_rounds rks Hrk (seq 1 9) _ H0) as [H1 E1].
  { apply Forall_forall. intros r Hr%elem_of_seq. lia. }
  destruct (inv_sub_bytes_sub 16 _ H1) as [H2 E2].
  destruct (inv_shift_rows_shift _ H2) as [H3 E3].
  destruct (add_round_key_twice _ (round_key rks 10) H3) as [H4 E4]; [apply Hrk; lia|].
  split; [done|]. rewrite E4, E3, E2, E1, E0. apply take_ge. destruct Hb. lia.
Qed.

(** A cipher block has 16 bytes, whatever the length of its input. *)
Lemma encrypt_length key block : bytes 16 key -> length (tnu_aes128_encrypt_block key block) = 16%nat.
Proof.
  intros Hk. unfold tnu_aes128_encrypt_block, aes_add_round_key at 1.
  rewrite length_zip_with. destruct (round_key_bytes key 10 Hk) as [-> _]; [lia|done].
Qed.

(** AES-128 encryption is invertible: for every 16-byte key the inverse
    cipher of FIPS 197 recovers every 16-byte block from its encryption. *)
Theorem aes_roundtrip key block :
  bytes 16 key -> bytes 16 block ->
  bytes 16 (tnu_aes128_encrypt_block key block) /\
  aes_decrypt key (tnu_aes128_encrypt_block key block) = block.
Proof. apply encrypt_decrypt. Qed.

(** ** Witness: the example vector of FIPS 197, appendix C.1 *)

Definition fips_key : list Z := map Z.of_nat (seq 0 16).
Definition fips_block : list Z := map (fun i => 17 * Z.of_nat i) (seq 0 16).
Definition fips_out : list Z :=
  [0x69; 0xc4; 0xe0; 0xd8; 0x6a; 0x7b; 0x04; 0x30; 0xd8; 0xcd; 0xb7; 0x80; 0x70; 0xb4; 0xc5; 0x5a].

Lemma fips_vector : tnu_aes128_encrypt_block fips_key fips_block = fips_out.
Proof. vm_compute. reflexivity. Qed.

Lemma aes_roundtrip_witness :
  tnu_aes128_encrypt_block fips_key fips_block = fips_out /\
  aes_decrypt fips_key (tnu_aes128_encrypt_block fips_key fips_block) = fips_block.
Proof.
  split; [apply fips_vector|]. apply aes_roundtrip; (split; [reflexivity|]);
    vm_compute; repeat apply Forall_cons_2; try apply Forall_nil_2; done.
Defined.
