(* ===== verification/Elf.v ===== *)
(** * kernel/lib/elf.c, compat/linux/elf/linux_elf.c and the loader of
      compat/linux/userspace/linux_exec.c

    An image is its bytes and its size. A read outside the image is undefined:
    [Ub]. [Err] is a return value of -1. Pointer arithmetic wraps at 64 bits.
    The memory that segments are copied to is a flat memory. *)
From S2P Require Import Prelude.

Inductive res (A : Type) : Type :=
| Ub : res A
| Err : res A
| Ok : A -> res A.
Arguments Ub {A}.
Arguments Err {A}.
Arguments Ok {A} a.

#[global] Instance res_bind : MBind res := fun A B f r =>
  match r with Ub => Ub | Err => Err | Ok a => f a end.

Definition PT_LOAD : Z := 1.

(** The fields of [struct elf64_ehdr] (or [elf32_ehdr]) that are read. *)
Record ehdr := Ehdr {
  e_ident : list Z; e_type : Z; e_machine : Z; e_entry : Z; e_phoff : Z;
  e_phentsize : Z; e_phnum : Z }.

Record phdr := Phdr {
  p_type : Z; p_flags : Z; p_offset : Z; p_vaddr : Z; p_filesz : Z; p_memsz : Z }.

Definition EHDR64 : Z := 64.
Definition PHDR64 : Z := 56.
Definition EHDR32 : Z := 52.
Definition PHDR32 : Z := 32.

(** Reading a structure needs all its bytes. *)
Definition ehdr64_at (img : mem) : ehdr :=
  Ehdr (mread img 0 16) (mget 2 img 16) (mget 2 img 18) (mget 8 img 24) (mget 8 img 32)
       (mget 2 img 54) (mget 2 img 56).

Definition ehdr32_at (img : mem) : ehdr :=
  Ehdr (mread img 0 16) (mget 2 img 16) (mget 2 img 18) (mget 4 img 24) (mget 4 img 28)
       (mget 2 img 42) (mget 2 img 44).

Definition rd_ehdr64 (img : mem) (size : Z) : res ehdr :=
  if size <? EHDR64 then Ub else Ok (ehdr64_at img).
Definition rd_ehdr32 (img : mem) (size : Z) : res ehdr :=
  if size <? EHDR32 then Ub else Ok (ehdr32_at img).

Definition phdr64_at (img : mem) (off : Z) : phdr :=
  Phdr (mget 4 img off) (mget 4 img (off + 4)) (mget 8 img (off + 8))
       (mget 8 img (off + 16)) (mget 8 img (off + 32)) (mget 8 img (off + 40)).

Definition phdr32_at (img : mem) (off : Z) : phdr :=
  Phdr (mget 4 img off) (mget 4 img (off + 24)) (mget 4 img (off + 4))
       (mget 4 img (off + 8)) (mget 4 img (off + 16)) (mget 4 img (off + 20)).

Definition rd_phdr64 (img : mem) (size off : Z) : res phdr :=
  if size <? off + PHDR64 then Ub else Ok (phdr64_at img off).
Definition rd_phdr32 (img : mem) (size off : Z) : res phdr :=
  if size <? off + PHDR32 then Ub else Ok (phdr32_at img off).

(** The program headers of an image, by index. *)
Definition phdr_off (eh : ehdr) (i : Z) : Z := u64 (e_phoff eh + i * e_phentsize eh).
Definition indices (n : Z) : list Z := map Z.of_nat (seq 0 (Z.to_nat n)).

(** [for (i = 0; i < e_phnum; i++)] with early return. *)
Fixpoint for_each {A} (body : Z -> A -> res A) (ixs : list Z) (a : A) : res A :=
  match ixs with [] => Ok a | i :: ixs => a ← body i a; for_each body ixs a end.

(** ** kernel/lib/elf.c *)

Record elf_image_info := Info {
  entry : Z; phnum : Z; itype : Z; lowest_vaddr : Z; highest_vaddr : Z }.

Definition ident_ok (eh : ehdr) : bool :=
  (nth 0 (e_ident eh) 0 =? 0x7f) && (nth 1 (e_ident eh) 0 =? 69) && (nth 2 (e_ident eh) 0 =? 76) &&
  (nth 3 (e_ident eh) 0 =? 70) && (nth 4 (e_ident eh) 0 =? 2) && (nth 5 (e_ident eh) 0 =? 1) &&
  (e_machine eh =? 62).

Definition validate_phdr (img : mem) (size : Z) (eh : ehdr) (i : Z) (info : elf_image_info)
    : res elf_image_info :=
  ph ← rd_phdr64 img size (phdr_off eh i);
  if negb (p_type ph =? PT_LOAD) then Ok info
  else if (size <? u64 (p_offset ph + p_filesz ph)) || (p_memsz ph <? p_filesz ph) then Err
  else
    let low := if p_vaddr ph <? lowest_vaddr info then p_vaddr ph else lowest_vaddr info in
    let e := u64 (p_vaddr ph + p_memsz ph) in
    let high := if highest_vaddr info <? e then e else highest_vaddr info in
    Ok (Info (entry info) (phnum info) (itype info) low high).

(** [image] is [None] for NULL; the contents of [*info] on success. *)
Definition elf64_validate (image : option mem) (size : Z) : res elf_image_info :=
  match image with
  | None => Err
  | Some img =>
    if size <? EHDR64 then Err
    else
      eh ← rd_ehdr64 img size;
      if negb (ident_ok eh) then Err
      else if (size <? u64 (e_phoff eh + e_phnum eh * e_phentsize eh)) || (e_phentsize eh <? PHDR64)
      then Err
      else
        info ← for_each (validate_phdr img size eh) (indices (e_phnum eh))
                 (Info (e_entry eh) (e_phnum eh) (e_type eh) U64_MAX 0);
        Ok (if lowest_vaddr info =? U64_MAX
            then Info (entry info) (phnum info) (itype info) 0 (highest_vaddr info) else info)
  end.

Definition USER_LOAD_MIN : Z := 0x400000.
Definition USER_LOAD_MAX : Z := 0x30000000.

(** The [memcpy] and [memset] of one segment. *)
Definition copy_segment (img : mem) (size : Z) (ph : phdr) (dest : Z) (m : mem) : res mem :=
  if size <? p_offset ph + p_filesz ph then Ub
  else
    let m := mset_bytes m dest (mread img (p_offset ph) (Z.to_nat (p_filesz ph))) in
    Ok (if p_filesz ph <? p_memsz ph
        then mem_fill m (u64 (dest + p_filesz ph)) (p_memsz ph - p_filesz ph) 0 else m).

Definition load_phdr (img : mem) (size : Z) (eh : ehdr) (i : Z) (m : mem) : res mem :=
  ph ← rd_phdr64 img size (phdr_off eh i);
  if negb (p_type ph =? PT_LOAD) then Ok m else copy_segment img size ph (p_vaddr ph) m.

(** The memory after loading. *)
Definition elf64_load (image : option mem) (size : Z) (m : mem) : res mem :=
  info ← elf64_validate image size;
  if (lowest_vaddr info <? USER_LOAD_MIN) || (USER_LOAD_MAX <? highest_vaddr info) then Err
  else
    match image with
    | None => Ub
    | Some img =>
      eh ← rd_ehdr64 img size;
      for_each (load_phdr img size eh) (indices (e_phnum eh)) m
    end.

(** ** compat/linux/elf/linux_elf.c *)

Record linux_elf_info := LInfo {
  l_class : Z; l_machine : Z; l_type : Z; l_entry : Z; l_phoff : Z; l_phentsize : Z; l_phnum : Z;
  l_lowest : Z; l_highest : Z;
  l_interp : option (Z * Z);          (* has_interp: offset, size *)
  l_tls : option (Z * Z * Z);         (* has_tls: vaddr, filesz, memsz *)
  l_stack : option Z;                 (* has_gnu_stack: flags *)
  l_relro : option (Z * Z);           (* has_relro: vaddr, memsz *)
  l_pie : bool }.

Definition valid_ident (eh : ehdr) (klass : Z) : bool :=
  (nth 0 (e_ident eh) 0 =? 0x7f) && (nth 1 (e_ident eh) 0 =? 69) && (nth 2 (e_ident eh) 0 =? 76) &&
  (nth 3 (e_ident eh) 0 =? 70) && (nth 4 (e_ident eh) 0 =? klass) && (nth 5 (e_ident eh) 0 =? 1).

Definition set_range (info : linux_elf_info) (low high : Z) : linux_elf_info :=
  LInfo (l_class info) (l_machine info) (l_type info) (l_entry info) (l_phoff info)
    (l_phentsize info) (l_phnum info) low high (l_interp info) (l_tls info) (l_stack info)
    (l_relro info) (l_pie info).

Definition note_segment (info : linux_elf_info) (ph : phdr) (image_size : Z) : res linux_elf_info :=
  if (image_size <? u64 (p_offset ph + p_filesz ph)) || (p_memsz ph <? p_filesz ph) then Err
  else
    let set i t s r := LInfo (l_class info) (l_machine info) (l_type info) (l_entry info)
      (l_phoff info) (l_phentsize info) (l_phnum info) (l_lowest info) (l_highest info)
      i t s r (l_pie info) in
    Ok (if p_type ph =? PT_LOAD then
          let low := if p_vaddr ph <? l_lowest info then p_vaddr ph else l_lowest info in
          let e := u64 (p_vaddr ph + p_memsz ph) in
          set_range info low (if l_highest info <? e then e else l_highest info)
        else if p_type ph =? 3 then
          set (Some (p_offset ph, p_filesz ph)) (l_tls info) (l_stack info) (l_relro info)
        else if p_type ph =? 7 then
          set (l_interp info) (Some (p_vaddr ph, p_filesz ph, p_memsz ph)) (l_stack info) (l_relro info)
        else if p_type ph =? 0x6474e551 then
          set (l_interp info) (l_tls info) (Some (p_flags ph)) (l_relro info)
        else if p_type ph =? 0x6474e552 then
          set (l_interp info) (l_tls info) (l_stack info) (Some (p_vaddr ph, p_memsz ph))
        else info).

(** What [probe32] and [probe64] share: they differ in the header layouts, the
    class, the machine and the least header size. *)
Definition probe (rd_eh : mem -> Z -> res ehdr) (rd_ph : mem -> Z -> Z -> res phdr)
    (ehsize phsize klass machine out_class : Z) (img : mem) (size : Z) : res linux_elf_info :=
  if size <? ehsize then Err
  else
    eh ← rd_eh img size;
    if negb (valid_ident eh klass) || negb (e_machine eh =? machine) || (e_phentsize eh <? phsize) ||
       (size <? u64 (e_phoff eh + e_phnum eh * e_phentsize eh)) then Err
    else
      for_each (fun i info => ph ← rd_ph img size (phdr_off eh i); note_segment info ph size)
        (indices (e_phnum eh))
        (LInfo out_class (e_machine eh) (e_type eh) (e_entry eh) (e_phoff eh) (e_phentsize eh)
               (e_phnum eh) U64_MAX 0 None None None None (e_type eh =? 3)).

Definition probe32 : mem -> Z -> res linux_elf_info := probe rd_ehdr32 rd_phdr32 EHDR32 PHDR32 1 3 1.
Definition probe64 : mem -> Z -> res linux_elf_info := probe rd_ehdr64 rd_phdr64 EHDR64 PHDR64 2 62 2.

Definition linux_elf_probe (image : option mem) (size : Z) : res linux_elf_info :=
  match image with
  | None => Err
  | Some img =>
    if size <? 16 then Err
    else
      let klass := img 4 in
      info ← (if klass =? 1 then probe32 img size else if klass =? 2 then probe64 img size else Err);
      Ok (if l_lowest info =? U64_MAX then set_range info 0 (l_highest info) else info)
  end.

(** ** The loader of linux_exec.c *)

Definition LINUX_USER_BASE : Z := 0x400000.
Definition LINUX_STACK_BOTTOM : Z := 0x50000000.
Definition LINUX_STACK_TOP : Z := 0x50400000.
Definition page_down (v : Z) : Z := v - v mod 4096.
Definition page_up (v : Z) : Z := page_down (u64 (v + 4096 - 1)).

(** The interpreter path: [Err] when it does not fit [out_size] bytes. *)
Definition copy_interp_path (img : mem) (size : Z) (info : linux_elf_info) (out_size : Z)
    : res (list Z) :=
  match l_interp info with
  | None => Ok []
  | Some (off, n) =>
    if (n =? 0) || (out_size <=? n) then Err
    else if size <? off + n then Ub
    else Ok (mread img off (Z.to_nat n))
  end.

Record linux_loaded_image := Loaded {
  li_info : linux_elf_info; load_bias : Z; li_entry : Z; li_phdr : Z }.

(** The memory, even on failure, and whether the return value is 0. *)
Fixpoint load_elf64_loop (img : mem) (size : Z) (eh : ehdr) (bias : Z) (ixs : list Z) (m : mem)
    : res (mem * bool) :=
  match ixs with
  | [] => Ok (m, true)
  | i :: ixs =>
    ph ← rd_phdr64 img size (phdr_off eh i);
    if negb (p_type ph =? PT_LOAD) then load_elf64_loop img size eh bias ixs m
    else if (size <? u64 (p_offset ph + p_filesz ph)) || (p_memsz ph <? p_filesz ph)
    then Ok (m, false)
    else
      m ← copy_segment img size ph (u64 (bias + p_vaddr ph)) m;
      load_elf64_loop img size eh bias ixs m
  end.

Definition load_elf64_segments (img : mem) (size bias : Z) (info : linux_elf_info) (m : mem)
    : res (mem * option linux_loaded_image) :=
  if size <? EHDR64 then Ok (m, None)
  else
    eh ← rd_ehdr64 img size;
    if negb (nth 4 (e_ident eh) 0 =? 2) || negb (e_machine eh =? 62) ||
       (size <? u64 (e_phoff eh + e_phnum eh * e_phentsize eh)) then Ok (m, None)
    else
      r ← load_elf64_loop img size eh bias (indices (e_phnum eh)) m;
      Ok (fst r, if (snd r : bool) then Some (Loaded info bias (u64 (bias + e_entry eh)) (u64 (bias + e_phoff eh)))
             else None).

(** [map_identity] is [vmm_map_range_identity]: whether it succeeds. *)
Definition load_linux_image (map_identity : Z -> Z -> bool) (image : option mem) (size : Z)
    (preferred_bias : Z) (m : mem) : res (mem * option linux_loaded_image) :=
  match image with
  | None => Ok (m, None)
  | Some img =>
    match linux_elf_probe image size with
    | Ub => Ub
    | Err => Ok (m, None)
    | Ok info =>
      if negb (l_class info =? 2) then Ok (m, None)
      else
        let bias := if l_pie info then preferred_bias else 0 in
        let start := page_down (u64 (bias + l_lowest info)) in
        let e := page_up (u64 (bias + l_highest info)) in
        if (start <? LINUX_USER_BASE) || (LINUX_STACK_BOTTOM <=? e) || (e <=? start) then Ok (m, None)
        else if negb (map_identity start (e - start)) then Ok (m, None)
        else load_elf64_segments img size bias info m
    end
  end.

(** ** Reads stay inside the image *)

Definition byte_image (img : mem) : Prop := forall x, 0 <= img x < 256.

Lemma mget_range img n off : byte_image img -> 0 <= mget n img off < 256 ^ Z.of_nat n.
Proof.
  intros Hb. pose proof (le_val_range (mread img off n)) as H. rewrite length_mread in H. apply H.
  unfold mread. apply Forall_map, Forall_true. intros i. apply Hb.
Qed.

Lemma mget8_range img off : byte_image img -> 0 <= mget 8 img off < 2 ^ 64.
Proof. apply (mget_range img 8). Qed.
Lemma mget4_range img off : byte_image img -> 0 <= mget 4 img off < 2 ^ 32.
Proof. apply (mget_range img 4). Qed.
Lemma mget2_range img off : byte_image img -> 0 <= mget 2 img off < 2 ^ 16.
Proof. apply (mget_range img 2). Qed.

(** The table of program headers does not wrap around the address space. *)
Definition table_fits (eh : ehdr) : Prop := e_phoff eh + e_phnum eh * e_phentsize eh < 2 ^ 64.

(** Fields as wide as the structures declare them. *)
Definition ehdr_ok (eh : ehdr) : Prop :=
  0 <= e_phoff eh < 2 ^ 64 /\ 0 <= e_phentsize eh < 2 ^ 16 /\ 0 <= e_phnum eh < 2 ^ 16.
Definition phdr_ok (ph : phdr) : Prop :=
  0 <= p_offset ph < 2 ^ 64 /\ 0 <= p_vaddr ph < 2 ^ 64 /\ 0 <= p_filesz ph < 2 ^ 64 /\
  0 <= p_memsz ph < 2 ^ 64.

Lemma ehdr64_ok img : byte_image img -> ehdr_ok (ehdr64_at img).
Proof.
  intros Hb. unfold ehdr_ok, ehdr64_at. cbn [e_phoff e_phentsize e_phnum]. pose proof (mget8_range img 32 Hb).
  pose proof (mget2_range img 54 Hb). pose proof (mget2_range img 56 Hb). lia.
Qed.

Lemma ehdr32_ok img : byte_image img -> ehdr_ok (ehdr32_at img) /\ e_phoff (ehdr32_at img) < 2 ^ 32.
Proof.
  intros Hb. unfold ehdr_ok, ehdr32_at. cbn [e_phoff e_phentsize e_phnum]. pose proof (mget4_range img 28 Hb).
  pose proof (mget2_range img 42 Hb). pose proof (mget2_range img 44 Hb). lia.
Qed.

Lemma phdr64_ok img off : byte_image img -> phdr_ok (phdr64_at img off).
Proof.
  intros Hb. unfold phdr_ok, phdr64_at. cbn [p_offset p_vaddr p_filesz p_memsz]. pose proof (mget8_range img (off + 8) Hb).
  pose proof (mget8_range img (off + 16) Hb). pose proof (mget8_range img (off + 32) Hb).
  pose proof (mget8_range img (off + 40) Hb). lia.
Qed.

Lemma indices_spec n i : In i (indices n) <-> 0 <= i < n.
Proof.
  unfold indices. rewrite in_map_iff. split.
  - intros (k & <- & Hk%in_seq). lia.
  - intros Hi. exists (Z.to_nat i). split; [lia|]. apply in_seq. lia.
Qed.

(** Under the checks the loaders make, header [i] lies inside the image. *)
Lemma phdr_off_inside eh size phsize i :
  ehdr_ok eh -> table_fits eh -> 0 <= phsize <= e_phentsize eh ->
  u64 (e_phoff eh + e_phnum eh * e_phentsize eh) <= size -> 0 <= i < e_phnum eh ->
  phdr_off eh i = e_phoff eh + i * e_phentsize eh /\ 0 <= phdr_off eh i /\
  phdr_off eh i + phsize <= size.
Proof.
  intros (H1 & H2 & H3) Ht Hp Hs Hi. unfold table_fits, phdr_off in *.
  assert (i * e_phentsize eh + e_phentsize eh <= e_phnum eh * e_phentsize eh) by nia.
  assert (0 <= i * e_phentsize eh) by nia.
  rewrite u64_small in Hs by lia. rewrite u64_small by lia. lia.
Qed.

Lemma for_each_no_ub {A} (body : Z -> A -> res A) ixs : forall a,
  (forall i a, In i ixs -> body i a <> Ub) -> for_each body ixs a <> Ub.
Proof.
  induction ixs as [|i ixs IH]; intros a H; [done|]. cbn [for_each].
  pose proof (H i a (or_introl eq_refl)) as Hi. destruct (body i a); try done.
  cbn [mbind res_bind]. apply IH. intros j b Hj. apply H. by right.
Qed.

Lemma validate_no_ub img size :
  byte_image img -> table_fits (ehdr64_at img) -> elf64_validate (Some img) size <> Ub.
Proof.
  intros Hb Ht. unfold elf64_validate, rd_ehdr64.
  destruct (Z.ltb_spec size EHDR64); [done|]. cbn [mbind res_bind].
  destruct (negb _); [done|]. destruct (_ || _) eqn:Hg; [done|]. bcases.
  pose proof (ehdr64_ok img Hb) as Heh.
  match goal with |- context [for_each ?b ?l ?a] =>
    assert (for_each b l a <> Ub) as Hf; [|by destruct (for_each b l a)] end.
  apply for_each_no_ub. intros i info Hi%indices_spec. unfold validate_phdr, rd_phdr64.
  destruct (phdr_off_inside (ehdr64_at img) size PHDR64 i Heh Ht) as (_ & _ & Hin);
    [unfold PHDR64 in *; lia|done|done|].
  destruct (Z.ltb_spec size (phdr_off (ehdr64_at img) i + PHDR64)); [lia|]. cbn [mbind res_bind].
  destruct (negb _); [done|]. by destruct (_ || _).
Qed.

(** Validation reads only bytes of the image, however malformed it is, as
    long as its program header table does not wrap around 2^64. *)
Theorem validate_in_bounds img size :
  byte_image img -> table_fits (ehdr64_at img) -> elf64_validate (Some img) size <> Ub.
Proof. apply validate_no_ub. Qed.

Lemma probe_no_ub img size :
  byte_image img -> (img 4 = 2 -> table_fits (ehdr64_at img)) ->
  linux_elf_probe (Some img) size <> Ub.
Proof.
  intros Hb Ht. unfold linux_elf_probe. destruct (size <? 16); [done|]. cbv zeta.
  assert (forall rd_eh eh_at rd_ph ph_at ehsize phsize k mc c,
    (forall img size, rd_eh img size = if size <? ehsize then Ub else Ok (eh_at img)) ->
    (forall img size off, rd_ph img size off = if size <? off + phsize then Ub else Ok (ph_at img off)) ->
    ehdr_ok (eh_at img) -> table_fits (eh_at img) -> 0 <= phsize ->
    probe rd_eh rd_ph ehsize phsize k mc c img size <> Ub) as Hprobe.
  { intros rd_eh eh_at rd_ph ph_at ehsize phsize k mc c He Hp Hok Hfit Hps. unfold probe. rewrite He.
    destruct (size <? ehsize); [done|]. cbn [mbind res_bind].
    destruct (_ || _) eqn:Hg; [done|]. bcases.
    apply for_each_no_ub. intros i info Hi%indices_spec. rewrite Hp.
    destruct (phdr_off_inside (eh_at img) size phsize i Hok Hfit) as (_ & _ & Hin); [lia|done|done|].
    destruct (Z.ltb_spec size (phdr_off (eh_at img) i + phsize)); [lia|]. cbn [mbind res_bind].
    unfold note_segment. by destruct (_ || _). }
  destruct (Z.eqb_spec (img 4) 1); [|destruct (Z.eqb_spec (img 4) 2); [|done]].
  - destruct (ehdr32_ok img Hb) as [Hok H32].
    assert (probe32 img size <> Ub) as H; [|by destruct (probe32 img size)].
    apply (Hprobe rd_ehdr32 ehdr32_at rd_phdr32 phdr32_at); try done.
    unfold table_fits. destruct Hok as (? & ? & ?). nia.
  - assert (probe64 img size <> Ub) as H; [|by destruct (probe64 img size)].
    apply (Hprobe rd_ehdr64 ehdr64_at rd_phdr64 phdr64_at); try done; [by apply ehdr64_ok|by apply Ht].
Qed.

(** The Linux loader's probe reads only bytes of the image: always for
    32-bit images, and for 64-bit ones whose header table does not wrap. *)
Theorem probe_in_bounds img size :
  byte_image img -> (img 4 = 2 -> table_fits (ehdr64_at img)) ->
  linux_elf_probe (Some img) size <> Ub.
Proof. apply probe_no_ub. Qed.

(** ** What the loaders write *)

Definition seg_fits (img : mem) (size dest : Z) (ph : phdr) : Prop :=
  p_offset ph + p_filesz ph <= size /\ 0 <= p_filesz ph <= p_memsz ph /\ 0 <= dest /\
  dest + p_memsz ph < 2 ^ 64.

(** The bytes a segment puts at [dest]: file contents, then zeros. *)
Definition seg_byte (img : mem) (ph : phdr) (k : Z) : Z :=
  if k <? p_filesz ph then img (p_offset ph + k) else 0.

Lemma copy_segment_spec img size ph dest m :
  seg_fits img size dest ph ->
  exists m', copy_segment img size ph dest m = Ok m' /\
    forall x, m' x = if (dest <=? x) && (x <? dest + p_memsz ph) then seg_byte img ph (x - dest) else m x.
Proof.
  intros (Ho & Hf & Hd & Hw). unfold copy_segment.
  destruct (Z.ltb_spec size (p_offset ph + p_filesz ph)); [lia|]. eexists. split; [done|].
  rewrite u64_small by lia. intros x.
  set (l := mread img (p_offset ph) (Z.to_nat (p_filesz ph))).
  assert (Z.of_nat (length l) = p_filesz ph) as Hl by (unfold l; rewrite length_mread; lia).
  assert (mset_bytes m dest l x =
    if (dest <=? x) && (x <? dest + p_filesz ph) then img (p_offset ph + (x - dest)) else m x) as Hs.
  { unfold mset_bytes. rewrite Hl. zcases; try done. unfold l. rewrite nth_mread by lia. f_equal. lia. }
  unfold seg_byte. destruct (Z.ltb_spec (p_filesz ph) (p_memsz ph)).
  - unfold mem_fill. rewrite Hs. zcases; try done; try lia.
  - rewrite Hs. zcases; try done; lia.
Qed.

(** The loadable segments among the program headers [ixs], relocated by [bias]. *)
Definition is_seg (img : mem) (eh : ehdr) (i : Z) : Prop :=
  p_type (phdr64_at img (phdr_off eh i)) = PT_LOAD.
Definition seg_covers (img : mem) (eh : ehdr) (bias i x : Z) : Prop :=
  is_seg img eh i /\
  let ph := phdr64_at img (phdr_off eh i) in
  bias + p_vaddr ph <= x < bias + p_vaddr ph + p_memsz ph.

(** Memory [m'] is [m] with the segments of [ixs] laid over it, where they do
    not overlap each other. *)
Definition loaded (img : mem) (eh : ehdr) (bias : Z) (ixs : list Z) (m m' : mem) : Prop :=
  (forall x, (forall i, In i ixs -> ~ seg_covers img eh bias i x) -> m' x = m x) /\
  (forall i x, In i ixs -> seg_covers img eh bias i x ->
     (forall j, In j ixs -> seg_covers img eh bias j x -> j = i) ->
     let ph := phdr64_at img (phdr_off eh i) in
     m' x = seg_byte img ph (x - (bias + p_vaddr ph))).

Lemma loaded_nil img eh bias m : loaded img eh bias [] m m.
Proof. by split; [|intros ? ? []]. Qed.

(** Adding a header in front of those already laid over the memory it left. *)
Lemma loaded_cons img eh bias i ixs m m1 m' :
  (is_seg img eh i -> let ph := phdr64_at img (phdr_off eh i) in
     forall x, m1 x = if (bias + p_vaddr ph <=? x) && (x <? bias + p_vaddr ph + p_memsz ph)
                      then seg_byte img ph (x - (bias + p_vaddr ph)) else m x) ->
  (~ is_seg img eh i -> m1 = m) -> ~ In i ixs ->
  loaded img eh bias ixs m1 m' -> loaded img eh bias (i :: ixs) m m'.
Proof.
  intros Hseg Hno Hni [L1 L2].
  assert (forall x, ~ seg_covers img eh bias i x -> m1 x = m x) as Hout.
  { intros x Hx. destruct (decide (p_type (phdr64_at img (phdr_off eh i)) = PT_LOAD)) as [Hs|Hs].
    - rewrite (Hseg Hs). destruct (_ && _) eqn:E; [|done]. bcases. exfalso. by apply Hx.
    - by rewrite (Hno Hs). }
  split.
  - intros x Hx. rewrite L1; [|intros j Hj; apply Hx; by right]. apply Hout, Hx. by left.
  - intros j x [<-|Hj] Hc Hu.
    + rewrite L1; [|intros k Hk Hk'; apply Hni; by rewrite <- (Hu k (or_intror Hk) Hk')].
      destruct Hc as [Hs Hc]. rewrite (Hseg Hs). cbv zeta in Hc.
      destruct (Z.leb_spec (bias + p_vaddr (phdr64_at img (phdr_off eh i))) x); [|lia].
      destruct (Z.ltb_spec x (bias + p_vaddr (phdr64_at img (phdr_off eh i)) +
                              p_memsz (phdr64_at img (phdr_off eh i)))); [done|lia].
    + apply L2; [done|done|]. intros k Hk. apply Hu. by right.
Qed.

Lemma indices_nodup n : NoDup (indices n).
Proof. unfold indices. apply NoDup_fmap; [intros ? ? ?; lia|apply NoDup_seq]. Qed.

Lemma for_each_collect {A} (body : Z -> A -> res A) (Q : Z -> A -> Prop) :
  (forall i a a', body i a = Ok a' -> Q i a') ->
  (forall i j a a', body i a = Ok a' -> Q j a -> Q j a') ->
  forall ixs a a', for_each body ixs a = Ok a' ->
    (forall i, In i ixs -> Q i a') /\ (forall j, Q j a -> Q j a').
Proof.
  intros H1 H2. induction ixs as [|i ixs IH]; intros a a' H; cbn [for_each] in H.
  - injection H as <-. split; [intros ? []|done].
  - destruct (body i a) as [| |b] eqn:E; try done. cbn [mbind res_bind] in H.
    destruct (IH b a' H) as [IH1 IH2]. split.
    + intros j [<-|Hj]; [apply IH2; by apply H1 in E|by apply IH1].
    + intros j Hj. apply IH2. by eapply H2.
Qed.

(** What a successful check of segment [i] guarantees, for the range found so far. *)
Definition seg_checked (img : mem) (size : Z) (eh : ehdr) (i low high : Z) : Prop :=
  is_seg img eh i -> let ph := phdr64_at img (phdr_off eh i) in
  u64 (p_offset ph + p_filesz ph) <= size /\ p_filesz ph <= p_memsz ph /\
  low <= p_vaddr ph /\ u64 (p_vaddr ph + p_memsz ph) <= high.

Lemma seg_checked_mono img size eh i low high low' high' :
  low' <= low -> high <= high' ->
  seg_checked img size eh i low high -> seg_checked img size eh i low' high'.
Proof. intros Hl Hh H Hs. specialize (H Hs). cbv zeta in *. lia. Qed.

Lemma validate_phdr_checked img size eh i info info' :
  validate_phdr img size eh i info = Ok info' ->
  seg_checked img size eh i (lowest_vaddr info') (highest_vaddr info') /\
  lowest_vaddr info' <= lowest_vaddr info /\ highest_vaddr info <= highest_vaddr info'.
Proof.
  unfold validate_phdr, rd_phdr64, seg_checked, is_seg. intros H.
  destruct (_ <? _); [done|]. cbn [mbind res_bind] in H.
  generalize dependent (phdr64_at img (phdr_off eh i)). intros ph H.
  destruct (Z.eqb_spec (p_type ph) PT_LOAD) as [Ht|Ht]; cbn [negb] in H;
    [|injection H as <-; split; [done|lia]].
  destruct (_ || _) eqn:Hg; [done|]. bcases. injection H as <-. cbn [lowest_vaddr highest_vaddr].
  split; [intros _; cbv zeta|]; zcases; lia.
Qed.

Lemma note_segment_checked img size eh i info info' :
  (ph ← rd_phdr64 img size (phdr_off eh i); note_segment info ph size) = Ok info' ->
  seg_checked img size eh i (l_lowest info') (l_highest info') /\
  l_lowest info' <= l_lowest info /\ l_highest info <= l_highest info'.
Proof.
  unfold rd_phdr64, note_segment, seg_checked, is_seg. intros H.
  destruct (_ <? _); [done|]. cbn [mbind res_bind] in H.
  generalize dependent (phdr64_at img (phdr_off eh i)). intros ph H.
  destruct (_ || _) eqn:Hg; [done|]. bcases. injection H as <-.
  destruct (Z.eqb_spec (p_type ph) PT_LOAD) as [Ht|Ht].
  - cbn [l_lowest l_highest set_range]. split; [intros _; cbv zeta|]; zcases; lia.
  - split; [done|]. repeat case_match; cbn [l_lowest l_highest]; lia.
Qed.

(** A segment that was checked and does not wrap can be copied. *)
Lemma checked_fits img size eh i low high bias :
  byte_image img -> seg_checked img size eh i low high -> is_seg img eh i ->
  let ph := phdr64_at img (phdr_off eh i) in
  p_offset ph + p_filesz ph < 2 ^ 64 -> 0 <= bias -> bias + p_vaddr ph + p_memsz ph < 2 ^ 64 ->
  seg_fits img size (bias + p_vaddr ph) ph.
Proof.
  intros Hb Hc Hs ph Ho Hbias Hw. specialize (Hc Hs). fold ph in Hc. cbv zeta in Hc.
  destruct (phdr64_ok img (phdr_off eh i) Hb) as (R1 & R2 & R3 & R4). fold ph in R1, R2, R3, R4.
  rewrite u64_small in Hc by lia. unfold seg_fits. lia.
Qed.

(** No segment's file range or memory range wraps. *)
Definition segs_fit (img : mem) (eh : ehdr) (bias : Z) : Prop :=
  forall i, 0 <= i < e_phnum eh -> is_seg img eh i ->
    let ph := phdr64_at img (phdr_off eh i) in
    p_offset ph + p_filesz ph < 2 ^ 64 /\ bias + p_vaddr ph + p_memsz ph < 2 ^ 64.

Section Load.
Context (img : mem) (size : Z) (Hb : byte_image img).
Let eh := ehdr64_at img.
Context (Hfit : table_fits eh) (Hps : PHDR64 <= e_phentsize eh)
  (Hsz : u64 (e_phoff eh + e_phnum eh * e_phentsize eh) <= size).

Lemma rd_phdr_ok i : 0 <= i < e_phnum eh ->
  rd_phdr64 img size (phdr_off eh i) = Ok (phdr64_at img (phdr_off eh i)).
Proof.
  intros Hi. unfold rd_phdr64.
  destruct (phdr_off_inside eh size PHDR64 i (ehdr64_ok img Hb) Hfit) as (_ & _ & H);
    [unfold PHDR64 in *; lia|done|done|].
  by destruct (Z.ltb_spec size (phdr_off eh i + PHDR64)); [lia|].
Qed.

Lemma load_phdr_ok i m : 0 <= i < e_phnum eh ->
  load_phdr img size eh i m =
  let ph := phdr64_at img (phdr_off eh i) in
  if negb (p_type ph =? PT_LOAD) then Ok m else copy_segment img size ph (p_vaddr ph) m.
Proof. intros Hi. unfold load_phdr. by rewrite (rd_phdr_ok i Hi). Qed.

Lemma load_loop low high ixs : segs_fit img eh 0 -> NoDup ixs ->
  (forall i, In i ixs -> 0 <= i < e_phnum eh /\ seg_checked img size eh i low high) ->
  forall m, exists m', for_each (load_phdr img size eh) ixs m = Ok m' /\ loaded img eh 0 ixs m m'.
Proof.
  intros Hw. induction ixs as [|i ixs IH]; intros Hnd Hc m;
    [exists m; split; [done|apply loaded_nil]|].
  apply NoDup_cons in Hnd as [Hni Hnd]. destruct (Hc i (or_introl eq_refl)) as [Hi Hci].
  specialize (IH Hnd (fun j Hj => Hc j (or_intror Hj))).
  cbn [for_each]. rewrite (load_phdr_ok i m Hi). cbv zeta.
  set (ph := phdr64_at img (phdr_off eh i)).
  assert (~ In i ixs) as Hni' by (by rewrite <- list_elem_of_In).
  destruct (Z.eqb_spec (p_type ph) PT_LOAD) as [Ht|Ht]; cbn [negb].
  - destruct (Hw i Hi Ht) as [Hw1 Hw2]. fold ph in Hw1, Hw2.
    destruct (copy_segment_spec img size ph (p_vaddr ph) m) as (m1 & -> & Hm1).
    { exact (checked_fits img size eh i low high 0 Hb Hci Ht Hw1 (Z.le_refl 0) Hw2). }
    cbn [mbind res_bind]. destruct (IH m1) as (m' & -> & HL). exists m'. split; [done|].
    apply (loaded_cons img eh 0 i ixs m m1 m'); [|intros Hn; by destruct (Hn Ht)|done|exact HL].
    intros _. fold ph. cbv zeta. intros x.
    by rewrite !Z.add_0_l, Hm1.
  - cbn [mbind res_bind]. destruct (IH m) as (m' & -> & HL). exists m'. split; [done|].
    apply (loaded_cons img eh 0 i ixs m m m'); [intros Hs; by destruct (Ht Hs)|done|done|exact HL].
Qed.

Lemma load_elf64_loop_ok bias low high ixs : 0 <= bias -> segs_fit img eh bias -> NoDup ixs ->
  (forall i, In i ixs -> 0 <= i < e_phnum eh /\ seg_checked img size eh i low high) ->
  forall m, exists m', load_elf64_loop img size eh bias ixs m = Ok (m', true) /\
    loaded img eh bias ixs m m'.
Proof.
  intros Hbias Hw. induction ixs as [|i ixs IH]; intros Hnd Hc m;
    [exists m; split; [done|apply loaded_nil]|].
  apply NoDup_cons in Hnd as [Hni Hnd]. destruct (Hc i (or_introl eq_refl)) as [Hi Hci].
  specialize (IH Hnd (fun j Hj => Hc j (or_intror Hj))).
  cbn [load_elf64_loop]. rewrite (rd_phdr_ok i Hi). cbn [mbind res_bind].
  set (ph := phdr64_at img (phdr_off eh i)).
  assert (~ In i ixs) as Hni' by (by rewrite <- list_elem_of_In).
  destruct (Z.eqb_spec (p_type ph) PT_LOAD) as [Ht|Ht]; cbn [negb].
  - destruct (Hw i Hi Ht) as [Hw1 Hw2]. fold ph in Hw1, Hw2.
    pose proof (checked_fits img size eh i low high bias Hb Hci Ht Hw1 Hbias Hw2) as Hfits.
    fold ph in Hfits. destruct (phdr64_ok img (phdr_off eh i) Hb) as (R1 & R2 & R3 & R4).
    fold ph in R1, R2, R3, R4. specialize (Hci Ht). fold ph in Hci. cbv zeta in Hci.
    destruct (Z.ltb_spec size (u64 (p_offset ph + p_filesz ph))); [lia|].
    destruct (Z.ltb_spec (p_memsz ph) (p_filesz ph)); [lia|]. cbn [orb].
    rewrite u64_small by lia.
    destruct (copy_segment_spec img size ph _ m Hfits) as (m1 & -> & Hm1).
    cbn [mbind res_bind]. destruct (IH m1) as (m' & -> & HL). exists m'. split; [done|].
    apply (loaded_cons img eh bias i ixs m m1 m'); [|intros Hn; by destruct (Hn Ht)|done|exact HL].
    intros _. fold ph. exact Hm1.
  - destruct (IH m) as (m' & -> & HL). exists m'. split; [done|].
    apply (loaded_cons img eh bias i ixs m m m'); [intros Hs; by destruct (Ht Hs)|done|done|exact HL].
Qed.

End Load.

(** C14 Loading a native image that passes the checks succeeds, lays every
    loadable segment (file bytes, then zeros) at its address, and changes no
    byte outside [USER_LOAD_MIN, USER_LOAD_MAX), provided no sum in the image's
    headers wraps around 2^64. *)
Theorem elf64_load_correct img size m :
  byte_image img -> table_fits (ehdr64_at img) -> segs_fit img (ehdr64_at img) 0 ->
  match elf64_load (Some img) size m with
  | Ub => False
  | Err => True
  | Ok m' => loaded img (ehdr64_at img) 0 (indices (e_phnum (ehdr64_at img))) m m' /\
             forall x, ~ USER_LOAD_MIN <= x < USER_LOAD_MAX -> m' x = m x
  end.
Proof.
  intros Hb Hfit Hw. pose proof (validate_no_ub img size Hb Hfit) as Hv.
  unfold elf64_load, elf64_validate, rd_ehdr64 in *. destruct (Z.ltb_spec size EHDR64); [done|].
  cbn [mbind res_bind] in *. destruct (negb _); [done|]. destruct (_ || _) eqn:Hg; [done|]. bcases.
  assert (PHDR64 <= e_phentsize (ehdr64_at img)) as Hps by done.
  assert (u64 (e_phoff (ehdr64_at img) + e_phnum (ehdr64_at img) * e_phentsize (ehdr64_at img)) <= size)
    as Hsz by done.
  set (eh := ehdr64_at img) in *.
  destruct (for_each _ _ _) as [| |info] eqn:E; [done|done|]. cbn [mbind res_bind].
  pose proof (for_each_collect (validate_phdr img size eh)
    (fun i a => seg_checked img size eh i (lowest_vaddr a) (highest_vaddr a))) as Hcol.
  destruct (fun H1 H2 => Hcol H1 H2 _ _ _ E) as [Hchk _]; clear Hcol.
  { intros i a a' Ha. by apply validate_phdr_checked in Ha as [? _]. }
  { intros i j a a' Ha. apply validate_phdr_checked in Ha as (_ & ? & ?).
    by apply seg_checked_mono. }
  destruct (Z.ltb_spec size EHDR64); [lia|]. cbn [mbind res_bind].
  set (info' := if _ =? _ then _ else info). destruct (_ || _) eqn:Hg; [done|]. bcases.
  pose proof (load_loop img size Hb Hfit Hps Hsz (lowest_vaddr info) (highest_vaddr info)
    (indices (e_phnum eh)) Hw (indices_nodup _)) as HLL. fold eh in HLL.
  destruct (HLL) with (m := m) as (m' & -> & HL).
  { intros i Hi. split; [by apply indices_spec|by apply Hchk]. }
  split; [done|]. intros x Hx. apply HL. intros i Hi [Hs Hc]. apply Hx. cbv zeta in Hc.
  specialize (Hchk i Hi Hs) as (_ & Hfm & Hlo & Hhi). apply indices_spec in Hi.
  destruct (Hw i Hi Hs) as [_ Hw2]. destruct (phdr64_ok img (phdr_off eh i) Hb) as (R1 & R2 & R3 & R4).
  rewrite u64_small in Hhi by lia.
  assert (highest_vaddr info' = highest_vaddr info) as Eh by (unfold info'; by case_match).
  assert (lowest_vaddr info' <= lowest_vaddr info) as El.
  { unfold info'. case_match; bcases; cbn; unfold U64_MAX in *; lia. }
  lia.
Qed.

(** ** The Linux loader *)

Lemma for_each_inv {A} (body : Z -> A -> res A) (P : A -> Prop) ixs : forall a a',
  (forall i a a', In i ixs -> P a -> body i a = Ok a' -> P a') -> P a ->
  for_each body ixs a = Ok a' -> P a'.
Proof.
  induction ixs as [|i ixs IH]; intros a a' H Ha E; cbn [for_each] in E; [by injection E as <-|].
  destruct (body i a) as [| |b] eqn:Eb; try done. cbn [mbind res_bind] in E.
  apply (IH b); [intros j; intros; eapply H; [by right|done|done]|eapply H; [by left|done|done]|done].
Qed.

(** What a successful probe of a 64-bit image says about the image. *)
Lemma probe64_checked img size info bias :
  byte_image img -> 0 <= bias < 2 ^ 64 -> segs_fit img (ehdr64_at img) bias ->
  probe64 img size = Ok info ->
  let eh := ehdr64_at img in
  EHDR64 <= size /\ valid_ident eh 2 = true /\ e_machine eh = 62 /\ PHDR64 <= e_phentsize eh /\
  u64 (e_phoff eh + e_phnum eh * e_phentsize eh) <= size /\
  (forall i, In i (indices (e_phnum eh)) -> seg_checked img size eh i (l_lowest info) (l_highest info)) /\
  0 <= l_lowest info /\ 0 <= l_highest info /\ bias + l_highest info < 2 ^ 64.
Proof.
  intros Hb Hbias Hw H eh. unfold probe64, probe, rd_ehdr64 in H. fold eh in H.
  destruct (Z.ltb_spec size EHDR64); [done|]. cbn [mbind res_bind] in H.
  destruct (_ || _) eqn:Hg; [done|]. bcases.
  do 5 (split; [done || lia|]). split.
  - eapply (for_each_collect _
      (fun i a => seg_checked img size eh i (l_lowest a) (l_highest a))); [| |exact H].
    + intros i a a' Ha. by apply note_segment_checked in Ha as [? _].
    + intros i j a a' Ha. apply note_segment_checked in Ha as (_ & ? & ?). by apply seg_checked_mono.
  - revert H. apply (for_each_inv _ (fun a => 0 <= l_lowest a /\ 0 <= l_highest a /\ bias + l_highest a < 2 ^ 64));
      [|cbn; unfold U64_MAX; lia].
    intros i a a' Hi%indices_spec Ha Hbody. unfold rd_phdr64 in Hbody.
    destruct (_ <? _); [done|]. cbn [mbind res_bind] in Hbody.
    pose proof (Hw i Hi) as Hwi. pose proof (phdr64_ok img (phdr_off eh i) Hb) as Hok.
    unfold is_seg in Hwi. fold eh in Hwi.
    revert Hwi Hok Hbody. generalize (phdr64_at img (phdr_off eh i)). intros ph Hwi (R1 & R2 & R3 & R4) Hbody.
    unfold note_segment in Hbody. destruct (_ || _); [done|]. injection Hbody as <-.
    destruct (Z.eqb_spec (p_type ph) PT_LOAD) as [Ht|Ht].
    + destruct (Hwi Ht) as [_ Hv]. cbn [l_lowest l_highest set_range]. rewrite u64_small by lia.
      repeat case_match; lia.
    + repeat case_match; cbn [l_lowest l_highest]; lia.
Qed.

(** The lowest address the probe reports: 0 when there is no segment. *)
Lemma linux_probe_class2 img size info :
  linux_elf_probe (Some img) size = Ok info -> l_class info = 2 ->
  exists info0, probe64 img size = Ok info0 /\ l_highest info = l_highest info0 /\
    l_lowest info = (if l_lowest info0 =? U64_MAX then 0 else l_lowest info0).
Proof.
  unfold linux_elf_probe. destruct (size <? 16); [done|]. cbv zeta. intros H Hc.
  destruct (img 4 =? 1) eqn:E1.
  - exfalso. destruct (probe32 img size) as [| |i0] eqn:E; try done. cbn [mbind res_bind] in H.
    assert (l_class i0 = 1) as H1.
    { unfold probe32, probe in E. destruct (_ <? _); [done|]. destruct (rd_ehdr32 img size); try done.
      cbn [mbind res_bind] in E. destruct (_ || _); [done|]. revert E.
      apply (for_each_inv _ (fun a => l_class a = 1)); [|done]. intros i a b _ Ha Hb.
      destruct (rd_phdr32 _ _ _); try done. cbn [mbind res_bind] in Hb. unfold note_segment in Hb.
      destruct (_ || _); [done|]. injection Hb as <-. repeat case_match; done. }
    injection H as <-. case_match; cbn in *; congruence.
  - destruct (img 4 =? 2); [|done]. destruct (probe64 img size) as [| |i0] eqn:E; try done.
    cbn [mbind res_bind] in H. injection H as <-. exists i0. split; [done|]. by case_match.
Qed.

Lemma page_down_le v : 0 <= v -> page_down v <= v.
Proof. unfold page_down. Z.div_mod_to_equations. lia. Qed.

Lemma page_up_ge v : 0 <= v < 2 ^ 64 -> 0 < page_up v -> v <= page_up v.
Proof. unfold page_up, page_down, u64. Z.div_mod_to_equations. lia. Qed.

(** Loading a Linux image never leaves its window: whatever the outcome, no
    byte below [LINUX_USER_BASE] or from [LINUX_STACK_BOTTOM] on changes; and
    when the image is accepted every loadable segment is in place at its bias. *)
Theorem linux_load_confined map_identity img size bias0 m :
  byte_image img -> table_fits (ehdr64_at img) -> 0 <= bias0 < 2 ^ 64 ->
  (forall bias, bias = 0 \/ bias = bias0 -> segs_fit img (ehdr64_at img) bias) ->
  match load_linux_image map_identity (Some img) size bias0 m with
  | Ok (m', r) =>
      (forall x, ~ LINUX_USER_BASE <= x < LINUX_STACK_BOTTOM -> m' x = m x) /\
      (forall li, r = Some li ->
         loaded img (ehdr64_at img) (load_bias li) (indices (e_phnum (ehdr64_at img))) m m')
  | _ => False
  end.
Proof.
  intros Hb Hfit Hb0 Hw. unfold load_linux_image.
  pose proof (probe_no_ub img size Hb (fun _ => Hfit)) as Hub.
  destruct (linux_elf_probe (Some img) size) as [| |info] eqn:E; [done|by split|].
  destruct (Z.eqb_spec (l_class info) 2) as [Hc|]; cbn [negb]; [|by split].
  set (bias := if l_pie info then bias0 else 0). cbv zeta.
  destruct (_ || _) eqn:Hg; [by split|]. bcases. destruct (negb _); [by split|].
  assert (bias = 0 \/ bias = bias0) as Hbias by (unfold bias; destruct (l_pie info); auto).
  specialize (Hw bias Hbias). assert (0 <= bias < 2 ^ 64) as Hbr by lia. clearbody bias.
  apply linux_probe_class2 in E as (info0 & E & Eh & El); [|done].
  destruct (probe64_checked img size info0 bias Hb Hbr Hw E)
    as (Hsz & Hid & Hmc & Hps & Htab & Hchk & Hl0 & Hh0 & Hh1).
  unfold load_elf64_segments, rd_ehdr64. destruct (Z.ltb_spec size EHDR64); [lia|].
  cbn [mbind res_bind].
  assert (negb (nth 4 (e_ident (ehdr64_at img)) 0 =? 2) = false) as ->.
  { unfold valid_ident in Hid. bcases. apply negb_false_iff. by apply Z.eqb_eq. }
  rewrite Hmc, Z.eqb_refl. cbn [negb orb].
  destruct (Z.ltb_spec size (u64 (e_phoff (ehdr64_at img) +
    e_phnum (ehdr64_at img) * e_phentsize (ehdr64_at img)))); [lia|].
  destruct (load_elf64_loop_ok img size Hb Hfit Hps Htab bias (l_lowest info0) (l_highest info0)
    (indices (e_phnum (ehdr64_at img))) (proj1 Hbr) Hw (indices_nodup _)) with (m := m)
    as (m' & -> & HL).
  { intros i Hi. split; [by apply indices_spec|by apply Hchk]. }
  cbn [mbind res_bind fst snd]. split; [|intros li [= <-]; exact HL].
  intros x Hx. apply HL. intros i Hi [Hs Hcov]. apply Hx. cbv zeta in Hcov.
  specialize (Hchk i Hi Hs) as (_ & Hfm & Hlo & Hhi). apply indices_spec in Hi.
  destruct (Hw i Hi Hs) as [_ Hw2]. destruct (phdr64_ok img (phdr_off (ehdr64_at img) i) Hb)
    as (R1 & R2 & R3 & R4). rewrite u64_small in Hhi by lia.
  assert (u64 (bias + l_highest info) = bias + l_highest info0) as Eh' by (rewrite Eh, u64_small; lia).
  rewrite Eh' in *.
  unfold LINUX_USER_BASE, LINUX_STACK_BOTTOM in *.
  pose proof (u64_range (bias + l_lowest info)) as Hlr.
  pose proof (page_down_le (u64 (bias + l_lowest info)) ltac:(lia)).
  pose proof (page_up_ge (bias + l_highest info0) ltac:(lia) ltac:(lia)).
  assert (u64 (bias + l_lowest info) <= bias + p_vaddr (phdr64_at img (phdr_off (ehdr64_at img) i))).
  { rewrite El in *. unfold U64_MAX in *. case_match; bcases; [lia|]. rewrite u64_small; lia. }
  lia.
Qed.

(** ** Example images *)

Definition image_of (l : list Z) : mem := fun x => nth (Z.to_nat x) l 0.

Lemma image_of_bytes l : forallb (fun b => (0 <=? b) && (b <? 256)) l = true -> byte_image (image_of l).
Proof.
  intros H x. unfold image_of. destruct (decide (Z.to_nat x < length l)%nat) as [Hx|Hx].
  - rewrite forallb_forall in H. specialize (H _ (nth_In l 0 Hx)). bcases. lia.
  - rewrite nth_overflow by lia. lia.
Qed.

(** A 64-bit image with one loadable segment, whose contents follow the headers. *)
Definition one_segment (type vaddr memsz : Z) (data : list Z) : list Z :=
  [0x7f; 69; 76; 70; 2; 1; 1; 0; 0; 0; 0; 0; 0; 0; 0; 0] ++ le_bytes 2 type ++ le_bytes 2 62 ++
  le_bytes 4 1 ++ le_bytes 8 vaddr ++ le_bytes 8 64 ++ le_bytes 8 0 ++ le_bytes 4 0 ++
  le_bytes 2 64 ++ le_bytes 2 56 ++ le_bytes 2 1 ++ le_bytes 2 0 ++ le_bytes 2 0 ++ le_bytes 2 0 ++
  le_bytes 4 1 ++ le_bytes 4 5 ++ le_bytes 8 120 ++ le_bytes 8 vaddr ++ le_bytes 8 vaddr ++
  le_bytes 8 (Z.of_nat (length data)) ++ le_bytes 8 memsz ++ le_bytes 8 4096 ++ data.

(** A computed result, observed through a test. *)
Lemma res_check {A} (r : res A) (P : A -> bool) :
  match r with Ok a => P a | _ => false end = true -> exists a, r = Ok a /\ P a = true.
Proof. destruct r; try done. eauto. Qed.

(** The bounds on segments can be escaped: the check on the highest address
    compares a sum that wraps, so an accepted image writes a byte of its choice
    above [USER_LOAD_MAX]. *)
Theorem load_escapes_region :
  exists img size m', byte_image img /\ elf64_load (Some img) size (fun _ => 0) = Ok m' /\
    exists x, USER_LOAD_MAX <= x /\ m' x = 0x90.
Proof.
  set (l := one_segment 2 0x100000000 (2 ^ 64 - 0x100000000) [0x90]).
  assert (exists m', elf64_load (Some (image_of l)) 121 (fun _ => 0) = Ok m' /\ (m' 0x100000000 =? 0x90) = true)
    as (m' & H1 & H2%Z.eqb_eq).
  { apply (res_check _ (fun m' => m' 0x100000000 =? 0x90)). vm_compute. reflexivity. }
  exists (image_of l), 121, m'. split; [by apply image_of_bytes|]. split; [done|].
  exists 0x100000000. split; [unfold USER_LOAD_MAX; lia|done].
Qed.

Definition demo_image : mem := image_of (one_segment 2 0x400000 8 [1; 2; 3]).

Lemma demo_image_bytes : byte_image demo_image.
Proof. by apply image_of_bytes. Qed.

Lemma demo_table_fits : table_fits (ehdr64_at demo_image).
Proof. vm_compute. reflexivity. Qed.

Lemma demo_segs_fit bias : 0 <= bias <= 0x4000000 -> segs_fit demo_image (ehdr64_at demo_image) bias.
Proof.
  intros Hb i Hi _. change (e_phnum (ehdr64_at demo_image)) with 1 in Hi.
  replace i with 0 by lia.
  assert (phdr64_at demo_image (phdr_off (ehdr64_at demo_image) 0) = Phdr 1 5 120 0x400000 3 8) as ->
    by (vm_compute; reflexivity).
  cbv zeta. cbn [p_offset p_filesz p_vaddr p_memsz]. lia.
Qed.

Lemma validate_in_bounds_witness : elf64_validate (Some demo_image) 123 <> Ub.
Proof. apply (validate_in_bounds demo_image 123 demo_image_bytes demo_table_fits). Defined.

Lemma probe_in_bounds_witness : linux_elf_probe (Some demo_image) 123 <> Ub.
Proof. apply (probe_in_bounds demo_image 123 demo_image_bytes). intros _. apply demo_table_fits. Defined.

Lemma elf64_load_correct_witness :
  exists m', elf64_load (Some demo_image) 123 (fun _ => 9) = Ok m' /\
    loaded demo_image (ehdr64_at demo_image) 0 (indices 1) (fun _ => 9) m'.
Proof.
  pose proof (elf64_load_correct demo_image 123 (fun _ => 9) demo_image_bytes demo_table_fits
    (demo_segs_fit 0 ltac:(lia))) as H.
  destruct (res_check (elf64_load (Some demo_image) 123 (fun _ => 9)) (fun _ => true)) as (m' & E & _);
    [vm_compute; reflexivity|].
  rewrite E in H. exists m'. split; [exact E|]. apply H.
Defined.

Lemma linux_load_confined_witness :
  exists p, load_linux_image (fun _ _ => true) (Some demo_image) 123 0x4000000 (fun _ => 9) = Ok p /\
    is_Some (snd p) /\ forall x, ~ LINUX_USER_BASE <= x < LINUX_STACK_BOTTOM -> fst p x = 9.
Proof.
  pose proof (linux_load_confined (fun _ _ => true) demo_image 123 0x4000000 (fun _ => 9)
    demo_image_bytes demo_table_fits ltac:(lia)) as H.
  destruct (res_check (load_linux_image (fun _ _ => true) (Some demo_image) 123 0x4000000 (fun _ => 9))
    (fun p => match snd p with Some _ => true | None => false end)) as ([m' r] & E & Hr);
    [vm_compute; reflexivity|].
  rewrite E in H. exists (m', r). split; [exact E|]. split; [by destruct r|].
  apply H. intros bias [->| ->]; apply demo_segs_fit; lia.
Defined.
