(* ===== verification/LinuxStack.v ===== *)
(** * compat/linux/userspace/linux_exec.c: the initial stack of a Linux program

    [build_linux_stack] writes the strings, the auxiliary vector, the
    environment and the argument vector below [LINUX_STACK_TOP]. *)
From S2P Require Import Prelude Elf.

Definition LINUX_MAX_ARGS : nat := 32.

Definition env_values : list (list Z) :=
  [str "PATH=/bin:/sbin:/usr/bin:/usr/sbin:/usr/local/bin:/usr/local/sbin"; str "HOME=/root";
   str "TERM=linux"; str "SHELL=/bin/sh"; str "USER=root"; str "PWD=/"].

(** [seed] is the xor of two kernel addresses. *)
Definition xorshift (seed : Z) : Z :=
  let seed := Z.lxor seed (u64 (Z.shiftl seed 13)) in
  let seed := Z.lxor seed (Z.shiftr seed 7) in
  Z.lxor seed (u64 (Z.shiftl seed 17)).

Fixpoint random_bytes (n : nat) (seed : Z) : list Z :=
  match n with O => [] | S n => let seed := xorshift seed in u8 seed :: random_bytes n seed end.

Definition push_string (m : mem) (sp : Z) (s : list Z) : mem * Z :=
  let len := Z.of_nat (length s) + 1 in
  let sp := u64 (sp - len) in
  (mset_bytes m sp (s ++ [0]), sp).

(** [for (i = n - 1; i >= 0; i--) push_string(&sp, l[i], &ptrs[i])] *)
Fixpoint push_strings (l : list (list Z)) (m : mem) (sp : Z) : mem * Z * list Z :=
  match l with
  | [] => (m, sp, [])
  | s :: l =>
    let '(m, sp, ptrs) := push_strings l m sp in
    let '(m, sp) := push_string m sp s in
    (m, sp, sp :: ptrs)
  end.

(** [*--stack = v] *)
Definition push64 (ms : mem * Z) (v : Z) : mem * Z :=
  let sp := u64 (snd ms - 8) in (mput 8 (fst ms) sp v, sp).

(** The words of the auxiliary vector in the order they are pushed. *)
Definition auxv_pushes (main : linux_loaded_image) (base : Z) (execfn random uid gid : Z) : list Z :=
  [0; execfn; 31; random; 25; 0; 23; 100; 17; 0; 16; gid; 14; gid; 13; uid; 12; uid; 11;
   li_entry main; 9; base; 7; 4096; 6; l_phnum (li_info main); 5; l_phentsize (li_info main); 4;
   li_phdr main; 3].

(** [interp] is the interpreter's image, [uid] and [gid] those of the process
    (0 when there is none). The memory and the initial stack pointer. *)
Definition build_linux_stack (main : linux_loaded_image) (interp : option linux_loaded_image)
    (exec_path : list Z) (argv : list (list Z)) (seed uid gid : Z) (m : mem) : mem * Z :=
  let '(m, sp) := push_string m LINUX_STACK_TOP exec_path in
  let execfn_ptr := sp in
  let sp := u64 (sp - 16) in
  let m := mset_bytes m sp (random_bytes 16 seed) in
  let random_ptr := sp in
  let '(m, sp, argv_ptrs) := push_strings argv m sp in
  let '(m, sp, env_ptrs) := push_strings env_values m sp in
  let sp := Z.land sp (Z.lnot 0xf) in
  let base := match interp with Some i => load_bias i | None => 0 end in
  let ms := foldl push64 (m, sp) (auxv_pushes main base execfn_ptr random_ptr uid gid) in
  let ms := push64 ms 0 in
  let ms := foldl push64 ms (rev env_ptrs) in
  let ms := push64 ms 0 in
  let ms := foldl push64 ms (rev argv_ptrs) in
  push64 ms (Z.of_nat (length argv)).

(** ** Proofs *)

Definition total (l : list (list Z)) : Z := foldr (fun s n => Z.of_nat (length s) + 1 + n) 0 l.

Lemma total_nonneg l : 0 <= total l.
Proof. induction l; simpl; lia. Qed.

Lemma total_bound l : Forall (fun s => (length s <= 255)%nat) l -> total l <= 256 * Z.of_nat (length l).
Proof. induction 1; cbn [total foldr length] in *; [lia|]. fold (total l) in *. lia. Qed.

(** [m'] agrees with [m] outside [lo, hi). *)
Definition agree_outside (lo hi : Z) (m m' : mem) : Prop :=
  forall x, ~ lo <= x < hi -> m' x = m x.

Lemma cstr_at_agree lo hi m m' a s :
  agree_outside lo hi m m' -> a + Z.of_nat (length s) < lo \/ hi <= a -> cstr_at m a s -> cstr_at m' a s.
Proof.
  intros H Ha (H1 & H2 & H3). repeat split; [done| |].
  - rewrite <- H2 at 2. apply mread_ext. intros x Hx. apply H. lia.
  - rewrite H; [done|lia].
Qed.

Lemma push_string_spec m sp s m' sp' :
  cstring s -> 0 <= sp - (Z.of_nat (length s) + 1) -> sp < 2 ^ 64 ->
  push_string m sp s = (m', sp') ->
  sp' = sp - (Z.of_nat (length s) + 1) /\ cstr_at m' sp' s /\ agree_outside sp' sp m m'.
Proof.
  intros Hs Hlo Hhi. unfold push_string. rewrite u64_small by lia. intros H. injection H as <- <-.
  split; [done|]. set (a := sp - _) in *.
  assert (length (s ++ [0]) = S (length s)) as Hl by (rewrite length_app; simpl; lia).
  split; [split; [done|split]|].
  - apply nth_ext with 0 0; [by rewrite length_mread|]. rewrite length_mread. intros i Hi.
    rewrite nth_mread by done. rewrite mset_bytes_in with (d := 0) by lia.
    replace (Z.to_nat (a + Z.of_nat i - a)) with i by lia. by rewrite app_nth1.
  - rewrite mset_bytes_in with (d := 0) by lia.
    replace (Z.to_nat (a + Z.of_nat (length s) - a)) with (length s) by lia. by rewrite nth_middle.
  - intros x Hx. apply mset_bytes_out. lia.
Qed.

(** Every string of [l] is where its pointer says, in [lo, hi). *)
Definition strings_at (m : mem) (lo hi : Z) (ptrs : list Z) (l : list (list Z)) : Prop :=
  Forall2 (fun p s => lo <= p /\ p + Z.of_nat (length s) < hi /\ cstr_at m p s) ptrs l.

Lemma strings_at_agree lo hi m m' a b ptrs l :
  agree_outside lo hi m m' -> b <= lo \/ hi <= a -> strings_at m a b ptrs l -> strings_at m' a b ptrs l.
Proof.
  intros H Hd HF. eapply Forall2_impl; [exact HF|]. intros p s (H1 & H2 & H3). split; [done|]. split; [done|].
  eapply cstr_at_agree; [done| |done]. lia.
Qed.

Lemma strings_at_widen m lo hi lo' hi' ptrs l :
  lo' <= lo -> hi <= hi' -> strings_at m lo hi ptrs l -> strings_at m lo' hi' ptrs l.
Proof. intros H1 H2 HF. eapply Forall2_impl; [exact HF|]. intros p s (? & ? & ?). split; [lia|]. split; [lia|done]. Qed.

Lemma push_strings_spec l : forall m sp m' sp' ptrs,
  Forall cstring l -> 0 <= sp - total l -> sp < 2 ^ 64 ->
  push_strings l m sp = (m', sp', ptrs) ->
  sp' = sp - total l /\ strings_at m' sp' sp ptrs l /\ agree_outside sp' sp m m'.
Proof.
  induction l as [|s l IH]; intros m sp m' sp' ptrs Hc Hlo Hhi H; cbn [push_strings total foldr] in *.
  - simplify_eq. split; [lia|]. split; [constructor|done].
  - fold (total l) in *. apply Forall_cons in Hc as [Hs Hc]. pose proof (total_nonneg l).
    destruct (push_strings l m sp) as [[m1 sp1] ps] eqn:E.
    destruct (IH m sp m1 sp1 ps Hc ltac:(lia) Hhi E) as (-> & H1 & H2).
    destruct (push_string m1 (sp - total l) s) as [m2 sp2] eqn:E2. injection H as <- <- <-.
    destruct (push_string_spec m1 (sp - total l) s m2 sp2 Hs ltac:(lia) ltac:(lia) E2) as (-> & H3 & H4).
    split; [lia|]. split.
    + constructor; [split; [lia|]; split; [lia|done]|].
      eapply strings_at_widen; [| |eapply strings_at_agree; [exact H4| |exact H1]]; lia.
    + intros x Hx. rewrite H4 by lia. apply H2. lia.
Qed.

(** Words pushed one after the other, read back in ascending order. *)
Definition words_at (m : mem) (sp : Z) (ws : list Z) : Prop :=
  forall i w, ws !! i = Some w -> mget 8 m (sp + 8 * Z.of_nat i) = u64 w.

Lemma mput_agree m a v : agree_outside a (a + 8) m (mput 8 m a v).
Proof. intros x Hx. apply mset_bytes_out. by rewrite length_le_bytes. Qed.

Lemma push64_words m sp ws v :
  8 <= sp < 2 ^ 64 -> words_at m sp ws ->
  exists m', push64 (m, sp) v = (m', sp - 8) /\ words_at m' (sp - 8) (v :: ws) /\
    agree_outside (sp - 8) sp m m'.
Proof.
  intros Hsp Hw. unfold push64. cbn [fst snd]. rewrite u64_small by lia.
  exists (mput 8 m (sp - 8) v). split; [done|]. split.
  - intros i w Hi. destruct i as [|i]; cbn [lookup list_lookup] in Hi.
    + injection Hi as <-. rewrite Z.mul_0_r, Z.add_0_r. apply mget_mput_same.
    + rewrite mget_mput_disjoint by lia. rewrite <- (Hw i w Hi). f_equal. lia.
  - intros x Hx. apply mput_agree. lia.
Qed.

Lemma push64s_words vs : forall m sp ws,
  8 * Z.of_nat (length vs) <= sp < 2 ^ 64 -> words_at m sp ws ->
  exists m', foldl push64 (m, sp) vs = (m', sp - 8 * Z.of_nat (length vs)) /\
    words_at m' (sp - 8 * Z.of_nat (length vs)) (rev vs ++ ws) /\
    agree_outside (sp - 8 * Z.of_nat (length vs)) sp m m'.
Proof.
  induction vs as [|v vs IH]; intros m sp ws Hsp Hw; cbn [foldl length rev app] in *.
  - exists m. rewrite Z.mul_0_r, Z.sub_0_r. by repeat split.
  - destruct (push64_words m sp ws v ltac:(lia) Hw) as (m1 & -> & H1 & H2).
    destruct (IH m1 (sp - 8) (v :: ws) ltac:(lia) H1) as (m2 & -> & H3 & H4).
    replace (sp - 8 * Z.of_nat (S (length vs))) with (sp - 8 - 8 * Z.of_nat (length vs)) by lia.
    exists m2. split; [done|]. split; [by rewrite <- app_assoc|].
    intros x Hx. rewrite H4, H2; [done|lia|lia].
Qed.

(** The words from the stack pointer up: the argument count, the argument
    pointers, NULL, the environment pointers, NULL, the auxiliary vector. *)
Definition stack_words (main : linux_loaded_image) (base execfn random uid gid : Z)
    (argv_ptrs env_ptrs : list Z) : list Z :=
  [Z.of_nat (length argv_ptrs)] ++ argv_ptrs ++ [0] ++ env_ptrs ++ [0] ++
  rev (auxv_pushes main base execfn random uid gid).

Lemma env_cstrings : Forall cstring env_values.
Proof.
  unfold env_values, cstring. norm_str. repeat apply Forall_cons_2; try apply Forall_nil_2; lia.
Qed.

(** What building the stack establishes, for any strings that fit. *)
Lemma build_linux_stack_spec main interp exec_path argv seed uid gid m :
  cstring exec_path -> Forall cstring argv ->
  total (exec_path :: argv) + 8 * Z.of_nat (length argv) <= 0x300000 ->
  exists m' sp execfn random argv_ptrs env_ptrs,
    build_linux_stack main interp exec_path argv seed uid gid m = (m', sp) /\
    words_at m' sp (stack_words main (match interp with Some i => load_bias i | None => 0 end)
                      execfn random uid gid argv_ptrs env_ptrs) /\
    strings_at m' sp LINUX_STACK_TOP argv_ptrs argv /\
    strings_at m' sp LINUX_STACK_TOP env_ptrs env_values /\
    cstr_at m' execfn exec_path /\
    LINUX_STACK_BOTTOM < sp /\ (sp + 8 * Z.of_nat (length argv)) mod 16 = 0 /\
    agree_outside sp LINUX_STACK_TOP m m'.
Proof.
  intros He Ha Ht. unfold build_linux_stack.
  cbn [total foldr] in Ht. fold (total argv) in Ht. pose proof (total_nonneg argv) as Hta.
  unfold LINUX_STACK_TOP, LINUX_STACK_BOTTOM in *.
  destruct (push_string m 0x50400000 exec_path) as [m1 sp1] eqn:E1.
  destruct (push_string_spec m 0x50400000 exec_path m1 sp1 He ltac:(lia) ltac:(lia) E1) as (Hsp1 & Hs1 & Hm1).
  rewrite (u64_small (sp1 - 16)) by lia. set (m2 := mset_bytes m1 (sp1 - 16) (random_bytes 16 seed)).
  assert (agree_outside (sp1 - 16) sp1 m1 m2) as Hm2.
  { intros x Hx. apply mset_bytes_out. change (length (random_bytes 16 seed)) with 16%nat. lia. }
  destruct (push_strings argv m2 (sp1 - 16)) as [[m3 sp3] ap] eqn:E3.
  destruct (push_strings_spec argv m2 (sp1 - 16) m3 sp3 ap Ha ltac:(lia) ltac:(lia) E3) as (Hsp3 & Hs3 & Hm3).
  assert (Forall cstring env_values) as Henv by apply env_cstrings.
  assert (0 <= total env_values <= 300) as Htenv by (vm_compute; split; discriminate).
  destruct (push_strings env_values m3 sp3) as [[m4 sp4] ep] eqn:E4.
  destruct (push_strings_spec env_values m3 sp3 m4 sp4 ep Henv ltac:(lia) ltac:(lia) E4) as (Hsp4 & Hs4 & Hm4).
  set (base := match interp with Some i => load_bias i | None => 0 end).
  set (sp5 := Z.land sp4 (Z.lnot 0xf)).
  assert (sp4 - 15 <= sp5 <= sp4 /\ sp5 mod 16 = 0) as [Hsp5 Hal].
  { assert (sp5 = sp4 / 16 * 16) as -> by (unfold sp5; change 15 with (Z.ones 4);
      by rewrite land_lnot_ones by lia).
    Z.div_mod_to_equations. lia. }
  clearbody sp5. assert (words_at m4 sp5 []) as Hw0 by (by intros i w Hi).
  pose proof (Forall2_length _ _ _ Hs3) as Hla. pose proof (Forall2_length _ _ _ Hs4) as Hle.
  assert (length env_values = 6%nat) as Hl6 by reflexivity. rewrite Hl6 in Hle.
  set (vs := auxv_pushes main base sp1 (sp1 - 16) uid gid).
  set (all := vs ++ [0] ++ rev ep ++ [0] ++ rev ap ++ [Z.of_nat (length argv)]).
  assert (length all = 40 + length argv)%nat as Hall.
  { unfold all. rewrite !length_app, !length_rev, Hla, Hle. unfold vs. simpl. lia. }
  destruct (push64s_words all m4 sp5 [] ltac:(lia) Hw0) as (m' & Hf & Hw & Hm').
  exists m', (sp5 - 8 * Z.of_nat (length all)), sp1, (sp1 - 16), ap, ep. split.
  { rewrite <- Hf. unfold all. rewrite !foldl_app. reflexivity. }
  split.
  { unfold stack_words. fold base. rewrite app_nil_r in Hw. unfold all in Hw at 2.
    rewrite !rev_app_distr, !rev_involutive in Hw. cbn [rev app] in Hw.
    rewrite <- !app_assoc in Hw. cbn [app] in *. rewrite Hla. exact Hw. }
  assert (agree_outside (sp5 - 8 * Z.of_nat (length all)) sp4 m4 m') as Hm5
    by (intros x Hx; apply Hm'; lia).
  split_and!.
  - eapply strings_at_widen; [| |eapply strings_at_agree; [exact Hm5| |
      eapply strings_at_agree; [exact Hm4| |exact Hs3]]]; lia.
  - eapply strings_at_widen; [| |eapply strings_at_agree; [exact Hm5| |exact Hs4]]; lia.
  - eapply cstr_at_agree; [exact Hm5| |eapply cstr_at_agree; [exact Hm4| |
      eapply cstr_at_agree; [exact Hm3| |eapply cstr_at_agree; [exact Hm2| |exact Hs1]]]]; lia.
  - lia.
  - rewrite Hall. clear -Hal. Z.div_mod_to_equations. lia.
  - intros x Hx. rewrite Hm5, Hm4, Hm3, Hm2, Hm1 by lia. done.
Qed.

(** The initial stack is the one the System V ABI describes: from the stack
    pointer up the argument count, the argument and environment pointers with
    their NULLs and the auxiliary vector; every pointer is to its string, the
    whole lies in the stack's window, and nothing outside is written. *)
Theorem linux_stack_layout main interp exec_path argv seed uid gid m :
  cstring exec_path -> Forall cstring argv -> (length argv <= LINUX_MAX_ARGS)%nat ->
  Forall (fun s => (length s <= 255)%nat) (exec_path :: argv) ->
  exists m' sp execfn random argv_ptrs env_ptrs,
    build_linux_stack main interp exec_path argv seed uid gid m = (m', sp) /\
    words_at m' sp (stack_words main (match interp with Some i => load_bias i | None => 0 end)
                      execfn random uid gid argv_ptrs env_ptrs) /\
    strings_at m' sp LINUX_STACK_TOP argv_ptrs argv /\
    strings_at m' sp LINUX_STACK_TOP env_ptrs env_values /\
    cstr_at m' execfn exec_path /\ LINUX_STACK_BOTTOM < sp /\
    agree_outside sp LINUX_STACK_TOP m m'.
Proof.
  intros He Ha Hn Hl.
  destruct (build_linux_stack_spec main interp exec_path argv seed uid gid m He Ha)
    as (m' & sp & e & r & ap & ep & H1 & H2 & H3 & H4 & H5 & H6 & _ & H7).
  - apply total_bound in Hl. unfold LINUX_MAX_ARGS in Hn. cbn [length] in Hl. lia.
  - by exists m', sp, e, r, ap, ep.
Qed.

(** The stack pointer is a multiple of 16, as the ABI requires at entry,
    exactly when the argument count is even: with one argument it is not. *)
Theorem linux_stack_misaligned main interp exec_path argv seed uid gid m :
  cstring exec_path -> Forall cstring argv -> (length argv <= LINUX_MAX_ARGS)%nat ->
  Forall (fun s => (length s <= 255)%nat) (exec_path :: argv) ->
  snd (build_linux_stack main interp exec_path argv seed uid gid m) mod 16 =
  if Nat.even (length argv) then 0 else 8.
Proof.
  intros He Ha Hn Hl.
  destruct (build_linux_stack_spec main interp exec_path argv seed uid gid m He Ha)
    as (m' & sp & e & r & ap & ep & -> & _ & _ & _ & _ & _ & Hal & _).
  - apply total_bound in Hl. unfold LINUX_MAX_ARGS in Hn. cbn [length] in Hl. lia.
  - cbn [snd]. destruct (Nat.Even_or_Odd (length argv)) as [Hp|Hp].
    + rewrite (proj2 (Nat.even_spec _) Hp). destruct Hp as [k Hk].
      clear -Hal Hk. Z.div_mod_to_equations. lia.
    + replace (Nat.even (length argv)) with false
        by (symmetry; rewrite <- Nat.negb_odd; apply negb_false_iff; by apply Nat.odd_spec).
      destruct Hp as [k Hk]. clear -Hal Hk. Z.div_mod_to_equations. lia.
Qed.

(** ** Witnesses: [/bin/ls -l] *)

Definition demo_main : linux_loaded_image :=
  Loaded (LInfo 2 62 3 0x1000 64 56 9 0 0x8000 None None None None true) 0x4000000 0x4001000 0x4000040.

Lemma demo_args : Forall cstring [str "ls"; str "-l"; str "/"] /\ cstring (str "/bin/ls").
Proof.
  split; unfold cstring; norm_str; repeat apply Forall_cons_2; try apply Forall_nil_2; lia.
Qed.

Lemma linux_stack_layout_witness :
  exists m' sp execfn random argv_ptrs env_ptrs,
    build_linux_stack demo_main None (str "/bin/ls") [str "ls"; str "-l"; str "/"] 1 0 0 (fun _ => 0)
      = (m', sp) /\
    words_at m' sp (stack_words demo_main 0 execfn random 0 0 argv_ptrs env_ptrs) /\
    strings_at m' sp LINUX_STACK_TOP argv_ptrs [str "ls"; str "-l"; str "/"] /\
    strings_at m' sp LINUX_STACK_TOP env_ptrs env_values /\
    cstr_at m' execfn (str "/bin/ls") /\ LINUX_STACK_BOTTOM < sp /\
    agree_outside sp LINUX_STACK_TOP (fun _ => 0) m'.
Proof.
  apply (linux_stack_layout demo_main None (str "/bin/ls") [str "ls"; str "-l"; str "/"] 1 0 0);
    [apply demo_args|apply demo_args|vm_compute; lia|].
  repeat apply Forall_cons_2; try apply Forall_nil_2; vm_compute; lia.
Defined.

Lemma linux_stack_misaligned_witness :
  snd (build_linux_stack demo_main None (str "/bin/ls") [str "ls"; str "-l"; str "/"] 1 0 0
         (fun _ => 0)) mod 16 = 8.
Proof.
  apply (linux_stack_misaligned demo_main None (str "/bin/ls") [str "ls"; str "-l"; str "/"] 1 0 0);
    [apply demo_args|apply demo_args|vm_compute; lia|].
  repeat apply Forall_cons_2; try apply Forall_nil_2; vm_compute; lia.
Defined.
