(* ===== verification/Sha256.v ===== *)
(** * userspace/libc/src/tls.c: SHA-256, HMAC and HKDF

    The compression function of FIPS 180-4 and the key derivation of RFC 5869;
    the streaming code is [Digest]'s. HKDF writes its inner HMAC out, over a
    message that it feeds in up to three pieces. *)
From S2P Require Import Prelude.
From S2P Require Export Digest.

Definition ror32 (x n : Z) : Z := Z.lor (Z.shiftr x n) (u32 (Z.shiftl x (32 - n))).

(** The table [k], two 32-bit constants to a number. *)
Definition sha256_k : list Z :=
  concat (map (fun kk => [Z.shiftr kk 32; u32 kk])
    [0x428a2f9871374491; 0xb5c0fbcfe9b5dba5;
     0x3956c25b59f111f1; 0x923f82a4ab1c5ed5;
     0xd807aa9812835b01; 0x243185be550c7dc3;
     0x72be5d7480deb1fe; 0x9bdc06a7c19bf174;
     0xe49b69c1efbe4786; 0x0fc19dc6240ca1cc;
     0x2de92c6f4a7484aa; 0x5cb0a9dc76f988da;
     0x983e5152a831c66d; 0xb00327c8bf597fc7;
     0xc6e00bf3d5a79147; 0x06ca635114292967;
     0x27b70a852e1b2138; 0x4d2c6dfc53380d13;
     0x650a7354766a0abb; 0x81c2c92e92722c85;
     0xa2bfe8a1a81a664b; 0xc24b8b70c76c51a3;
     0xd192e819d6990624; 0xf40e3585106aa070;
     0x19a4c1161e376c08; 0x2748774c34b0bcb5;
     0x391c0cb34ed8aa4a; 0x5b9cca4f682e6ff3;
     0x748f82ee78a5636f; 0x84c878148cc70208;
     0x90befffaa4506ceb; 0xbef9a3f7c67178f2]).

(** [w[i]] for [i] below 64. *)
Definition schedule256 (block : list Z) : list Z :=
  Nat.iter 48
    (fun w =>
      let at_ k := nth (length w - k) w 0 in
      let s0 := Z.lxor (Z.lxor (ror32 (at_ 15%nat) 7) (ror32 (at_ 15%nat) 18)) (Z.shiftr (at_ 15%nat) 3) in
      let s1 := Z.lxor (Z.lxor (ror32 (at_ 2%nat) 17) (ror32 (at_ 2%nat) 19)) (Z.shiftr (at_ 2%nat) 10) in
      w ++ [u32 (at_ 16%nat + s0 + at_ 7%nat + s1)])
    (map (fun i => load_be32 (drop (i * 4) block)) (seq 0 16)).

(** One round on the working variables [a] to [h]. *)
Definition sha256_round (w : list Z) (s : Z * Z * Z * Z * (Z * Z * Z * Z)) (i : nat)
    : Z * Z * Z * Z * (Z * Z * Z * Z) :=
  let '(a, b, c, d, (e, f, g, h)) := s in
  let s1 := Z.lxor (Z.lxor (ror32 e 6) (ror32 e 11)) (ror32 e 25) in
  let ch := Z.lxor (Z.land e f) (Z.land (u32 (Z.lnot e)) g) in
  let t1 := u32 (h + s1 + ch + nth i sha256_k 0 + nth i w 0) in
  let s0 := Z.lxor (Z.lxor (ror32 a 2) (ror32 a 13)) (ror32 a 22) in
  let maj := Z.lxor (Z.lxor (Z.land a b) (Z.land a c)) (Z.land b c) in
  let t2 := u32 (s0 + maj) in
  (u32 (t1 + t2), a, b, c, (u32 (d + t1), e, f, g)).

(** [sha256_transform] on the chaining value. *)
Definition compress256 (h : list Z) (block : list Z) : list Z :=
  let w := schedule256 block in
  let '(a, b, c, d, (e, f, g, k)) :=
    foldl (sha256_round w)
          (nth 0 h 0, nth 1 h 0, nth 2 h 0, nth 3 h 0, (nth 4 h 0, nth 5 h 0, nth 6 h 0, nth 7 h 0))
          (seq 0 64) in
  [u32 (nth 0 h 0 + a); u32 (nth 1 h 0 + b); u32 (nth 2 h 0 + c); u32 (nth 3 h 0 + d);
   u32 (nth 4 h 0 + e); u32 (nth 5 h 0 + f); u32 (nth 6 h 0 + g); u32 (nth 7 h 0 + k)].

Definition sha256_H0 : list Z :=
  [0x6a09e667; 0xbb67ae85; 0x3c6ef372; 0xa54ff53a; 0x510e527f; 0x9b05688c; 0x1f83d9ab; 0x5be0cd19].

(** What SHA-256 gives the streaming code of [Digest]. *)
#[local] Instance sha256_hash : BlockHash := {|
  bh_compress := compress256; bh_H0 := sha256_H0; bh_words := 8; bh_words_max := ltac:(lia) |}.

Definition sha256_init : hash_ctx := hash_init.
Definition sha256_update (ctx : hash_ctx) (data : list Z) : option hash_ctx := hash_update ctx data.
Definition sha256_final (ctx : hash_ctx) : option (list Z) := hash_final ctx.
Definition tnu_sha256 (data : list Z) : option (list Z) := hash_once data.
Definition tnu_hmac_sha256 (key data : list Z) : option (list Z) := hash_hmac key data.

Definition TNU_SHA256_DIGEST_SIZE : nat := 32.
Definition TNU_TLS_OK : Z := 0.
Definition TNU_TLS_ERR_UNSUPPORTED : Z := -1.
Definition TNU_TLS_ERR_CRYPTO_MISSING : Z := -2.
Definition TNU_TLS_ERR_NETWORK : Z := -3.
Definition TNU_TLS_ERR_BAD_URL : Z := -4.
Definition TNU_TLS_ERR_HANDSHAKE_INCOMPLETE : Z := -5.
Definition TNU_TLS_ERR_CERT_UNTRUSTED : Z := -6.
Definition TNU_TLS_ERR_CERT_HOSTNAME : Z := -7.
Definition TNU_TLS_ERR_CERT_PARSE : Z := -8.

(** [if (n) sha256_update(&ctx, p, n)] *)
Definition update_some (ctx : hash_ctx) (p : list Z) : option hash_ctx :=
  match p with [] => Some ctx | _ => sha256_update ctx p end.

(** The body of HKDF's loop: [t] for the next block. [prk] has 32 bytes. *)
Definition hkdf_block (prk t info : list Z) (counter : Z) : option (list Z) :=
  let k0 := list_inserts 0 prk (replicate 64 0) in
  ctx ← sha256_update sha256_init (hmac_pad k0 0x36);
  ctx ← update_some ctx t;
  ctx ← update_some ctx info;
  ctx ← sha256_update ctx [counter];
  digest ← sha256_final ctx;
  ctx ← sha256_update sha256_init (hmac_pad k0 0x5c);
  ctx ← sha256_update ctx digest;
  sha256_final ctx.

(** [while (done < out_len)]; [t] has [t_len] bytes. *)
Fixpoint hkdf_loop (fuel : nat) (prk info t : list Z) (counter : Z) (out_len : nat) (out : list Z)
    : option (list Z) :=
  match fuel with
  | O => None
  | S f =>
    if (length out <? out_len)%nat
    then
      t ← hkdf_block prk t info counter;
      let take_ := Nat.min (out_len - length out) (length t) in
      hkdf_loop f prk info t (u8 (counter + 1)) out_len (out ++ take take_ t)
    else Some out
  end.

(** The return value and the bytes written to [out], a buffer or NULL. *)
Definition tnu_hkdf_sha256 (salt : option (list Z)) (ikm info : list Z) (out_given : bool)
    (out_len : nat) : option (Z * list Z) :=
  if negb out_given && (0 <? out_len)%nat then Some (TNU_TLS_ERR_BAD_URL, [])
  else if (255 * TNU_SHA256_DIGEST_SIZE <? out_len)%nat then Some (TNU_TLS_ERR_UNSUPPORTED, [])
  else
    let salt := default (replicate TNU_SHA256_DIGEST_SIZE 0) salt in
    prk ← tnu_hmac_sha256 salt ikm;
    out ← hkdf_loop (S out_len) prk info [] 1 out_len [];
    Some (TNU_TLS_OK, out).

(** The compression function is only computed with, never reasoned about. *)
#[local] Opaque compress256.

(** ** Reference definitions *)

Definition sha256_spec : list Z -> list Z := hash_spec.
Definition hmac_sha256_spec : list Z -> list Z -> list Z := hmac_spec.

(** [T(i)] of RFC 5869. *)
Fixpoint hkdf_T (prk info : list Z) (i : nat) : list Z :=
  match i with
  | O => []
  | S i => hmac_sha256_spec prk (hkdf_T prk info i ++ info ++ [Z.of_nat (S i)])
  end.

(** HKDF-Extract, then HKDF-Expand to [out_len] bytes. *)
Definition hkdf_spec (salt : option (list Z)) (ikm info : list Z) (out_len : nat) : list Z :=
  let prk := hmac_sha256_spec (default (replicate 32 0) salt) ikm in
  take out_len (concat (map (hkdf_T prk info) (seq 1 out_len))).

(** Feed a message piece by piece. *)
Definition sha256_feed (ctx : hash_ctx) (chunks : list (list Z)) : option hash_ctx :=
  foldl (fun c data => c ← c; sha256_update c data) (Some ctx) chunks.

Lemma length_hmac_sha256_spec key data : length (hmac_sha256_spec key data) = 32%nat.
Proof. apply (length_hmac_spec (BH := sha256_hash)). Qed.

Lemma tnu_sha256_eq data :
  Z.of_nat (length data) < 2 ^ 61 -> tnu_sha256 data = Some (sha256_spec data).
Proof. apply (hash_once_eq (BH := sha256_hash)). Qed.

Lemma length_sha256_spec data : length (sha256_spec data) = 32%nat.
Proof. apply (length_hash_spec (BH := sha256_hash)). Qed.

Lemma hmac_sha256_eq key data :
  Z.of_nat (length key) < 2 ^ 61 -> Z.of_nat (length data) + 64 < 2 ^ 61 ->
  tnu_hmac_sha256 key data = Some (hmac_sha256_spec key data).
Proof. apply (hmac_eq (BH := sha256_hash)). Qed.

Lemma fed_some ctx l data : fed ctx l ->
  exists ctx', update_some ctx data = Some ctx' /\ fed ctx' (l ++ data).
Proof.
  intros Hf. destruct data as [|x data]; [exists ctx; by rewrite app_nil_r|].
  by apply fed_update.
Qed.

#[local] Opaque hash_update hash_spec.

(** The loop body is HMAC over the concatenation of its pieces. *)
Lemma hkdf_block_eq prk t info c :
  length prk = 32%nat -> Z.of_nat (length t + length info) < 2 ^ 60 ->
  hkdf_block prk t info c = Some (hmac_sha256_spec prk (t ++ info ++ [c])).
Proof.
  intros Hp Hl. unfold hkdf_block, hmac_sha256_spec, hmac_spec. rewrite Hp.
  change (64 <? 32)%nat with false. cbv iota.
  rewrite inserts_front by (rewrite length_replicate; lia). rewrite drop_replicate, Hp.
  set (k0 := prk ++ replicate (64 - 32) 0).
  assert (length k0 = 64%nat) as Hk by (unfold k0; rewrite length_app, length_replicate; lia).
  destruct (fed_update _ _ (hmac_pad k0 0x36) fed_init) as (c1 & E1 & H1).
  unfold sha256_update, sha256_init. rewrite E1, bind_some.
  destruct (fed_some _ _ t H1) as (c2 & -> & H2). rewrite bind_some.
  destruct (fed_some _ _ info H2) as (c3 & -> & H3). rewrite bind_some.
  destruct (fed_update _ _ [c] H3) as (c4 & -> & H4). rewrite bind_some.
  rewrite <- !app_assoc in H4. cbn [app] in H4.
  unfold sha256_final. rewrite (fed_final _ _ H4).
  2:{ rewrite !length_app. unfold hmac_pad. rewrite length_map. simpl. lia. }
  rewrite bind_some.
  destruct (fed_update _ _ (hmac_pad k0 0x5c) fed_init) as (d1 & -> & G1). rewrite bind_some.
  match goal with |- context [hash_update d1 ?m] => destruct (fed_update _ _ m G1) as (d2 & -> & G2) end.
  rewrite bind_some. apply (fed_final _ _ G2).
  rewrite !length_app. unfold hmac_pad. rewrite length_map, Hk, length_hash_spec. simpl. lia.
Qed.

#[local] Opaque hmac_sha256_spec.

Lemma length_hkdf_T prk info i : length (hkdf_T prk info (S i)) = 32%nat.
Proof. apply length_hmac_sha256_spec. Qed.

(** The loop invariant of HKDF: [k] blocks are out, [T(k)] is at hand. *)
Lemma hkdf_loop_eq prk info n fuel : forall k,
  length prk = 32%nat -> Z.of_nat (length info) < 2 ^ 59 -> (n <= 255 * 32)%nat ->
  (k <= n < k + fuel)%nat ->
  let f i := hkdf_T prk info (S i) in
  hkdf_loop fuel prk info (hkdf_T prk info k) (u8 (Z.of_nat (S k))) n (take n (blocks f k)) =
  Some (take n (blocks f n)).
Proof.
  induction fuel as [|fuel IH]; intros k Hp Hi Hn Hk f;
    (assert (forall i, length (f i) = 32%nat) as Hf by (intros; apply length_hkdf_T)).
  - lia.
  - cbn [hkdf_loop]. rewrite (length_take_blocks 32) at 1 by done.
    destruct (Nat.ltb_spec (Nat.min n (32 * k)) n) as [Hlt|Hge].
    + rewrite (u8_small (Z.of_nat (S k))) by lia.
      rewrite hkdf_block_eq; [|done|].
      2:{ destruct k; [simpl; lia|]. rewrite length_hkdf_T. lia. }
      rewrite bind_some. change (hmac_sha256_spec prk _) with (f k). rewrite Hf.
      rewrite (blocks_step 32) by (try done; lia).
      replace (Z.of_nat (S k) + 1) with (Z.of_nat (S (S k))) by lia. apply IH; lia || done.
    + f_equal. apply (blocks_full 32); [lia|done|lia].
Qed.

(** ** The properties *)

(** Streaming SHA-256: however a message is cut into pieces for
    [sha256_update], the digest is the FIPS 180-4 padding of the whole message
    folded through the compression function. *)
Theorem sha256_streaming chunks :
  Z.of_nat (length (concat chunks)) < 2 ^ 61 ->
  (ctx ← sha256_feed sha256_init chunks; sha256_final ctx) = Some (sha256_spec (concat chunks)).
Proof. apply (hash_streaming (BH := sha256_hash)). Qed.

(** HKDF-SHA256: for every length it accepts, the output is that of RFC 5869's
    Extract and Expand, absent salts and empty pieces included; longer outputs
    and a missing buffer are refused. *)
Theorem hkdf_correct salt ikm info out_len :
  Z.of_nat (length (default [] salt)) < 2 ^ 59 -> Z.of_nat (length ikm) < 2 ^ 59 ->
  Z.of_nat (length info) < 2 ^ 59 ->
  tnu_hkdf_sha256 salt ikm info true out_len =
  Some (if (out_len <=? 255 * 32)%nat then (TNU_TLS_OK, hkdf_spec salt ikm info out_len)
        else (TNU_TLS_ERR_UNSUPPORTED, [])).
Proof.
  intros Hs Hk Hi. unfold tnu_hkdf_sha256, hkdf_spec. cbn [negb andb].
  change (255 * TNU_SHA256_DIGEST_SIZE)%nat with (255 * 32)%nat.
  destruct (Nat.leb_spec out_len (255 * 32)) as [Hle|Hgt].
  - rewrite (proj2 (Nat.ltb_ge _ _) Hle), hmac_sha256_eq.
    2:{ destruct salt; unfold default, id in *; cbn [from_option] in *; [lia|].
        rewrite length_replicate. unfold TNU_SHA256_DIGEST_SIZE. lia. }
    2:{ lia. }
    rewrite bind_some. change TNU_SHA256_DIGEST_SIZE with 32%nat. set (prk := hmac_sha256_spec _ ikm).
    pose proof (hkdf_loop_eq prk info out_len (S out_len) 0) as E. cbv zeta in E.
    change (blocks _ 0) with (@nil Z) in E. change (hkdf_T prk info 0) with (@nil Z) in E.
    change (u8 (Z.of_nat 1)) with 1 in E. rewrite take_nil in E.
    rewrite E; [|apply length_hmac_sha256_spec|lia|lia|lia].
    rewrite bind_some. unfold blocks. by rewrite <- seq_shift, map_map.
  - by rewrite (proj2 (Nat.ltb_lt _ _) Hgt).
Qed.

(** ** Witnesses: FIPS 180-4's message in two pieces, test case 1 of RFC 5869 *)

Lemma sha256_streaming_witness :
  (ctx ← sha256_feed sha256_init [str "a"; str "bc"]; sha256_final ctx) = Some (sha256_spec (str "abc")) /\
  tnu_sha256 (str "abc") =
    Some [0xba; 0x78; 0x16; 0xbf; 0x8f; 0x01; 0xcf; 0xea; 0x41; 0x41; 0x40; 0xde; 0x5d; 0xae; 0x22; 0x23;
          0xb0; 0x03; 0x61; 0xa3; 0x96; 0x17; 0x7a; 0x9c; 0xb4; 0x10; 0xff; 0x61; 0xf2; 0x00; 0x15; 0xad].
Proof. split; [apply (sha256_streaming [str "a"; str "bc"]); done|by vm_compute]. Defined.

Definition rfc5869_ikm : list Z := replicate 22 11.
Definition rfc5869_salt : list Z := map Z.of_nat (seq 0 13).
Definition rfc5869_info : list Z := map (fun i => 240 + Z.of_nat i) (seq 0 10).

Lemma hkdf_correct_witness :
  tnu_hkdf_sha256 (Some rfc5869_salt) rfc5869_ikm rfc5869_info true 42 =
    Some (if (42 <=? 255 * 32)%nat
          then (TNU_TLS_OK, hkdf_spec (Some rfc5869_salt) rfc5869_ikm rfc5869_info 42)
          else (TNU_TLS_ERR_UNSUPPORTED, [])) /\
  tnu_hkdf_sha256 (Some rfc5869_salt) rfc5869_ikm rfc5869_info true 42 =
    Some (TNU_TLS_OK,
      [0x3c; 0xb2; 0x5f; 0x25; 0xfa; 0xac; 0xd5; 0x7a; 0x90; 0x43; 0x4f; 0x64; 0xd0; 0x36;
       0x2f; 0x2a; 0x2d; 0x2d; 0x0a; 0x90; 0xcf; 0x1a; 0x5a; 0x4c; 0x5d; 0xb0; 0x2d; 0x56;
       0xec; 0xc4; 0xc5; 0xbf; 0x34; 0x00; 0x72; 0x08; 0xd5; 0xb8; 0x87; 0x18; 0x58; 0x65]).
Proof.
  split; [|by vm_compute].
  apply (hkdf_correct (Some rfc5869_salt) rfc5869_ikm rfc5869_info 42); vm_compute; reflexivity.
Defined.
