(* ===== verification/Fe25519.v ===== *)
(** * userspace/libc/src/tls.c: the field of X25519 and the ladder

    Elements of the integers modulo 2^255 - 19 are five 64-bit limbs of 51 bits;
    [fe_val] is the integer they stand for. Limbs wrap at 64 bits, the products
    of [fe_mul] at 128. An element is [tight] when every limb has 51 bits, but
    that the second may be 2^51: this is what [fe_normalize] leaves.

    The arithmetic and the packing are proved right modulo 2^255 - 19 on tight
    elements; the ladder, which multiplies
    by a 17-bit constant without widening, does not compute RFC 7748's function. *)
From S2P Require Import Prelude.

Record fe := Fe { v0 : Z; v1 : Z; v2 : Z; v3 : Z; v4 : Z }.

Definition u128 (x : Z) : Z := x mod 2 ^ 128.
Definition FE_MASK : Z := 2 ^ 51 - 1.

(** [for (i = 7; i >= 0; i--) v = (v << 8) | p[i]] *)
Definition load_le64_tls (p : list Z) : Z :=
  foldr (fun b v => Z.lor (u64 (Z.shiftl v 8)) b) 0 (take 8 p).

(** [p[i] = (uint8_t)v; v >>= 8], eight times. *)
Definition store_le64_tls (v : Z) : list Z :=
  map (fun i => u8 (Z.shiftr v (8 * Z.of_nat i))) (seq 0 8).

Definition fe_normalize (f : fe) : fe :=
  let c := Z.shiftr (v0 f) 51 in let a0 := Z.land (v0 f) FE_MASK in let a1 := u64 (v1 f + c) in
  let c := Z.shiftr a1 51 in let a1 := Z.land a1 FE_MASK in let a2 := u64 (v2 f + c) in
  let c := Z.shiftr a2 51 in let a2 := Z.land a2 FE_MASK in let a3 := u64 (v3 f + c) in
  let c := Z.shiftr a3 51 in let a3 := Z.land a3 FE_MASK in let a4 := u64 (v4 f + c) in
  let c := Z.shiftr a4 51 in let a4 := Z.land a4 FE_MASK in let a0 := u64 (a0 + u64 (c * 19)) in
  let c := Z.shiftr a0 51 in let a0 := Z.land a0 FE_MASK in let a1 := u64 (a1 + c) in
  Fe a0 a1 a2 a3 a4.

Definition fe_from_bytes (b : list Z) : fe :=
  Fe (Z.land (load_le64_tls b) FE_MASK)
     (Z.land (Z.shiftr (load_le64_tls (drop 6 b)) 3) FE_MASK)
     (Z.land (Z.shiftr (load_le64_tls (drop 12 b)) 6) FE_MASK)
     (Z.land (Z.shiftr (load_le64_tls (drop 19 b)) 1) FE_MASK)
     (Z.land (Z.shiftr (load_le64_tls (drop 24 b)) 12) FE_MASK).

(** One limb of the subtraction of p: [sub = p.v[i] + borrow; borrow = t.v[i] < sub]. *)
Definition sub_limb (t p borrow : Z) : Z * Z :=
  let sub := u64 (p + borrow) in (u64 (t - sub), if t <? sub then 1 else 0).

Definition fe_to_bytes (f : fe) : list Z :=
  let f := fe_normalize f in
  let '(t0, borrow) := sub_limb (v0 f) (2 ^ 51 - 19) 0 in
  let '(t1, borrow) := sub_limb (v1 f) (2 ^ 51 - 1) borrow in
  let '(t2, borrow) := sub_limb (v2 f) (2 ^ 51 - 1) borrow in
  let '(t3, borrow) := sub_limb (v3 f) (2 ^ 51 - 1) borrow in
  let '(t4, borrow) := sub_limb (v4 f) (2 ^ 51 - 1) borrow in
  let f := if borrow =? 0 then Fe t0 t1 t2 t3 t4 else f in
  let q0 := Z.lor (v0 f) (u64 (Z.shiftl (v1 f) 51)) in
  let q1 := Z.lor (Z.shiftr (v1 f) 13) (u64 (Z.shiftl (v2 f) 38)) in
  let q2 := Z.lor (Z.shiftr (v2 f) 26) (u64 (Z.shiftl (v3 f) 25)) in
  let q3 := Z.lor (Z.shiftr (v3 f) 39) (u64 (Z.shiftl (v4 f) 12)) in
  store_le64_tls q0 ++ store_le64_tls q1 ++ store_le64_tls q2 ++ store_le64_tls q3.

Definition fe_add (a b : fe) : fe :=
  fe_normalize (Fe (u64 (v0 a + v0 b)) (u64 (v1 a + v1 b)) (u64 (v2 a + v2 b))
                   (u64 (v3 a + v3 b)) (u64 (v4 a + v4 b))).

Definition twice_p : fe := Fe (2 ^ 52 - 38) (2 ^ 52 - 2) (2 ^ 52 - 2) (2 ^ 52 - 2) (2 ^ 52 - 2).

Definition fe_sub (a b : fe) : fe :=
  fe_normalize (Fe (u64 (v0 a + v0 twice_p - v0 b)) (u64 (v1 a + v1 twice_p - v1 b))
                   (u64 (v2 a + v2 twice_p - v2 b)) (u64 (v3 a + v3 twice_p - v3 b))
                   (u64 (v4 a + v4 twice_p - v4 b))).

(** The carries of [fe_mul], from the five 128-bit sums. *)
Definition fe_carry (t0 t1 t2 t3 t4 : Z) : fe :=
  let r0 := Z.land (u64 t0) FE_MASK in let t1 := u128 (t1 + Z.shiftr t0 51) in
  let r1 := Z.land (u64 t1) FE_MASK in let t2 := u128 (t2 + Z.shiftr t1 51) in
  let r2 := Z.land (u64 t2) FE_MASK in let t3 := u128 (t3 + Z.shiftr t2 51) in
  let r3 := Z.land (u64 t3) FE_MASK in let t4 := u128 (t4 + Z.shiftr t3 51) in
  let r4 := Z.land (u64 t4) FE_MASK in let c := u64 (Z.shiftr t4 51) in
  let r0 := u64 (r0 + u64 (c * 19)) in
  fe_normalize (Fe r0 r1 r2 r3 r4).

Definition fe_mul (a b : fe) : fe :=
  fe_carry
    (u128 (v0 a * v0 b + 19 * (v1 a * v4 b + v2 a * v3 b + v3 a * v2 b + v4 a * v1 b)))
    (u128 (v0 a * v1 b + v1 a * v0 b + 19 * (v2 a * v4 b + v3 a * v3 b + v4 a * v2 b)))
    (u128 (v0 a * v2 b + v1 a * v1 b + v2 a * v0 b + 19 * (v3 a * v4 b + v4 a * v3 b)))
    (u128 (v0 a * v3 b + v1 a * v2 b + v2 a * v1 b + v3 a * v0 b + 19 * v4 a * v4 b))
    (u128 (v0 a * v4 b + v1 a * v3 b + v2 a * v2 b + v3 a * v1 b + v4 a * v0 b)).

Definition fe_square (a : fe) : fe := fe_mul a a.

Definition fe_mul_small (a : fe) (n : Z) : fe :=
  fe_normalize (Fe (u64 (v0 a * n)) (u64 (v1 a * n)) (u64 (v2 a * n)) (u64 (v3 a * n)) (u64 (v4 a * n))).

(** One limb of [fe_cswap], with [mask = 0 - swap]. *)
Definition cswap_limb (mask a b : Z) : Z * Z :=
  let x := Z.land mask (Z.lxor a b) in (Z.lxor a x, Z.lxor b x).

Definition fe_cswap (a b : fe) (swap : Z) : fe * fe :=
  let mask := u64 (0 - swap) in
  let '(a0, b0) := cswap_limb mask (v0 a) (v0 b) in
  let '(a1, b1) := cswap_limb mask (v1 a) (v1 b) in
  let '(a2, b2) := cswap_limb mask (v2 a) (v2 b) in
  let '(a3, b3) := cswap_limb mask (v3 a) (v3 b) in
  let '(a4, b4) := cswap_limb mask (v4 a) (v4 b) in
  (Fe a0 a1 a2 a3 a4, Fe b0 b1 b2 b3 b4).

Definition fe_zero : fe := Fe 0 0 0 0 0.
Definition fe_one : fe := Fe 1 0 0 0 0.

(** The bytes of [p - 2], least significant first. *)
Definition pminus2_exp : list Z := 0xeb :: replicate 30 0xff ++ [0x7f].

(** [(e[bit / 8] >> (bit & 7)) & 1] *)
Definition bit_of (e : list Z) (bit : nat) : Z :=
  Z.land (Z.shiftr (nth (bit / 8) e 0) (Z.land (Z.of_nat bit) 7)) 1.

(** [for (bit = 254; bit >= 0; bit--)] *)
Definition bits_down : list nat := rev (seq 0 255).

Definition pow_step (z : fe) (result : fe) (bit : nat) : fe :=
  let result := fe_square result in
  if bit_of pminus2_exp bit =? 0 then result else fe_mul result z.

Definition fe_pow_pminus2 (z : fe) : fe := foldl (pow_step z) fe_one bits_down.

(** The ladder's variables: [x2], [z2], [x3], [z3] and [swap]. *)
Record ladder := Ladder { l_x2 : fe; l_z2 : fe; l_x3 : fe; l_z3 : fe; l_swap : Z }.

(** The body of the ladder's loop, for the bit [k_t]. *)
Definition ladder_step (e : list Z) (x1 : fe) (s : ladder) (t : nat) : ladder :=
  let k_t := bit_of e t in
  let swap := Z.lxor (l_swap s) k_t in
  let '(x2, x3) := fe_cswap (l_x2 s) (l_x3 s) swap in
  let '(z2, z3) := fe_cswap (l_z2 s) (l_z3 s) swap in
  let a := fe_add x2 z2 in
  let aa := fe_square a in
  let b := fe_sub x2 z2 in
  let bb := fe_square b in
  let e0 := fe_sub aa bb in
  let c := fe_add x3 z3 in
  let d := fe_sub x3 z3 in
  let da := fe_mul d a in
  let cb := fe_mul c b in
  let x3 := fe_square (fe_add da cb) in
  let t1 := fe_square (fe_sub da cb) in
  let z3 := fe_mul t1 x1 in
  let x2 := fe_mul aa bb in
  let t0 := fe_mul_small e0 121666 in
  let t0 := fe_add aa t0 in
  let z2 := fe_mul e0 t0 in
  Ladder x2 z2 x3 z3 k_t.

(** [e[0] &= 248; e[31] &= 127; e[31] |= 64] *)
Definition clamp (scalar : list Z) : list Z :=
  <[31%nat := Z.lor (Z.land (nth 31 scalar 0) 127) 64]> (<[0%nat := Z.land (nth 0 scalar 0) 248]> scalar).

(** The 32 bytes written to [out]. *)
Definition tnu_x25519 (scalar point : list Z) : list Z :=
  let e := clamp scalar in
  let x1 := fe_from_bytes point in
  let s := foldl (ladder_step e x1) (Ladder fe_one fe_zero x1 fe_one 0) bits_down in
  let '(x2, x3) := fe_cswap (l_x2 s) (l_x3 s) (l_swap s) in
  let '(z2, z3) := fe_cswap (l_z2 s) (l_z3 s) (l_swap s) in
  let zinv := fe_pow_pminus2 z2 in
  let x2 := fe_mul x2 zinv in
  fe_to_bytes x2.

(** ** Reference: the integers modulo 2^255 - 19, and RFC 7748's ladder *)

Definition p25519 : Z := 2 ^ 255 - 19.
Definition fe_val (f : fe) : Z :=
  v0 f + 2 ^ 51 * v1 f + 2 ^ 102 * v2 f + 2 ^ 153 * v3 f + 2 ^ 204 * v4 f.

(** The body of RFC 7748's loop between its swaps, on the integers: doubling of
    (x2 : z2), addition into (x3 : z3). The constant a24 is an argument. *)
Definition ref_step (a24 x1 : Z) (s : Z * Z * Z * Z) : Z * Z * Z * Z :=
  let '(x2, z2, x3, z3) := s in
  let a := x2 + z2 in let aa := a * a in
  let b := x2 - z2 in let bb := b * b in
  let e := aa - bb in
  let c := x3 + z3 in let d := x3 - z3 in
  let da := d * a in let cb := c * b in
  (aa * bb, e * (aa + a24 * e), (da + cb) * (da + cb), x1 * ((da - cb) * (da - cb))).

Definition RFC_A24 : Z := 121665.

Definition rfc_scalar : list Z :=
  [0x77; 0x07; 0x6d; 0x0a; 0x73; 0x18; 0xa5; 0x7d; 0x3c; 0x16; 0xc1; 0x72; 0x51; 0xb2; 0x66; 0x45;
   0xdf; 0x4c; 0x2f; 0x87; 0xeb; 0xc0; 0x99; 0x2a; 0xb1; 0x77; 0xfb; 0xa5; 0x1d; 0xb9; 0x2c; 0x2a].
Definition rfc_point : list Z := 9 :: replicate 31 0.

(** ** Masks, shifts and bounds *)

Lemma land_mask x : Z.land x FE_MASK = x mod 2 ^ 51.
Proof. apply (Z.land_ones x 51). lia. Qed.

Lemma shiftr_div x n : 0 <= n -> Z.shiftr x n = x / 2 ^ n.
Proof. apply Z.shiftr_div_pow2. Qed.

Lemma u128_small x : 0 <= x < 2 ^ 128 -> u128 x = x.
Proof. apply Z.mod_small. Qed.

(** Limbs after [fe_normalize]. *)
Definition tight (f : fe) : Prop :=
  0 <= v0 f < 2 ^ 51 /\ 0 <= v1 f <= 2 ^ 51 /\ 0 <= v2 f < 2 ^ 51 /\ 0 <= v3 f < 2 ^ 51 /\
  0 <= v4 f < 2 ^ 51.

(** Limbs [fe_normalize] can take: the carries stay inside 64 bits. *)
Definition loose (f : fe) : Prop :=
  0 <= v0 f < 2 ^ 63 /\ 0 <= v1 f < 2 ^ 63 /\ 0 <= v2 f < 2 ^ 63 /\ 0 <= v3 f < 2 ^ 63 /\
  0 <= v4 f < 2 ^ 63.

(** [represents z f]: [f] is a tight element that stands for [z] modulo p. *)
Definition stands (f : fe) (z : Z) : Prop := tight f /\ fe_val f mod p25519 = z mod p25519.

Lemma p25519_pos : 0 < p25519.
Proof. reflexivity. Qed.

Lemma cong_intro x y k : x = y + k * p25519 -> x mod p25519 = y mod p25519.
Proof. intros ->. apply Z_mod_plus_full. Qed.

Lemma split51 x : 0 <= x -> exists q r, x / 2 ^ 51 = q /\ x mod 2 ^ 51 = r /\ x = 2 ^ 51 * q + r /\
  0 <= q /\ 0 <= r < 2 ^ 51.
Proof.
  intros H. exists (x / 2 ^ 51), (x mod 2 ^ 51). repeat split; auto.
  - apply Z.div_mod. lia.
  - apply Z.div_pos; lia.
  - apply Z.mod_pos_bound. lia.
  - apply Z.mod_pos_bound. lia.
Qed.

(** Name the quotient and remainder of [x] by 2^51. *)
Ltac carry x q r :=
  let Hq := fresh in let Hr := fresh in let He := fresh "E" in
  destruct (split51 x ltac:(lia)) as (q & r & Hq & Hr & He & ? & ?);
  rewrite ?Hq, ?Hr; clear Hq Hr.

Lemma fe_normalize_ok f : loose f ->
  tight (fe_normalize f) /\ exists k, fe_val f = fe_val (fe_normalize f) + k * p25519.
Proof.
  intros (H0 & H1 & H2 & H3 & H4). unfold fe_normalize. rewrite !land_mask, !shiftr_div by done.
  destruct f as [a0 a1 a2 a3 a4]. cbn [v0 v1 v2 v3 v4] in *.
  carry a0 q0 r0. rewrite !(u64_small (a1 + q0)) by lia.
  carry (a1 + q0) q1 r1. rewrite !(u64_small (a2 + q1)) by lia.
  carry (a2 + q1) q2 r2. rewrite !(u64_small (a3 + q2)) by lia.
  carry (a3 + q2) q3 r3. rewrite !(u64_small (a4 + q3)) by lia.
  carry (a4 + q3) q4 r4. rewrite !(u64_small (q4 * 19)) by lia. rewrite !(u64_small (r0 + q4 * 19)) by lia.
  carry (r0 + q4 * 19) q5 r5. rewrite (u64_small (r1 + q5)) by lia.
  unfold tight, fe_val; cbn [v0 v1 v2 v3 v4]. split; [lia|].
  exists q4. unfold p25519. lia.
Qed.

Lemma fe_normalize_stands f z : loose f -> fe_val f mod p25519 = z mod p25519 ->
  stands (fe_normalize f) z.
Proof.
  intros Hl Hz. destruct (fe_normalize_ok f Hl) as (Ht & k & Hk). split; [done|].
  rewrite <- Hz. apply (cong_intro _ _ (- k)). lia.
Qed.

Ltac limbs f := let a0 := fresh in let a1 := fresh in let a2 := fresh in let a3 := fresh in
  let a4 := fresh in destruct f as [a0 a1 a2 a3 a4]; cbn [v0 v1 v2 v3 v4] in *.

Lemma fe_add_stands a b x y : stands a x -> stands b y -> stands (fe_add a b) (x + y).
Proof.
  intros [Ha Ea] [Hb Eb]. unfold fe_add, tight in *. rewrite !u64_small by lia.
  apply fe_normalize_stands; [unfold loose; cbn [v0 v1 v2 v3 v4]; lia|].
  rewrite Z.add_mod, <- Ea, <- Eb, <- Z.add_mod by (pose proof p25519_pos; lia).
  f_equal. unfold fe_val. cbn [v0 v1 v2 v3 v4]. lia.
Qed.

Lemma fe_sub_stands a b x y : stands a x -> stands b y -> stands (fe_sub a b) (x - y).
Proof.
  intros [Ha Ea] [Hb Eb]. unfold fe_sub, tight, twice_p in *. cbn [v0 v1 v2 v3 v4].
  rewrite !u64_small by lia.
  apply fe_normalize_stands; [unfold loose; cbn [v0 v1 v2 v3 v4]; lia|].
  rewrite Zminus_mod, <- Ea, <- Eb, <- Zminus_mod.
  apply (cong_intro _ _ 2). unfold fe_val, p25519. cbn [v0 v1 v2 v3 v4]. lia.
Qed.

(** The carries keep the value of the five sums. *)
Lemma fe_carry_stands t0 t1 t2 t3 t4 z :
  0 <= t0 < 2 ^ 109 -> 0 <= t1 < 2 ^ 109 -> 0 <= t2 < 2 ^ 109 -> 0 <= t3 < 2 ^ 109 ->
  0 <= t4 < 2 ^ 109 ->
  (t0 + 2 ^ 51 * t1 + 2 ^ 102 * t2 + 2 ^ 153 * t3 + 2 ^ 204 * t4) mod p25519 = z mod p25519 ->
  stands (fe_carry t0 t1 t2 t3 t4) z.
Proof.
  intros H0 H1 H2 H3 H4 Hz. unfold fe_carry. rewrite !land_mask, !shiftr_div by done.
  assert (forall x, u64 x mod 2 ^ 51 = x mod 2 ^ 51) as Hm.
  { intros x. unfold u64. apply Z.mod_mod_divide. by exists (2 ^ 13). }
  rewrite !Hm.
  carry t0 q0 r0. rewrite !(u128_small (t1 + q0)) by lia.
  carry (t1 + q0) q1 r1. rewrite !(u128_small (t2 + q1)) by lia.
  carry (t2 + q1) q2 r2. rewrite !(u128_small (t3 + q2)) by lia.
  carry (t3 + q2) q3 r3. rewrite !(u128_small (t4 + q3)) by lia.
  carry (t4 + q3) q4 r4. rewrite !(u64_small q4) by lia. rewrite !(u64_small (q4 * 19)) by lia.
  rewrite !(u64_small (r0 + q4 * 19)) by lia.
  apply fe_normalize_stands; [unfold loose; cbn [v0 v1 v2 v3 v4]; lia|].
  rewrite <- Hz. apply (cong_intro _ _ (- q4)). unfold fe_val, p25519. cbn [v0 v1 v2 v3 v4]. lia.
Qed.

Lemma limb_product x y : 0 <= x <= 2 ^ 51 -> 0 <= y <= 2 ^ 51 -> 0 <= x * y <= 2 ^ 102.
Proof. change (2 ^ 102) with (2 ^ 51 * 2 ^ 51). nia. Qed.

(** The five shapes of sums of products of limbs fit 109 bits: [n] of them are
    taken once, the others nineteen times. *)
Section Sums.
Context (p q r s t : Z) (Hp : 0 <= p <= 2 ^ 102) (Hq : 0 <= q <= 2 ^ 102)
  (Hr : 0 <= r <= 2 ^ 102) (Hs : 0 <= s <= 2 ^ 102) (Ht : 0 <= t <= 2 ^ 102).
Lemma sum_bound1 : 0 <= p + 19 * (q + r + s + t) < 2 ^ 109.
Proof using All. lia. Qed.
Lemma sum_bound2 : 0 <= p + q + 19 * (r + s + t) < 2 ^ 109.
Proof using All. lia. Qed.
Lemma sum_bound3 : 0 <= p + q + r + 19 * (s + t) < 2 ^ 109.
Proof using All. lia. Qed.
Lemma sum_bound4 : 0 <= p + q + r + s + 19 * t < 2 ^ 109.
Proof using All. lia. Qed.
Lemma sum_bound5 : 0 <= p + q + r + s + t < 2 ^ 109.
Proof using All. lia. Qed.
End Sums.

Lemma fe_mul_stands a b x y : stands a x -> stands b y -> stands (fe_mul a b) (x * y).
Proof.
  intros [Ha Ea] [Hb Eb].
  assert ((fe_val a * fe_val b) mod p25519 = (x * y) mod p25519) as E
    by (rewrite Z.mul_mod, Ea, Eb, <- Z.mul_mod by (pose proof p25519_pos; lia); done).
  clear Ea Eb. unfold tight in Ha, Hb.
  destruct a as [a0 a1 a2 a3 a4], b as [b0 b1 b2 b3 b4]. unfold fe_mul. cbn [v0 v1 v2 v3 v4] in *.
  rewrite <- (Z.mul_assoc 19 a4 b4).
  pose proof (sum_bound1 (a0 * b0) (a1 * b4) (a2 * b3) (a3 * b2) (a4 * b1)) as B0.
  pose proof (sum_bound2 (a0 * b1) (a1 * b0) (a2 * b4) (a3 * b3) (a4 * b2)) as B1.
  pose proof (sum_bound3 (a0 * b2) (a1 * b1) (a2 * b0) (a3 * b4) (a4 * b3)) as B2.
  pose proof (sum_bound4 (a0 * b3) (a1 * b2) (a2 * b1) (a3 * b0) (a4 * b4)) as B3.
  pose proof (sum_bound5 (a0 * b4) (a1 * b3) (a2 * b2) (a3 * b1) (a4 * b0)) as B4.
  do 5 (specialize (B0 ltac:(apply limb_product; lia)); specialize (B1 ltac:(apply limb_product; lia));
        specialize (B2 ltac:(apply limb_product; lia)); specialize (B3 ltac:(apply limb_product; lia));
        specialize (B4 ltac:(apply limb_product; lia))).
  assert (forall t, 0 <= t < 2 ^ 109 -> u128 t = t) as U by (intros; apply u128_small; lia).
  rewrite (U _ B0), (U _ B1), (U _ B2), (U _ B3), (U _ B4).
  apply fe_carry_stands; [exact B0|exact B1|exact B2|exact B3|exact B4|].
  rewrite <- E. unfold fe_val. cbn [v0 v1 v2 v3 v4].
  apply (cong_intro _ _ (- ((a1 * b4 + a2 * b3 + a3 * b2 + a4 * b1) +
    2 ^ 51 * (a2 * b4 + a3 * b3 + a4 * b2) + 2 ^ 102 * (a3 * b4 + a4 * b3) + 2 ^ 153 * (a4 * b4)))).
  unfold p25519. ring.
Qed.

(** ** Multiplying by a constant, powers and swaps *)

(** No limb's product by [n] reaches 2^63. *)
Definition fits (n : Z) (a : fe) : Prop :=
  v0 a * n < 2 ^ 63 /\ v1 a * n < 2 ^ 63 /\ v2 a * n < 2 ^ 63 /\ v3 a * n < 2 ^ 63 /\ v4 a * n < 2 ^ 63.

Lemma fe_mul_small_stands a n x : stands a x -> 0 <= n -> fits n a -> stands (fe_mul_small a n) (x * n).
Proof.
  intros [Ha Ea] Hn Hf. unfold fe_mul_small, tight, fits in *.
  assert (0 <= v0 a * n /\ 0 <= v1 a * n /\ 0 <= v2 a * n /\ 0 <= v3 a * n /\ 0 <= v4 a * n) as Hp
    by (repeat split; apply Z.mul_nonneg_nonneg; lia).
  rewrite !u64_small by lia. apply fe_normalize_stands; [unfold loose; cbn [v0 v1 v2 v3 v4]; lia|].
  rewrite Z.mul_mod, <- Ea, <- Z.mul_mod by (pose proof p25519_pos; lia).
  f_equal. unfold fe_val. cbn [v0 v1 v2 v3 v4]. ring.
Qed.

(** Whatever the limbs, [fe_normalize] leaves a tight element. *)
Lemma fe_mul_small_any a n : stands (fe_mul_small a n) (fe_val (fe_mul_small a n)).
Proof.
  split; [|done]. unfold fe_mul_small. set (f := Fe _ _ _ _ _).
  assert (0 <= v0 f) as H0 by apply u64_range.
  unfold fe_normalize, tight. rewrite !land_mask, !shiftr_div by done. cbn [v0 v1 v2 v3 v4].
  assert (forall x, 0 <= x mod 2 ^ 51 < 2 ^ 51) as M by (intros; apply Z.mod_pos_bound; lia).
  match goal with |- context [u64 (v4 f + ?c)] => set (a4 := u64 (v4 f + c)) end.
  assert (0 <= a4 < 2 ^ 64) as H4 by apply u64_range. clearbody a4.
  match goal with |- context [u64 (v1 f + ?c)] => set (a1 := u64 (v1 f + c)) end. clearbody a1.
  set (r0 := v0 f mod 2 ^ 51). pose proof (M (v0 f)) as Hr0. fold r0 in Hr0. clearbody r0.
  carry a4 q4 r4. rewrite !(u64_small (q4 * 19)) by lia. rewrite !(u64_small (r0 + q4 * 19)) by lia.
  carry (r0 + q4 * 19) q5 r5. pose proof (M a1). rewrite (u64_small (a1 mod 2 ^ 51 + q5)) by lia.
  split_and!; try apply M; lia.
Qed.

Lemma fe_one_stands : stands fe_one 1.
Proof. split; [unfold tight; cbn; lia|reflexivity]. Qed.

(** The exponent whose bits are read along [bits]. *)
Definition exp_of (e : list Z) (bits : list nat) (n : Z) : Z :=
  foldl (fun n bit => 2 * n + bit_of e bit) n bits.

Lemma bit_of_01 e bit : bit_of e bit = 0 \/ bit_of e bit = 1.
Proof.
  unfold bit_of. generalize (Z.shiftr (nth (bit / 8) e 0) (Z.land (Z.of_nat bit) 7)). intros x.
  pose proof (Z.land_ones x 1 ltac:(lia)) as E. change (Z.ones 1) with 1 in E. rewrite E.
  pose proof (Z.mod_pos_bound x (2 ^ 1) ltac:(lia)). lia.
Qed.

Lemma pow_steps f z bits : stands f z -> forall r n, 0 <= n -> stands r (z ^ n) ->
  stands (foldl (pow_step f) r bits) (z ^ exp_of pminus2_exp bits n).
Proof.
  intros Hf. induction bits as [|b bits IH]; intros r n Hn Hr; [done|]. cbn [foldl exp_of].
  assert (stands (fe_square r) (z ^ (2 * n))) as Hs.
  { rewrite Z.mul_comm, Z.pow_mul_r, Z.pow_2_r by lia. by apply fe_mul_stands. }
  apply IH; [destruct (bit_of_01 pminus2_exp b) as [->| ->]; lia|].
  unfold pow_step. destruct (bit_of_01 pminus2_exp b) as [->| ->]; cbn [Z.eqb]; [by rewrite Z.add_0_r|].
  rewrite Z.pow_add_r, Z.pow_1_r by lia. by apply fe_mul_stands.
Qed.

Lemma pow_pminus2_stands f z : stands f z -> stands (fe_pow_pminus2 f) (z ^ (p25519 - 2)).
Proof.
  intros Hf. assert (exp_of pminus2_exp bits_down 0 = p25519 - 2) as <- by (vm_compute; reflexivity).
  unfold fe_pow_pminus2. generalize bits_down. intros bits.
  apply (pow_steps f z bits Hf fe_one 0); [lia|]. apply fe_one_stands.
Qed.

Lemma cswap_limb_eq a b (swap : bool) : 0 <= a < 2 ^ 64 -> 0 <= b < 2 ^ 64 ->
  cswap_limb (u64 (0 - Z.b2z swap)) a b = if swap then (b, a) else (a, b).
Proof.
  intros Ha Hb. unfold cswap_limb. destruct swap; cbn [Z.b2z].
  - change (u64 (0 - 1)) with (Z.ones 64).
    assert (0 <= Z.lxor a b < 2 ^ 64) as Hx.
    { assert (0 <= Z.lxor a b) by (apply Z.lxor_nonneg; lia). split; [done|].
      apply Z.bounded_iff_bits_nonneg; [lia|done|]. intros l Hl.
      rewrite Z.lxor_spec. pose proof (proj1 (Z.bounded_iff_bits_nonneg 64 a ltac:(lia) ltac:(lia))) as Ga.
      pose proof (proj1 (Z.bounded_iff_bits_nonneg 64 b ltac:(lia) ltac:(lia))) as Gb.
      rewrite Ga, Gb by lia. done. }
    rewrite Z.land_comm, Z.land_ones, Z.mod_small by lia.
    f_equal; [by rewrite <- Z.lxor_assoc, Z.lxor_nilpotent, Z.lxor_0_l|].
    by rewrite Z.lxor_comm, lxor_cancel.
  - change (u64 0) with 0. by rewrite Z.land_0_l, !Z.lxor_0_r.
Qed.

(** The swap without a branch exchanges the elements or leaves them. *)
Lemma fe_cswap_eq a b (swap : bool) : tight a -> tight b ->
  fe_cswap a b (Z.b2z swap) = if swap then (b, a) else (a, b).
Proof.
  intros Ha Hb. unfold fe_cswap, tight in *. rewrite !cswap_limb_eq by lia.
  destruct swap; cbn; by destruct a, b.
Qed.

(** ** Bytes *)

Lemma load_le64_eq l : Forall (fun b => 0 <= b < 256) l ->
  load_le64_tls l = le_val (take 8 l).
Proof.
  intros H. unfold load_le64_tls. apply (Forall_take _ 8) in H.
  assert (length (take 8 l) <= 8)%nat as Hlen by (rewrite length_take; lia).
  set (k := take 8 l) in *. clearbody k.
  assert (forall n, (length k <= n)%nat -> (n <= 8)%nat ->
    foldr (fun b v => Z.lor (u64 (Z.shiftl v 8)) b) 0 k = le_val k /\ 0 <= le_val k < 256 ^ Z.of_nat n) as G;
    [|by apply (G 8%nat)].
  clear Hlen. induction H as [|b k Hb Hk IH]; intros n H1 H2; [split; [done|simpl; lia]|].
  cbn [length] in H1. destruct n as [|n]; [lia|]. destruct (IH n) as [E R]; [lia|lia|].
  cbn [foldr le_val]. rewrite E, Nat2Z.inj_succ, Z.pow_succ_r by lia.
  assert (256 ^ Z.of_nat n <= 256 ^ 7) by (apply Z.pow_le_mono_r; lia).
  rewrite u64_small by (rewrite Z.shiftl_mul_pow2 by lia; lia).
  rewrite lor_shift_add by (cbn; lia). lia.
Qed.

(** The limb read through a 64-bit load at bit [a], shifted by [s]. *)
Lemma window N a s : 0 <= a -> 0 <= s <= 13 ->
  ((N / 2 ^ a) mod 2 ^ 64 / 2 ^ s) mod 2 ^ 51 = (N / 2 ^ (a + s)) mod 2 ^ 51.
Proof.
  intros Ha Hs. rewrite <- !Z.shiftr_div_pow2, <- !Z.land_ones by lia. apply Z.bits_inj'. intros n Hn.
  rewrite !Z.land_spec, !Z.shiftr_spec, Z.land_spec, Z.shiftr_spec, !Z.testbit_ones by lia.
  replace (n + s + a) with (n + (a + s)) by lia.
  destruct (Z.ltb_spec n 51), (Z.leb_spec 0 n), (Z.ltb_spec (n + s) 64), (Z.leb_spec 0 (n + s)); try lia;
    by rewrite ?andb_true_r, ?andb_false_r.
Qed.

(** [fe_from_bytes] reads the low 255 bits, into 51-bit limbs. *)
Lemma fe_from_bytes_ok b : length b = 32%nat -> Forall (fun x => 0 <= x < 256) b ->
  tight (fe_from_bytes b) /\ fe_val (fe_from_bytes b) = le_val b mod 2 ^ 255.
Proof.
  intros Hl Hb. unfold fe_from_bytes. rewrite !land_mask, !shiftr_div by done.
  assert (forall k, load_le64_tls (drop k b) = (le_val b / 2 ^ (8 * Z.of_nat k)) mod 2 ^ 64) as L.
  { intros k. pose proof (Forall_drop _ k _ Hb) as Hd. rewrite load_le64_eq by done.
    rewrite le_val_take, le_val_drop by done. rewrite Z.pow_mul_r by lia. done. }
  pose proof (L 0%nat) as L0. rewrite drop_0 in L0. rewrite L0, !L. clear L L0 Hb.
  set (N := le_val b). change (2 ^ (8 * Z.of_nat 0)) with 1. rewrite Z.div_1_r.
  change (8 * Z.of_nat 6) with 48. change (8 * Z.of_nat 12) with 96.
  change (8 * Z.of_nat 19) with 152. change (8 * Z.of_nat 24) with 192.
  rewrite (window N 48 3), (window N 96 6), (window N 152 1), (window N 192 12) by lia.
  rewrite Z.mod_mod_divide by (by exists (2 ^ 13)).
  unfold tight, fe_val. cbn [v0 v1 v2 v3 v4].
  assert (forall x, 0 <= x mod 2 ^ 51 < 2 ^ 51) as M by (intros; apply Z.mod_pos_bound; lia).
  split; [repeat split; try apply M; apply Z.lt_le_incl, M|].
  change (2 ^ 255) with (2 ^ 51 * (2 ^ 51 * (2 ^ 51 * (2 ^ 51 * 2 ^ 51)))).
  rewrite !Z.rem_mul_r by lia. rewrite !Z.div_div by lia.
  change (2 ^ 51 * 2 ^ 51 * 2 ^ 51 * 2 ^ 51) with (2 ^ (192 + 12)).
  change (2 ^ 51 * 2 ^ 51 * 2 ^ 51) with (2 ^ (152 + 1)). change (2 ^ 51 * 2 ^ 51) with (2 ^ (96 + 6)).
  change (N / 2 ^ 51) with (N / 2 ^ (48 + 3)).
  generalize (N mod 2 ^ 51) ((N / 2 ^ (48 + 3)) mod 2 ^ 51) ((N / 2 ^ (96 + 6)) mod 2 ^ 51)
    ((N / 2 ^ (152 + 1)) mod 2 ^ 51) ((N / 2 ^ (192 + 12)) mod 2 ^ 51). intros. lia.
Qed.

Lemma store_le64_eq q : store_le64_tls q = le_bytes 8 q.
Proof.
  unfold store_le64_tls, u8. cbn [map seq le_bytes]. rewrite !shiftr_div by (cbn; lia).
  rewrite !Z.div_div by lia. change (2 ^ (8 * Z.of_nat 0)) with 1. by rewrite Z.div_1_r.
Qed.

(** The four packed words are the base-2^64 digits of the value. *)
Lemma packed_words a0 a1 a2 a3 a4 :
  0 <= a0 < 2 ^ 51 -> 0 <= a1 < 2 ^ 51 -> 0 <= a2 < 2 ^ 51 -> 0 <= a3 < 2 ^ 51 -> 0 <= a4 < 2 ^ 51 ->
  exists q0 q1 q2 q3,
    Z.lor a0 (u64 (Z.shiftl a1 51)) = q0 /\ Z.lor (Z.shiftr a1 13) (u64 (Z.shiftl a2 38)) = q1 /\
    Z.lor (Z.shiftr a2 26) (u64 (Z.shiftl a3 25)) = q2 /\
    Z.lor (Z.shiftr a3 39) (u64 (Z.shiftl a4 12)) = q3 /\
    0 <= q0 < 2 ^ 64 /\ 0 <= q1 < 2 ^ 64 /\ 0 <= q2 < 2 ^ 64 /\ 0 <= q3 < 2 ^ 64 /\
    q0 + 2 ^ 64 * q1 + 2 ^ 128 * q2 + 2 ^ 192 * q3 = fe_val (Fe a0 a1 a2 a3 a4).
Proof.
  intros H0 H1 H2 H3 H4.
  assert (forall lo hi n, 0 <= n <= 64 -> 0 <= lo < 2 ^ n ->
    Z.lor lo (u64 (Z.shiftl hi n)) = hi mod 2 ^ (64 - n) * 2 ^ n + lo) as W.
  { intros lo hi n Hn Hlo. rewrite Z.lor_comm. unfold u64. rewrite Z.shiftl_mul_pow2 by lia.
    change 18446744073709551616 with (2 ^ 64). replace (2 ^ 64) with (2 ^ (64 - n) * 2 ^ n)
      by (rewrite <- Z.pow_add_r by lia; f_equal; lia).
    rewrite Z.mul_mod_distr_r by (apply Z.pow_nonzero; lia).
    rewrite <- Z.shiftl_mul_pow2 by lia. rewrite lor_shift_add by lia. by rewrite Z.shiftl_mul_pow2 by lia. }
  rewrite !shiftr_div by lia. rewrite !W by (Z.div_mod_to_equations; lia).
  do 4 eexists. repeat (split; [reflexivity|]). unfold fe_val. cbn [v0 v1 v2 v3 v4].
  change (64 - 51) with 13. change (64 - 38) with 26. change (64 - 25) with 39. change (64 - 12) with 52.
  repeat split; Z.div_mod_to_equations; lia.
Qed.

(** One limb below the top value of p: a borrow comes out unless the limb is full. *)
Lemma sub_limb_full a (b : bool) : 0 <= a < 2 ^ 51 ->
  sub_limb a (2 ^ 51 - 1) (Z.b2z b) =
  (u64 (a - (2 ^ 51 - 1) - Z.b2z b), Z.b2z (b || negb (a =? 2 ^ 51 - 1))).
Proof.
  intros Ha. unfold sub_limb. rewrite (u64_small (2 ^ 51 - 1 + Z.b2z b)) by (destruct b; cbn; lia).
  f_equal; [f_equal; lia|].
  destruct b, (Z.eqb_spec a (2 ^ 51 - 1)); cbn [Z.b2z orb negb];
    match goal with |- context [a <? ?s] => destruct (Z.ltb_spec a s) end; lia || done.
Qed.

(** Subtracting p by limbs, with the borrow compared instead of propagated. *)
Lemma sub_p_limbs a0 a1 a2 a3 a4 :
  0 <= a0 < 2 ^ 51 -> 0 <= a1 < 2 ^ 51 -> 0 <= a2 < 2 ^ 51 -> 0 <= a3 < 2 ^ 51 -> 0 <= a4 < 2 ^ 51 ->
  let f := Fe a0 a1 a2 a3 a4 in
  let '(t0, borrow) := sub_limb a0 (2 ^ 51 - 19) 0 in
  let '(t1, borrow) := sub_limb a1 (2 ^ 51 - 1) borrow in
  let '(t2, borrow) := sub_limb a2 (2 ^ 51 - 1) borrow in
  let '(t3, borrow) := sub_limb a3 (2 ^ 51 - 1) borrow in
  let '(t4, borrow) := sub_limb a4 (2 ^ 51 - 1) borrow in
  let g := if borrow =? 0 then Fe t0 t1 t2 t3 t4 else f in
  tight g /\ v1 g < 2 ^ 51 /\ fe_val g = fe_val f mod p25519.
Proof.
  intros H0 H1 H2 H3 H4 f.
  assert (sub_limb a0 (2 ^ 51 - 19) 0 = (u64 (a0 - (2 ^ 51 - 19)), Z.b2z (a0 <? 2 ^ 51 - 19))) as ->.
  { unfold sub_limb. rewrite (u64_small (2 ^ 51 - 19 + 0)) by lia. rewrite Z.add_0_r.
    by destruct (a0 <? 2 ^ 51 - 19). }
  cbv iota beta. do 4 (rewrite sub_limb_full by done; cbv iota beta).
  match goal with |- context [Z.b2z ?b =? 0] => destruct b eqn:E end; cbn [Z.b2z Z.eqb].
  - split; [unfold f, tight; cbn; lia|]. split; [cbn; lia|]. symmetry. apply Z.mod_small.
    unfold fe_val, p25519, f. cbn [v0 v1 v2 v3 v4].
    repeat (apply orb_prop in E as [E|E]); bcases; lia.
  - bcases. subst a1 a2 a3 a4. unfold f. rewrite (proj2 (Z.ltb_ge a0 _)) by lia. rewrite !Z.eqb_refl.
    cbn [negb orb Z.b2z]. rewrite !Z.sub_diag. change (u64 0) with 0.
    rewrite (u64_small (a0 - _)) by lia.
    split; [unfold tight; cbn [v0 v1 v2 v3 v4]; lia|]. split; [cbn; lia|].
    apply (Z.mod_unique _ _ 1); unfold fe_val, p25519; cbn [v0 v1 v2 v3 v4]; lia.
Qed.

(** Limbs of 51 bits are packed into the value's bytes. *)
Lemma pack_eq f : tight f -> v1 f < 2 ^ 51 ->
  store_le64_tls (Z.lor (v0 f) (u64 (Z.shiftl (v1 f) 51))) ++
  store_le64_tls (Z.lor (Z.shiftr (v1 f) 13) (u64 (Z.shiftl (v2 f) 38))) ++
  store_le64_tls (Z.lor (Z.shiftr (v2 f) 26) (u64 (Z.shiftl (v3 f) 25))) ++
  store_le64_tls (Z.lor (Z.shiftr (v3 f) 39) (u64 (Z.shiftl (v4 f) 12))) = le_bytes 32 (fe_val f).
Proof.
  destruct f as [a0 a1 a2 a3 a4]. unfold tight. cbn [v0 v1 v2 v3 v4]. intros Ht H1.
  destruct (packed_words a0 a1 a2 a3 a4) as (q0 & q1 & q2 & q3 & -> & -> & -> & -> & R0 & R1 & R2 & R3 & <-);
    try lia.
  rewrite !store_le64_eq. set (L := le_bytes 8 q0 ++ _).
  assert (Forall (fun b => 0 <= b < 256) L) as HL by
    (unfold L; repeat apply Forall_app_2; apply le_bytes_range).
  assert (length L = 32%nat) as Hn by (unfold L; by rewrite !length_app, !length_le_bytes).
  rewrite <- (le_bytes_le_val L HL), Hn. f_equal. unfold L.
  rewrite !le_val_app, !length_le_bytes, !le_val_le_bytes.
  change (256 ^ Z.of_nat 8) with (2 ^ 64). rewrite !Z.mod_small by lia. lia.
Qed.

Lemma fe_to_bytes_ok f : loose f -> v1 (fe_normalize f) < 2 ^ 51 ->
  fe_to_bytes f = le_bytes 32 (fe_val f mod p25519).
Proof.
  intros Hl H1. destruct (fe_normalize_ok f Hl) as [Ht [k Hk]]. rewrite (cong_intro _ _ _ Hk).
  unfold fe_to_bytes. set (g := fe_normalize f) in *. clearbody g. clear Hl Hk k.
  destruct g as [a0 a1 a2 a3 a4]. unfold tight in Ht. cbn [v0 v1 v2 v3 v4] in *.
  pose proof (sub_p_limbs a0 a1 a2 a3 a4) as S. cbv zeta in S.
  destruct (sub_limb a0 _ _) as [t0 b0]. destruct (sub_limb a1 _ _) as [t1 b1].
  destruct (sub_limb a2 _ _) as [t2 b2]. destruct (sub_limb a3 _ _) as [t3 b3].
  destruct (sub_limb a4 _ _) as [t4 b4]. destruct S as (Hg & Hg1 & <-); try lia.
  by apply pack_eq.
Qed.

(** Normalizing a tight element leaves 51 bits in its second limb too. *)
Lemma fe_normalize_tight f : tight f -> v1 (fe_normalize f) < 2 ^ 51.
Proof.
  intros Ht. unfold fe_normalize, tight in *. rewrite !land_mask, !shiftr_div by done.
  destruct f as [a0 a1 a2 a3 a4]. cbn [v0 v1 v2 v3 v4] in *.
  carry a0 q0 r0. rewrite !(u64_small (a1 + q0)) by lia.
  carry (a1 + q0) q1 r1. rewrite !(u64_small (a2 + q1)) by lia.
  carry (a2 + q1) q2 r2. rewrite !(u64_small (a3 + q2)) by lia.
  carry (a3 + q2) q3 r3. rewrite !(u64_small (a4 + q3)) by lia.
  carry (a4 + q3) q4 r4. rewrite !(u64_small (q4 * 19)) by lia. rewrite !(u64_small (r0 + q4 * 19)) by lia.
  carry (r0 + q4 * 19) q5 r5. rewrite (u64_small (r1 + q5)) by lia. lia.
Qed.

Lemma tight_to_bytes f z : stands f z -> fe_to_bytes f = le_bytes 32 (z mod p25519).
Proof.
  intros [Ht <-]. apply fe_to_bytes_ok; [unfold tight, loose in *; lia|by apply fe_normalize_tight].
Qed.

(** ** The properties *)

(** C24 On tight elements [fe_add], [fe_sub], [fe_mul] and [fe_square] compute in
    the integers modulo 2^255 - 19, no sum or product losing bits at 64 or 128,
    and leave tight elements; [fe_pow_pminus2] raises to the power p - 2, and
    [fe_to_bytes] packs the canonical representative. *)
Theorem field_arithmetic a b x y : stands a x -> stands b y ->
  stands (fe_add a b) (x + y) /\ stands (fe_sub a b) (x - y) /\ stands (fe_mul a b) (x * y) /\
  stands (fe_square a) (x * x) /\ stands (fe_pow_pminus2 a) (x ^ (p25519 - 2)) /\
  fe_to_bytes a = le_bytes 32 (x mod p25519).
Proof.
  intros Ha Hb. split_and!; [by apply fe_add_stands|by apply fe_sub_stands|by apply fe_mul_stands| | |].
  - by apply fe_mul_stands.
  - by apply pow_pminus2_stands.
  - by apply tight_to_bytes.
Qed.

(** What [fe_from_bytes] reads, [fe_to_bytes] writes back reduced: the low 255
    bits modulo 2^255 - 19, for any 32 bytes. *)
Theorem field_bytes b : length b = 32%nat -> Forall (fun x => 0 <= x < 256) b ->
  fe_to_bytes (fe_from_bytes b) = le_bytes 32 (le_val b mod 2 ^ 255 mod p25519).
Proof.
  intros Hl Hb. destruct (fe_from_bytes_ok b Hl Hb) as [Ht <-]. by apply tight_to_bytes.
Qed.

(** The difference of squares that the step multiplies by 121666. *)
Definition doubling_e (x2 z2 : fe) : fe :=
  fe_sub (fe_square (fe_add x2 z2)) (fe_square (fe_sub x2 z2)).

(** Solve a goal [stands (fe_op ...) (x op y)]. *)
Ltac field_stands :=
  repeat lazymatch goal with
  | |- stands (fe_add _ _) _ => apply fe_add_stands
  | |- stands (fe_sub _ _) _ => apply fe_sub_stands
  | |- stands (fe_mul _ _) _ => apply fe_mul_stands
  | |- stands (fe_square _) _ => apply fe_mul_stands
  | |- _ => eassumption
  end.

#[local] Opaque fe_add fe_sub fe_mul fe_mul_small.

(** One step of the ladder on elements that stand for integers: RFC 7748's step
    on x2, x3 and z3; for z2, the constant's product is what [fe_mul_small]
    leaves of it, which is 121666 times the difference when no limb overflows. *)
Theorem ladder_step_exact e x1 s t (swap : bool) u x2 z2 x3 z3 :
  stands x1 u -> stands (l_x2 s) x2 -> stands (l_z2 s) z2 -> stands (l_x3 s) x3 ->
  stands (l_z3 s) z3 -> Z.lxor (l_swap s) (bit_of e t) = Z.b2z swap ->
  let '(x2, x3) := if swap then (x3, x2) else (x2, x3) in
  let '(z2, z3) := if swap then (z3, z2) else (z2, z3) in
  let '(x2', _, x3', z3') := ref_step RFC_A24 u (x2, z2, x3, z3) in
  let d := if swap then doubling_e (l_x3 s) (l_z3 s) else doubling_e (l_x2 s) (l_z2 s) in
  let w := fe_val (fe_mul_small d 121666) in
  let diff := (x2 + z2) * (x2 + z2) - (x2 - z2) * (x2 - z2) in
  let s' := ladder_step e x1 s t in
  stands (l_x2 s') x2' /\ stands (l_x3 s') x3' /\ stands (l_z3 s') z3' /\
  stands (l_z2 s') (diff * ((x2 + z2) * (x2 + z2) + w)) /\
  (fits 121666 d -> w mod p25519 = (diff * 121666) mod p25519).
Proof.
  intros H1 Hx2 Hz2 Hx3 Hz3 Hs. unfold ladder_step. rewrite Hs.
  rewrite !fe_cswap_eq by (first [apply Hx2|apply Hz2|apply Hx3|apply Hz3]).
  destruct swap; cbn [ref_step l_x2 l_z2 l_x3 l_z3]; fold (doubling_e (l_x3 s) (l_z3 s));
    fold (doubling_e (l_x2 s) (l_z2 s)); unfold fe_square; cbv zeta.
  all: split_and!; [field_stands|field_stands|rewrite Z.mul_comm; field_stands| |].
  1,3: apply fe_mul_stands; [unfold doubling_e, fe_square; field_stands|];
    apply fe_add_stands; [field_stands|apply fe_mul_small_any].
  all: intros Hm; apply fe_mul_small_stands; [unfold doubling_e, fe_square; field_stands|lia|done].
Qed.

(** The ladder is not RFC 7748's, whose constant is 121665: the first step of
    every run starts by swapping ([clamp] sets bit 254), and on the base point it
    doubles to a different x-coordinate. Nor is it the ladder for 121666: a limb
    times 121666 is not always a 64-bit product. *)
Theorem ladder_differs :
  let s := ladder_step (clamp rfc_scalar) (fe_from_bytes rfc_point)
             (Ladder fe_one fe_zero (fe_from_bytes rfc_point) fe_one 0) 254 in
  let '(x2, z2, _, _) := ref_step RFC_A24 9 (9, 1, 1, 0) in
  (fe_val (l_x2 s) * z2) mod p25519 <> (x2 * fe_val (l_z2 s)) mod p25519 /\
  (let a := Fe (2 ^ 50) 0 0 0 0 in
   fe_val (fe_mul_small a 121666) mod p25519 <> (fe_val a * 121666) mod p25519).
Proof. split; vm_compute; discriminate. Qed.

(** ** Witnesses *)

Lemma field_arithmetic_witness :
  let a := fe_from_bytes rfc_point in
  stands (fe_mul a a) (9 * 9) /\ fe_to_bytes (fe_mul a (fe_pow_pminus2 a)) = le_bytes 32 1.
Proof.
  assert (stands (fe_from_bytes rfc_point) 9) as H.
  { destruct (fe_from_bytes_ok rfc_point) as [Ht Hv]; [done|repeat constructor; lia|].
    split; [done|]. rewrite Hv. by vm_compute. }
  destruct (field_arithmetic (fe_from_bytes rfc_point) (fe_from_bytes rfc_point) 9 9 H H)
    as (_ & _ & Hm & _). split; [exact Hm|by vm_compute].
Defined.

Lemma field_bytes_witness :
  fe_to_bytes (fe_from_bytes (replicate 32 0xff)) =
    le_bytes 32 (le_val (replicate 32 0xff) mod 2 ^ 255 mod p25519) /\
  fe_to_bytes (fe_from_bytes (replicate 32 0xff)) = le_bytes 32 18.
Proof.
  split; [|by vm_compute]. apply (field_bytes (replicate 32 0xff)); [done|].
  apply Forall_replicate. lia.
Defined.

Lemma ladder_step_exact_witness :
  let x1 := fe_from_bytes rfc_point in
  let s' := ladder_step (clamp rfc_scalar) x1 (Ladder fe_one fe_zero x1 fe_one 0) 254 in
  stands (l_x2 s') ((9 + 1) * (9 + 1) * ((9 - 1) * (9 - 1))).
Proof.
  assert (stands (fe_from_bytes rfc_point) 9) as H.
  { destruct (fe_from_bytes_ok rfc_point) as [Ht Hv]; [done|repeat constructor; lia|].
    split; [done|]. rewrite Hv. by vm_compute. }
  assert (stands fe_zero 0) as H0 by (split; [unfold tight; cbn; lia|reflexivity]).
  assert (Z.lxor 0 (bit_of (clamp rfc_scalar) 254) = Z.b2z true) as Hb by (vm_compute; reflexivity).
  destruct (ladder_step_exact (clamp rfc_scalar) (fe_from_bytes rfc_point)
    (Ladder fe_one fe_zero (fe_from_bytes rfc_point) fe_one 0) 254 true 9 1 0 9 1
    H fe_one_stands H0 H fe_one_stands Hb) as (Hx & _). exact Hx.
Defined.
