(* ===== verification/Chacha.v ===== *)
(** * userspace/libc/src/tls.c: ChaCha20, Poly1305 and their AEAD

    Words are 32-bit values reduced by [u32]; Poly1305's accumulator is five
    26-bit limbs in 32-bit words. The AEAD assembles the authenticated text in a
    static buffer, [macbuf], which its functions take and return; a write past
    its end is [None]. *)
From S2P Require Import Prelude Buf Fe25519 Sha256.

Definition load_le32_tls (p : list Z) : Z :=
  Z.lor (Z.lor (Z.lor (nth 0 p 0) (Z.shiftl (nth 1 p 0) 8)) (Z.shiftl (nth 2 p 0) 16))
        (Z.shiftl (nth 3 p 0) 24).

Definition store_le32_tls (v : Z) : list Z :=
  [u8 v; u8 (Z.shiftr v 8); u8 (Z.shiftr v 16); u8 (Z.shiftr v 24)].

(** ** ChaCha20 *)

(** [(x << n) | (x >> (32 - n))] *)
Definition rotl (x n : Z) : Z := Z.lor (u32 (Z.shiftl x n)) (Z.shiftr x (32 - n)).

Definition chacha_qr (a b c d : Z) : Z * Z * Z * Z :=
  let a := u32 (a + b) in let d := Z.lxor d a in let d := rotl d 16 in
  let c := u32 (c + d) in let b := Z.lxor b c in let b := rotl b 12 in
  let a := u32 (a + b) in let d := Z.lxor d a in let d := rotl d 8 in
  let c := u32 (c + d) in let b := Z.lxor b c in let b := rotl b 7 in
  (a, b, c, d).

(** [chacha_qr(&z[i], &z[j], &z[k], &z[l])] *)
Definition qr_at (z : list Z) (ix : nat * nat * nat * nat) : list Z :=
  let '(i, j, k, l) := ix in
  let '(a, b, c, d) := chacha_qr (nth i z 0) (nth j z 0) (nth k z 0) (nth l z 0) in
  <[l := d]> (<[k := c]> (<[j := b]> (<[i := a]> z))).

Definition double_round (z : list Z) : list Z :=
  foldl qr_at z [(0, 4, 8, 12); (1, 5, 9, 13); (2, 6, 10, 14); (3, 7, 11, 15);
                 (0, 5, 10, 15); (1, 6, 11, 12); (2, 7, 8, 13); (3, 4, 9, 14)]%nat.

(** ["expand 32-byte k"] *)
Definition sigma : list Z := str "expand 32-byte k".

Definition chacha20_block (key nonce : list Z) (counter : Z) : list Z :=
  let x := map (fun i => load_le32_tls (drop (i * 4) sigma)) (seq 0 4) ++
           map (fun i => load_le32_tls (drop (i * 4) key)) (seq 0 8) ++
           [counter] ++ map (fun i => load_le32_tls (drop (i * 4) nonce)) (seq 0 3) in
  let z := Nat.iter 10 double_round x in
  concat (map (fun i => store_le32_tls (u32 (nth i z 0 + nth i x 0))) (seq 0 16)).

(** [while (off < len)]: [inp] is the input from [off] on. *)
Fixpoint xor_loop (fuel : nat) (key nonce : list Z) (counter : Z) (inp : list Z) : option (list Z) :=
  match fuel with
  | O => None
  | S f =>
    match inp with
    | [] => Some []
    | _ =>
      let block := chacha20_block key nonce counter in
      let take_ := Nat.min (length inp) 64 in
      rest ← xor_loop f key nonce (u32 (counter + 1)) (drop take_ inp);
      Some (zip_with Z.lxor (take take_ inp) block ++ rest)
    end
  end.

(** The bytes written to [out]. *)
Definition tnu_chacha20_xor (key nonce : list Z) (counter : Z) (inp : list Z) : option (list Z) :=
  xor_loop (S (length inp)) key nonce counter inp.

(** ** Poly1305 *)

Record limbs := Limbs { h0 : Z; h1 : Z; h2 : Z; h3 : Z; h4 : Z }.

Definition M26 : Z := 0x3ffffff.

(** The key's first half, with its bits cleared, and its limbs times five. *)
Definition poly_r (key : list Z) : limbs :=
  let t0 := load_le32_tls key in let t1 := load_le32_tls (drop 4 key) in
  let t2 := load_le32_tls (drop 8 key) in let t3 := load_le32_tls (drop 12 key) in
  Limbs (Z.land t0 0x3ffffff)
        (Z.land (Z.lor (Z.shiftr t0 26) (u32 (Z.shiftl t1 6))) 0x3ffff03)
        (Z.land (Z.lor (Z.shiftr t1 20) (u32 (Z.shiftl t2 12))) 0x3ffc0ff)
        (Z.land (Z.lor (Z.shiftr t2 14) (u32 (Z.shiftl t3 18))) 0x3f03fff)
        (Z.land (Z.shiftr t3 8) 0x00fffff).

(** Adding the 16 bytes of [block] to the accumulator. *)
Definition poly_add (h : limbs) (block : list Z) : limbs :=
  let t0 := load_le32_tls block in let t1 := load_le32_tls (drop 4 block) in
  let t2 := load_le32_tls (drop 8 block) in let t3 := load_le32_tls (drop 12 block) in
  Limbs (u32 (h0 h + Z.land t0 M26))
        (u32 (h1 h + Z.land (Z.lor (Z.shiftr t0 26) (u32 (Z.shiftl t1 6))) M26))
        (u32 (h2 h + Z.land (Z.lor (Z.shiftr t1 20) (u32 (Z.shiftl t2 12))) M26))
        (u32 (h3 h + Z.land (Z.lor (Z.shiftr t2 14) (u32 (Z.shiftl t3 18))) M26))
        (u32 (h4 h + Z.land (Z.shiftr t3 8) 0x00ffffff)).

(** The bit after the last byte of a block of [n] bytes. *)
Definition poly_top (h : limbs) (n : Z) : limbs :=
  if n =? 16 then Limbs (h0 h) (h1 h) (h2 h) (h3 h) (u32 (h4 h + Z.shiftl 1 24))
  else
    let bit := n * 8 in
    if bit <? 26 then Limbs (u32 (h0 h + Z.shiftl 1 bit)) (h1 h) (h2 h) (h3 h) (h4 h)
    else if bit <? 52 then Limbs (h0 h) (u32 (h1 h + Z.shiftl 1 (bit - 26))) (h2 h) (h3 h) (h4 h)
    else if bit <? 78 then Limbs (h0 h) (h1 h) (u32 (h2 h + Z.shiftl 1 (bit - 52))) (h3 h) (h4 h)
    else if bit <? 104 then Limbs (h0 h) (h1 h) (h2 h) (u32 (h3 h + Z.shiftl 1 (bit - 78))) (h4 h)
    else Limbs (h0 h) (h1 h) (h2 h) (h3 h) (u32 (h4 h + Z.shiftl 1 (bit - 104))).

(** The carries of the product, from its five 64-bit sums. *)
Definition poly_reduce (d0 d1 d2 d3 d4 : Z) : limbs :=
  let c := u32 (Z.shiftr d0 26) in let a0 := Z.land (u32 d0) M26 in let d1 := u64 (d1 + c) in
  let c := u32 (Z.shiftr d1 26) in let a1 := Z.land (u32 d1) M26 in let d2 := u64 (d2 + c) in
  let c := u32 (Z.shiftr d2 26) in let a2 := Z.land (u32 d2) M26 in let d3 := u64 (d3 + c) in
  let c := u32 (Z.shiftr d3 26) in let a3 := Z.land (u32 d3) M26 in let d4 := u64 (d4 + c) in
  let c := u32 (Z.shiftr d4 26) in let a4 := Z.land (u32 d4) M26 in let a0 := u32 (a0 + u32 (c * 5)) in
  let c := Z.shiftr a0 26 in let a0 := Z.land a0 M26 in let a1 := u32 (a1 + c) in
  Limbs a0 a1 a2 a3 a4.

(** The product by the key modulo 2^130 - 5. *)
Definition poly_mul (r h : limbs) : limbs :=
  let s1 := u32 (h1 r * 5) in let s2 := u32 (h2 r * 5) in
  let s3 := u32 (h3 r * 5) in let s4 := u32 (h4 r * 5) in
  let d0 := u64 (h0 h * h0 r + h1 h * s4 + h2 h * s3 + h3 h * s2 + h4 h * s1) in
  let d1 := u64 (h0 h * h1 r + h1 h * h0 r + h2 h * s4 + h3 h * s3 + h4 h * s2) in
  let d2 := u64 (h0 h * h2 r + h1 h * h1 r + h2 h * h0 r + h3 h * s4 + h4 h * s3) in
  let d3 := u64 (h0 h * h3 r + h1 h * h2 r + h2 h * h1 r + h3 h * h0 r + h4 h * s4) in
  let d4 := u64 (h0 h * h4 r + h1 h * h3 r + h2 h * h2 r + h3 h * h1 r + h4 h * h0 r) in
  poly_reduce d0 d1 d2 d3 d4.

(** [while (len)] *)
Fixpoint poly_loop (fuel : nat) (r h : limbs) (msg : list Z) : option limbs :=
  match fuel with
  | O => None
  | S f =>
    match msg with
    | [] => Some h
    | _ =>
      let n := Nat.min (length msg) 16 in
      let block := list_inserts 0 (take n msg) (replicate 16 0) in
      poly_loop f r (poly_mul r (poly_top (poly_add h block) (Z.of_nat n))) (drop n msg)
    end
  end.

(** The last carries. *)
Definition poly_carry (h : limbs) : limbs :=
  let c := Z.shiftr (h1 h) 26 in let a1 := Z.land (h1 h) M26 in let a2 := u32 (h2 h + c) in
  let c := Z.shiftr a2 26 in let a2 := Z.land a2 M26 in let a3 := u32 (h3 h + c) in
  let c := Z.shiftr a3 26 in let a3 := Z.land a3 M26 in let a4 := u32 (h4 h + c) in
  let c := Z.shiftr a4 26 in let a4 := Z.land a4 M26 in let a0 := u32 (h0 h + u32 (c * 5)) in
  let c := Z.shiftr a0 26 in let a0 := Z.land a0 M26 in let a1 := u32 (a1 + c) in
  Limbs a0 a1 a2 a3 a4.

(** [h - p] is taken when it does not borrow, by masks. *)
Definition poly_select (h : limbs) : limbs :=
  let g0 := u32 (h0 h + 5) in let c := Z.shiftr g0 26 in let g0 := Z.land g0 M26 in
  let g1 := u32 (h1 h + c) in let c := Z.shiftr g1 26 in let g1 := Z.land g1 M26 in
  let g2 := u32 (h2 h + c) in let c := Z.shiftr g2 26 in let g2 := Z.land g2 M26 in
  let g3 := u32 (h3 h + c) in let c := Z.shiftr g3 26 in let g3 := Z.land g3 M26 in
  let g4 := u32 (h4 h + c - Z.shiftl 1 26) in
  let mask := u32 (Z.shiftr g4 31 - 1) in
  let nmask := u32 (Z.lnot mask) in
  let pick h g := Z.lor (Z.land h nmask) (Z.land g mask) in
  Limbs (pick (h0 h) g0) (pick (h1 h) g1) (pick (h2 h) g2) (pick (h3 h) g3) (pick (h4 h) g4).

(** Packing the limbs and adding the key's second half, in 64-bit words. *)
Definition poly_tag (key : list Z) (h : limbs) : list Z :=
  let f0 := u64 (Z.lor (h0 h) (Z.shiftl (h1 h) 26) + load_le32_tls (drop 16 key)) in
  let f1 := u64 (Z.lor (Z.shiftr (h1 h) 6) (Z.shiftl (h2 h) 20) + load_le32_tls (drop 20 key) +
                 Z.shiftr f0 32) in
  let f2 := u64 (Z.lor (Z.shiftr (h2 h) 12) (Z.shiftl (h3 h) 14) + load_le32_tls (drop 24 key) +
                 Z.shiftr f1 32) in
  let f3 := u64 (Z.lor (Z.shiftr (h3 h) 18) (Z.shiftl (h4 h) 8) + load_le32_tls (drop 28 key) +
                 Z.shiftr f2 32) in
  store_le32_tls (u32 f0) ++ store_le32_tls (u32 f1) ++ store_le32_tls (u32 f2) ++
  store_le32_tls (u32 f3).

Definition tnu_poly1305_mac (key msg : list Z) : option (list Z) :=
  h ← poly_loop (S (length msg)) (poly_r key) (Limbs 0 0 0 0 0) msg;
  Some (poly_tag key (poly_select (poly_carry h))).

(** ** The AEAD *)

Definition TLS_AEAD_MACBUF_MAX : nat := 2048.

(** The new buffer and position; [None] when a write passes the buffer's end. *)
Definition poly1305_update_padded (buf : list Z) (pos : Z) (data : list Z) : option (list Z * Z) :=
  let len := Z.of_nat (length data) in
  '(buf, pos) ← (match data with
                 | [] => Some (buf, pos)
                 | _ => buf ← put buf pos data; Some (buf, pos + len)
                 end);
  let pad := Z.land (16 - Z.land len 15) 15 in
  buf ← put buf pos (zeros pad);
  Some (buf, pos + pad).

(** Additional data, text and their lengths in the buffer: what is authenticated. *)
Definition mac_text (macbuf aad cipher : list Z) : option (list Z * Z) :=
  '(macbuf, pos) ← poly1305_update_padded macbuf 0 aad;
  '(macbuf, pos) ← poly1305_update_padded macbuf pos cipher;
  macbuf ← put macbuf pos (store_le64_tls (Z.of_nat (length aad)));
  let pos := pos + 8 in
  macbuf ← put macbuf pos (store_le64_tls (Z.of_nat (length cipher)));
  Some (macbuf, pos + 8).

(** [bytes_eq(a, b, len)] on buffers of [len] bytes. *)
Definition bytes_eq_tls (a b : list Z) : bool :=
  foldl (fun diff ab => Z.lor diff (u8 (Z.lxor (fst ab) (snd ab)))) 0 (zip a b) =? 0.

(** What a call wrote: the text (when it wrote one), the tag, the static buffer. *)
Record aead_out := AeadOut { ao_rc : Z; ao_text : option (list Z); ao_tag : option (list Z);
                             ao_macbuf : list Z }.

(** [aad_ok] ...: whether the pointers are not NULL. *)
Definition tnu_chacha20_poly1305_seal (macbuf key nonce : list Z) (aad_ok plain_ok cipher_ok : bool)
    (aad plain : list Z) : option aead_out :=
  let some (l : list Z) := (0 <? length l)%nat in
  if (negb plain_ok && some plain) || (negb cipher_ok && some plain) || (negb aad_ok && some aad)
  then Some (AeadOut TNU_TLS_ERR_BAD_URL None None macbuf)
  else
    let otk := chacha20_block key nonce 0 in
    cipher ← tnu_chacha20_xor key nonce 1 plain;
    if (TLS_AEAD_MACBUF_MAX <? length aad + length plain + 32)%nat
    then Some (AeadOut TNU_TLS_ERR_UNSUPPORTED (Some cipher) None macbuf)
    else
      '(macbuf, pos) ← mac_text macbuf aad cipher;
      text ← slice macbuf 0 pos;
      tag ← tnu_poly1305_mac otk text;
      Some (AeadOut TNU_TLS_OK (Some cipher) (Some tag) macbuf).

Definition tnu_chacha20_poly1305_open (macbuf key nonce : list Z) (aad_ok cipher_ok plain_ok : bool)
    (aad cipher tag : list Z) : option aead_out :=
  let some (l : list Z) := (0 <? length l)%nat in
  if (negb cipher_ok && some cipher) || (negb plain_ok && some cipher) || (negb aad_ok && some aad)
  then Some (AeadOut TNU_TLS_ERR_BAD_URL None None macbuf)
  else if (TLS_AEAD_MACBUF_MAX <? length aad + length cipher + 32)%nat
  then Some (AeadOut TNU_TLS_ERR_UNSUPPORTED None None macbuf)
  else
    let otk := chacha20_block key nonce 0 in
    '(macbuf, pos) ← mac_text macbuf aad cipher;
    text ← slice macbuf 0 pos;
    calc ← tnu_poly1305_mac otk text;
    if negb (bytes_eq_tls calc tag) then Some (AeadOut TNU_TLS_ERR_CRYPTO_MISSING None None macbuf)
    else
      plain ← tnu_chacha20_xor key nonce 1 cipher;
      Some (AeadOut TNU_TLS_OK (Some plain) None macbuf).

(** ** Words and bits *)

Lemma load_le32_eq p : Forall (fun b => 0 <= b < 256) p -> load_le32_tls p = le_val (take 4 p).
Proof.
  intros H. unfold load_le32_tls.
  assert (forall a b c d, 0 <= a < 256 -> 0 <= b < 256 -> 0 <= c < 256 -> 0 <= d < 256 ->
    Z.lor (Z.lor (Z.lor a (Z.shiftl b 8)) (Z.shiftl c 16)) (Z.shiftl d 24) =
    a + 256 * (b + 256 * (c + 256 * (d + 256 * 0)))) as G.
  { intros a b c d Ha Hb Hc Hd.
    rewrite (Z.lor_comm a), (lor_shift_add a b 8) by lia. rewrite (Z.lor_comm _ (Z.shiftl c 16)).
    rewrite (lor_shift_add _ c 16) by lia. rewrite Z.lor_comm, lor_shift_add by lia. lia. }
  destruct H as [|a p Ha H]; [done|]. destruct H as [|b p Hb H]; [cbn [nth take le_val]; rewrite G; lia|].
  destruct H as [|c p Hc H]; [cbn [nth take le_val]; rewrite G; lia|].
  destruct H as [|d p Hd H]; cbn [nth take le_val]; by rewrite G by lia.
Qed.

(** A word of the number a byte string stands for. *)
Lemma word_at p k : Forall (fun b => 0 <= b < 256) p ->
  load_le32_tls (drop k p) = (le_val p / 2 ^ (8 * Z.of_nat k)) mod 2 ^ 32.
Proof.
  intros H. rewrite load_le32_eq by (by apply Forall_drop).
  rewrite le_val_take, le_val_drop by (try apply Forall_drop; done). by rewrite Z.pow_mul_r by lia.
Qed.

Lemma store_le32_eq v : store_le32_tls v = le_bytes 4 v.
Proof.
  unfold store_le32_tls, u8. cbn [le_bytes]. rewrite !Z.shiftr_div_pow2 by lia. by rewrite !Z.div_div by lia.
Qed.

(** 26 bits read from two neighbouring words. *)
Lemma window26 N a b s k c : 0 <= a -> 0 <= s <= 32 -> b = a + 32 -> k = 32 - s -> c = a + s ->
  Z.land (Z.lor (Z.shiftr ((N / 2 ^ a) mod 2 ^ 32) s)
                (u32 (Z.shiftl ((N / 2 ^ b) mod 2 ^ 32) k))) M26 =
  (N / 2 ^ c) mod 2 ^ 26.
Proof.
  intros Ha Hs -> -> ->. change M26 with (Z.ones 26). unfold u32. change 4294967296 with (2 ^ 32).
  rewrite <- !Z.shiftr_div_pow2, <- !Z.land_ones by lia. apply Z.bits_inj'. intros n Hn.
  rewrite !Z.land_spec, Z.lor_spec, !Z.shiftr_spec, !Z.land_spec, !Z.shiftr_spec, !Z.testbit_ones by lia.
  rewrite (Z.shiftl_spec _ _ _ Hn). rewrite (proj2 (Z.leb_le 0 n)), (proj2 (Z.leb_le 0 (n + s))) by lia.
  destruct (Z.ltb_spec n 26); [|by rewrite !andb_false_r]. rewrite (proj2 (Z.ltb_lt n 32)) by lia.
  cbn [andb]. rewrite !andb_true_r. replace (n + (a + s)) with (n + s + a) by lia.
  destruct (Z.ltb_spec (n + s) 32).
  - rewrite andb_true_r. rewrite (Z.testbit_neg_r _ (n - (32 - s))) by lia. by rewrite orb_false_r.
  - rewrite andb_false_r, orb_false_l. rewrite Z.land_spec, Z.shiftr_spec, Z.testbit_ones by lia.
    rewrite (proj2 (Z.leb_le 0 (n - (32 - s)))), (proj2 (Z.ltb_lt (n - (32 - s)) 32)) by lia.
    rewrite andb_true_r. f_equal. lia.
Qed.

Lemma land_M26 x : Z.land x M26 = x mod 2 ^ 26.
Proof. apply (Z.land_ones x 26). lia. Qed.

(** The digits in base 2^26 of a number below 2^130. *)
Lemma digits26 N : 0 <= N < 2 ^ 130 ->
  N = N mod 2 ^ 26 + 2 ^ 26 * ((N / 2 ^ 26) mod 2 ^ 26) + 2 ^ 52 * ((N / 2 ^ 52) mod 2 ^ 26) +
      2 ^ 78 * ((N / 2 ^ 78) mod 2 ^ 26) + 2 ^ 104 * (N / 2 ^ 104).
Proof. intros H. Z.div_mod_to_equations. lia. Qed.

(** ** The accumulator *)

Definition p1305 : Z := 2 ^ 130 - 5.
Definition poly_val (h : limbs) : Z :=
  h0 h + 2 ^ 26 * h1 h + 2 ^ 52 * h2 h + 2 ^ 78 * h3 h + 2 ^ 104 * h4 h.

(** All limbs are below [b]; the second may reach [b] and 63 more. *)
Definition below (b : Z) (h : limbs) : Prop :=
  0 <= h0 h < b /\ 0 <= h1 h < b + 64 /\ 0 <= h2 h < b /\ 0 <= h3 h < b /\ 0 <= h4 h < b.

Definition bytes (l : list Z) : Prop := Forall (fun b => 0 <= b < 256) l.

Lemma poly_add_ok h block : below (2 ^ 26) h -> length block = 16%nat -> bytes block ->
  below (2 ^ 27) (poly_add h block) /\ h4 (poly_add h block) < 2 ^ 26 + 2 ^ 24 /\
  poly_val (poly_add h block) = poly_val h + le_val block.
Proof.
  intros Hh Hl Hb. pose proof (le_val_range block Hb) as HN. rewrite Hl in HN.
  change (256 ^ Z.of_nat 16) with (2 ^ 128) in HN. unfold poly_add.
  pose proof (word_at block 0 Hb) as W0. rewrite drop_0 in W0. rewrite W0, !word_at by done.
  set (N := le_val block) in *. clearbody N.
  change (8 * Z.of_nat 0) with 0. change (8 * Z.of_nat 4) with 32. change (8 * Z.of_nat 8) with 64.
  change (8 * Z.of_nat 12) with 96.
  rewrite (window26 N 0 32 26 6 26), (window26 N 32 64 20 12 52), (window26 N 64 96 14 18 78), land_M26 by lia.
  change 0xffffff with (Z.ones 24). rewrite (Z.land_ones _ 24), Z.shiftr_div_pow2 by lia.
  rewrite Z.pow_0_r, Z.div_1_r, Z.mod_mod_divide by (by exists (2 ^ 6)).
  assert (((N / 2 ^ 96) mod 2 ^ 32 / 2 ^ 8) mod 2 ^ 24 = N / 2 ^ 104) as E.
  { rewrite Z.mod_small with (a := N / 2 ^ 96) by (Z.div_mod_to_equations; lia).
    rewrite Z.div_div by lia. change (2 ^ 96 * 2 ^ 8) with (2 ^ 104).
    apply Z.mod_small. Z.div_mod_to_equations. lia. }
  rewrite E. pose proof (digits26 N ltac:(lia)) as D.
  assert (0 <= N / 2 ^ 104 < 2 ^ 24) by (clear D; Z.div_mod_to_equations; lia).
  pose proof (Z.mod_pos_bound N (2 ^ 26) ltac:(lia)).
  pose proof (Z.mod_pos_bound (N / 2 ^ 26) (2 ^ 26) ltac:(lia)).
  pose proof (Z.mod_pos_bound (N / 2 ^ 52) (2 ^ 26) ltac:(lia)).
  pose proof (Z.mod_pos_bound (N / 2 ^ 78) (2 ^ 26) ltac:(lia)).
  destruct h as [a0 a1 a2 a3 a4]. unfold below, poly_val in *. cbn [h0 h1 h2 h3 h4] in *.
  clear E W0 Hl Hb. revert D.
  generalize dependent (N mod 2 ^ 26). generalize dependent ((N / 2 ^ 26) mod 2 ^ 26).
  generalize dependent ((N / 2 ^ 52) mod 2 ^ 26). generalize dependent ((N / 2 ^ 78) mod 2 ^ 26).
  generalize dependent (N / 2 ^ 104). intros e He d Hd c Hc b Hb a Ha D.
  rewrite !u32_small by lia. lia.
Qed.

(** The widest limbs the product takes: a block and its top bit were added. *)
Definition WIDE : Z := 2 ^ 27 + 2 ^ 25.

Lemma poly_top_ok h n : below (2 ^ 27) h -> h4 h < 2 ^ 26 + 2 ^ 24 -> 0 < n <= 16 ->
  below WIDE (poly_top h n) /\ poly_val (poly_top h n) = poly_val h + 2 ^ (8 * n).
Proof.
  intros Hh H4 Hn. unfold poly_top, WIDE.
  assert (forall k, 0 <= k <= 24 -> 0 < 2 ^ k <= 2 ^ 24) as P
    by (intros k Hk; split; [apply Z.pow_pos_nonneg; lia|apply Z.pow_le_mono_r; lia]).
  assert (forall a k, 0 <= a -> a <= 8 * n -> k = 8 * n - a -> 2 ^ (8 * n) = 2 ^ a * 2 ^ k) as S
    by (intros a k H0 H1 ->; rewrite <- Z.pow_add_r by lia; f_equal; lia).
  destruct h as [a0 a1 a2 a3 a4]. unfold below in *. cbn [h0 h1 h2 h3 h4] in *. rewrite (Z.mul_comm n 8).
  destruct (Z.eqb_spec n 16) as [->|Hne].
  { change (Z.shiftl 1 24) with (2 ^ 24). rewrite (u32_small (a4 + 2 ^ 24)) by lia.
    unfold poly_val. cbn [h0 h1 h2 h3 h4]. change (2 ^ (8 * 16)) with (2 ^ 104 * 2 ^ 24). lia. }
  rewrite !Z.shiftl_1_l.
  destruct (Z.ltb_spec (8 * n) 26); [|destruct (Z.ltb_spec (8 * n) 52); [|destruct (Z.ltb_spec (8 * n) 78);
    [|destruct (Z.ltb_spec (8 * n) 104)]]]; unfold poly_val; cbn [h0 h1 h2 h3 h4].
  - specialize (P (8 * n) ltac:(lia)). rewrite (u32_small (a0 + _)) by lia. lia.
  - specialize (P (8 * n - 26) ltac:(lia)). specialize (S 26 (8 * n - 26)).
    rewrite (u32_small (a1 + _)) by lia. rewrite S by lia. lia.
  - specialize (P (8 * n - 52) ltac:(lia)). specialize (S 52 (8 * n - 52)).
    rewrite (u32_small (a2 + _)) by lia. rewrite S by lia. lia.
  - specialize (P (8 * n - 78) ltac:(lia)). specialize (S 78 (8 * n - 78)).
    rewrite (u32_small (a3 + _)) by lia. rewrite S by lia. lia.
  - specialize (P (8 * n - 104) ltac:(lia)). specialize (S 104 (8 * n - 104)).
    rewrite (u32_small (a4 + _)) by lia. rewrite S by lia. lia.
Qed.

(** Quotient and remainder by 2^26. *)
Lemma split26 x : 0 <= x -> exists q r, x / 2 ^ 26 = q /\ x mod 2 ^ 26 = r /\ x = 2 ^ 26 * q + r /\
  0 <= q /\ 0 <= r < 2 ^ 26.
Proof.
  intros H. exists (x / 2 ^ 26), (x mod 2 ^ 26). pose proof (Z.mod_pos_bound x (2 ^ 26) ltac:(lia)).
  repeat split; auto; try lia; [apply Z.div_mod; lia|apply Z.div_pos; lia].
Qed.

Ltac carry26 x q r :=
  let Hq := fresh in let Hr := fresh in let He := fresh "E" in
  destruct (split26 x ltac:(lia)) as (q & r & Hq & Hr & He & ? & ?);
  rewrite ?Hq, ?Hr; clear Hq Hr.

Lemma u32_mod26 x : u32 x mod 2 ^ 26 = x mod 2 ^ 26.
Proof. unfold u32. apply Z.mod_mod_divide. by exists 64. Qed.

(** Sums of one product by a limb of the key and others by five of its limbs. *)
Definition PROD : Z := (WIDE + 64) * 2 ^ 26.

Lemma wide_product x y : 0 <= x < WIDE + 64 -> 0 <= y < 2 ^ 26 -> 0 <= x * y <= PROD.
Proof. unfold PROD. nia. Qed.

(** The carries between the five sums, when the last is small. *)
Lemma poly_carries d0 d1 d2 d3 d4 z :
  0 <= d0 <= 21 * PROD -> 0 <= d1 <= 21 * PROD -> 0 <= d2 <= 21 * PROD -> 0 <= d3 <= 21 * PROD ->
  0 <= d4 <= 5 * PROD ->
  (d0 + 2 ^ 26 * d1 + 2 ^ 52 * d2 + 2 ^ 78 * d3 + 2 ^ 104 * d4) mod p1305 = z mod p1305 ->
  below (2 ^ 26) (poly_reduce d0 d1 d2 d3 d4) /\
  poly_val (poly_reduce d0 d1 d2 d3 d4) mod p1305 = z mod p1305.
Proof.
  intros H0 H1 H2 H3 H4 <-. unfold PROD, WIDE, poly_reduce in *. rewrite !land_M26, !u32_mod26, !shiftr_div by done.
  cbv zeta. carry26 d0 q0 r0. rewrite !(u32_small q0) by lia. rewrite !(u64_small (d1 + q0)) by lia.
  carry26 (d1 + q0) q1 r1. rewrite !(u32_small q1) by lia. rewrite !(u64_small (d2 + q1)) by lia.
  carry26 (d2 + q1) q2 r2. rewrite !(u32_small q2) by lia. rewrite !(u64_small (d3 + q2)) by lia.
  carry26 (d3 + q2) q3 r3. rewrite !(u32_small q3) by lia. rewrite !(u64_small (d4 + q3)) by lia.
  carry26 (d4 + q3) q4 r4. rewrite !(u32_small q4) by lia. rewrite !(u32_small (q4 * 5)) by lia.
  rewrite !(u32_small (r0 + q4 * 5)) by lia. carry26 (r0 + q4 * 5) q5 r5.
  rewrite !(u32_small (r1 + q5)) by lia.
  split; [unfold below; cbn [h0 h1 h2 h3 h4]; lia|].
  transitivity ((d0 + 2 ^ 26 * d1 + 2 ^ 52 * d2 + 2 ^ 78 * d3 + 2 ^ 104 * d4 + - q4 * p1305) mod p1305);
    [|apply Z_mod_plus_full].
  f_equal. unfold poly_val, p1305. cbn [h0 h1 h2 h3 h4]. lia.
Qed.

(** The limbs of a key: 26 bits each. *)
Definition key_limbs (r : limbs) : Prop :=
  0 <= h0 r < 2 ^ 26 /\ 0 <= h1 r < 2 ^ 26 /\ 0 <= h2 r < 2 ^ 26 /\ 0 <= h3 r < 2 ^ 26 /\ 0 <= h4 r < 2 ^ 26.

Lemma poly_mul_ok r h : key_limbs r -> below WIDE h ->
  below (2 ^ 26) (poly_mul r h) /\ poly_val (poly_mul r h) mod p1305 = (poly_val h * poly_val r) mod p1305.
Proof.
  intros Hr Hh. unfold key_limbs, below in *.
  assert (forall x y, 0 <= x < WIDE + 64 -> 0 <= y < 2 ^ 26 -> 0 <= x * y <= PROD) as P by apply wide_product.
  destruct r as [r0 r1 r2 r3 r4], h as [a0 a1 a2 a3 a4]. unfold poly_mul. cbn [h0 h1 h2 h3 h4] in *.
  rewrite (u32_small (r1 * 5)), (u32_small (r2 * 5)), (u32_small (r3 * 5)), (u32_small (r4 * 5)) by lia.
  rewrite !(Z.mul_comm _ 5), !(Z.mul_shuffle3 _ 5).
  assert (forall p q r s t, 0 <= p <= PROD -> 0 <= q <= PROD -> 0 <= r <= PROD -> 0 <= s <= PROD ->
    0 <= t <= PROD -> 0 <= p + 5 * q + 5 * r + 5 * s + 5 * t <= 21 * PROD /\
    0 <= p + q + 5 * r + 5 * s + 5 * t <= 21 * PROD /\ 0 <= p + q + r + 5 * s + 5 * t <= 21 * PROD /\
    0 <= p + q + r + s + 5 * t <= 21 * PROD /\ 0 <= p + q + r + s + t <= 5 * PROD) as S by (clear; lia).
  destruct (S (a0 * r0) (a1 * r4) (a2 * r3) (a3 * r2) (a4 * r1)) as (B0 & _); try (apply P; lia).
  destruct (S (a0 * r1) (a1 * r0) (a2 * r4) (a3 * r3) (a4 * r2)) as (_ & B1 & _); try (apply P; lia).
  destruct (S (a0 * r2) (a1 * r1) (a2 * r0) (a3 * r4) (a4 * r3)) as (_ & _ & B2 & _); try (apply P; lia).
  destruct (S (a0 * r3) (a1 * r2) (a2 * r1) (a3 * r0) (a4 * r4)) as (_ & _ & _ & B3 & _); try (apply P; lia).
  destruct (S (a0 * r4) (a1 * r3) (a2 * r2) (a3 * r1) (a4 * r0)) as (_ & _ & _ & _ & B4); try (apply P; lia).
  clear S P. assert (21 * PROD < 2 ^ 64) as HP by (vm_compute; done).
  assert (forall d, 0 <= d <= 21 * PROD -> u64 d = d) as U by (intros; apply u64_small; lia).
  rewrite (U _ B0), (U _ B1), (U _ B2), (U _ B3), (U (a0 * r4 + _ + _ + _ + _)) by lia.
  apply (poly_carries _ _ _ _ _ (poly_val (Limbs a0 a1 a2 a3 a4) * poly_val (Limbs r0 r1 r2 r3 r4)) B0 B1 B2 B3 B4).
  symmetry. etransitivity; [|apply (Z_mod_plus_full _ (a1 * r4 + a2 * r3 + a3 * r2 + a4 * r1 +
    2 ^ 26 * (a2 * r4 + a3 * r3 + a4 * r2) + 2 ^ 52 * (a3 * r4 + a4 * r3) + 2 ^ 78 * (a4 * r4)))].
  f_equal. unfold poly_val, p1305. cbn [h0 h1 h2 h3 h4]. ring.
Qed.

(** ** The key *)

(** The mask of RFC 8439, section 2.5. *)
Definition CLAMP : Z := 0x0ffffffc0ffffffc0ffffffc0fffffff.

Lemma clamp_digit N a m : 0 <= a -> (CLAMP / 2 ^ a) mod 2 ^ 26 = m ->
  Z.land ((N / 2 ^ a) mod 2 ^ 26) m = (Z.land N CLAMP / 2 ^ a) mod 2 ^ 26.
Proof.
  intros Ha <-. rewrite <- !Z.land_ones, <- !Z.shiftr_div_pow2, Z.shiftr_land by lia.
  rewrite <- !Z.land_assoc. f_equal. rewrite (Z.land_comm (Z.ones 26)), <- Z.land_assoc.
  by rewrite Z.land_diag.
Qed.

Lemma mask_through x m : Z.land M26 m = m -> Z.land x m = Z.land (Z.land x M26) m.
Proof. intros H. by rewrite <- Z.land_assoc, H. Qed.

Lemma poly_r_ok key : bytes key -> key_limbs (poly_r key) /\
  poly_val (poly_r key) = Z.land (le_val key) CLAMP.
Proof.
  intros Hb. unfold poly_r. pose proof (word_at key 0 Hb) as W0. rewrite drop_0 in W0.
  rewrite W0, !word_at by done. set (N := le_val key) in *.
  assert (0 <= N) as HN by (apply le_val_range; done). clearbody N.
  change (8 * Z.of_nat 0) with 0. change (8 * Z.of_nat 4) with 32. change (8 * Z.of_nat 8) with 64.
  change (8 * Z.of_nat 12) with 96.
  rewrite (mask_through _ 0x3ffff03), (mask_through _ 0x3ffc0ff), (mask_through _ 0x3f03fff) by done.
  rewrite (window26 N 0 32 26 6 26), (window26 N 32 64 20 12 52), (window26 N 64 96 14 18 78) by lia.
  rewrite (clamp_digit N 26), (clamp_digit N 52), (clamp_digit N 78) by (lia || reflexivity).
  assert (Z.land ((N / 2 ^ 0) mod 2 ^ 32) 0x3ffffff = (Z.land N CLAMP / 2 ^ 0) mod 2 ^ 26) as ->.
  { rewrite <- clamp_digit with (m := 0x3ffffff) by (lia || reflexivity).
    change 0x3ffffff with (Z.ones 26). rewrite !Z.land_ones by lia.
    rewrite Z.mod_mod by lia. apply Z.mod_mod_divide. by exists (2 ^ 6). }
  assert (Z.land (Z.shiftr ((N / 2 ^ 96) mod 2 ^ 32) 8) 0xfffff = Z.land N CLAMP / 2 ^ 104) as ->.
  { rewrite <- Z.land_ones, <- !Z.shiftr_div_pow2, !Z.shiftr_land, Z.shiftr_shiftr by lia.
    rewrite <- Z.land_assoc. f_equal. }
  rewrite Z.pow_0_r, Z.div_1_r. set (R := Z.land N CLAMP).
  assert (0 <= R < 2 ^ 124) as HR.
  { split; [apply Z.land_nonneg; lia|]. unfold R. rewrite Z.land_comm.
    apply Z.bounded_iff_bits_nonneg; [lia|apply Z.land_nonneg; lia|]. intros l Hl.
    rewrite Z.land_spec. by rewrite (proj1 (Z.bounded_iff_bits_nonneg 124 CLAMP ltac:(lia) ltac:(done)) eq_refl l Hl). }
  clearbody R. pose proof (digits26 R ltac:(lia)) as D.
  unfold key_limbs, poly_val. cbn [h0 h1 h2 h3 h4]. split; [|lia].
  split_and!; try (apply Z.mod_pos_bound; lia); Z.div_mod_to_equations; lia.
Qed.

(** ** Poly1305 of RFC 8439 *)

(** The accumulator after a message, before the reduction: each block, with the
    bit after its last byte, is added and the sum multiplied by the key. *)
Fixpoint poly_acc (n : nat) (r acc : Z) (msg : list Z) : Z :=
  match n with
  | O => acc
  | S n =>
    match msg with
    | [] => acc
    | _ => let k := Nat.min (length msg) 16 in
           poly_acc n r (((acc + le_val (take k msg) + 2 ^ (8 * Z.of_nat k)) * r) mod p1305) (drop k msg)
    end
  end.

Definition poly_hash (key msg : list Z) : Z :=
  poly_acc (length msg) (Z.land (le_val (take 16 key)) CLAMP) 0 msg.

(** The tag of RFC 8439: the accumulator plus the key's second half. *)
Definition poly_spec (key msg : list Z) : list Z :=
  le_bytes 16 (poly_hash key msg + le_val (drop 16 key)).

Lemma le_val_pad l k : le_val (l ++ replicate k 0) = le_val l.
Proof.
  rewrite le_val_app. assert (le_val (replicate k 0) = 0) as ->; [|lia].
  induction k as [|k IH]; [done|]. cbn [replicate le_val]. lia.
Qed.

(** One turn of the loop. *)
Lemma poly_block_ok r h msg (n := Nat.min (length msg) 16) :
  key_limbs r -> below (2 ^ 26) h -> bytes msg -> msg <> [] ->
  let h' := poly_mul r (poly_top (poly_add h (list_inserts 0 (take n msg) (replicate 16 0))) (Z.of_nat n)) in
  below (2 ^ 26) h' /\
  poly_val h' mod p1305 =
    ((poly_val h mod p1305 + le_val (take n msg) + 2 ^ (8 * Z.of_nat n)) * poly_val r) mod p1305.
Proof.
  intros Hr Hh Hb Hne. cbv zeta. assert (0 < length msg)%nat by (destruct msg; [done|simpl; lia]).
  assert (length (take n msg) = n) as Hn by (rewrite length_take; lia).
  rewrite inserts_front by (rewrite Hn, length_replicate; lia). rewrite drop_replicate, Hn.
  set (block := take n msg ++ replicate (16 - n) 0).
  assert (length block = 16%nat) as Hl by (unfold block; rewrite length_app, length_replicate; lia).
  assert (bytes block) as Hbb.
  { apply Forall_app_2; [by apply Forall_take|]. apply Forall_replicate. lia. }
  destruct (poly_add_ok h block Hh Hl Hbb) as (H1 & H2 & H3).
  destruct (poly_top_ok _ (Z.of_nat n) H1 H2 ltac:(lia)) as (H4 & H5).
  destruct (poly_mul_ok r _ Hr H4) as (H6 & H7). split; [exact H6|]. rewrite H7, H5, H3.
  unfold block. rewrite le_val_pad.
  rewrite Z.mul_mod, (Z.mul_mod (poly_val h mod _ + _ + _)) by (vm_compute; done).
  f_equal. f_equal. rewrite <- !Z.add_assoc. by rewrite Zplus_mod_idemp_l.
Qed.

Lemma poly_loop_ok n : forall r h msg, key_limbs r -> below (2 ^ 26) h -> bytes msg -> (length msg <= n)%nat ->
  exists h', poly_loop (S n) r h msg = Some h' /\ below (2 ^ 26) h' /\
    poly_val h' mod p1305 = poly_acc n (poly_val r) (poly_val h mod p1305) msg.
Proof.
  induction n as [|n IH]; intros r h msg Hr Hh Hb Hl; (destruct (decide (msg = [])) as [->|Hne]; [by exists h|]).
  - by destruct msg; [|simpl in Hl; lia].
  - destruct (poly_block_ok r h msg Hr Hh Hb Hne) as [H1 H2].
    destruct msg as [|x m]; [done|]. set (msg := x :: m) in *.
    destruct (IH r _ (drop (Nat.min (length msg) 16) msg) Hr H1) as (h' & E & Hb' & Hv).
    { by apply Forall_drop. }
    { rewrite length_drop. unfold msg in *. cbn [length] in *. lia. }
    exists h'. split; [exact E|]. split; [done|]. by rewrite Hv, H2.
Qed.

(** Limbs of 26 bits: the digits of a number below 2^130. *)
Definition digits (h : limbs) : Prop :=
  0 <= h0 h < 2 ^ 26 /\ 0 <= h1 h < 2 ^ 26 /\ 0 <= h2 h < 2 ^ 26 /\ 0 <= h3 h < 2 ^ 26 /\ 0 <= h4 h < 2 ^ 26.

Lemma poly_carry_ok h : below (2 ^ 26) h ->
  digits (poly_carry h) /\ poly_val (poly_carry h) mod p1305 = poly_val h mod p1305.
Proof.
  destruct h as [a0 a1 a2 a3 a4]. unfold below, poly_carry. cbn [h0 h1 h2 h3 h4]. intros H.
  rewrite !land_M26, !shiftr_div by done.
  carry26 a1 q1 r1. rewrite !(u32_small (a2 + q1)) by lia.
  carry26 (a2 + q1) q2 r2. rewrite !(u32_small (a3 + q2)) by lia.
  carry26 (a3 + q2) q3 r3. rewrite !(u32_small (a4 + q3)) by lia.
  carry26 (a4 + q3) q4 r4. rewrite !(u32_small (q4 * 5)) by lia. rewrite !(u32_small (a0 + q4 * 5)) by lia.
  carry26 (a0 + q4 * 5) q0 r0. rewrite !(u32_small (r1 + q0)) by lia.
  split; [unfold digits; cbn [h0 h1 h2 h3 h4]; lia|].
  symmetry. etransitivity; [|apply (Z_mod_plus_full _ q4)]. f_equal.
  unfold poly_val, p1305. cbn [h0 h1 h2 h3 h4]. lia.
Qed.

Lemma pick_eq (b : bool) h g : 0 <= h < 2 ^ 32 -> 0 <= g < 2 ^ 32 ->
  let mask := u32 (Z.b2z b - 1) in
  Z.lor (Z.land h (u32 (Z.lnot mask))) (Z.land g mask) = if b then h else g.
Proof.
  intros Hh Hg. destruct b; cbn [Z.b2z].
  - change (u32 (1 - 1)) with 0. change (u32 (Z.lnot 0)) with (Z.ones 32).
    by rewrite Z.land_0_r, Z.lor_0_r, Z.land_ones, Z.mod_small by lia.
  - change (u32 (0 - 1)) with (Z.ones 32). change (u32 (Z.lnot (Z.ones 32))) with 0.
    by rewrite Z.land_0_r, Z.lor_0_l, Z.land_ones, Z.mod_small by lia.
Qed.

Lemma poly_select_ok h : digits h ->
  digits (poly_select h) /\ poly_val (poly_select h) = poly_val h mod p1305.
Proof.
  destruct h as [a0 a1 a2 a3 a4]. unfold digits, poly_select. cbn [h0 h1 h2 h3 h4]. intros H.
  change (Z.shiftl 1 26) with (2 ^ 26). rewrite !land_M26, !shiftr_div by done.
  rewrite !(u32_small (a0 + 5)) by lia. carry26 (a0 + 5) q0 r0. rewrite !(u32_small (a1 + q0)) by lia.
  carry26 (a1 + q0) q1 r1. rewrite !(u32_small (a2 + q1)) by lia.
  carry26 (a2 + q1) q2 r2. rewrite !(u32_small (a3 + q2)) by lia.
  carry26 (a3 + q2) q3 r3.
  assert (u32 (a4 + q3 - 2 ^ 26) / 2 ^ 31 = Z.b2z (a4 + q3 <? 2 ^ 26)) as ->.
  { destruct (Z.ltb_spec (a4 + q3) (2 ^ 26)); cbn [Z.b2z]; unfold u32; Z.div_mod_to_equations; lia. }
  rewrite !pick_eq by (first [lia|apply u32_range]).
  destruct (Z.ltb_spec (a4 + q3) (2 ^ 26)).
  - cbn [h0 h1 h2 h3 h4]. split; [lia|]. symmetry. apply Z.mod_small.
    unfold poly_val, p1305. cbn [h0 h1 h2 h3 h4]. lia.
  - rewrite (u32_small (a4 + q3 - _)) by lia. cbn [h0 h1 h2 h3 h4]. split; [lia|].
    apply (Z.mod_unique _ _ 1); unfold poly_val, p1305; cbn [h0 h1 h2 h3 h4]; lia.
Qed.

Lemma le_bytes_mod n v : le_bytes n (v mod 256 ^ Z.of_nat n) = le_bytes n v.
Proof.
  rewrite <- le_val_le_bytes. pose proof (le_bytes_le_val (le_bytes n v) (le_bytes_range n v)) as E.
  by rewrite length_le_bytes in E.
Qed.

(** The number the code's tag is, for an accumulator reduced to [H]: three of its
    32-bit words are counted with the bits that already went into the next. *)
Definition tag_number (H : Z) : Z :=
  H + 2 ^ 32 * ((H / 2 ^ 32) mod 2 ^ 20) + 2 ^ 64 * ((H / 2 ^ 64) mod 2 ^ 14) +
  2 ^ 96 * ((H / 2 ^ 96) mod 2 ^ 8).

Lemma words_sum a0 a1 a2 a3 :
  0 <= a0 < 2 ^ 26 -> 0 <= a1 < 2 ^ 26 -> 0 <= a2 < 2 ^ 26 -> 0 <= a3 < 2 ^ 26 -> forall a4, 0 <= a4 < 2 ^ 26 ->
  (a0 + 2 ^ 26 * a1) + 2 ^ 32 * (a1 / 2 ^ 6 + 2 ^ 20 * a2) + 2 ^ 64 * (a2 / 2 ^ 12 + 2 ^ 14 * a3) +
  2 ^ 96 * (a3 / 2 ^ 18 + 2 ^ 8 * a4) = tag_number (poly_val (Limbs a0 a1 a2 a3 a4)).
Proof.
  intros H0 H1 H2 H3 a4 H4. unfold tag_number. set (H := poly_val _).
  assert (H = a0 + 2 ^ 26 * a1 + 2 ^ 52 * a2 + 2 ^ 78 * a3 + 2 ^ 104 * a4) as E by done. clearbody H.
  assert ((H / 2 ^ 32) mod 2 ^ 20 = a1 / 2 ^ 6) as -> by (Z.div_mod_to_equations; lia).
  assert ((H / 2 ^ 64) mod 2 ^ 14 = a2 / 2 ^ 12) as -> by (Z.div_mod_to_equations; lia).
  assert ((H / 2 ^ 96) mod 2 ^ 8 = a3 / 2 ^ 18) as -> by (Z.div_mod_to_equations; lia).
  rewrite E. Z.div_mod_to_equations. lia.
Qed.

(** Four words added with a 64-bit carry make one number. *)
Lemma words_packed w0 w1 w2 w3 S :
  0 <= w0 < 2 ^ 52 -> 0 <= w1 < 2 ^ 46 -> 0 <= w2 < 2 ^ 40 -> 0 <= w3 < 2 ^ 34 -> 0 <= S < 2 ^ 128 ->
  let f0 := u64 (w0 + S mod 2 ^ 32) in
  let f1 := u64 (w1 + (S / 2 ^ 32) mod 2 ^ 32 + f0 / 2 ^ 32) in
  let f2 := u64 (w2 + (S / 2 ^ 64) mod 2 ^ 32 + f1 / 2 ^ 32) in
  let f3 := u64 (w3 + (S / 2 ^ 96) mod 2 ^ 32 + f2 / 2 ^ 32) in
  store_le32_tls (u32 f0) ++ store_le32_tls (u32 f1) ++ store_le32_tls (u32 f2) ++
  store_le32_tls (u32 f3) =
  le_bytes 16 (w0 + 2 ^ 32 * w1 + 2 ^ 64 * w2 + 2 ^ 96 * w3 + S).
Proof.
  intros R0 R1 R2 R3 HS f0 f1 f2 f3. rewrite !store_le32_eq.
  set (L := le_bytes 4 (u32 f0) ++ _).
  assert (Forall (fun b => 0 <= b < 256) L) as HL by
    (unfold L; repeat apply Forall_app_2; apply le_bytes_range).
  assert (length L = 16%nat) as Hn by (unfold L; by rewrite !length_app, !length_le_bytes).
  rewrite <- (le_bytes_le_val L HL), Hn, <- (le_bytes_mod 16 (_ + S)). f_equal. unfold L.
  rewrite !le_val_app, !length_le_bytes, !le_val_le_bytes.
  change (256 ^ Z.of_nat 4) with (2 ^ 32). change (256 ^ Z.of_nat 16) with (2 ^ 128).
  pose proof (Z.mod_pos_bound S (2 ^ 32) ltac:(lia)).
  pose proof (Z.mod_pos_bound (S / 2 ^ 32) (2 ^ 32) ltac:(lia)).
  pose proof (Z.mod_pos_bound (S / 2 ^ 64) (2 ^ 32) ltac:(lia)).
  assert (S / 2 ^ 96 = (S / 2 ^ 96) mod 2 ^ 32) as E96.
  { symmetry. apply Z.mod_small. Z.div_mod_to_equations. lia. }
  assert (S = S mod 2 ^ 32 + 2 ^ 32 * ((S / 2 ^ 32) mod 2 ^ 32) + 2 ^ 64 * ((S / 2 ^ 64) mod 2 ^ 32) +
    2 ^ 96 * (S / 2 ^ 96)) as E by (clear; Z.div_mod_to_equations; lia).
  pose proof (Z.mod_pos_bound (S / 2 ^ 96) (2 ^ 32) ltac:(lia)).
  unfold f3, f2, f1, f0 in *. clear f0 f1 f2 f3 L HL Hn. rewrite E96 in E. clear E96.
  generalize dependent (S mod 2 ^ 32). generalize dependent ((S / 2 ^ 32) mod 2 ^ 32).
  generalize dependent ((S / 2 ^ 64) mod 2 ^ 32). generalize dependent ((S / 2 ^ 96) mod 2 ^ 32).
  intros s3 H3 s2 H2 s1 H1 s0 H0 E. rewrite E. clear E HS S.
  rewrite !(u64_small (w0 + s0)) by lia.
  rewrite !(u64_small (w1 + s1 + _)) by (Z.div_mod_to_equations; lia).
  rewrite !(u64_small (w2 + s2 + _)) by (Z.div_mod_to_equations; lia).
  rewrite !(u64_small (w3 + s3 + _)) by (Z.div_mod_to_equations; lia).
  unfold u32. change 4294967296 with (2 ^ 32). rewrite !Z.mod_mod by lia.
  Z.div_mod_to_equations. lia.
Qed.

Lemma poly_tag_ok key h : bytes key -> length key = 32%nat -> digits h ->
  poly_tag key h = le_bytes 16 (tag_number (poly_val h) + le_val (drop 16 key)).
Proof.
  intros Hb Hl Hd. unfold poly_tag.
  replace (drop 20 key) with (drop 4 (drop 16 key)) by (by rewrite drop_drop).
  replace (drop 24 key) with (drop 8 (drop 16 key)) by (by rewrite drop_drop).
  replace (drop 28 key) with (drop 12 (drop 16 key)) by (by rewrite drop_drop).
  set (s := drop 16 key). assert (bytes s) as Hs by (by apply Forall_drop).
  pose proof (word_at s 0 Hs) as W0. rewrite drop_0 in W0. rewrite W0, !word_at by done.
  pose proof (le_val_range s Hs) as HS. replace (length s) with 16%nat in HS
    by (unfold s; rewrite length_drop; lia). change (256 ^ Z.of_nat 16) with (2 ^ 128) in HS.
  set (S := le_val s) in *. clearbody S. clear W0 Hs s Hb Hl.
  change (8 * Z.of_nat 0) with 0. change (8 * Z.of_nat 4) with 32. change (8 * Z.of_nat 8) with 64.
  change (8 * Z.of_nat 12) with 96. rewrite Z.pow_0_r, Z.div_1_r.
  destruct h as [a0 a1 a2 a3 a4]. unfold digits in Hd. cbn [h0 h1 h2 h3 h4] in *.
  rewrite (Z.lor_comm a0), (Z.lor_comm (Z.shiftr a1 6)), (Z.lor_comm (Z.shiftr a2 12)),
    (Z.lor_comm (Z.shiftr a3 18)), !shiftr_div by done.
  rewrite (lor_shift_add a0), (lor_shift_add (a1 / 2 ^ 6)), (lor_shift_add (a2 / 2 ^ 12)),
    (lor_shift_add (a3 / 2 ^ 18)) by (Z.div_mod_to_equations; lia).
  rewrite <- (words_sum a0 a1 a2 a3) by lia.
  set (w0 := a1 * 2 ^ 26 + a0). set (w1 := a2 * 2 ^ 20 + a1 / 2 ^ 6).
  set (w2 := a3 * 2 ^ 14 + a2 / 2 ^ 12). set (w3 := a4 * 2 ^ 8 + a3 / 2 ^ 18).
  replace (_ + 2 ^ 26 * a1 + _ + _ + _) with (w0 + 2 ^ 32 * w1 + 2 ^ 64 * w2 + 2 ^ 96 * w3)
    by (unfold w0, w1, w2, w3; ring).
  assert (0 <= w0 < 2 ^ 52) as R0 by (unfold w0; lia).
  assert (0 <= w1 < 2 ^ 46) as R1 by (unfold w1; Z.div_mod_to_equations; lia).
  assert (0 <= w2 < 2 ^ 40) as R2 by (unfold w2; Z.div_mod_to_equations; lia).
  assert (0 <= w3 < 2 ^ 34) as R3 by (unfold w3; Z.div_mod_to_equations; lia).
  clearbody w0 w1 w2 w3. clear Hd a0 a1 a2 a3 a4.
  apply words_packed; done.
Qed.

(** ** The key stream *)

Definition keystream (key nonce : list Z) (counter : Z) (n : nat) : list Z :=
  concat (map (fun i => chacha20_block key nonce (u32 (counter + Z.of_nat i))) (seq 0 n)).

Lemma length_words32 (f : nat -> Z) l : length (concat (map (fun i => store_le32_tls (f i)) l)) = (4 * length l)%nat.
Proof. induction l as [|i l IH]; [done|]. cbn [map concat]. rewrite length_app, IH. cbn [length store_le32_tls]. lia. Qed.

Lemma length_chacha20_block key nonce counter : length (chacha20_block key nonce counter) = 64%nat.
Proof.
  unfold chacha20_block. cbv zeta. generalize (Nat.iter 10 double_round). intros dr.
  match goal with |- context [nth _ (dr ?x) 0] => generalize x end. intros x.
  rewrite (length_words32 (fun i => u32 (nth i (dr x) 0 + nth i x 0))). by rewrite length_seq.
Qed.

#[local] Opaque chacha20_block.

Lemma keystream_S key nonce c n : u32 c = c ->
  keystream key nonce c (S n) = chacha20_block key nonce c ++ keystream key nonce (u32 (c + 1)) n.
Proof.
  intros Hc. unfold keystream. cbn [seq map concat]. rewrite Z.add_0_r, Hc. apply (f_equal (app _)).
  apply (f_equal (@concat Z)). rewrite <- seq_shift, map_map. apply map_ext. intros i.
  apply (f_equal (chacha20_block key nonce)). unfold u32. rewrite Zplus_mod_idemp_l.
  apply (f_equal (fun x => x mod _)). lia.
Qed.

Lemma length_concat_map {A} (f : nat -> list A) d l : (forall i, length (f i) = d) ->
  length (concat (map f l)) = (length l * d)%nat.
Proof. intros Hf. induction l as [|i l IH]; [done|]. cbn [map concat length]. rewrite length_app, IH, Hf. lia. Qed.

Lemma length_keystream key nonce c n : length (keystream key nonce c n) = (64 * n)%nat.
Proof.
  unfold keystream. rewrite (length_concat_map _ 64) by (intros; apply length_chacha20_block).
  by rewrite length_seq, Nat.mul_comm.
Qed.

Lemma zip_with_prefix (f : Z -> Z -> Z) l k1 k2 : (length l <= length k1)%nat ->
  zip_with f l (k1 ++ k2) = zip_with f l k1.
Proof.
  revert k1. induction l as [|x l IH]; intros [|y k1] H; cbn in *; try done; try lia.
  by rewrite IH by lia.
Qed.

Lemma xor_loop_eq fuel : forall key nonce c inp m, u32 c = c -> (length inp < fuel)%nat ->
  (length inp <= 64 * m)%nat ->
  xor_loop fuel key nonce c inp = Some (zip_with Z.lxor inp (keystream key nonce c m)).
Proof.
  induction fuel as [|fuel IH]; intros key nonce c inp m Hc Hf Hm; [lia|].
  destruct inp as [|x l]; [done|]. destruct m as [|m]; [simpl in Hm; lia|].
  rewrite keystream_S by done. cbn [xor_loop].
  assert (0 < length (x :: l))%nat as Hpos by (simpl; lia).
  set (inp := x :: l) in *. clearbody inp. clear x l.
  rewrite (IH _ _ _ _ m); [|unfold u32; apply Z.mod_mod; lia|rewrite length_drop; lia|rewrite length_drop; lia].
  rewrite bind_some. f_equal. pose proof (length_chacha20_block key nonce c) as Hb.
  destruct (decide (64 <= length inp)%nat) as [Hl|Hl].
  - rewrite Nat.min_r by done. rewrite <- (take_drop 64 inp) at 3. rewrite zip_with_app; [done|].
    rewrite length_take. lia.
  - rewrite Nat.min_l by lia. rewrite take_ge, drop_ge by lia. cbn [zip_with].
    rewrite app_nil_r. symmetry. apply zip_with_prefix. lia.
Qed.

(** [tnu_chacha20_xor] xors its input with the key stream. *)
Lemma chacha20_xor_eq key nonce c inp : u32 c = c ->
  tnu_chacha20_xor key nonce c inp = Some (zip_with Z.lxor inp (keystream key nonce c (length inp))).
Proof. intros Hc. apply xor_loop_eq; [done|lia|lia]. Qed.

Lemma zip_lxor_twice l k : (length l <= length k)%nat -> zip_with Z.lxor (zip_with Z.lxor l k) k = l.
Proof.
  revert k. induction l as [|x l IH]; intros [|y k] H; cbn in *; try done; try lia.
  by rewrite lxor_cancel, IH by lia.
Qed.

Lemma chacha20_xor_twice key nonce c inp : u32 c = c ->
  exists out, tnu_chacha20_xor key nonce c inp = Some out /\ length out = length inp /\
    tnu_chacha20_xor key nonce c out = Some inp.
Proof.
  intros Hc. rewrite chacha20_xor_eq by done. eexists. split; [reflexivity|].
  pose proof (length_keystream key nonce c (length inp)) as Hk.
  assert (length (zip_with Z.lxor inp (keystream key nonce c (length inp))) = length inp) as Hl
    by (rewrite length_zip_with, Hk; lia).
  split; [done|]. rewrite chacha20_xor_eq, Hl by done. f_equal. apply zip_lxor_twice. lia.
Qed.

(** ** The authenticated text *)

Definition pad16 (l : list Z) : list Z := l ++ zeros (Z.land (16 - Z.land (Z.of_nat (length l)) 15) 15).

(** RFC 8439, section 2.8: both texts padded to 16 bytes, then their lengths. *)
Definition aead_text (aad cipher : list Z) : list Z :=
  pad16 aad ++ pad16 cipher ++ le_bytes 8 (Z.of_nat (length aad)) ++ le_bytes 8 (Z.of_nat (length cipher)).

Lemma pad16_length l : exists k, Z.of_nat (length (pad16 l)) = 16 * k /\
  Z.of_nat (length l) <= 16 * k <= Z.of_nat (length l) + 15.
Proof.
  unfold pad16. rewrite length_app, length_zeros.
  assert (forall x, Z.land x 15 = x mod 16) as L by (intros x; apply (Z.land_ones x 4); lia).
  rewrite !L. set (n := Z.of_nat (length l)). assert (0 <= n) by (unfold n; lia).
  exists ((n + 15) / 16). rewrite Nat2Z.inj_add, Z2Nat.id by (Z.div_mod_to_equations; lia). fold n.
  Z.div_mod_to_equations. lia.
Qed.

Lemma put_end pre buf pos b k : Z.of_nat (length pre) = pos -> length b = k -> (k <= length buf)%nat ->
  put (pre ++ buf) pos b = Some ((pre ++ b) ++ drop k buf).
Proof.
  intros <- <- Hk. unfold put. rewrite length_app.
  rewrite (proj2 (Z.leb_le 0 _)), (proj2 (Z.leb_le _ _)) by lia. cbn [andb]. f_equal.
  rewrite Nat2Z.id, take_app_length, <- drop_drop, drop_app_length. by rewrite <- app_assoc.
Qed.

(** What [poly1305_update_padded] leaves: the padded bytes at [pos]. *)
Lemma update_padded_ok pre buf pos data : Z.of_nat (length pre) = pos ->
  (length (pad16 data) <= length buf)%nat ->
  poly1305_update_padded (pre ++ buf) pos data =
  Some ((pre ++ pad16 data) ++ drop (length (pad16 data)) buf, pos + Z.of_nat (length (pad16 data))).
Proof.
  intros Hp Hl. unfold poly1305_update_padded, pad16 in *.
  set (k := Z.land (16 - _) 15) in *. assert (0 <= k) as Hk by (apply Z.land_nonneg; lia).
  rewrite length_app, length_zeros in *.
  replace (match data with [] => _ | _ => _ end)
    with (Some ((pre ++ data) ++ drop (length data) buf, pos + Z.of_nat (length data))).
  2:{ destruct data as [|x d]; [by rewrite app_nil_r, Z.add_0_r|].
      rewrite (put_end _ _ _ _ (length (x :: d))) by (done || lia). done. }
  rewrite bind_some.
  rewrite (put_end (pre ++ data) _ _ _ (Z.to_nat k));
    [|rewrite length_app; lia|apply length_zeros|rewrite length_drop; lia].
  rewrite bind_some, drop_drop. f_equal. f_equal; [|lia]. by rewrite <- !app_assoc.
Qed.

(** The buffer holds the text of the RFC, when it is long enough for it. *)
Lemma mac_text_ok macbuf aad cipher : (length (aead_text aad cipher) <= length macbuf)%nat ->
  mac_text macbuf aad cipher =
  Some (aead_text aad cipher ++ drop (length (aead_text aad cipher)) macbuf,
        Z.of_nat (length (aead_text aad cipher))).
Proof.
  unfold aead_text. rewrite !length_app, !length_le_bytes. intros Hl. unfold mac_text.
  pose proof (update_padded_ok [] macbuf 0 aad eq_refl) as E. cbn [app] in E. rewrite E by lia.
  clear E. rewrite bind_some.
  rewrite (update_padded_ok _ _ _ cipher) by (try rewrite length_drop; cbn [app]; lia). rewrite bind_some.
  rewrite !store_le64_eq, !drop_drop.
  rewrite (put_end _ _ _ _ 8) by (rewrite ?length_app, ?length_drop, ?length_le_bytes; cbn [app]; lia || done).
  rewrite bind_some.
  rewrite (put_end _ _ _ _ 8) by (rewrite ?length_app, ?length_drop, ?length_le_bytes; cbn [app length]; lia || done).
  rewrite bind_some, !drop_drop. f_equal. f_equal; [|cbn [app]; lia].
  cbn [app]. rewrite <- !app_assoc. do 4 apply (f_equal (app _)). f_equal. lia.
Qed.

Lemma macbuf_max : Z.of_nat TLS_AEAD_MACBUF_MAX = 16 * 128.
Proof. reflexivity. Qed.

(** The size check leaves room for the padding, which it does not count. *)
Lemma aead_text_fits aad cipher : (length aad + length cipher + 32 <= TLS_AEAD_MACBUF_MAX)%nat ->
  (length (aead_text aad cipher) <= TLS_AEAD_MACBUF_MAX)%nat.
Proof.
  intros H. pose proof macbuf_max. unfold aead_text. rewrite !length_app, !length_le_bytes.
  destruct (pad16_length aad) as (i & Hi & Hi'). destruct (pad16_length cipher) as (j & Hj & Hj'). lia.
Qed.

Lemma poly_loop_total n : forall r h msg, (length msg <= n)%nat -> is_Some (poly_loop (S n) r h msg).
Proof.
  induction n as [|n IH]; intros r h [|x m] Hl; try by eexists.
  - simpl in Hl. lia.
  - cbn [poly_loop]. apply IH. rewrite length_drop. cbn [length] in *. lia.
Qed.

Lemma poly1305_total key msg : exists tag, tnu_poly1305_mac key msg = Some tag /\
  length tag = 16%nat /\ bytes tag.
Proof.
  unfold tnu_poly1305_mac. destruct (poly_loop_total (length msg) (poly_r key) (Limbs 0 0 0 0 0) msg)
    as [h ->]; [done|]. rewrite bind_some. eexists. split; [reflexivity|]. unfold poly_tag.
  rewrite !store_le32_eq. split; [by rewrite !length_app, !length_le_bytes|].
  unfold bytes. repeat apply Forall_app_2; apply le_bytes_range.
Qed.

Lemma bytes_eq_diff a : forall b d, length a = length b -> bytes a -> bytes b -> 0 <= d ->
  foldl (fun diff ab => Z.lor diff (u8 (Z.lxor (fst ab) (snd ab)))) d (zip a b) = 0 <-> d = 0 /\ a = b.
Proof.
  induction a as [|x a IH]; intros [|y b] d Hl Ha Hb Hd; try done; [cbn; tauto|].
  apply Forall_cons in Ha as [Hx Ha]. apply Forall_cons in Hb as [Hy Hb]. cbn [zip zip_with foldl fst snd].
  injection Hl as Hl. pose proof (lxor_byte x y Hx Hy). rewrite u8_small by done.
  rewrite IH by (try done; apply Z.lor_nonneg; lia).
  rewrite Z.lor_eq_0_iff, Z.lxor_eq_0_iff. split; [intros [[-> ->] ->]|intros [-> [= -> ->]]]; done.
Qed.

(** The comparison without early exit is equality. *)
Lemma bytes_eq_tls_eq a b : length a = length b -> bytes a -> bytes b ->
  bytes_eq_tls a b = bool_decide (a = b).
Proof.
  intros Hl Ha Hb. unfold bytes_eq_tls. apply eq_bool_prop_intro. rewrite bool_decide_spec, Is_true_true, Z.eqb_eq.
  rewrite bytes_eq_diff by (done || lia). tauto.
Qed.

(** ** The properties *)

(** C27 Poly1305: the accumulator is RFC 8439's for every message, through the
    26-bit limbs and the reduction by masks; the tag it is turned into is not,
    because the words it is packed in are not cut to 32 bits before the carry. *)
Theorem poly1305_exact key msg : bytes key -> length key = 32%nat -> bytes msg ->
  tnu_poly1305_mac key msg = Some (le_bytes 16 (tag_number (poly_hash key msg) + le_val (drop 16 key))).
Proof.
  intros Hk Hl Hm. unfold tnu_poly1305_mac, poly_hash. destruct (poly_r_ok key Hk) as [Hr Hv].
  destruct (poly_loop_ok (length msg) (poly_r key) (Limbs 0 0 0 0 0) msg Hr) as (h & -> & Hb & Hh);
    [unfold below; cbn; lia|done|done|].
  rewrite bind_some. destruct (poly_carry_ok h Hb) as [Hd Hc]. destruct (poly_select_ok _ Hd) as [Hs He].
  rewrite (poly_tag_ok key _ Hk Hl Hs), He, Hc, Hh, Hv, le_val_take by done.
  do 4 f_equal. change (256 ^ Z.of_nat 16) with (2 ^ 128). rewrite <- Z.land_ones, <- Z.land_assoc by lia.
  reflexivity.
Qed.

(** C25 Sealing and opening: for every key, nonce, additional data and text whose
    lengths pass the size check, sealing succeeds, stays inside its buffer, and
    opening what it made gives the text back. *)
Theorem aead_roundtrip macbuf macbuf' key nonce aad plain :
  length macbuf = TLS_AEAD_MACBUF_MAX -> length macbuf' = TLS_AEAD_MACBUF_MAX ->
  (length aad + length plain + 32 <= TLS_AEAD_MACBUF_MAX)%nat ->
  exists cipher tag m1 m2,
    tnu_chacha20_poly1305_seal macbuf key nonce true true true aad plain =
      Some (AeadOut TNU_TLS_OK (Some cipher) (Some tag) m1) /\
    length cipher = length plain /\ length tag = 16%nat /\
    tnu_chacha20_poly1305_open macbuf' key nonce true true true aad cipher tag =
      Some (AeadOut TNU_TLS_OK (Some plain) None m2).
Proof.
  intros Hm Hm' Hl. unfold tnu_chacha20_poly1305_seal, tnu_chacha20_poly1305_open. cbn [negb andb orb].
  destruct (chacha20_xor_twice key nonce 1 plain eq_refl) as (cipher & -> & Hlc & E). rewrite bind_some.
  rewrite (proj2 (Nat.ltb_ge _ _)) by done. pose proof (aead_text_fits aad cipher) as Hf. rewrite Hlc in Hf.
  destruct (poly1305_total (chacha20_block key nonce 0) (aead_text aad cipher)) as (tag & Ht & Htl & Htb).
  rewrite mac_text_ok by (rewrite Hm; auto). rewrite bind_some. rewrite slice_here by done. rewrite bind_some, Ht, bind_some.
  do 4 eexists. split; [reflexivity|]. split; [done|]. split; [done|].
  rewrite Hlc, (proj2 (Nat.ltb_ge _ _)) by done.
  rewrite mac_text_ok by (rewrite Hm'; auto). rewrite bind_some. rewrite slice_here by done. rewrite bind_some, Ht, bind_some.
  rewrite bytes_eq_tls_eq, bool_decide_true by done. cbn [negb]. by rewrite E.
Qed.

(** C26 Opening decides on the tag alone: any 16 bytes other than the MAC of the
    padded texts and their lengths are refused and no text is written; the MAC
    releases the text; what does not fit the buffer is refused before. *)
Theorem aead_open_exact macbuf key nonce aad cipher tag :
  length macbuf = TLS_AEAD_MACBUF_MAX -> length tag = 16%nat -> bytes tag ->
  exists mac plain m,
    tnu_poly1305_mac (chacha20_block key nonce 0) (aead_text aad cipher) = Some mac /\
    tnu_chacha20_xor key nonce 1 cipher = Some plain /\
    tnu_chacha20_poly1305_open macbuf key nonce true true true aad cipher tag =
      Some (if (TLS_AEAD_MACBUF_MAX <? length aad + length cipher + 32)%nat
            then AeadOut TNU_TLS_ERR_UNSUPPORTED None None macbuf
            else if bool_decide (mac = tag) then AeadOut TNU_TLS_OK (Some plain) None m
            else AeadOut TNU_TLS_ERR_CRYPTO_MISSING None None m).
Proof.
  intros Hm Ht Hb. destruct (poly1305_total (chacha20_block key nonce 0) (aead_text aad cipher)) as (mac & Em & Hl & Hmb).
  destruct (chacha20_xor_twice key nonce 1 cipher eq_refl) as (plain & Ex & _). exists mac, plain.
  unfold tnu_chacha20_poly1305_open. cbn [negb andb orb]. rewrite Ex.
  destruct (Nat.ltb_spec TLS_AEAD_MACBUF_MAX (length aad + length cipher + 32)) as [Hg|Hle]; [by exists macbuf|].
  rewrite mac_text_ok by (rewrite Hm; by apply aead_text_fits). rewrite bind_some, slice_here, bind_some by done.
  rewrite Em, bind_some, bytes_eq_tls_eq by (done || by rewrite Ht). eexists. do 2 (split; [reflexivity|]).
  by destruct (bool_decide (mac = tag)).
Qed.

(** ** Witnesses, on the key and message of the self-test *)

Definition poly_key : list Z :=
  [0x85; 0xd6; 0xbe; 0x78; 0x57; 0x55; 0x6d; 0x33; 0x7f; 0x44; 0x52; 0xfe; 0x42; 0xd5; 0x06; 0xa8;
   0x01; 0x03; 0x80; 0x8a; 0xfb; 0x0d; 0xb2; 0xfd; 0x4a; 0xbf; 0xf6; 0xaf; 0x41; 0x49; 0xf5; 0x1b].
Definition poly_message : list Z := str "Cryptographic Forum Research Group".

Lemma bytes_dec l : forallb (fun b => (0 <=? b) && (b <? 256)) l = true -> bytes l.
Proof. intros H. apply Forall_forall. intros b Hb%list_elem_of_In. rewrite forallb_forall in H.
  specialize (H b Hb). bcases. lia. Qed.

(** The tag of RFC 8439, section 2.5.2, and the code's: their first words agree. *)
Lemma poly1305_exact_witness :
  tnu_poly1305_mac poly_key poly_message =
    Some (le_bytes 16 (tag_number (poly_hash poly_key poly_message) + le_val (drop 16 poly_key))) /\
  poly_spec poly_key poly_message =
    [0xa8; 0x06; 0x1d; 0xc1; 0x30; 0x51; 0x36; 0xc6; 0xc2; 0x2b; 0x8b; 0xaf; 0x0c; 0x01; 0x27; 0xa9] /\
  tnu_poly1305_mac poly_key poly_message =
    Some [0xa8; 0x06; 0x1d; 0xc1; 0x65; 0x94; 0x3a; 0xc6; 0x39; 0x58; 0x8b; 0xaf; 0xd6; 0x01; 0x27; 0xa9].
Proof.
  split; [|split; by vm_compute].
  apply (poly1305_exact poly_key poly_message); [by apply bytes_dec|done|by apply bytes_dec].
Defined.

Lemma aead_roundtrip_witness :
  exists cipher tag m1 m2,
    tnu_chacha20_poly1305_seal (replicate TLS_AEAD_MACBUF_MAX 0) poly_key (replicate 12 7) true true true
      (str "header") poly_message = Some (AeadOut TNU_TLS_OK (Some cipher) (Some tag) m1) /\
    length cipher = length poly_message /\ length tag = 16%nat /\
    tnu_chacha20_poly1305_open (replicate TLS_AEAD_MACBUF_MAX 1) poly_key (replicate 12 7) true true true
      (str "header") cipher tag = Some (AeadOut TNU_TLS_OK (Some poly_message) None m2).
Proof.
  apply (aead_roundtrip (replicate TLS_AEAD_MACBUF_MAX 0) (replicate TLS_AEAD_MACBUF_MAX 1) poly_key
    (replicate 12 7) (str "header") poly_message); [apply length_replicate|apply length_replicate|].
  pose proof macbuf_max. cbn [length poly_message str String.list_ascii_of_string map]. lia.
Defined.

Lemma aead_open_exact_witness :
  exists mac plain m,
    tnu_poly1305_mac (chacha20_block poly_key (replicate 12 7) 0) (aead_text [] poly_message) = Some mac /\
    tnu_chacha20_xor poly_key (replicate 12 7) 1 poly_message = Some plain /\
    tnu_chacha20_poly1305_open (replicate TLS_AEAD_MACBUF_MAX 1) poly_key (replicate 12 7) true true true
      [] poly_message (replicate 16 0) =
      Some (if (TLS_AEAD_MACBUF_MAX <? length (@nil Z) + length poly_message + 32)%nat
            then AeadOut TNU_TLS_ERR_UNSUPPORTED None None (replicate TLS_AEAD_MACBUF_MAX 1)
            else if bool_decide (mac = replicate 16 0) then AeadOut TNU_TLS_OK (Some plain) None m
            else AeadOut TNU_TLS_ERR_CRYPTO_MISSING None None m).
Proof.
  apply (aead_open_exact (replicate TLS_AEAD_MACBUF_MAX 1) poly_key (replicate 12 7) [] poly_message
    (replicate 16 0)); [apply length_replicate|done|by apply bytes_dec].
Defined.
