(* ===== verification/Tls.v ===== *)
(** * userspace/libc/src/tls.c: addresses, records, certificates, the self-test

    C strings are the lists of their bytes, without the final NUL. A buffer that
    the code fills is a list overwritten with [put]; a read or write outside a
    buffer is [None]. Sockets and files are system calls, reached through the
    class [TlsSystem]. *)
From S2P Require Import Prelude Buf Fe25519 Sha256 Chacha.

(** ** userspace/libc/src/ctype.c, where the certificates use it *)

Definition isupper (c : Z) : bool := (ch "A" <=? c) && (c <=? ch "Z").
Definition tolower (c : Z) : Z := if isupper c then c - ch "A" + ch "a" else c.

(** ** https addresses *)

Record tls_url := Url { u_host : list Z; u_path : list Z; u_port : Z }.

(** [strchr]: what comes before the first [c], and the rest from it on. *)
Fixpoint before_char (c : Z) (l : list Z) : list Z :=
  match l with [] => [] | x :: l => if x =? c then [] else x :: before_char c l end.
Fixpoint from_char (c : Z) (l : list Z) : option (list Z) :=
  match l with [] => None | x :: r => if x =? c then Some l else from_char c r end.

(** [while (p < host_end)]: [None] for the early returns. *)
Fixpoint port_loop (p : list Z) (port : Z) : option Z :=
  match p with
  | [] => Some port
  | c :: p =>
    if (c <? ch "0") || (ch "9" <? c) then None
    else
      let port := u32 (u32 (port * 10) + (c - ch "0")) in
      if 65535 <? port then None else port_loop p port
  end.

(** The port after the colon: [None] for an error. *)
Definition parse_port (digits : list Z) : option Z :=
  match digits with
  | [] => None
  | _ => port ← port_loop digits 0; if port =? 0 then None else Some port
  end.

(** [url] may be NULL; the result is the parsed address or the error. *)
Definition tls_parse_https_url (url : option (list Z)) : tls_url + Z :=
  match url with
  | None => inr TNU_TLS_ERR_BAD_URL
  | Some url =>
    if negb (bytes_eq (take 8 url) (str "https://")) then inr TNU_TLS_ERR_BAD_URL
    else
      let host := drop 8 url in
      let path := from_char (ch "/") host in
      let authority := before_char (ch "/") host in
      let name := before_char (ch ":") authority in
      if (length name =? 0)%nat || (128 <=? length name)%nat then inr TNU_TLS_ERR_BAD_URL
      else
        match (match from_char (ch ":") authority with
               | Some rest => parse_port (drop 1 rest)
               | None => Some 443
               end) with
        | None => inr TNU_TLS_ERR_BAD_URL
        | Some port => inl (Url name (match path with Some p => field 255 p | None => str "/" end) port)
        end
  end.

(** ** The system below *)

(** Descriptors are integers, negative for a failure; [recv] and [read] give
    [None] for a failure and no bytes at the end. *)
Class TlsSystem (E : Type) := {
  ts_resolve : E -> list Z -> E * option Z;
  ts_socket : E -> E * Z;
  ts_connect : E -> Z -> Z -> Z -> E * Z;
  ts_send : E -> Z -> list Z -> E * Z;
  ts_recv : E -> Z -> nat -> E * option (list Z);
  ts_open : E -> list Z -> E * Z;
  ts_read : E -> Z -> nat -> E * option (list Z);
  ts_close : E -> Z -> E
}.

Section Handshake.
Context {E : Type} `{TlsSystem E}.

(** The descriptor, or the negative error. *)
Definition tls_tcp_connect (e : E) (url : tls_url) : E * Z :=
  let '(e, ip) := ts_resolve e (u_host url) in
  match ip with
  | None => (e, TNU_TLS_ERR_NETWORK)
  | Some ip =>
    let '(e, fd) := ts_socket e in
    if fd <? 0 then (e, TNU_TLS_ERR_NETWORK)
    else
      let '(e, rc) := ts_connect e fd ip (u_port url) in
      if rc <? 0 then (ts_close e fd, TNU_TLS_ERR_NETWORK) else (e, fd)
  end.

(** [while (off < len)]: [off] bytes are in [got]. *)
Fixpoint random_loop (fuel : nat) (e : E) (fd : Z) (len : nat) (got : list Z) : option (E * list Z) :=
  match fuel with
  | O => None
  | S f =>
    if (length got <? len)%nat then
      let '(e, n) := ts_read e fd (len - length got) in
      match n with
      | None | Some [] => Some (e, got)
      | Some b => random_loop f e fd len (got ++ b)
      end
    else Some (e, got)
  end.

(** The fallback's bytes, from a constant. *)
Definition fixed_bytes (len : nat) : option (list Z) :=
  seed ← tnu_sha256 (str "tiramisu-tls-beta-random");
  Some (map (fun i => u8 (nth (i mod 32) seed 0 + u8 (Z.of_nat i) * 17)) (seq 0 len)).

Definition tls_fill_random (e : E) (len : nat) : option (E * list Z) :=
  let '(e, fd) := ts_open e (str "/dev/urandom") in
  '(e, got) ← (if 0 <=? fd then
                 '(e, got) ← random_loop (S len) e fd len [];
                 Some (ts_close e fd, Some got)
               else Some (e, None));
  match got with
  | Some got => if (length got =? len)%nat then Some (e, got)
                else bytes ← fixed_bytes len; Some (e, bytes)
  | None => bytes ← fixed_bytes len; Some (e, bytes)
  end.

End Handshake.

Definition store_be16_tls (v : Z) : list Z := [u8 (Z.shiftr v 8); u8 v].
Definition store_be24_tls (v : Z) : list Z := [u8 (Z.shiftr v 16); u8 (Z.shiftr v 8); u8 v].

Definition TLS_CLIENTHELLO_BODY_MAX : Z := 512.
Definition TLS_CLIENTHELLO_RECORD_MAX : Z := 521.
Definition TLS_RECORD_DRAIN_MAX : nat := 512.

(** Writing bytes at the position and moving it. *)
Definition append (st : list Z * Z) (b : list Z) : option (list Z * Z) :=
  let '(buf, pos) := st in
  buf ← put buf pos b; Some (buf, pos + Z.of_nat (length b)).

(** [inr] for the error. *)
Definition tls_append_ext (st : list Z * Z) (cap type : Z) (data : list Z)
    : option ((list Z * Z) + Z) :=
  let len := Z.of_nat (length data) in
  if (cap <? u64 (snd st + 4 + len)) || (65535 <? len) then Some (inr TNU_TLS_ERR_UNSUPPORTED)
  else
    st ← append st (store_be16_tls type);
    st ← append st (store_be16_tls (u16 len));
    st ← append st data;
    Some (inl st).

(** Extensions one after the other, until one does not fit. *)
Fixpoint append_exts (st : list Z * Z) (cap : Z) (exts : list (Z * list Z)) : option ((list Z * Z) + Z) :=
  match exts with
  | [] => Some (inl st)
  | (type, data) :: exts =>
    r ← tls_append_ext st cap type data;
    match r with inl st => append_exts st cap exts | inr rc => Some (inr rc) end
  end.

(** The extension that names the host: [sni] has 256 bytes. *)
Definition sni_of (host : list Z) : list Z :=
  store_be16_tls (u16 (Z.of_nat (length host) + 3)) ++ [0] ++
  store_be16_tls (u16 (Z.of_nat (length host))) ++ host.

Definition hello_exts (host share : list Z) : list (Z * list Z) :=
  [(0x0000, sni_of host);
   (0x002b, [2; 0x03; 0x04]);
   (0x000a, [0; 2; 0; 0x1d]);
   (0x000d, [0; 8; 0x08; 0x04; 0x04; 0x03; 0x08; 0x05; 0x04; 0x01]);
   (0x0033, store_be16_tls 36 ++ store_be16_tls 0x001d ++ store_be16_tls 32 ++ share);
   (0x0010, [0; 9; 8] ++ str "http/1.1")].

(** The parts of the body before the extensions. *)
Definition hello_head (random session : list Z) : list (list Z) :=
  [[0x03; 0x03]; random; [32]; session; store_be16_tls 4; store_be16_tls 0x1303; store_be16_tls 0x1301; [1; 0]].

Definition append_all (st : list Z * Z) (parts : list (list Z)) : option (list Z * Z) :=
  foldl (fun st b => st ← st; append st b) (Some st) parts.

(** The body in its static buffer, from the three random strings. *)
Definition hello_body (body : list Z) (host random session share : list Z)
    : option ((list Z * Z) + Z) :=
  st ← append_all (body, 0) (hello_head random session);
  let '(body, ext_len_pos) := st in
  let ext_start := ext_len_pos + 2 in
  if 256 <? Z.of_nat (length host) + 5 then Some (inr TNU_TLS_ERR_BAD_URL)
  else
    r ← append_exts (body, ext_start) TLS_CLIENTHELLO_BODY_MAX (hello_exts host share);
    match r with
    | inr rc => Some (inr rc)
    | inl (body, b) =>
      body ← put body ext_len_pos (store_be16_tls (u16 (b - ext_start)));
      Some (inl (body, b))
    end.

(** The record around it. *)
Definition hello_record (record body : list Z) (b : Z) : option (list Z * Z) :=
  text ← slice body 0 b;
  append_all (record, 0) [[22; 0x03; 0x01]; store_be16_tls (u16 (4 + b)); [1]; store_be24_tls (u32 b); text].

Section Client.
Context {E : Type} `{TlsSystem E}.

(** The error, or 0; [body] and [record] are the static buffers. The third random
    string is drawn in the code after four extensions, which always fit: a host
    has at most 127 bytes. *)
Definition tls_send_client_hello (body record : list Z) (e : E) (fd : Z) (url : tls_url)
    : option (E * Z) :=
  '(e, random) ← tls_fill_random e 32;
  '(e, session) ← tls_fill_random e 32;
  if 256 <? Z.of_nat (length (u_host url)) + 5 then Some (e, TNU_TLS_ERR_BAD_URL)
  else
    '(e, share) ← tls_fill_random e 32;
    r ← hello_body body (u_host url) random session share;
    match r with
    | inr rc => Some (e, rc)
    | inl (body, b) =>
      '(record, p) ← hello_record record body b;
      text ← slice record 0 p;
      let '(e, n) := ts_send e fd text in
      Some (e, if n =? p then TNU_TLS_OK else TNU_TLS_ERR_NETWORK)
    end.

(** [while (len)]: skip the record's bytes. *)
Fixpoint drain_loop (fuel : nat) (e : E) (fd : Z) (len : Z) : option (E * Z) :=
  match fuel with
  | O => None
  | S f =>
    if len =? 0 then Some (e, TNU_TLS_OK)
    else
      let want := if len <? Z.of_nat TLS_RECORD_DRAIN_MAX then Z.to_nat len else TLS_RECORD_DRAIN_MAX in
      let '(e, n) := ts_recv e fd want in
      match n with
      | None | Some [] => Some (e, TNU_TLS_ERR_NETWORK)
      | Some b => drain_loop f e fd (u16 (len - u16 (Z.of_nat (length b))))
      end
  end.

(** The return value and the type of the record (0 before one is read). *)
Definition tls_read_first_record (e : E) (fd : Z) : option (E * Z * Z) :=
  let '(e, hdr) := ts_recv e fd 5 in
  match hdr with
  | Some hdr =>
    if negb (length hdr =? 5)%nat then Some (e, TNU_TLS_ERR_NETWORK, 0)
    else
      let type := nth 0 hdr 0 in
      let len := Z.lor (u16 (Z.shiftl (nth 3 hdr 0) 8)) (nth 4 hdr 0) in
      '(e, rc) ← drain_loop (S (Z.to_nat len)) e fd len;
      Some (e, rc, type)
  | None => Some (e, TNU_TLS_ERR_NETWORK, 0)
  end.

Definition tnu_https_get (body record : list Z) (e : E) (url : option (list Z)) : option (E * Z) :=
  match tls_parse_https_url url with
  | inr rc => Some (e, rc)
  | inl parsed =>
    let '(e, fd) := tls_tcp_connect e parsed in
    if fd <? 0 then Some (e, fd)
    else
      '(e, rc) ← tls_send_client_hello body record e fd parsed;
      if rc <? 0 then Some (ts_close e fd, rc)
      else
        '(e, rc, type) ← tls_read_first_record e fd;
        let e := ts_close e fd in
        if rc <? 0 then Some (e, rc)
        else Some (e, if type =? 22 then TNU_TLS_ERR_HANDSHAKE_INCOMPLETE else TNU_TLS_ERR_CRYPTO_MISSING)
  end.
End Client.

(** ** Addresses *)

Lemma before_app c a b : c ∉ a -> before_char c (a ++ c :: b) = a /\ from_char c (a ++ c :: b) = Some (c :: b).
Proof.
  induction a as [|x a IH]; intros Ha; cbn [app before_char from_char]; [by rewrite Z.eqb_refl|].
  apply not_elem_of_cons in Ha as [Hx Ha]. rewrite (proj2 (Z.eqb_neq x c)) by done.
  by destruct (IH Ha) as [-> ->].
Qed.

Lemma before_none c a : c ∉ a -> before_char c a = a /\ from_char c a = None.
Proof.
  induction a as [|x a IH]; intros Ha; cbn [before_char from_char]; [done|].
  apply not_elem_of_cons in Ha as [Hx Ha]. rewrite (proj2 (Z.eqb_neq x c)) by done.
  by destruct (IH Ha) as [-> ->].
Qed.

Definition digit (c : Z) : Prop := ch "0" <= c <= ch "9".
Definition decimal (p : list Z) (v : Z) : Z := foldl (fun v c => v * 10 + (c - ch "0")) v p.

Lemma decimal_grows p : Forall digit p -> forall v, 0 <= v -> v <= decimal p v.
Proof.
  unfold decimal. change (ch "0") with 48. induction 1 as [|c p Hc _ IH]; intros v Hv; cbn [foldl]; [lia|].
  unfold digit in Hc. change (ch "0") with 48 in *. specialize (IH (v * 10 + (c - 48)) ltac:(lia)). lia.
Qed.

(** The digits of a number up to 65535 are read as it; no product overflows. *)
Lemma port_loop_decimal p : Forall digit p -> forall v, 0 <= v -> decimal p v <= 65535 ->
  port_loop p v = Some (decimal p v).
Proof.
  induction 1 as [|c p Hc Hp IH]; intros v Hv Hd; [done|]. cbn [port_loop].
  pose proof (decimal_grows p Hp (v * 10 + (c - ch "0")) 
    ltac:(unfold digit in Hc; change (ch "0") with 48 in *; lia)) as Hg.
  change (decimal (c :: p) v) with (decimal p (v * 10 + (c - ch "0"))) in *.
  unfold digit in Hc. change (ch "0") with 48 in *. change (ch "9") with 57 in *.
  rewrite (proj2 (Z.ltb_ge c _)), (proj2 (Z.ltb_ge _ c)) by lia. cbn [orb].
  rewrite (u32_small (v * 10)), u32_small by lia.
  rewrite (proj2 (Z.ltb_ge 65535 _)) by lia. apply IH; lia.
Qed.

(** ** The client hello *)

(** Appending moves the position to the end of what is written. *)
Lemma append_end pre buf b : (length b <= length buf)%nat ->
  append (pre ++ buf, Z.of_nat (length pre)) b =
  Some ((pre ++ b) ++ drop (length b) buf, Z.of_nat (length (pre ++ b))).
Proof.
  intros Hl. unfold append. rewrite (put_end _ _ _ _ (length b)) by done. rewrite bind_some.
  do 2 f_equal. rewrite length_app. lia.
Qed.

Lemma append_all_end parts : forall pre buf, (length (concat parts) <= length buf)%nat ->
  append_all (pre ++ buf, Z.of_nat (length pre)) parts =
  Some ((pre ++ concat parts) ++ drop (length (concat parts)) buf, Z.of_nat (length (pre ++ concat parts))).
Proof.
  unfold append_all. induction parts as [|b parts IH]; intros pre buf Hl; cbn [concat foldl].
  - by rewrite !app_nil_r.
  - cbn [concat] in Hl. rewrite length_app in Hl. rewrite bind_some, append_end by lia.
    rewrite IH by (rewrite length_drop; lia). rewrite drop_drop, <- !app_assoc, (length_app b). done.
Qed.

(** An extension on the wire. *)
Definition ext_bytes (ext : Z * list Z) : list Z :=
  store_be16_tls (fst ext) ++ store_be16_tls (Z.of_nat (length (snd ext))) ++ snd ext.
Definition exts_bytes (exts : list (Z * list Z)) : list Z := concat (map ext_bytes exts).

Lemma length_ext_bytes ext : length (ext_bytes ext) = (4 + length (snd ext))%nat.
Proof. unfold ext_bytes. rewrite !length_app. done. Qed.

Lemma append_ext_end pre buf cap type data :
  (length (ext_bytes (type, data)) <= length buf)%nat ->
  Z.of_nat (length pre + length (ext_bytes (type, data))) <= cap -> cap < 65535 ->
  tls_append_ext (pre ++ buf, Z.of_nat (length pre)) cap type data =
  Some (inl ((pre ++ ext_bytes (type, data)) ++ drop (length (ext_bytes (type, data))) buf,
             Z.of_nat (length (pre ++ ext_bytes (type, data))))).
Proof.
  rewrite length_ext_bytes. cbn [snd]. intros Hl Hc Hb. unfold tls_append_ext. cbn [snd].
  rewrite u64_small by lia. rewrite (proj2 (Z.ltb_ge cap _)), (proj2 (Z.ltb_ge 65535 _)) by lia. cbn [orb].
  rewrite u16_small by lia.
  rewrite append_end by (cbn; lia). rewrite bind_some.
  rewrite append_end by (rewrite length_drop; cbn; lia). rewrite bind_some.
  rewrite append_end by (rewrite !length_drop; cbn; lia). rewrite bind_some.
  unfold ext_bytes. cbn [fst snd]. rewrite !drop_drop, <- !app_assoc. cbn [length store_be16_tls].
  do 5 f_equal.
Qed.

Lemma append_exts_end exts cap : cap < 65535 -> forall pre buf,
  (length (exts_bytes exts) <= length buf)%nat -> Z.of_nat (length pre + length (exts_bytes exts)) <= cap ->
  append_exts (pre ++ buf, Z.of_nat (length pre)) cap exts =
  Some (inl ((pre ++ exts_bytes exts) ++ drop (length (exts_bytes exts)) buf,
             Z.of_nat (length (pre ++ exts_bytes exts)))).
Proof.
  intros Hcap. induction exts as [|[type data] exts IH]; intros pre buf Hl Hc; unfold exts_bytes in *.
  - cbn [append_exts map concat length]. by rewrite app_nil_r, drop_0.
  - cbn [append_exts map concat] in *. rewrite length_app in Hl, Hc.
    rewrite append_ext_end by lia. rewrite bind_some. cbv iota.
    rewrite IH by (rewrite ?length_drop, ?length_app; lia).
    rewrite drop_drop, <- !app_assoc, (length_app (ext_bytes (type, data))). done.
Qed.

(** The body of the hello: version, random, session, suites, compression, and
    the extensions behind their length. *)
Definition hello_text (host random session share : list Z) : list Z :=
  concat (hello_head random session) ++
  store_be16_tls (Z.of_nat (length (exts_bytes (hello_exts host share)))) ++
  exts_bytes (hello_exts host share).

Lemma length_hello_exts host share : length share = 32%nat ->
  length (exts_bytes (hello_exts host share)) = (95 + length host)%nat.
Proof.
  intros Hs. unfold exts_bytes, hello_exts. cbn [map concat].
  rewrite !length_app, !length_ext_bytes. cbn [snd]. unfold sni_of. rewrite !length_app, Hs.
  cbn -[Nat.add]. lia.
Qed.

Lemma length_hello_head random session : length random = 32%nat -> length session = 32%nat ->
  length (concat (hello_head random session)) = 75%nat.
Proof. intros Hr Hs. cbn [hello_head concat]. rewrite !length_app, Hr, Hs. done. Qed.

Lemma hello_body_ok body host random session share :
  Z.of_nat (length body) = TLS_CLIENTHELLO_BODY_MAX -> (length host < 128)%nat ->
  length random = 32%nat -> length session = 32%nat -> length share = 32%nat ->
  exists rest, hello_body body host random session share =
    Some (inl (hello_text host random session share ++ rest,
               Z.of_nat (length (hello_text host random session share)))) /\
    length (hello_text host random session share) = (172 + length host)%nat.
Proof.
  unfold TLS_CLIENTHELLO_BODY_MAX. intros Hb Hh Hr Hs Hk. pose proof (length_hello_head random session Hr Hs) as Hhd.
  pose proof (length_hello_exts host share Hk) as Hex. unfold hello_body.
  pose proof (append_all_end (hello_head random session) [] body) as E. cbn [app length] in E.
  change (Z.of_nat 0) with 0 in E. rewrite E by lia. clear E. rewrite bind_some. cbv iota beta.
  rewrite (proj2 (Z.ltb_ge 256 _)) by lia. set (head := concat (hello_head random session)) in *.
  rewrite Hhd. set (buf := drop 75 body).
  assert (length buf = 437%nat) as Hbuf by (unfold buf; rewrite length_drop; lia).
  clearbody buf. destruct buf as [|g0 [|g1 buf]]; [done|done|]. cbn [length] in Hbuf.
  assert (head ++ g0 :: g1 :: buf = (head ++ [g0; g1]) ++ buf) as -> by (by rewrite <- app_assoc).
  replace (Z.of_nat 75 + 2) with (Z.of_nat (length (head ++ [g0; g1]))) by (rewrite length_app, Hhd; done).
  rewrite append_exts_end; [|done|lia|rewrite length_app, Hhd, Hex; unfold TLS_CLIENTHELLO_BODY_MAX; cbn [length]; lia].
  set (exts := exts_bytes (hello_exts host share)) in *.
  rewrite bind_some. cbv iota beta. rewrite u16_small by (rewrite !length_app; lia).
  replace (Z.of_nat (length ((head ++ [g0; g1]) ++ exts)) - Z.of_nat (length (head ++ [g0; g1])))
    with (Z.of_nat (length exts)) by (rewrite !length_app; lia).
  exists (drop (length exts) buf). split.
  2:{ unfold hello_text. fold head. fold exts. rewrite !length_app, Hhd, Hex. cbn [length store_be16_tls]. lia. }
  unfold put. rewrite !length_app, Hhd. cbn [length]. rewrite (proj2 (Z.leb_le 0 _)) by lia.
  rewrite (proj2 (Z.leb_le _ _)) by (cbn [length store_be16_tls]; lia). cbn [andb]. rewrite bind_some.
  rewrite Nat2Z.id, <- !app_assoc.
  rewrite take_app_length' by done. rewrite drop_app_ge by lia. rewrite Hhd.
  cbn [length store_be16_tls app Nat.add Nat.sub drop]. unfold hello_text. fold head. fold exts.
  do 3 f_equal; [|rewrite !length_app, Hhd; cbn [length store_be16_tls]; lia].
  rewrite <- !app_assoc. done.
Qed.

(** The record that is sent. *)
Definition hello_wire (host random session share : list Z) : list Z :=
  let text := hello_text host random session share in
  [22; 0x03; 0x01] ++ store_be16_tls (4 + Z.of_nat (length text)) ++ [1] ++
  store_be24_tls (Z.of_nat (length text)) ++ text.

Lemma hello_record_ok record text rest : Z.of_nat (length record) = TLS_CLIENTHELLO_RECORD_MAX ->
  (length text <= 512)%nat ->
  exists rest', hello_record record (text ++ rest) (Z.of_nat (length text)) =
    Some (([22; 0x03; 0x01] ++ store_be16_tls (4 + Z.of_nat (length text)) ++ [1] ++
           store_be24_tls (Z.of_nat (length text)) ++ text) ++ rest', Z.of_nat (9 + length text)).
Proof.
  unfold TLS_CLIENTHELLO_RECORD_MAX. intros Hr Ht. unfold hello_record. rewrite slice_here by done.
  rewrite bind_some, u16_small, u32_small by lia. set (parts := [_; _; _; _; _]).
  pose proof (append_all_end parts [] record) as E. cbn [app length] in E. change (Z.of_nat 0) with 0 in E.
  assert (length (concat parts) = 9 + length text)%nat as Hp.
  { unfold parts. cbn [concat]. rewrite !length_app. cbn. lia. }
  rewrite Hp in E. exists (drop (9 + length text) record). rewrite E by lia.
  unfold parts. cbn [concat]. by rewrite app_nil_r.
Qed.

Lemma fixed_bytes_ok len : exists b, fixed_bytes len = Some b /\ length b = len.
Proof.
  unfold fixed_bytes. rewrite tnu_sha256_eq by (vm_compute; reflexivity). rewrite bind_some.
  eexists. split; [reflexivity|]. by rewrite length_map, length_seq.
Qed.

(** ** What the system promises *)

(** No more bytes than asked for, and bytes. *)
Class TlsLaws (E : Type) `{TlsSystem E} : Prop := {
  recv_bounded : forall e fd n e' b, ts_recv e fd n = (e', Some b) -> (length b <= n)%nat /\ bytes b
}.

Section Client_properties.
Context {E : Type} `{TlsLaws E}.

Lemma random_loop_total fuel : forall e fd len got, (len - length got < fuel)%nat ->
  exists e' b, random_loop fuel e fd len got = Some (e', b).
Proof.
  induction fuel as [|fuel IH]; intros e fd len got Hf; [lia|]. cbn [random_loop].
  destruct (Nat.ltb_spec (length got) len); [|by do 2 eexists].
  destruct (ts_read e fd (len - length got)) as [e' [[|x b]|]]; try by do 2 eexists.
  apply IH. rewrite length_app. cbn [length]. lia.
Qed.

Lemma tls_fill_random_ok e len : exists e' b, tls_fill_random e len = Some (e', b) /\ length b = len.
Proof.
  unfold tls_fill_random. destruct (ts_open e (str "/dev/urandom")) as [e1 fd].
  destruct (fixed_bytes_ok len) as (fb & Ef & Hf).
  destruct (0 <=? fd).
  - destruct (random_loop_total (S len) e1 fd len []) as (e2 & got & ->); [simpl; lia|].
    rewrite !bind_some. cbv iota beta. destruct (Nat.eqb_spec (length got) len) as [Hl|Hl].
    + do 2 eexists; split; [reflexivity|done].
    + rewrite Ef, bind_some. do 2 eexists; split; [reflexivity|done].
  - rewrite bind_some. cbv iota beta. rewrite Ef, bind_some. do 2 eexists; split; [reflexivity|done].
Qed.

Lemma client_hello_sent body record e fd url :
  Z.of_nat (length body) = TLS_CLIENTHELLO_BODY_MAX -> Z.of_nat (length record) = TLS_CLIENTHELLO_RECORD_MAX ->
  (length (u_host url) < 128)%nat ->
  exists e1 random session share,
    length random = 32%nat /\ length session = 32%nat /\ length share = 32%nat /\
    tls_send_client_hello body record e fd url =
      (let '(e2, n) := ts_send e1 fd (hello_wire (u_host url) random session share) in
       Some (e2, if n =? Z.of_nat (181 + length (u_host url)) then TNU_TLS_OK else TNU_TLS_ERR_NETWORK)).
Proof.
  intros Hb Hr Hh. unfold tls_send_client_hello.
  destruct (tls_fill_random_ok e 32) as (e1 & random & -> & H1). rewrite bind_some. cbv iota beta.
  destruct (tls_fill_random_ok e1 32) as (e2 & session & -> & H2). rewrite bind_some. cbv iota beta.
  rewrite (proj2 (Z.ltb_ge 256 _)) by lia.
  destruct (tls_fill_random_ok e2 32) as (e3 & share & -> & H3). rewrite bind_some. cbv iota beta.
  destruct (hello_body_ok body (u_host url) random session share Hb Hh H1 H2 H3) as (rest & -> & Hl).
  rewrite bind_some. cbv iota beta.
  destruct (hello_record_ok record (hello_text (u_host url) random session share) rest Hr) as (rest' & ->); [lia|].
  rewrite bind_some. cbv iota beta. exists e3, random, session, share. do 3 (split; [done|]).
  rewrite slice_here; [rewrite bind_some|].
  - unfold hello_wire. destruct (ts_send _ _ _) as [e4 n]. rewrite Hl. do 4 f_equal.
  - rewrite !length_app. cbn [length store_be16_tls store_be24_tls]. lia.
Qed.

Lemma drain_loop_total fuel : forall e fd len, 0 <= len < 65536 -> (Z.to_nat len < fuel)%nat ->
  exists e' rc, drain_loop fuel e fd len = Some (e', rc) /\ (rc = TNU_TLS_OK \/ rc = TNU_TLS_ERR_NETWORK).
Proof.
  induction fuel as [|fuel IH]; intros e fd len Hl Hf; [lia|]. cbn [drain_loop].
  destruct (Z.eqb_spec len 0); [do 2 eexists; split; [done|by left]|].
  set (want := if len <? _ then _ else _).
  assert (Z.of_nat want <= len) as Hw.
  { unfold want. destruct (Z.ltb_spec len (Z.of_nat TLS_RECORD_DRAIN_MAX)); lia. }
  destruct (ts_recv e fd want) as [e' [[|x b]|]] eqn:Er; try (do 2 eexists; split; [done|by right]).
  destruct (recv_bounded _ _ _ _ _ Er) as [Hb _]. cbn [length] in Hb.
  rewrite (u16_small (Z.of_nat _)) by (cbn [length]; lia). rewrite u16_small by (cbn [length]; lia).
  apply IH; cbn [length]; lia.
Qed.

Lemma read_first_record_total e fd :
  exists e' rc type, tls_read_first_record e fd = Some (e', rc, type) /\
    (rc = TNU_TLS_OK \/ rc = TNU_TLS_ERR_NETWORK).
Proof.
  unfold tls_read_first_record. destruct (ts_recv e fd 5) as [e1 [hdr|]] eqn:Er; [|do 3 eexists; split; [done|by right]].
  destruct (recv_bounded _ _ _ _ _ Er) as [_ Hb].
  destruct (Nat.eqb_spec (length hdr) 5) as [H5|H5]; cbn [negb]; [|do 3 eexists; split; [done|by right]].
  destruct hdr as [|h0 [|h1 [|h2 [|h3 [|h4 [|]]]]]]; try done. cbn [nth].
  apply Forall_cons in Hb as [_ Hb]. apply Forall_cons in Hb as [_ Hb]. apply Forall_cons in Hb as [_ Hb].
  apply Forall_cons in Hb as [B3 Hb]. apply Forall_cons in Hb as [B4 _].
  rewrite u16_small by (rewrite Z.shiftl_mul_pow2; lia). rewrite lor_shift_add by (cbn; lia).
  destruct (drain_loop_total (S (Z.to_nat (h3 * 2 ^ 8 + h4))) e1 fd (h3 * 2 ^ 8 + h4)) as (e2 & rc & -> & Hrc); [lia|lia|].
  rewrite bind_some. do 3 eexists. split; [reflexivity|done].
Qed.

Lemma parsed_host url u : tls_parse_https_url url = inl u -> (length (u_host u) < 128)%nat.
Proof.
  unfold tls_parse_https_url. destruct url as [url|]; [|done].
  destruct (bytes_eq _ _); [|done]. cbn [negb]. set (name := before_char (ch ":") _).
  destruct (Nat.eqb_spec (length name) 0), (Nat.leb_spec 128 (length name)); try done. cbn [orb].
  destruct (match from_char _ _ with Some _ => _ | None => _ end); [|done]. by intros [= <-].
Qed.
End Client_properties.

(** ** The properties *)

(** An https address reads back as its parts: a host without slash or colon of 1
    to 127 bytes, a decimal port from 1 to 65535 (any number of leading zeros),
    and the path cut to 255 bytes. *)
Theorem url_parts name digits path port :
  ch "/" ∉ name -> ch ":" ∉ name -> (1 <= length name < 128)%nat ->
  Forall digit digits -> digits <> [] -> decimal digits 0 = port -> 1 <= port <= 65535 ->
  tls_parse_https_url (Some (str "https://" ++ name ++ [ch ":"] ++ digits ++ ch "/" :: path)) =
  inl (Url name (take 255 (ch "/" :: path)) port).
Proof.
  intros Hs Hc Hn Hd Hne Hp Hr. unfold tls_parse_https_url.
  rewrite take_app_length' by done. rewrite drop_app_length' by done.
  destruct (bytes_eq_spec (str "https://") (str "https://")); [|done]. cbn [negb].
  assert (ch "/" ∉ name ++ [ch ":"] ++ digits) as Ha.
  { rewrite !not_elem_of_app. repeat split; [done|vm_compute; by intros ?%list_elem_of_singleton|].
    intros Hin. rewrite Forall_forall in Hd. specialize (Hd _ Hin). unfold digit in Hd.
    change (ch "0") with 48 in Hd. change (ch "/") with 47 in Hd. lia. }
  destruct (before_app (ch "/") _ path Ha) as [Hb Hf]. rewrite <- !app_assoc in Hb, Hf. cbn [app] in Hb, Hf.
  cbn [app]. rewrite Hb, Hf. clear Hb Hf.
  destruct (before_app (ch ":") name digits Hc) as [Hb Hf]. rewrite Hb, Hf. clear Hb Hf.
  rewrite (proj2 (Nat.eqb_neq _ _)), (proj2 (Nat.leb_gt _ _)) by lia. cbn [orb drop]. rewrite drop_0.
  assert (parse_port digits = Some port) as ->; [|done].
  unfold parse_port. destruct digits as [|c digits]; [done|].
  rewrite port_loop_decimal by (done || lia). rewrite bind_some, Hp. by rewrite (proj2 (Z.eqb_neq _ _)) by lia.
Qed.

(** What a client sends first: for every host, the hello is the one record of TLS
    1.3 over three 32-byte strings, written inside its buffers, and the call
    fails only if the system sends less. *)
Theorem client_hello_exact {E : Type} `{TlsLaws E} body record e fd url :
  Z.of_nat (length body) = TLS_CLIENTHELLO_BODY_MAX -> Z.of_nat (length record) = TLS_CLIENTHELLO_RECORD_MAX ->
  (length (u_host url) < 128)%nat ->
  exists e1 random session share,
    length random = 32%nat /\ length session = 32%nat /\ length share = 32%nat /\
    tls_send_client_hello body record e fd url =
      (let '(e2, n) := ts_send e1 fd (hello_wire (u_host url) random session share) in
       Some (e2, if n =? Z.of_nat (181 + length (u_host url)) then TNU_TLS_OK else TNU_TLS_ERR_NETWORK)).
Proof. apply client_hello_sent. Qed.

(** C30 [tnu_https_get] always returns, whatever the address, the host and the
    network do, and always returns an error: the handshake is never finished. *)
Theorem https_get_fails {E : Type} `{TlsLaws E} body record e url :
  Z.of_nat (length body) = TLS_CLIENTHELLO_BODY_MAX -> Z.of_nat (length record) = TLS_CLIENTHELLO_RECORD_MAX ->
  exists e' rc, tnu_https_get body record e url = Some (e', rc) /\ rc < 0.
Proof.
  intros Hb Hr. unfold tnu_https_get. destruct (tls_parse_https_url url) as [u|rc] eqn:Eu.
  2:{ exists e, rc. split; [done|]. unfold tls_parse_https_url in Eu. destruct url as [url|]; [|by injection Eu as <-].
      destruct (negb _); [by injection Eu as <-|]. destruct ((_ || _)%bool); [by injection Eu as <-|].
      destruct (match from_char _ _ with Some _ => _ | None => _ end); [done|]. by injection Eu as <-. }
  destruct (tls_tcp_connect e u) as [e1 fd]. destruct (Z.ltb_spec fd 0); [by exists e1, fd|].
  destruct (client_hello_sent body record e1 fd u Hb Hr (parsed_host _ _ Eu)) as (e2 & r1 & r2 & r3 & _ & _ & _ & ->).
  destruct (ts_send _ _ _) as [e3 n]. rewrite bind_some. cbv iota beta.
  destruct (n =? _); [|by do 2 eexists]. cbn [Z.ltb]. change (TNU_TLS_OK <? 0) with false. cbv iota.
  destruct (read_first_record_total e3 fd) as (e4 & rc & type & -> & Hrc). rewrite bind_some. cbv iota beta.
  destruct Hrc as [-> | ->]; [|by do 2 eexists]. change (TNU_TLS_OK <? 0) with false. cbv iota.
  do 2 eexists. split; [reflexivity|]. by destruct (type =? 22).
Qed.

(** ** A server that answers with one record *)

Module Echo.
(** What [recv] will give, in order. *)
Definition net : Type := list (list Z).

#[global] Instance echo_system : TlsSystem net := {
  ts_resolve e _ := (e, Some 0x7f000001);
  ts_socket e := (e, 3);
  ts_connect e _ _ _ := (e, 0);
  ts_send e _ b := (e, Z.of_nat (length b));
  ts_recv e _ n := match e with b :: e => (e, Some (map u8 (take n b))) | [] => (e, None) end;
  ts_open e _ := (e, -1);
  ts_read e _ _ := (e, None);
  ts_close e _ := e
}.

#[global] Instance echo_laws : TlsLaws net.
Proof.
  constructor. intros e fd n e' b. cbn. destruct e as [|c e]; [done|]. intros [= <- <-].
  split; [rewrite length_map, length_take; lia|]. apply Forall_map, Forall_true. intros. apply u8_range.
Qed.

Definition address : list Z := str "https://" ++ str "tnu.org" ++ [ch ":"] ++ str "0443" ++ ch "/" :: str "a".
Definition answer : net := [[22; 3; 3; 0; 3]; [1; 2]; [3]].
End Echo.

Lemma url_parts_witness : tls_parse_https_url (Some Echo.address) = inl (Url (str "tnu.org") (str "/a") 443).
Proof.
  unfold Echo.address. refine (url_parts (str "tnu.org") (str "0443") (str "a") 443 _ _ _ _ _ _ _).
  - by apply (bool_decide_unpack (ch "/" ∉ str "tnu.org")); vm_compute.
  - by apply (bool_decide_unpack (ch ":" ∉ str "tnu.org")); vm_compute.
  - vm_compute. lia.
  - unfold digit. vm_compute. repeat constructor; lia || discriminate.
  - vm_compute. discriminate.
  - reflexivity.
  - lia.
Defined.

Lemma client_hello_exact_witness :
  exists e1 random session share,
    length random = 32%nat /\ length session = 32%nat /\ length share = 32%nat /\
    tls_send_client_hello (zeros 512) (zeros 521) Echo.answer 3 (Url (str "tnu.org") (str "/") 443) =
      (let '(e2, n) := ts_send e1 3 (hello_wire (str "tnu.org") random session share) in
       Some (e2, if n =? Z.of_nat (181 + length (str "tnu.org")) then TNU_TLS_OK else TNU_TLS_ERR_NETWORK)).
Proof.
  apply (client_hello_exact (zeros 512) (zeros 521) Echo.answer 3 (Url (str "tnu.org") (str "/") 443));
    [reflexivity|reflexivity|vm_compute; lia].
Defined.

Lemma https_get_fails_witness :
  (exists e' rc, tnu_https_get (zeros 512) (zeros 521) Echo.answer (Some Echo.address) = Some (e', rc) /\ rc < 0) /\
  tnu_https_get (zeros 512) (zeros 521) Echo.answer (Some Echo.address) = Some ([], TNU_TLS_ERR_HANDSHAKE_INCOMPLETE).
Proof.
  split; [apply (https_get_fails (zeros 512) (zeros 521) Echo.answer (Some Echo.address)); reflexivity|by vm_compute].
Defined.
