(* ===== verification/X509.v ===== *)
(** * userspace/libc/src/tls.c: certificates, host names, pins, the self-test

    A certificate is the list of its bytes and a pointer into it an offset, on
    64 bits; a read outside the list is [None]. The pin file is read in a buffer
    of 1024 bytes; a pointer into it is what is left of it. *)
From S2P Require Import Prelude Buf Digest Fe25519 Sha256 Chacha Tls.

(** ** DER *)

Record tlv := Tlv { t_tag : Z; t_value : Z; t_len : Z; t_next : Z }.

(** [for (i = 0; i < bytes; i++)]: the position and the length. *)
Fixpoint der_length (k : nat) (der : list Z) (pos n : Z) : option (Z * Z) :=
  match k with
  | O => Some (pos, n)
  | S k => b ← der !! Z.to_nat pos; der_length k der (u64 (pos + 1)) (Z.lor (u64 (Z.shiftl n 8)) b)
  end.

(** [None] inside for TNU_TLS_ERR_CERT_PARSE. *)
Definition der_read_tlv (der : list Z) (pos : Z) : option (option tlv) :=
  let len := Z.of_nat (length der) in
  if len <? u64 (pos + 2) then Some None
  else
    tag ← der !! Z.to_nat pos;
    let pos := u64 (pos + 1) in
    l ← der !! Z.to_nat pos;
    let pos := u64 (pos + 1) in
    let bytes := Z.land l 0x7f in
    if negb (Z.land l 0x80 =? 0) && ((bytes =? 0) || (8 <? bytes) || (len <? u64 (pos + bytes)))
    then Some None
    else
      '(pos, n) ← (if Z.land l 0x80 =? 0 then Some (pos, l) else der_length (Z.to_nat bytes) der pos 0);
      if len <? u64 (pos + n) then Some None
      else Some (Some (Tlv tag pos n (u64 (pos + n)))).

(** ** Host names *)

Fixpoint tls_ascii_eq_nocase (a b : list Z) : bool :=
  match a, b with
  | [], [] => true
  | x :: a, y :: b => if tolower x =? tolower y then tls_ascii_eq_nocase a b else false
  | _, _ => false
  end.

(** [pattern] is never NULL where it is called; [host] may be. *)
Definition tls_hostname_match (pattern : list Z) (host : option (list Z)) : bool :=
  match host with
  | None => false
  | Some host =>
    if (length pattern =? 0)%nat || (length host =? 0)%nat then false
    else
      match pattern with
      | c :: d :: rest =>
        if (c =? ch "*") && (d =? ch ".") then
          let suffix := d :: rest in
          if (length host <=? length suffix)%nat then false
          else
            let k := (length host - length suffix)%nat in
            tls_ascii_eq_nocase (drop k host) suffix &&
            forallb (fun p => negb (p =? ch ".")) (take k host)
        else tls_ascii_eq_nocase pattern host
      | _ => tls_ascii_eq_nocase pattern host
      end
  end.

(** ** Certificates *)

Definition TNU_X509_NAME_MAX : Z := 128.

Record tnu_x509_info := X509Info { common_name : list Z; dns_names : list (list Z);
                                   fingerprint_sha256 : list Z }.

(** What the zeroed buffer of [out_size] bytes then holds, as a C string. *)
Definition tls_copy_string (out_size : Z) (der : list Z) (data len : Z) : option (list Z) :=
  let take := if len <? out_size - 1 then len else out_size - 1 in
  text ← slice der data take;
  cstr_of (text ++ [0]).

Definition cn_oid : list Z := [0x55; 0x04; 0x03].

(** The first [if] of the loop of [x509_scan_names], at [i]. *)
Definition scan_cn (der : list Z) (i : Z) (out : tnu_x509_info) : option tnu_x509_info :=
  oid ← slice der i 5;
  if bytes_eq oid (0x06 :: 3 :: cn_oid) then
    r ← der_read_tlv der (i + 2 + 3);
    match r with
    | Some t =>
      if ((t_tag t =? 0x0c) || (t_tag t =? 0x13) || (t_tag t =? 0x16)) &&
         (length (common_name out) =? 0)%nat then
        name ← tls_copy_string TNU_X509_NAME_MAX der (t_value t) (t_len t);
        Some (X509Info name (dns_names out) (fingerprint_sha256 out))
      else Some out
    | None => Some out
    end
  else Some out.

(** The second; the count of names is the length of their list. *)
Definition scan_dns (der : list Z) (i : Z) (out : tnu_x509_info) : option tnu_x509_info :=
  c ← der !! Z.to_nat i;
  if (c =? 0x82) && (i + 1 <? Z.of_nat (length der)) && (length (dns_names out) <? 4)%nat then
    r ← der_read_tlv der i;
    match r with
    | Some t =>
      if (t_tag t =? 0x82) && (0 <? t_len t) && (t_len t <? TNU_X509_NAME_MAX) then
        name ← tls_copy_string TNU_X509_NAME_MAX der (t_value t) (t_len t);
        Some (X509Info (common_name out) (dns_names out ++ [name]) (fingerprint_sha256 out))
      else Some out
    | None => Some out
    end
  else Some out.

(** [for (i = 0; i + sizeof(cn_oid) + 2 < len; i++)], with [k] turns left. *)
Fixpoint scan_loop (k : nat) (der : list Z) (i : Z) (out : tnu_x509_info) : option tnu_x509_info :=
  match k with
  | O => Some out
  | S k => out ← scan_cn der i out; out ← scan_dns der i out; scan_loop k der (i + 1) out
  end.

Definition x509_scan_names (der : list Z) (out : tnu_x509_info) : option tnu_x509_info :=
  scan_loop (length der - 5) der 0 out.

(** [inr] for the error; [der] is not NULL. *)
Definition tnu_x509_parse_der (der : list Z) : option (tnu_x509_info + Z) :=
  if (length der <? 8)%nat then Some (inr TNU_TLS_ERR_CERT_PARSE)
  else
    r ← der_read_tlv der 0;
    match r with
    | None => Some (inr TNU_TLS_ERR_CERT_PARSE)
    | Some t =>
      if negb (t_tag t =? 0x30) then Some (inr TNU_TLS_ERR_CERT_PARSE)
      else
        fp ← tnu_sha256 der;
        out ← x509_scan_names der (X509Info [] [] fp);
        Some (inl out)
    end.

(** ** The pin file *)

Definition hex_val (c : Z) : Z :=
  if (ch "0" <=? c) && (c <=? ch "9") then c - ch "0"
  else if (ch "a" <=? c) && (c <=? ch "f") then 10 + c - ch "a"
  else if (ch "A" <=? c) && (c <=? ch "F") then 10 + c - ch "A"
  else -1.

Definition separator (c : Z) : bool := (c =? ch ":") || (c =? ch " ") || (c =? 9).

Fixpoint skip_separators (p : list Z) : option (list Z) :=
  match p with
  | [] => None
  | c :: r => if separator c then skip_separators r else Some p
  end.

(** [todo] bytes of 32 are missing; [p[1]] is read when [p[0]] is the NUL too.
    [None] inside for a line that holds no digest. *)
Fixpoint hex_pairs (todo : nat) (p out : list Z) : option (option (list Z)) :=
  c ← head p;
  if c =? 0 then Some (match todo with O => Some out | _ => None end)
  else
    match todo with
    | O => Some (Some out)
    | S todo =>
      p ← skip_separators p;
      match p with
      | h :: l :: r =>
        let hi := hex_val h in
        let lo := hex_val l in
        if (hi <? 0) || (lo <? 0) then Some None
        else hex_pairs todo r (out ++ [u8 (Z.lor (Z.shiftl hi 4) lo)])
      | _ => None
      end
    end.

Definition parse_hex_sha256_line (line : list Z) : option (option (list Z)) := hex_pairs 32 line [].

(** [strchr(line, '\n')]: its index. *)
Fixpoint strchr_nl (p : list Z) : option (option nat) :=
  match p with
  | [] => None
  | c :: r =>
    if c =? 10 then Some (Some O)
    else if c =? 0 then Some None
    else k ← strchr_nl r; Some (option_map S k)
  end.

(** The loop over lines. *)
Fixpoint pin_loop (fuel : nat) (line fp : list Z) : option bool :=
  match fuel with
  | O => None
  | S f =>
    c ← head line;
    if c =? 0 then Some false
    else
      next ← strchr_nl line;
      let line := match next with Some k => <[k := 0]> line | None => line end in
      parsed ← parse_hex_sha256_line line;
      if match parsed with Some parsed => bytes_eq_tls parsed fp | None => false end then Some true
      else match next with
           | Some k => pin_loop f (drop (S k) line) fp
           | None => Some false
           end
  end.

Section Trust.
Context {E : Type} `{TlsSystem E}.

(** [buf] is what the stack held before. *)
Definition tls_trust_store_has_fingerprint (buf : list Z) (e : E) (fp : list Z) : option (E * bool) :=
  let '(e, fd) := ts_open e (str "/etc/ssl/certs/tnu-pins.txt") in
  if fd <? 0 then Some (e, false)
  else
    let '(e, n) := ts_read e fd 1023 in
    let e := ts_close e fd in
    match n with
    | None | Some [] => Some (e, false)
    | Some text =>
      buf ← put buf 0 (text ++ [0]);
      r ← pin_loop (S (length buf)) buf fp;
      Some (e, r)
    end.

Definition tnu_x509_validate_der (buf : list Z) (e : E) (der : list Z) (hostname : option (list Z))
    : option (E * Z) :=
  r ← tnu_x509_parse_der der;
  match r with
  | inr rc => Some (e, rc)
  | inl info =>
    let host_ok :=
      match dns_names info, common_name info with
      | [], [] => false
      | [], cn => tls_hostname_match cn hostname
      | names, _ => existsb (fun n => tls_hostname_match n hostname) names
      end in
    if negb host_ok then Some (e, TNU_TLS_ERR_CERT_HOSTNAME)
    else
      '(e, pinned) ← tls_trust_store_has_fingerprint buf e (fingerprint_sha256 info);
      Some (e, if (pinned : bool) then TNU_TLS_OK else TNU_TLS_ERR_CERT_UNTRUSTED)
  end.
End Trust.

(** ** The self-test *)

(** The digits of a test vector, and its bytes. *)
Definition vector (n : nat) (v : Z) : list Z := rev (le_bytes n v).

Definition sha_abc : list Z :=
  vector 32 0xba7816bf8f01cfea414140de5dae2223b00361a396177a9cb410ff61f20015ad.
Definition hmac_key : list Z := replicate 20 0x0b.
Definition hmac_expected : list Z :=
  vector 32 0xb0344c61d8db38535ca8afceaf0bf12b881dc200c9833da726e9376c2e32cff7.
Definition chacha_expected : list Z :=
  vector 32 0x10f1e7e4d13b5915500fdd1fa32071c4c7d1f4c733c068030422aa9ac3d46c4e ++
  vector 32 0xd2826446079faa0914c2d705d98b02a2b5129cd1de164eb9cbd083e8a2503c4e.
Definition poly_key : list Z :=
  vector 32 0x85d6be7857556d337f4452fe42d506a80103808afb0db2fd4abff6af4149f51b.
Definition poly_expected : list Z := vector 16 0xa8061dc1305136c6c22b8baf0c0127a9.
Definition x25519_scalar : list Z :=
  vector 32 0x77076d0a7318a57d3c16c17251b26645df4c2f87ebc0992ab177fba51db92c2a.
Definition x25519_point : list Z := 9 :: replicate 31 0.
Definition x25519_expected : list Z :=
  vector 32 0x8520f0098930a754748b7ddcb43ef75a0dbf3a0d26381af4eba4a98eaa9b4e6a.

Definition selftest_key : list Z := map (fun i => u8 (Z.of_nat i)) (seq 0 32).
Definition selftest_nonce : list Z := [0; 0; 0; 0; 0; 0; 0; 0x4a; 0; 0; 0; 0].

Definition tnu_tls_selftest : option Z :=
  out ← tnu_sha256 (str "abc");
  if negb (bytes_eq_tls out sha_abc) then Some TNU_TLS_ERR_CRYPTO_MISSING
  else
    out ← tnu_hmac_sha256 hmac_key (str "Hi There");
    if negb (bytes_eq_tls out hmac_expected) then Some TNU_TLS_ERR_CRYPTO_MISSING
    else
      stream ← tnu_chacha20_xor selftest_key selftest_nonce 1 (zeros 64);
      if negb (bytes_eq_tls stream chacha_expected) then Some TNU_TLS_ERR_CRYPTO_MISSING
      else
        tag ← tnu_poly1305_mac poly_key (str "Cryptographic Forum Research Group");
        if negb (bytes_eq_tls tag poly_expected) then Some TNU_TLS_ERR_CRYPTO_MISSING
        else
          let shared := tnu_x25519 x25519_scalar x25519_point in
          if negb (bytes_eq_tls shared x25519_expected) then Some TNU_TLS_ERR_CRYPTO_MISSING
          else Some TNU_TLS_OK.

Definition tnu_tls_strerror (error : Z) : list Z :=
  if error =? TNU_TLS_OK then str "ok"
  else if error =? TNU_TLS_ERR_CRYPTO_MISSING then str "TLS crypto backend missing"
  else if error =? TNU_TLS_ERR_NETWORK then str "TLS network error"
  else if error =? TNU_TLS_ERR_BAD_URL then str "bad HTTPS URL"
  else if error =? TNU_TLS_ERR_HANDSHAKE_INCOMPLETE then str "TLS handshake incomplete"
  else if error =? TNU_TLS_ERR_CERT_UNTRUSTED then str "certificate not trusted"
  else if error =? TNU_TLS_ERR_CERT_HOSTNAME then str "certificate hostname mismatch"
  else if error =? TNU_TLS_ERR_CERT_PARSE then str "certificate parse error"
  else str "TLS unsupported".

(** ** Host names *)

Definition lower (l : list Z) : list Z := map tolower l.

(** A wildcard stands for one label; otherwise the names agree but for the case
    of their letters. *)
Definition name_matches (pattern host : list Z) : Prop :=
  pattern <> [] /\ host <> [] /\
  ((exists rest label tail, pattern = ch "*" :: ch "." :: rest /\ host = label ++ ch "." :: tail /\
      label <> [] /\ (ch "." ∉ label) /\ lower tail = lower rest) \/
   ((forall rest, pattern <> ch "*" :: ch "." :: rest) /\ lower pattern = lower host)).

Lemma tolower_dot c : tolower c = ch "." -> c = ch ".".
Proof.
  unfold tolower, isupper. change (ch "A") with 65. change (ch "Z") with 90. change (ch "a") with 97.
  change (ch ".") with 46. destruct (Z.leb_spec 65 c), (Z.leb_spec c 90); cbn [andb]; lia.
Qed.

Lemma eq_nocase_spec a : forall b, (tls_ascii_eq_nocase a b = true) <-> lower a = lower b.
Proof.
  induction a as [|x a IH]; intros [|y b]; try done. cbn [tls_ascii_eq_nocase lower map]. fold (lower a) (lower b).
  destruct (Z.eqb_spec (tolower x) (tolower y)) as [->|Hn].
  - rewrite IH. split; [by intros ->|by intros [= ->]].
  - split; [done|by intros [= ? _]].
Qed.

Lemma no_dot_spec l : forallb (fun p => negb (p =? ch ".")) l = true <-> ch "." ∉ l.
Proof.
  induction l as [|c l IH]; cbn [forallb]; [split; [intros _; by apply not_elem_of_nil|done]|].
  rewrite andb_true_iff, IH, not_elem_of_cons, negb_true_iff, Z.eqb_neq. clear IH. intuition congruence.
Qed.

(** A tail of the host that agrees with the suffix begins with the dot. *)
Lemma wildcard_spec rest host :
  (length host <=? length (ch "." :: rest))%nat = false ->
  let k := (length host - length (ch "." :: rest))%nat in
  (tls_ascii_eq_nocase (drop k host) (ch "." :: rest) &&
   forallb (fun p => negb (p =? ch ".")) (take k host)) = true <->
  exists label tail, host = label ++ ch "." :: tail /\ label <> [] /\ (ch "." ∉ label) /\ lower tail = lower rest.
Proof.
  intros Hl%Nat.leb_gt k. rewrite andb_true_iff, eq_nocase_spec, no_dot_spec. split.
  - intros [Ht Hd]. pose proof (take_drop k host) as Hh.
    destruct (drop k host) as [|c tail] eqn:E; [done|]. cbn [lower map] in Ht.
    fold (lower tail) (lower rest) in Ht.
    change (tolower (ch ".")) with (ch ".") in Ht. injection Ht as Hc Ht. apply tolower_dot in Hc as ->.
    exists (take k host), tail. repeat split; try done.
    intros En%(f_equal length). rewrite length_take in En. unfold k in En. cbn [length] in *. lia.
  - intros (label & tail & -> & Hn & Hd & Ht).
    assert (length tail = length rest) as Hlen by (apply (f_equal length) in Ht; unfold lower in Ht; by rewrite !length_map in Ht).
    assert (k = length label) as -> by (unfold k; rewrite length_app; cbn [length]; lia).
    rewrite drop_app_length, take_app_length. split; [|done]. cbn [lower map]. by apply (f_equal (cons _)).
Qed.

Lemma hostname_match_spec pattern host :
  tls_hostname_match pattern host = true <-> exists h, host = Some h /\ name_matches pattern h.
Proof.
  unfold tls_hostname_match, name_matches. destruct host as [host|]; [|split; [done|by intros (h & ? & _)]].
  destruct pattern as [|c pattern]; [split; [done|by intros (h & _ & ? & _)]|].
  destruct host as [|x host]; [split; [done|by intros (h & [= <-] & _ & ? & _)]|].
  change (length (c :: pattern) =? 0)%nat with false. change (length (x :: host) =? 0)%nat with false.
  cbn [orb]. destruct pattern as [|d rest].
  { rewrite eq_nocase_spec. split; [intros H; eexists; split; [done|]; repeat split; try done; right; by split|].
    intros (h & [= <-] & _ & _ & [(? & ? & ? & ? & _)|[_ H]]); done. }
  destruct (Z.eqb_spec c (ch "*")) as [->|Hc], (Z.eqb_spec d (ch ".")) as [->|Hd]; cbn [andb].
  2-4: rewrite eq_nocase_spec; split;
    [intros H; eexists; split; [done|]; repeat split; try done; right; split; [congruence|done]
    |intros (h & [= <-] & _ & _ & [(? & ? & ? & ? & _)|[_ H]]); [congruence|done]].
  destruct (length (x :: host) <=? length (ch "." :: rest))%nat eqn:E.
  - split; [done|]. intros (h & [= <-] & _ & _ & [(r & label & tail & [= <-] & Hh & Hn & _ & Ht)|[H _]]); [|by destruct (H rest)].
    apply Nat.leb_le in E. rewrite Hh, length_app in E. apply (f_equal length) in Ht. unfold lower in Ht. rewrite !length_map in Ht.
    destruct label; [done|]. cbn [length] in E. lia.
  - rewrite (wildcard_spec rest (x :: host) E). split.
    + intros (label & tail & Hh & Hr). exists (x :: host). repeat split; try done. left. by exists rest, label, tail.
    + intros (h & [= <-] & _ & _ & [(r & label & tail & [= <-] & Hr)|[H _]]); [by exists label, tail|by destruct (H rest)].
Qed.

(** ** Elements that lie in the certificate *)

Lemma lookup_byte (der : list Z) (i : Z) : bytes der -> 0 <= i < Z.of_nat (length der) ->
  exists b, der !! Z.to_nat i = Some b /\ b ∈ der /\ 0 <= b < 256.
Proof.
  intros Hb Hi. destruct (lookup_lt_is_Some_2 der (Z.to_nat i)) as [b Eb]; [lia|]. exists b.
  assert (b ∈ der) as Hin by (by apply list_elem_of_lookup_2 in Eb). repeat split; try done.
  all: by apply (proj1 (Forall_forall _ _) Hb).
Qed.

(** Up to seven bytes of length: the number is below 2^56 and nothing wraps. *)
Lemma der_length_ok der k : bytes der -> Z.of_nat (length der) < 2 ^ 32 -> forall j pos n,
  (k + j <= 7)%nat -> 0 <= n < 256 ^ Z.of_nat j -> 0 <= pos -> pos + Z.of_nat k <= Z.of_nat (length der) ->
  exists n', der_length k der pos n = Some (pos + Z.of_nat k, n') /\ 0 <= n' < 2 ^ 56.
Proof.
  intros Hb Hl. induction k as [|k IH]; intros j pos n Hj Hn Hp Hk; cbn [der_length].
  - exists n. rewrite Z.add_0_r. split; [done|]. split; [lia|].
    eapply Z.lt_le_trans; [apply Hn|]. change (2 ^ 56) with (256 ^ 7). apply Z.pow_le_mono_r; lia.
  - destruct (lookup_byte der pos Hb) as (b & -> & _ & Hr); [lia|]. rewrite bind_some.
    assert (256 ^ Z.of_nat (S j) <= 2 ^ 56) as Hs.
    { change (2 ^ 56) with (256 ^ 7). apply Z.pow_le_mono_r; lia. }
    rewrite Nat2Z.inj_succ, Z.pow_succ_r in Hs by lia.
    rewrite !u64_small by (rewrite ?Z.shiftl_mul_pow2 by lia; lia). rewrite lor_shift_add by lia.
    destruct (IH (S j) (pos + 1) (n * 2 ^ 8 + b)) as (n' & -> & Hn'); try lia.
    { rewrite Nat2Z.inj_succ, Z.pow_succ_r by lia. lia. }
    exists n'. split; [|done]. do 2 f_equal. lia.
Qed.

(** Where an element lies in the certificate. *)
Definition tlv_inside (der : list Z) (t : tlv) : Prop :=
  0 <= t_value t /\ 0 <= t_len t /\ t_value t + t_len t <= Z.of_nat (length der).

(** What the code needs of a certificate for its reads to stay inside: no byte
    0x88, the long form of a length on eight bytes. *)
Definition short_lengths (der : list Z) : Prop :=
  bytes der /\ Z.of_nat (length der) < 2 ^ 32 /\ (0x88 ∉ der).

Lemma der_read_ok der pos : short_lengths der -> 0 <= pos <= Z.of_nat (length der) ->
  exists r, der_read_tlv der pos = Some r /\ forall t, r = Some t -> tlv_inside der t.
Proof.
  intros (Hb & Hl & Hn) Hp. unfold der_read_tlv. rewrite u64_small by lia.
  destruct (Z.ltb_spec (Z.of_nat (length der)) (pos + 2)); [by exists None|].
  destruct (lookup_byte der pos Hb) as (tag & -> & _ & _); [lia|]. rewrite bind_some.
  rewrite (u64_small (pos + 1)) by lia.
  destruct (lookup_byte der (pos + 1) Hb) as (l & -> & Hin & Hlr); [lia|]. rewrite bind_some.
  rewrite (u64_small (pos + 1 + 1)) by lia. replace (pos + 1 + 1) with (pos + 2) by lia.
  change 0x7f with (Z.ones 7). rewrite Z.land_ones by lia. change (2 ^ 7) with 128.
  pose proof (Z.mod_pos_bound l 128 ltac:(lia)) as Hm.
  destruct (Z.eqb_spec (Z.land l 0x80) 0) as [Hz|Hz]; cbn [negb andb].
  - rewrite bind_some. rewrite u64_small by lia.
    destruct (Z.ltb_spec (Z.of_nat (length der)) (pos + 2 + l)); [by exists None|].
    eexists. split; [reflexivity|]. intros t [= <-]. unfold tlv_inside. cbn. lia.
  - destruct ((_ || _ || _)%bool) eqn:Eb; [by exists None|]. bcases.
    rewrite u64_small in * by lia.
    assert (l mod 128 <> 8) as H8.
    { intros E8. assert (l = 8 \/ l = 0x88) as [->| ->] by (Z.div_mod_to_equations; lia); done. }
    destruct (der_length_ok der (Z.to_nat (l mod 128)) Hb Hl 0 (pos + 2) 0) as (n & -> & Hr); [lia|done|lia|lia|].
    rewrite bind_some, u64_small by lia.
    destruct (Z.ltb_spec (Z.of_nat (length der)) (pos + 2 + Z.of_nat (Z.to_nat (l mod 128)) + n)); [by exists None|].
    eexists. split; [reflexivity|]. intros t [= <-]. unfold tlv_inside. cbn. lia.
Qed.

(** The text of an element, as the C string its copy holds. *)
Definition tlv_text (der : list Z) (t : tlv) : list Z :=
  default [] (cstr_of (take (Z.to_nat (t_len t)) (drop (Z.to_nat (t_value t)) der) ++ [0])).

Lemma cstr_of_end l : exists s, cstr_of (l ++ [0]) = Some s /\ (length s <= length l)%nat.
Proof.
  induction l as [|c l (s & Es & Hs)]; cbn [app cstr_of]; [by exists []|].
  destruct (c =? 0); [exists []; split; [done|cbn; lia]|]. rewrite Es. exists (c :: s).
  split; [done|]. cbn [length]. lia.
Qed.

Lemma copy_ok der t : tlv_inside der t ->
  exists s, tls_copy_string TNU_X509_NAME_MAX der (t_value t) (t_len t) = Some s /\ (length s < 128)%nat /\
    (t_len t < TNU_X509_NAME_MAX -> s = tlv_text der t).
Proof.
  unfold tlv_inside, tls_copy_string, TNU_X509_NAME_MAX. intros (Hv & Hn & Hl).
  set (k := if _ <? _ then _ else _).
  assert (k <= 127 /\ k <= t_len t /\ 0 <= k /\ (t_len t < 128 -> k = t_len t)) as (K1 & K2 & K3 & K4)
    by (unfold k; destruct (Z.ltb_spec (t_len t) (128 - 1)); lia).
  clearbody k. rewrite slice_some by lia. rewrite bind_some.
  destruct (cstr_of_end (take (Z.to_nat k) (drop (Z.to_nat (t_value t)) der))) as (s & Es & Hs).
  rewrite length_take in Hs. exists s. split; [done|]. split; [lia|]. intros Hlt.
  unfold tlv_text. rewrite K4 in Es by done. by rewrite Es.
Qed.

(** ** The scan for names *)

(** Every DNS name is the text of an element of tag 0x82, the common name that of
    one of the three string types, cut to what its field holds. *)
Definition names_of (der fp : list Z) (out : tnu_x509_info) : Prop :=
  fingerprint_sha256 out = fp /\ (length (common_name out) < 128)%nat /\ (length (dns_names out) <= 4)%nat /\
  Forall (fun n => (length n < 128)%nat /\ exists i t, der_read_tlv der i = Some (Some t) /\ tlv_inside der t /\
    t_tag t = 0x82 /\ n = tlv_text der t) (dns_names out).

Lemma scan_cn_ok der fp i out : short_lengths der -> 0 <= i -> i + 5 < Z.of_nat (length der) ->
  names_of der fp out -> exists out', scan_cn der i out = Some out' /\ names_of der fp out'.
Proof.
  intros Hd Hi Hlt Ho. unfold scan_cn. rewrite slice_some by lia. rewrite bind_some.
  destruct (bytes_eq _ _); [|by exists out].
  destruct (der_read_ok der (i + 2 + 3) Hd) as (r & -> & Hr); [lia|]. rewrite bind_some.
  destruct r as [t|]; [|by exists out]. match goal with |- context [if ?b then _ else _] => destruct b end; [|by exists out].
  destruct (copy_ok der t (Hr t eq_refl)) as (s & -> & Hs & _). rewrite bind_some.
  eexists. split; [reflexivity|]. by destruct Ho as (H1 & _ & H3 & H4).
Qed.

Lemma scan_dns_ok der fp i out : short_lengths der -> 0 <= i < Z.of_nat (length der) ->
  names_of der fp out -> exists out', scan_dns der i out = Some out' /\ names_of der fp out'.
Proof.
  intros Hd Hi Ho. unfold scan_dns. destruct (lookup_byte der i (proj1 Hd) Hi) as (c & -> & _). rewrite bind_some.
  destruct ((_ && _ && _)%bool) eqn:Ec; [|by exists out]. bcases.
  destruct (der_read_ok der i Hd) as (r & Er & Hr); [lia|]. rewrite Er, bind_some.
  destruct r as [t|]; [|by exists out]. destruct ((_ && _ && _)%bool) eqn:Et; [|by exists out]. bcases.
  destruct (copy_ok der t (Hr t eq_refl)) as (s & -> & Hs & Hx). rewrite bind_some.
  eexists. split; [reflexivity|]. destruct Ho as (G1 & G2 & G3 & G4). repeat split; cbn [fingerprint_sha256 common_name dns_names]; try done.
  - rewrite length_app. cbn [length]. match goal with H : (_ <? 4)%nat = true |- _ => apply Nat.ltb_lt in H end. lia.
  - apply Forall_app. split; [done|]. constructor; [|done]. split; [done|]. exists i, t. repeat split; try done.
    + apply (Hr t eq_refl).
    + apply (Hr t eq_refl).
    + apply (Hr t eq_refl).
    + by apply Hx.
Qed.

Lemma scan_loop_ok der fp k : short_lengths der -> forall i out, 0 <= i ->
  i + Z.of_nat k + 5 <= Z.of_nat (length der) -> names_of der fp out ->
  exists out', scan_loop k der i out = Some out' /\ names_of der fp out'.
Proof.
  intros Hd. induction k as [|k IH]; intros i out Hi Hk Ho; cbn [scan_loop]; [by exists out|].
  destruct (scan_cn_ok der fp i out Hd) as (o1 & -> & H1); [lia|lia|done|]. rewrite bind_some.
  destruct (scan_dns_ok der fp i o1 Hd) as (o2 & -> & H2); [lia|done|]. rewrite bind_some.
  apply IH; [lia|lia|done].
Qed.

Lemma parse_der_ok der : short_lengths der ->
  exists r, tnu_x509_parse_der der = Some r /\
    match r with inl out => names_of der (sha256_spec der) out | inr rc => rc = TNU_TLS_ERR_CERT_PARSE end.
Proof.
  intros Hd. unfold tnu_x509_parse_der. destruct (Nat.ltb_spec (length der) 8); [by eexists|].
  destruct (der_read_ok der 0 Hd) as (r & -> & _); [lia|]. rewrite bind_some.
  destruct r as [t|]; [|by eexists]. destruct (negb _); [by eexists|].
  rewrite tnu_sha256_eq by (destruct Hd as (_ & Hl & _); lia). rewrite bind_some. unfold x509_scan_names.
  destruct (scan_loop_ok der (sha256_spec der) (length der - 5) Hd 0 (X509Info [] [] (sha256_spec der)))
    as (out & -> & Ho); [lia|lia| |].
  { repeat split; cbn; [lia|lia|by constructor]. }
  rewrite bind_some. by eexists.
Qed.

(** ** The pin file *)

(** A line that gives a digest: pairs of digits of either case, separators before
    them, and anything after the last. *)
Inductive spells : list Z -> list Z -> Prop :=
| spells_end rest : spells rest []
| spells_pair seps h l line fp :
    Forall (fun c => separator c = true) seps -> 0 <= hex_val h -> 0 <= hex_val l -> spells line fp ->
    spells (seps ++ h :: l :: line) (16 * hex_val h + hex_val l :: fp).

Lemma hex_val_cases c : hex_val c = -1 \/
  (0 <= hex_val c < 16 /\ (48 <= c <= 57 \/ 97 <= c <= 102 \/ 65 <= c <= 70)).
Proof.
  unfold hex_val. change (ch "0") with 48. change (ch "9") with 57. change (ch "a") with 97.
  change (ch "f") with 102. change (ch "A") with 65. change (ch "F") with 70.
  destruct (Z.leb_spec 48 c), (Z.leb_spec c 57), (Z.leb_spec 97 c), (Z.leb_spec c 102), (Z.leb_spec 65 c), (Z.leb_spec c 70);
    cbn [andb]; lia.
Qed.

Lemma digit_plain c : 0 <= hex_val c -> separator c = false /\ (c =? 0) = false /\ 0 <= hex_val c < 16.
Proof.
  intros H. destruct (hex_val_cases c) as [?|[Hr Hc]]; [lia|]. unfold separator.
  change (ch ":") with 58. change (ch " ") with 32.
  rewrite !(proj2 (Z.eqb_neq c _)) by lia. done.
Qed.

Lemma skip_separators_all seps p : Forall (fun c => separator c = true) seps ->
  skip_separators (seps ++ p) = skip_separators p.
Proof. induction 1 as [|c seps Hc _ IH]; [done|]. cbn [app skip_separators]. by rewrite Hc. Qed.

Lemma separator_nonzero c : separator c = true -> (c =? 0) = false.
Proof. by destruct (Z.eqb_spec c 0) as [->|]. Qed.

Lemma hex_pairs_spells line fp : spells line fp -> forall out more,
  hex_pairs (length fp) (line ++ 0 :: more) out = Some (Some (out ++ fp)).
Proof.
  induction 1 as [rest|seps h l line fp Hs Hh Hl _ IH]; intros out more; cbn [length].
  - rewrite app_nil_r. destruct rest as [|c rest]; cbn; [done|]. by destruct (c =? 0).
  - destruct (digit_plain h Hh) as (Sh & Zh & Rh). destruct (digit_plain l Hl) as (_ & _ & Rl).
    rewrite <- app_assoc. cbn [app hex_pairs].
    assert (exists c p, seps ++ h :: l :: line ++ 0 :: more = c :: p /\ (c =? 0) = false) as (c & p & E & Ec).
    { destruct Hs as [|c seps Hc]; cbn [app]; [by exists h, (l :: line ++ 0 :: more)|].
      exists c. eexists. split; [reflexivity|]. by apply separator_nonzero. }
    rewrite E. cbn [head]. rewrite bind_some, Ec, <- E, skip_separators_all by done.
    cbn [skip_separators]. rewrite Sh, bind_some. cbv zeta.
    rewrite !(proj2 (Z.ltb_ge _ 0)) by lia. cbn [orb]. rewrite IH.
    rewrite lor_shift_add, u8_small by lia. rewrite <- app_assoc. cbn [app].
    do 4 f_equal. lia.
Qed.

Lemma spells_bytes line fp : spells line fp -> bytes fp.
Proof.
  induction 1 as [|seps h l line fp _ Hh Hl _ IH]; constructor; [|done].
  destruct (digit_plain h Hh) as (_ & _ & ?). destruct (digit_plain l Hl) as (_ & _ & ?). lia.
Qed.

(** A line of the file: no end of line and no NUL inside. *)
Definition plain_line (line : list Z) : Prop := Forall (fun c => (c =? 10) = false /\ (c =? 0) = false) line.

Lemma strchr_nl_line line rest : plain_line line -> strchr_nl (line ++ 10 :: rest) = Some (Some (length line)).
Proof.
  induction 1 as [|c line [H1 H2] _ IH]; [done|]. cbn [app strchr_nl length]. by rewrite H1, H2, IH.
Qed.

Definition pin_lines (lines : list (list Z)) : list Z := concat (map (fun l => l ++ [10]) lines).

Lemma pin_loop_spells lines fps fp : Forall2 spells lines fps -> Forall plain_line lines ->
  Forall (fun f => length f = 32%nat) fps -> length fp = 32%nat -> bytes fp ->
  forall fuel junk, (length lines < fuel)%nat ->
  pin_loop fuel (pin_lines lines ++ 0 :: junk) fp = Some (bool_decide (fp ∈ fps)).
Proof.
  intros Hs Hp Hf Hfp Hb. revert Hp Hf. induction Hs as [|line f lines fps Hl _ IH]; intros Hp Hf fuel junk Hk;
    (destruct fuel as [|fuel]; [cbn in Hk; lia|]); cbn [pin_loop].
  - cbn. rewrite bool_decide_false; [done|]. by intros ?%elem_of_nil.
  - apply Forall_cons in Hp as [Hp1 Hp]. apply Forall_cons in Hf as [Hf1 Hf].
    unfold pin_lines. cbn [map concat]. fold (pin_lines lines). rewrite <- !app_assoc. cbn [app].
    assert (exists c r, line = c :: r /\ (c =? 0) = false) as (c & r & E & Ec).
    { destruct Hl; [done|]. destruct seps; cbn [app] in *; apply Forall_cons in Hp1 as [[_ ?] _]; by do 2 eexists. }
    rewrite E at 1. cbn [app head]. rewrite bind_some, Ec, strchr_nl_line by done. rewrite bind_some. cbv zeta iota.
    replace (<[length line := 0]> (line ++ 10 :: pin_lines lines ++ 0 :: junk))
      with (line ++ 0 :: pin_lines lines ++ 0 :: junk)
      by (rewrite insert_app_r_alt, Nat.sub_diag by lia; done).
    unfold parse_hex_sha256_line. rewrite <- Hf1, hex_pairs_spells by done. rewrite bind_some. cbn [app]. cbv iota.
    rewrite bytes_eq_tls_eq by (done || congruence || by eapply spells_bytes).
    destruct (decide (f = fp)) as [->|Ef].
    + rewrite (bool_decide_true (fp = fp)), bool_decide_true; [done| |done]. by apply elem_of_cons; left.
    + rewrite (bool_decide_false (f = fp)) by done. rewrite drop_app_ge by lia. replace (S (length line) - length line)%nat with 1%nat by lia. cbn [drop].
      rewrite drop_0. cbn [length] in Hk. rewrite IH by (done || lia). f_equal. apply bool_decide_ext.
      rewrite elem_of_cons. split; [by right|]. intros [->|?]; done.
Qed.

Lemma length_lines lines : (length lines <= length (pin_lines lines))%nat.
Proof.
  unfold pin_lines. induction lines as [|l lines IH]; cbn [map concat length]; [lia|].
  rewrite !length_app. cbn [length]. lia.
Qed.

Lemma trust_store_ok {E : Type} `{TlsSystem E} buf e e1 fd e2 lines fps fp :
  ts_open e (str "/etc/ssl/certs/tnu-pins.txt") = (e1, fd) -> 0 <= fd ->
  ts_read e1 fd 1023 = (e2, Some (pin_lines lines)) ->
  Z.of_nat (length buf) = 1024 -> Z.of_nat (length (pin_lines lines)) <= 1023 ->
  Forall2 spells lines fps -> Forall plain_line lines -> Forall (fun f => length f = 32%nat) fps ->
  length fp = 32%nat -> bytes fp ->
  tls_trust_store_has_fingerprint buf e fp = Some (ts_close e2 fd, bool_decide (fp ∈ fps)).
Proof.
  intros Ho Hfd Hr Hb Ht Hs Hp Hf Hn Hfb. unfold tls_trust_store_has_fingerprint.
  rewrite Ho, (proj2 (Z.ltb_ge fd 0)), Hr by done.
  pose proof (pin_loop_spells lines fps fp Hs Hp Hf Hn Hfb) as Hloop.
  pose proof (length_lines lines) as Hll.
  destruct (pin_lines lines) as [|c text] eqn:Et.
  { destruct lines; [|cbn in Hll; lia]. inversion Hs; subst. rewrite bool_decide_false; [done|]. by intros ?%elem_of_nil. }
  rewrite <- Et in *. clear Et c text.
  unfold put. rewrite (proj2 (Z.leb_le 0 0)) by lia. rewrite (proj2 (Z.leb_le _ _)) by (rewrite length_app; cbn [length]; lia).
  cbn [andb]. rewrite bind_some. change (Z.to_nat 0) with O. rewrite take_0. cbn [app]. rewrite <- app_assoc.
  cbn [app]. rewrite Hloop; [by rewrite bind_some|]. rewrite length_app. cbn [length]. lia.
Qed.

Lemma sha256_spec_bytes data : length (sha256_spec data) = 32%nat /\ bytes (sha256_spec data).
Proof.
  split; [apply length_sha256_spec|]. unfold sha256_spec, hash_spec. generalize (seq 0 (bh_words (BlockHash := sha256_hash))).
  induction l as [|i l IH]; cbn [map concat]; [constructor|]. apply Forall_app. split; [|done].
  unfold store_be32. repeat constructor; apply u8_range.
Qed.

(** ** The names of a certificate *)

Lemma host_ok_spec info host :
  (match dns_names info, common_name info with
   | [], [] => false
   | [], cn => tls_hostname_match cn (Some host)
   | names, _ => existsb (fun n => tls_hostname_match n (Some host)) names
   end = true) <->
  (dns_names info = [] /\ name_matches (common_name info) host \/
   exists n, n ∈ dns_names info /\ name_matches n host).
Proof.
  assert (forall n, tls_hostname_match n (Some host) = true <-> name_matches n host) as Hm.
  { intros n. rewrite hostname_match_spec. split; [by intros (h & [= <-] & ?)|by exists host]. }
  destruct (dns_names info) as [|d ds].
  - transitivity (name_matches (common_name info) host).
    + destruct (common_name info) eqn:E; [|apply Hm]. split; [done|by intros [? _]].
    + split; [by left|]. by intros [[_ ?]|(n & ?%elem_of_nil & _)].
  - rewrite existsb_exists. split.
    + intros (n & Hin & Hn). right. exists n. split; [by apply list_elem_of_In|by apply Hm].
    + intros [[? _]|(n & Hin & Hn)]; [done|]. exists n. split; [by apply list_elem_of_In|by apply Hm].
Qed.

(** ** The properties *)

(** A certificate of 21 bytes whose common name claims 2^64 - 16 bytes. *)
Definition wrapping_cert : list Z :=
  [0x30; 0x81; 3; 0x06; 3; 0x55; 4; 3; 0x0c; 0x88; 0xff; 0xff; 0xff; 0xff; 0xff; 0xff; 0xff; 0xf0; 0; 0; 0].

(** C29 Parsing a certificate without a byte 0x88 reads nothing outside of it and
    gives the SHA-256 digest of all of it, and at most four names of elements that
    lie in it; with an eight-byte length, the sum of position and length wraps, the
    check passes, and 21 bytes are enough for the copy of a name to leave them. *)
Theorem x509_parse_reads der : short_lengths der ->
  (exists r, tnu_x509_parse_der der = Some r /\
     match r with inl out => names_of der (sha256_spec der) out | inr rc => rc = TNU_TLS_ERR_CERT_PARSE end) /\
  length wrapping_cert = 21%nat /\ tnu_x509_parse_der wrapping_cert = None.
Proof. intros Hd. split; [by apply parse_der_ok|]. by split; vm_compute. Qed.


(** The self-test always fails: the nonce it gives to ChaCha20 is not the one
    of the vector it expects (RFC 8439 has 9 in byte 3, with which the code gives
    the expected stream), and the tag of Poly1305 would not be the expected one. *)
Theorem selftest_fails :
  tnu_tls_selftest = Some TNU_TLS_ERR_CRYPTO_MISSING /\
  tnu_sha256 (str "abc") = Some sha_abc /\ tnu_hmac_sha256 hmac_key (str "Hi There") = Some hmac_expected /\
  tnu_chacha20_xor selftest_key selftest_nonce 1 (zeros 64) <> Some chacha_expected /\
  tnu_chacha20_xor selftest_key (<[3%nat := 9]> selftest_nonce) 1 (zeros 64) = Some chacha_expected /\
  tnu_poly1305_mac poly_key (str "Cryptographic Forum Research Group") <> Some poly_expected.
Proof. repeat split; by vm_compute. Qed.

(** ** Writing a pin, and a machine with one *)

Definition hex_digit (d : Z) : Z := if d <? 10 then ch "0" + d else ch "a" + (d - 10).
Definition hex_line (fp : list Z) : list Z :=
  concat (map (fun b => [hex_digit (b / 16); hex_digit (b mod 16)]) fp).

Lemma hex_val_digit d : 0 <= d < 16 -> hex_val (hex_digit d) = d /\ (hex_digit d =? 10) = false /\ (hex_digit d =? 0) = false.
Proof.
  intros Hd. assert (exists n, d = Z.of_nat n /\ (n < 16)%nat) as (n & -> & Hn) by (exists (Z.to_nat d); lia).
  do 16 (destruct n as [|n]; [done|]). lia.
Qed.

Lemma hex_line_spells fp : bytes fp -> spells (hex_line fp) fp /\ plain_line (hex_line fp).
Proof.
  unfold hex_line. induction 1 as [|b fp Hb _ [IH1 IH2]]; cbn [map concat]; [split; constructor|].
  destruct (hex_val_digit (b / 16)) as (H1 & P1); [Z.div_mod_to_equations; lia|].
  destruct (hex_val_digit (b mod 16)) as (H2 & P2); [Z.div_mod_to_equations; lia|].
  split; [|apply Forall_cons; split; [done|]; by apply Forall_cons].
  pose proof (spells_pair [] (hex_digit (b / 16)) (hex_digit (b mod 16)) (hex_line fp) fp) as S. cbn [app] in S.
  rewrite H1, H2 in S. replace (16 * (b / 16) + b mod 16) with b in S by (Z.div_mod_to_equations; lia).
  apply S; [constructor|Z.div_mod_to_equations; lia|Z.div_mod_to_equations; lia|done].
Qed.

Module Pinned.
(** A file system with the one file. *)
Record fs := Fs { text : list Z }.

#[global] Instance pinned_system : TlsSystem fs := {
  ts_resolve e _ := (e, None);
  ts_socket e := (e, -1);
  ts_connect e _ _ _ := (e, -1);
  ts_send e _ b := (e, -1);
  ts_recv e _ n := (e, None);
  ts_open e _ := (e, 3);
  ts_read e _ n := (e, Some (take n (text e)));
  ts_close e _ := e
}.

(** A certificate for any host of one label under tnu.org. *)
Definition cert : list Z := [0x30; 17; 0x82; 9] ++ str "*.tnu.org" ++ [0; 0; 0; 0; 0; 0].
Definition fp : list Z := sha256_spec cert.
Definition lines : list (list Z) := [hex_line fp].
Definition machine : fs := Fs (pin_lines lines).
Definition host : list Z := str "WWW.TNU.org".

Lemma cert_short : short_lengths cert.
Proof.
  split; [|split; [by vm_compute|]].
  - unfold bytes. apply (bool_decide_unpack (Forall (fun b => 0 <= b < 256) cert)). by vm_compute.
  - by apply (bool_decide_unpack (0x88 ∉ cert)); vm_compute.
Qed.
End Pinned.

Lemma x509_parse_reads_witness :
  (exists r, tnu_x509_parse_der Pinned.cert = Some r /\
     match r with inl out => names_of Pinned.cert (sha256_spec Pinned.cert) out | inr rc => rc = TNU_TLS_ERR_CERT_PARSE end) /\
  length wrapping_cert = 21%nat /\ tnu_x509_parse_der wrapping_cert = None.
Proof. apply (x509_parse_reads Pinned.cert), Pinned.cert_short. Defined.

