(* ===== verification/Wpa.v ===== *)
(** * kernel/drivers/net/iwlwifi.c: WPA2 keys, EAPOL-Key messages and CCMP

    The part of the driver that is not hardware: the 4-way handshake of a
    station and the CCMP protection of data frames. Frames are byte lists and
    buffers are written with [list_inserts]. What hands a frame to the radio,
    [iwl_send_mgmt_frame], is the parameter [send_mgmt_frame]. *)
From S2P Require Import Prelude Sha1 Aes.

Record wpa_state := Wpa {
  wpa_pmk : list Z; wpa_ptk : list Z; wpa_ptk_ready : bool;
  wpa_snonce : list Z; wpa_anonce : list Z; wpa_replay_counter : Z;
  wpa_key_msg1 : bool; wpa_key_msg3 : bool;
  ccmp_tx_pn : Z; bssid : list Z; tx_sequence : Z }.

Definition be16_at (p : list Z) : Z := Z.lor (Z.shiftl (nth 0 p 0) 8) (nth 1 p 0).
Definition be64_at (p : list Z) : Z :=
  foldl (fun v b => u64 (Z.lor (Z.shiftl v 8) b)) 0 (take 8 p).
Definition put_be16 (v : Z) : list Z := [u8 (Z.shiftr v 8); u8 v].
Definition put_le16 (v : Z) : list Z := [u8 v; u8 (Z.shiftr v 8)].
Definition put_be64 (v : Z) : list Z :=
  map (fun i => u8 (Z.shiftr v (8 * (7 - Z.of_nat i)))) (seq 0 8).

Fixpoint iwl_memcmp_fixed (a b : list Z) (len : nat) : Z :=
  match len with
  | O => 0
  | S n =>
    match a, b with
    | x :: a, y :: b => if negb (x =? y) then if x <? y then -1 else 1 else iwl_memcmp_fixed a b n
    | _, _ => 0
    end
  end.

(** ** Key derivation *)

Definition set_snonce (st : wpa_state) (n : list Z) : wpa_state :=
  Wpa (wpa_pmk st) (wpa_ptk st) (wpa_ptk_ready st) n (wpa_anonce st) (wpa_replay_counter st)
      (wpa_key_msg1 st) (wpa_key_msg3 st) (ccmp_tx_pn st) (bssid st) (tx_sequence st).

(** [ticks] is what [pit_ticks] returns. *)
Definition iwl_make_snonce (ticks : Z) (mac : list Z) (st : wpa_state) : option wpa_state :=
  let seed := list_inserts 0 mac (replicate 64 0) in
  let seed := list_inserts 6 (bssid st) seed in
  let seed := list_inserts 16 (map (fun i => u8 (Z.shiftr ticks (Z.of_nat i * 8))) (seq 0 8)) seed in
  h ← tnu_sha1 seed;
  let seed := <[31%nat := Z.lxor (nth 31 seed 0) 0xa5]> seed in
  tail ← tnu_sha1 seed;
  Some (set_snonce st (take 20 h ++ take 12 tail)).

Definition ptk_label : list Z := str "Pairwise key expansion".

Definition iwl_derive_ptk (mac : list Z) (st : wpa_state) : option wpa_state :=
  let '(mac1, mac2) := if 0 <? iwl_memcmp_fixed mac (bssid st) 6 then (bssid st, mac)
                       else (mac, bssid st) in
  let '(nonce1, nonce2) := if 0 <? iwl_memcmp_fixed (wpa_snonce st) (wpa_anonce st) 32
                           then (wpa_anonce st, wpa_snonce st)
                           else (wpa_snonce st, wpa_anonce st) in
  ptk ← tnu_wpa_prf (take 32 (wpa_pmk st)) ptk_label
          (take 6 mac1 ++ take 6 mac2 ++ take 32 nonce1 ++ take 32 nonce2) 64;
  Some (Wpa (wpa_pmk st) ptk true (wpa_snonce st) (wpa_anonce st) (wpa_replay_counter st)
            (wpa_key_msg1 st) (wpa_key_msg3 st) (ccmp_tx_pn st) (bssid st) (tx_sequence st)).

(** ** EAPOL-Key messages *)

Definition WPA_EAPOL_KEY_BASE_LEN : nat := 95.
Definition KEY_INFO_MSG2 : Z := Z.lor (Z.lor 2 0x0008) 0x0100.
Definition KEY_INFO_MSG4 : Z := Z.lor KEY_INFO_MSG2 0x0200.

Definition iwl_append_wpa2_psk_ccmp_rsn : list Z :=
  [48; 20] ++ put_le16 1 ++ [0x00; 0x0f; 0xac; 0x04] ++ put_le16 1 ++ [0x00; 0x0f; 0xac; 0x04] ++
  put_le16 1 ++ [0x00; 0x0f; 0xac; 0x02] ++ put_le16 0.

(** The fields both messages fill in; the key descriptor starts at byte 4. *)
Definition eapol_head (st : wpa_state) (body_len : nat) (info : Z) (total : nat) : list Z :=
  let out := replicate total 0 in
  let out := list_inserts 0 [2; 3] out in
  let out := list_inserts 2 (put_be16 (Z.of_nat body_len)) out in
  let out := list_inserts 4 [2] out in
  let out := list_inserts 5 (put_be16 info) out in
  let out := list_inserts 7 (put_be16 16) out in
  list_inserts 9 (put_be64 (wpa_replay_counter st)) out.

(** The message written to [out]; the empty list for a return value of 0. *)
Definition iwl_build_eapol_key_msg2 (st : wpa_state) (out_size : nat) : option (list Z) :=
  let rsn := iwl_append_wpa2_psk_ccmp_rsn in
  let eapol_len := (4 + WPA_EAPOL_KEY_BASE_LEN + length rsn)%nat in
  if negb (wpa_ptk_ready st) || (out_size <? eapol_len)%nat then Some []
  else
    let out := eapol_head st (WPA_EAPOL_KEY_BASE_LEN + length rsn) KEY_INFO_MSG2 eapol_len in
    let out := list_inserts 17 (take 32 (wpa_snonce st)) out in
    let out := list_inserts 97 (put_be16 (Z.of_nat (length rsn))) out in
    let out := list_inserts 99 rsn out in
    mic ← tnu_hmac_sha1 (take 16 (wpa_ptk st)) out;
    Some (list_inserts 81 (take 16 mic) out).

Definition iwl_build_eapol_key_msg4 (st : wpa_state) (out_size : nat) : option (list Z) :=
  let eapol_len := (4 + WPA_EAPOL_KEY_BASE_LEN)%nat in
  if negb (wpa_ptk_ready st) || (out_size <? eapol_len)%nat then Some []
  else
    let out := eapol_head st WPA_EAPOL_KEY_BASE_LEN KEY_INFO_MSG4 eapol_len in
    mic ← tnu_hmac_sha1 (take 16 (wpa_ptk st)) out;
    Some (list_inserts 81 (take 16 mic) out).

Definition iwl_verify_eapol_mic (st : wpa_state) (eapol : list Z) : option bool :=
  if negb (wpa_ptk_ready st) || (512 <? length eapol)%nat ||
     (length eapol <? 4 + WPA_EAPOL_KEY_BASE_LEN)%nat then Some false
  else
    let tmp := list_inserts 81 (replicate 16 0) eapol in
    mic ← tnu_hmac_sha1 (take 16 (wpa_ptk st)) tmp;
    Some (bool_decide (take 16 mic = take 16 (drop 81 eapol))).

Section Handshake.
(** The radio: the return value of [iwl_send_mgmt_frame] for a frame. *)
Context (send_mgmt_frame : list Z -> Z).
(** The interface's address and the access point's. *)
Context (mac ap_bssid : list Z).

(** [iwl_send_eapol_frame]: the new state, the return value and the frames
    handed to the radio. *)
Definition iwl_send_eapol_frame (st : wpa_state) (eapol : list Z) : wpa_state * Z * list (list Z) :=
  if (768 <? 24 + 8 + length eapol)%nat then (st, -1, [])
  else
    let hdr := [0x08; 0x01; 0; 0] ++ take 6 ap_bssid ++ take 6 mac ++ take 6 ap_bssid ++
               put_le16 (u16 (Z.shiftl (tx_sequence st) 4)) in
    let frame := hdr ++ [0xaa; 0xaa; 0x03; 0x00; 0x00; 0x00; 0x88; 0x8e] ++ eapol in
    let st := Wpa (wpa_pmk st) (wpa_ptk st) (wpa_ptk_ready st) (wpa_snonce st) (wpa_anonce st)
                  (wpa_replay_counter st) (wpa_key_msg1 st) (wpa_key_msg3 st) (ccmp_tx_pn st)
                  (bssid st) (u16 (tx_sequence st + 1)) in
    (st, send_mgmt_frame frame, [frame]).

Definition set_msg1 (st : wpa_state) (anonce : list Z) (replay : Z) : wpa_state :=
  Wpa (wpa_pmk st) (wpa_ptk st) (wpa_ptk_ready st) (wpa_snonce st) anonce replay
      (wpa_key_msg1 st) (wpa_key_msg3 st) (ccmp_tx_pn st) (bssid st) (tx_sequence st).
Definition set_key_msg1 (st : wpa_state) : wpa_state :=
  Wpa (wpa_pmk st) (wpa_ptk st) (wpa_ptk_ready st) (wpa_snonce st) (wpa_anonce st)
      (wpa_replay_counter st) true (wpa_key_msg3 st) (ccmp_tx_pn st) (bssid st) (tx_sequence st).
Definition set_msg3 (st : wpa_state) (replay : Z) : wpa_state :=
  Wpa (wpa_pmk st) (wpa_ptk st) (wpa_ptk_ready st) (wpa_snonce st) (wpa_anonce st)
      replay (wpa_key_msg1 st) true (ccmp_tx_pn st) (bssid st) (tx_sequence st).

Definition iwl_handle_eapol_key (ticks : Z) (st : wpa_state) (eapol : list Z)
    : option (wpa_state * Z * list (list Z)) :=
  if (length eapol <? 4 + WPA_EAPOL_KEY_BASE_LEN)%nat || negb (nth 1 eapol 0 =? 3)
  then Some (st, -1, [])
  else
    let key := drop 4 eapol in
    if negb (nth 0 key 0 =? 2) then Some (st, -1, [])
    else
      let info := be16_at (drop 1 key) in
      let replay := be64_at (drop 5 key) in
      let ack := negb (Z.land info 0x0080 =? 0) in
      let mic := negb (Z.land info 0x0100 =? 0) in
      let install := negb (Z.land info 0x0040 =? 0) in
      if ack && negb mic then
        let st := set_msg1 st (take 32 (drop 13 key)) replay in
        st ← (if nth 0 (wpa_snonce st) 0 =? 0 then iwl_make_snonce ticks mac st else Some st);
        st ← iwl_derive_ptk mac st;
        response ← iwl_build_eapol_key_msg2 st 256;
        if (length response =? 0)%nat then Some (st, -2, [])
        else
          let '(st, rc, sent) := iwl_send_eapol_frame st response in
          if rc <? 0 then Some (st, -2, sent) else Some (set_key_msg1 st, 0, sent)
      else if ack && mic && install then
        ok ← iwl_verify_eapol_mic st eapol;
        if negb ok then Some (st, -3, [])
        else
          let st := set_msg3 st replay in
          response ← iwl_build_eapol_key_msg4 st 128;
          if (length response =? 0)%nat then Some (st, -4, [])
          else
            let '(st, rc, sent) := iwl_send_eapol_frame st response in
            if rc <? 0 then Some (st, -4, sent) else Some (st, 0, sent)
      else Some (st, -1, []).

End Handshake.

(** ** CCMP *)

Definition ccmp_xor_block (dst src : list Z) : list Z := zip_with Z.lxor dst src.

Definition ccmp_ctr_block (nonce : list Z) (counter : Z) : list Z :=
  [0x01] ++ take 13 nonce ++ [u8 (Z.shiftr counter 8); u8 counter].

(** [addr2] is bytes 10 to 15 of the header. *)
Definition ccmp_nonce_from_pn (hdr : list Z) (pn : Z) : list Z :=
  [0] ++ take 6 (drop 10 hdr) ++
  [u8 (Z.shiftr pn 40); u8 (Z.shiftr pn 32); u8 (Z.shiftr pn 24); u8 (Z.shiftr pn 16);
   u8 (Z.shiftr pn 8); u8 pn].

Definition ccmp_pn_from_header (ccmp : list Z) : Z :=
  Z.lor (Z.lor (Z.lor (Z.lor (Z.lor
    (Z.shiftl (nth 7 ccmp 0) 40) (Z.shiftl (nth 6 ccmp 0) 32)) (Z.shiftl (nth 5 ccmp 0) 24))
    (Z.shiftl (nth 4 ccmp 0) 16)) (Z.shiftl (nth 1 ccmp 0) 8)) (nth 0 ccmp 0).

Definition ccmp_build_aad (frame : list Z) (hdr_len : nat) : list Z :=
  if (hdr_len <? 24)%nat then []
  else
    [nth 0 frame 0; Z.land (nth 1 frame 0) (u8 (Z.lnot 0x78))] ++
    take 18 (drop 4 frame) ++ [Z.land (nth 22 frame 0) 0x0f; 0].

(** A block: up to 16 bytes of data after [pre], padded with zeros. *)
Definition mac_block (pre data : list Z) : list Z :=
  let b := pre ++ data in b ++ replicate (16 - length b) 0.

Definition mac_step (tk x block : list Z) : list Z :=
  tnu_aes128_encrypt_block tk (ccmp_xor_block x block).

(** [while (off < len)] over the bytes not yet absorbed. *)
Fixpoint mac_loop (fuel : nat) (tk x data : list Z) : option (list Z) :=
  match fuel with
  | O => None
  | S f => match data with
           | [] => Some x
           | _ => mac_loop f tk (mac_step tk x (mac_block [] (take 16 data))) (drop 16 data)
           end
  end.

Definition ccmp_cbc_mac (tk nonce aad plain : list Z) : option (list Z) :=
  let plain_len := Z.of_nat (length plain) in
  let aad_len := Z.of_nat (length aad) in
  let x := mac_step tk (replicate 16 0)
             ([0x59] ++ take 13 nonce ++ [u8 (Z.shiftr plain_len 8); u8 plain_len]) in
  x ← (if (length aad =? 0)%nat then Some x
       else
         let x := mac_step tk x
                    (mac_block [u8 (Z.shiftr aad_len 8); u8 aad_len] (take 14 aad)) in
         mac_loop (S (length aad)) tk x (drop 14 aad));
  x ← mac_loop (S (length plain)) tk x plain;
  Some (take 8 x).

Fixpoint crypt_loop (fuel : nat) (tk nonce inp : list Z) (counter : Z) : option (list Z) :=
  match fuel with
  | O => None
  | S f =>
    match inp with
    | [] => Some []
    | _ =>
      let stream := tnu_aes128_encrypt_block tk (ccmp_ctr_block nonce counter) in
      rest ← crypt_loop f tk nonce (drop 16 inp) (u16 (counter + 1));
      Some (zip_with Z.lxor (take 16 inp) stream ++ rest)
    end
  end.

Definition ccmp_crypt_payload (tk nonce inp : list Z) (first_counter : Z) : option (list Z) :=
  crypt_loop (S (length inp)) tk nonce inp first_counter.

Definition set_tx_pn (st : wpa_state) (pn : Z) : wpa_state :=
  Wpa (wpa_pmk st) (wpa_ptk st) (wpa_ptk_ready st) (wpa_snonce st) (wpa_anonce st)
      (wpa_replay_counter st) (wpa_key_msg1 st) (wpa_key_msg3 st) pn (bssid st) (tx_sequence st).

(** [mic[i] ^= s0[i]] *)
Definition mask_mic (tk nonce mic : list Z) : list Z :=
  zip_with Z.lxor mic (tnu_aes128_encrypt_block tk (ccmp_ctr_block nonce 0)).

(** The new state and the frame written to [out]: empty for a return value of 0. *)
Definition iwl_ccmp_encrypt_frame (st : wpa_state) (plain : list Z) (out_size : Z)
    : option (wpa_state * list Z) :=
  let hdr_len := 24%nat in
  if (length plain <=? hdr_len)%nat || (out_size <? u64 (Z.of_nat (length plain) + 16)) ||
     negb (wpa_ptk_ready st) then Some (st, [])
  else
    let pn := u64 (ccmp_tx_pn st + 1) in
    let st := set_tx_pn st pn in
    let out := take hdr_len plain in
    let out := <[1%nat := Z.lor (nth 1 out 0) 0x40]> out in
    let out := out ++ [u8 pn; u8 (Z.shiftr pn 8); 0; 0x20; u8 (Z.shiftr pn 16);
                       u8 (Z.shiftr pn 24); u8 (Z.shiftr pn 32); u8 (Z.shiftr pn 40)] in
    let payload := drop hdr_len plain in
    let tk := take 16 (drop 32 (wpa_ptk st)) in
    let nonce := ccmp_nonce_from_pn out pn in
    let aad := ccmp_build_aad out hdr_len in
    mic ← ccmp_cbc_mac tk nonce aad payload;
    let mic := mask_mic tk nonce mic in
    cipher ← ccmp_crypt_payload tk nonce payload 1;
    Some (st, out ++ cipher ++ mic).

(** The plaintext; [Some None] for a return value of [false]. *)
Definition iwl_ccmp_decrypt_payload (st : wpa_state) (frame : list Z) (hdr_len : nat)
    (plain_size : nat) : option (option (list Z)) :=
  if negb (wpa_ptk_ready st) || (length frame <? hdr_len + 16)%nat then Some None
  else
    let ccmp := drop hdr_len frame in
    let cipher_len := (length frame - hdr_len - 8)%nat in
    if (cipher_len <? 8)%nat then Some None
    else
      let payload_len := (cipher_len - 8)%nat in
      if (plain_size <? payload_len)%nat then Some None
      else
        let pn := ccmp_pn_from_header ccmp in
        let tk := take 16 (drop 32 (wpa_ptk st)) in
        let nonce := ccmp_nonce_from_pn frame pn in
        plain ← ccmp_crypt_payload tk nonce (take payload_len (drop 8 ccmp)) 1;
        let aad := ccmp_build_aad frame hdr_len in
        mic ← ccmp_cbc_mac tk nonce aad plain;
        let expected_mic := mask_mic tk nonce mic in
        if bool_decide (expected_mic = take 8 (drop (8 + payload_len) ccmp))
        then Some (Some plain) else Some None.

(** ** Proofs: key derivation *)

Lemma memcmp_fixed_swap n : forall a b, iwl_memcmp_fixed b a n = - iwl_memcmp_fixed a b n.
Proof.
  induction n as [|n IH]; intros [|x a] [|y b]; try done. cbn [iwl_memcmp_fixed].
  rewrite (Z.eqb_sym y x). destruct (Z.eqb_spec x y); cbn [negb]; [done|].
  zcases; lia.
Qed.

Lemma memcmp_fixed_eq n : forall a b, (n <= length a)%nat -> (n <= length b)%nat ->
  iwl_memcmp_fixed a b n = 0 -> take n a = take n b.
Proof.
  induction n as [|n IH]; intros [|x a] [|y b] Ha Hb H; simpl in *; try lia; [done..|].
  destruct (Z.eqb_spec x y) as [->|]; cbn [negb] in H.
  - f_equal. apply IH; lia || done.
  - destruct (x <? y); lia.
Qed.

(** Sorting a pair by [memcmp] does not depend on the order it is given in. *)
Lemma memcmp_sort n a b : (n <= length a)%nat -> (n <= length b)%nat ->
  (let '(x, y) := if 0 <? iwl_memcmp_fixed a b n then (b, a) else (a, b) in take n x ++ take n y) =
  (let '(x, y) := if 0 <? iwl_memcmp_fixed b a n then (a, b) else (b, a) in take n x ++ take n y).
Proof.
  intros Ha Hb. rewrite (memcmp_fixed_swap n a b).
  destruct (Z.ltb_spec 0 (iwl_memcmp_fixed a b n)), (Z.ltb_spec 0 (- iwl_memcmp_fixed a b n));
    try done; [lia|]. rewrite (memcmp_fixed_eq n a b); [done|done|done|lia].
Qed.

(** The other end of the link: the peer's address and nonce in place of ours. *)
Definition peer_view (mac : list Z) (st : wpa_state) : wpa_state :=
  Wpa (wpa_pmk st) (wpa_ptk st) (wpa_ptk_ready st) (wpa_anonce st) (wpa_snonce st)
      (wpa_replay_counter st) (wpa_key_msg1 st) (wpa_key_msg3 st) (ccmp_tx_pn st) mac (tx_sequence st).

(** Key agreement: two ends that share the PMK and exchanged their nonces
    derive the same PTK, whichever of them has the smaller address or nonce. *)
Theorem derive_ptk_agrees mac st :
  length mac = 6%nat -> length (bssid st) = 6%nat ->
  length (wpa_snonce st) = 32%nat -> length (wpa_anonce st) = 32%nat ->
  wpa_ptk <$> iwl_derive_ptk mac st = wpa_ptk <$> iwl_derive_ptk (bssid st) (peer_view mac st).
Proof.
  intros Hm Hb Hs Ha. unfold iwl_derive_ptk. cbn [wpa_snonce wpa_anonce bssid wpa_pmk peer_view].
  pose proof (memcmp_sort 6 mac (bssid st) ltac:(lia) ltac:(lia)) as E1.
  pose proof (memcmp_sort 32 (wpa_snonce st) (wpa_anonce st) ltac:(lia) ltac:(lia)) as E2.
  destruct (if 0 <? iwl_memcmp_fixed mac _ 6 then _ else _) as [x1 y1].
  destruct (if 0 <? iwl_memcmp_fixed _ mac 6 then _ else _) as [x2 y2].
  destruct (if 0 <? iwl_memcmp_fixed (wpa_snonce st) _ 32 then _ else _) as [u1 v1].
  destruct (if 0 <? iwl_memcmp_fixed (wpa_anonce st) _ 32 then _ else _) as [u2 v2].
  rewrite (app_assoc (take 6 x1)), (app_assoc (take 6 x2)), E1, E2.
  by destruct (tnu_wpa_prf _ _ _ _).
Qed.

(** ** Proofs: EAPOL-Key integrity *)

Lemma insert_front (x : Z) l : <[0%nat:=x]> l = match l with [] => [] | _ :: l => x :: l end.
Proof. by destruct l. Qed.

(** Zeroing the MIC field of a message whose MIC was written over zeros gives
    back the message the MIC was computed on. *)
Lemma inserts_undo (i : nat) (mic l : list Z) :
  (i + length mic <= length l)%nat -> take (length mic) (drop i l) = replicate (length mic) 0 ->
  list_inserts i (replicate (length mic) 0) (list_inserts i mic l) = l.
Proof.
  intros Hl Hz. apply list_eq. intros j.
  destruct (decide (j < i)%nat); [by rewrite !list_lookup_inserts_lt by done|].
  destruct (decide (i + length mic <= j)%nat).
  { by rewrite !list_lookup_inserts_ge by (rewrite ?length_replicate; lia). }
  rewrite list_lookup_inserts by (rewrite ?length_inserts, ?length_replicate; lia).
  rewrite <- Hz, lookup_take_lt, lookup_drop by lia. f_equal. lia.
Qed.

Lemma inserts_read (i : nat) (k l : list Z) :
  (i + length k <= length l)%nat -> take (length k) (drop i (list_inserts i k l)) = k.
Proof.
  intros Hl. apply list_eq. intros j. destruct (decide (j < length k)%nat).
  - rewrite lookup_take_lt, lookup_drop by lia.
    rewrite list_lookup_inserts by lia. f_equal. lia.
  - rewrite lookup_take_ge by lia. symmetry. apply lookup_ge_None_2. lia.
Qed.

Lemma inserts_disjoint (i j n : nat) (k l : list Z) :
  (j + n <= i \/ i + length k <= j)%nat -> take n (drop j (list_inserts i k l)) = take n (drop j l).
Proof.
  intros H. apply list_eq. intros x. destruct (decide (x < n)%nat).
  - rewrite !lookup_take_lt, !lookup_drop by done. destruct H.
    + by rewrite list_lookup_inserts_lt by lia.
    + by rewrite list_lookup_inserts_ge by lia.
  - by rewrite !lookup_take_ge by lia.
Qed.

#[local] Opaque hmac_sha1_spec.

(** Signing with the key confirmation key and checking the signature. *)
Lemma sign_verify st out :
  wpa_ptk_ready st = true -> length (wpa_ptk st) = 64%nat ->
  (99 <= length out <= 512)%nat -> take 16 (drop 81 out) = replicate 16 0 ->
  exists mic, tnu_hmac_sha1 (take 16 (wpa_ptk st)) out = Some mic /\
    iwl_verify_eapol_mic st (list_inserts 81 (take 16 mic) out) = Some true.
Proof.
  intros Hr Hk Hl Hz.
  pose proof (hmac_sha1_eq (take 16 (wpa_ptk st)) out) as Hh.
  rewrite length_take, Hk in Hh. specialize (Hh ltac:(lia) ltac:(lia)).
  exists (hmac_sha1_spec (take 16 (wpa_ptk st)) out). split; [done|]. unfold iwl_verify_eapol_mic.
  set (mic := hmac_sha1_spec _ _) in *. assert (length (take 16 mic) = 16%nat) as Hm
    by (rewrite length_take; unfold mic; by rewrite length_hmac_sha1_spec).
  rewrite Hr, length_inserts. unfold WPA_EAPOL_KEY_BASE_LEN.
  destruct (Nat.ltb_spec 512 (length out)); [lia|].
  destruct (Nat.ltb_spec (length out) (4 + 95)); [lia|]. cbn [negb orb].
  pose proof (inserts_undo 81 (take 16 mic) out) as E. rewrite Hm in E. rewrite E by (done || lia).
  rewrite Hh, bind_some. f_equal. apply bool_decide_eq_true.
  pose proof (inserts_read 81 (take 16 mic) out) as E'. rewrite Hm in E'. rewrite E' by lia. done.
Qed.

(** Both messages the station builds carry a MIC that the check of
    [iwl_verify_eapol_mic] accepts at an end that holds the same PTK. *)
Theorem eapol_mic_roundtrip st out_size :
  wpa_ptk_ready st = true -> length (wpa_ptk st) = 64%nat -> length (wpa_snonce st) = 32%nat ->
  (121 <= out_size)%nat ->
  (exists m2, iwl_build_eapol_key_msg2 st out_size = Some m2 /\ length m2 = 121%nat /\
     iwl_verify_eapol_mic st m2 = Some true) /\
  (exists m4, iwl_build_eapol_key_msg4 st out_size = Some m4 /\ length m4 = 99%nat /\
     iwl_verify_eapol_mic st m4 = Some true).
Proof.
  intros Hr Hk Hs Hn. unfold iwl_build_eapol_key_msg2, iwl_build_eapol_key_msg4. rewrite Hr.
  change (4 + WPA_EAPOL_KEY_BASE_LEN + _)%nat with 121%nat.
  change (4 + WPA_EAPOL_KEY_BASE_LEN)%nat with 99%nat.
  destruct (Nat.ltb_spec out_size 121); [lia|]. destruct (Nat.ltb_spec out_size 99); [lia|].
  cbn [negb orb]. split.
  - set (out := list_inserts 99 _ _).
    assert (length out = 121%nat) as Ho by (unfold out, eapol_head; by rewrite !length_inserts).
    destruct (sign_verify st out Hr Hk) as (mic & -> & Hv); [lia| |].
    + unfold out. rewrite !inserts_disjoint; [done|..]; rewrite ?length_take; lia.
    + rewrite bind_some. eexists. split; [done|]. by rewrite length_inserts.
  - set (out := eapol_head _ _ _ _).
    assert (length out = 99%nat) as Ho by (unfold out, eapol_head; by rewrite !length_inserts).
    destruct (sign_verify st out Hr Hk) as (mic & -> & Hv); [lia| |].
    + done.
    + rewrite bind_some. eexists. split; [done|]. by rewrite length_inserts.
Qed.

(** ** Proofs: CCMP *)

(** The packet number the header carries: the low 48 bits. *)
Lemma pn_from_header pn r1 r2 rest :
  ccmp_pn_from_header ([u8 pn; u8 (Z.shiftr pn 8); r1; r2; u8 (Z.shiftr pn 16);
    u8 (Z.shiftr pn 24); u8 (Z.shiftr pn 32); u8 (Z.shiftr pn 40)] ++ rest) = pn mod 2 ^ 48.
Proof.
  unfold ccmp_pn_from_header. cbn [app nth]. rewrite <- !Z.lor_assoc, !Z.shiftr_div_pow2 by lia.
  pose proof (u8_range pn). pose proof (u8_range (pn / 2 ^ 8)). pose proof (u8_range (pn / 2 ^ 16)).
  pose proof (u8_range (pn / 2 ^ 24)). pose proof (u8_range (pn / 2 ^ 32)).
  pose proof (u8_range (pn / 2 ^ 40)).
  rewrite (lor_shift_add _ _ 8), (lor_shift_add _ _ 16), (lor_shift_add _ _ 24),
    (lor_shift_add _ _ 32), (lor_shift_add _ _ 40) by lia.
  unfold u8. Z.div_mod_to_equations. lia.
Qed.

(** The nonce depends on those 48 bits only. *)
Lemma nonce_low_bits hdr pn : ccmp_nonce_from_pn hdr (pn mod 2 ^ 48) = ccmp_nonce_from_pn hdr pn.
Proof.
  unfold ccmp_nonce_from_pn.
  assert (forall k, 0 <= k <= 40 -> u8 (Z.shiftr (pn mod 2 ^ 48) k) = u8 (Z.shiftr pn k)) as H.
  { intros k Hk. unfold u8. change 256 with (2 ^ 8). apply Z.bits_inj'. intros n Hn.
    rewrite !Z.testbit_mod_pow2, !Z.shiftr_spec, Z.testbit_mod_pow2 by lia.
    destruct (Z.ltb_spec n 8); [|done]. replace (n + k <? 48) with true by (symmetry; apply Z.ltb_lt; lia).
    done. }
  rewrite !H by lia. pose proof (H 0 ltac:(lia)) as H0. rewrite !Z.shiftr_0_r in H0. by rewrite H0.
Qed.

Lemma nonce_app a b pn : (16 <= length a)%nat ->
  ccmp_nonce_from_pn (a ++ b) pn = ccmp_nonce_from_pn a pn.
Proof.
  intros Ha. unfold ccmp_nonce_from_pn.
  by rewrite drop_app_le, take_app_le by (rewrite ?length_drop; lia).
Qed.

Lemma aad_app a b n : (23 <= length a)%nat -> ccmp_build_aad (a ++ b) n = ccmp_build_aad a n.
Proof.
  intros Ha. unfold ccmp_build_aad. destruct (n <? 24)%nat; [done|].
  rewrite !app_nth1 by lia. by rewrite drop_app_le, take_app_le by (rewrite ?length_drop; lia).
Qed.

Section Keyed.
Context (tk : list Z) (Htk : bytes 16 tk).

Lemma mac_loop_total fuel : forall x data, (length data < fuel)%nat ->
  exists y, mac_loop fuel tk x data = Some y /\ (length x = 16%nat -> length y = 16%nat).
Proof.
  induction fuel as [|fuel IH]; intros x data Hf; [lia|]. cbn [mac_loop].
  destruct data as [|b data]; [by exists x|].
  destruct (IH (mac_step tk x (mac_block [] (take 16 (b :: data)))) (drop 16 (b :: data))) as (y & -> & Hy).
  { rewrite length_drop. simpl in *. lia. }
  exists y. split; [done|]. intros _. apply Hy. by apply encrypt_length.
Qed.

Lemma ccmp_cbc_mac_total nonce aad plain :
  exists mic, ccmp_cbc_mac tk nonce aad plain = Some mic /\ length mic = 8%nat.
Proof.
  unfold ccmp_cbc_mac. set (x0 := mac_step tk (replicate 16 0) _).
  assert (exists x, (if (length aad =? 0)%nat then Some x0 else
    mac_loop (S (length aad)) tk (mac_step tk x0 (mac_block
      [u8 (Z.shiftr (Z.of_nat (length aad)) 8); u8 (Z.of_nat (length aad))] (take 14 aad)))
      (drop 14 aad)) = Some x /\ length x = 16%nat) as (x & -> & Hx).
  { destruct (length aad =? 0)%nat; [exists x0; split; [done|by apply encrypt_length]|].
    edestruct (mac_loop_total (S (length aad))) as (y & -> & Hy); [|exists y; split; [done|]].
    - rewrite length_drop. lia.
    - apply Hy. by apply encrypt_length. }
  rewrite bind_some. destruct (mac_loop_total (S (length plain)) x plain) as (y & -> & Hy); [lia|].
  rewrite bind_some. eexists. split; [done|]. rewrite length_take, Hy by done. done.
Qed.

Lemma zip_lxor_cancel a b : (length a <= length b)%nat ->
  zip_with Z.lxor (zip_with Z.lxor a b) b = a.
Proof.
  revert b. induction a as [|x a IH]; intros [|y b] H; simpl in *; try done; [lia|].
  rewrite lxor_cancel, IH by lia. done.
Qed.

(** Counter mode undoes itself. *)
Lemma crypt_loop_involutive nonce fuel : forall inp c, (length inp < fuel)%nat ->
  exists out, crypt_loop fuel tk nonce inp c = Some out /\ length out = length inp /\
    crypt_loop fuel tk nonce out c = Some inp.
Proof.
  induction fuel as [|fuel IH]; intros inp c Hf; [lia|]. cbn [crypt_loop].
  destruct inp as [|x inp']; [by exists []|]. set (inp := x :: inp') in *.
  assert (0 < length inp)%nat as H0 by (simpl; lia).
  set (s := tnu_aes128_encrypt_block _ _).
  assert (length s = 16%nat) as Hs by by apply encrypt_length.
  destruct (IH (drop 16 inp) (u16 (c + 1))) as (r & Hr & Hl & Hr').
  { rewrite length_drop. lia. }
  rewrite Hr, bind_some. set (b := zip_with Z.lxor (take 16 inp) s).
  assert (length b = Nat.min 16 (length inp)) as Hb
    by (unfold b; rewrite length_zip_with, length_take; lia).
  rewrite length_drop in Hl.
  exists (b ++ r). split; [done|]. split; [rewrite length_app; lia|].
  destruct (b ++ r) as [|z l] eqn:E.
  { apply (f_equal length) in E. rewrite length_app, Hb in E. cbn [length] in E. lia. }
  rewrite <- E. clear z l E.
  assert (drop 16 (b ++ r) = r) as ->.
  { destruct (decide (16 <= length inp)%nat).
    - rewrite drop_app_length' by lia. done.
    - assert (r = []) as -> by (apply nil_length_inv; lia). rewrite app_nil_r, drop_ge by lia. done. }
  assert (take 16 (b ++ r) = b) as ->.
  { destruct (decide (16 <= length inp)%nat).
    - by rewrite take_app_length' by lia.
    - assert (r = []) as -> by (apply nil_length_inv; lia). rewrite app_nil_r, take_ge by lia. done. }
  rewrite Hr', bind_some. unfold b. rewrite zip_lxor_cancel by (rewrite length_take; lia).
  by rewrite take_drop.
Qed.

End Keyed.

(** C9 CCMP round trip: a frame that [iwl_ccmp_encrypt_frame] protects is
    accepted by [iwl_ccmp_decrypt_payload] at an end with the same temporal key,
    and decrypts to the payload that was sent. *)
Theorem ccmp_roundtrip st plain out_size st' frame rx plain_size :
  iwl_ccmp_encrypt_frame st plain out_size = Some (st', frame) -> frame <> [] ->
  bytes 64 (wpa_ptk st) ->
  wpa_ptk_ready rx = true -> wpa_ptk rx = wpa_ptk st -> (length plain - 24 <= plain_size)%nat ->
  iwl_ccmp_decrypt_payload rx frame 24 plain_size = Some (Some (drop 24 plain)).
Proof.
  intros He Hne [Hk1 Hk2] Hr Hk Hn. unfold iwl_ccmp_encrypt_frame in He.
  destruct (_ || _) eqn:Hg; [by simplify_eq|]. bcases.
  match goal with H : (_ <=? _)%nat = false |- _ => apply Nat.leb_gt in H as Hlen end.
  set (tk := take 16 (drop 32 (wpa_ptk st))) in *.
  assert (bytes 16 tk) as Htk.
  { split; [unfold tk; rewrite length_take, length_drop; lia|by apply Forall_take, Forall_drop]. }
  set (pn := u64 (ccmp_tx_pn st + 1)) in *.
  set (hdr := <[1%nat := _]> (take 24 plain)) in He.
  assert (length hdr = 24%nat) as Hh by (unfold hdr; rewrite length_insert, length_take; lia).
  set (ch := [u8 pn; _; _; _; _; _; _; _]) in He.
  cbv zeta in He. change (wpa_ptk (set_tx_pn st pn)) with (wpa_ptk st) in He. fold tk in He.
  rewrite nonce_app, aad_app in He by lia.
  set (nonce := ccmp_nonce_from_pn hdr pn) in *. set (aad := ccmp_build_aad hdr 24) in *.
  set (payload := drop 24 plain) in *. assert (length payload = length plain - 24)%nat as Hpl
    by (unfold payload; by rewrite length_drop).
  destruct (ccmp_cbc_mac_total tk Htk nonce aad payload) as (mic & Hmac & Hml).
  destruct (crypt_loop_involutive tk Htk nonce (S (length payload)) payload 1) as (ci & Hc & Hcl & Hc');
    [lia|].
  unfold ccmp_crypt_payload in He. rewrite Hmac, bind_some, Hc, bind_some in He.
  injection He as <- <-. clear Hne.
  set (mm := mask_mic tk nonce mic). assert (length mm = 8%nat) as Hmm
    by (unfold mm, mask_mic; rewrite length_zip_with, Hml, encrypt_length by done; done).
  unfold iwl_ccmp_decrypt_payload. rewrite Hr, Hk. fold tk. cbn [negb orb].
  rewrite <- app_assoc. rewrite nonce_app, aad_app, drop_app_length' by lia.
  assert (length (hdr ++ ch ++ ci ++ mm) = 40 + length payload)%nat as Hfl
    by (rewrite !length_app; change (length ch) with 8%nat; lia).
  rewrite Hfl. change (24 + 16)%nat with 40%nat.
  destruct (Nat.ltb_spec (40 + length payload) 40); [lia|].
  destruct (Nat.ltb_spec (40 + length payload - 24 - 8) 8); [lia|].
  replace (40 + length payload - 24 - 8 - 8)%nat with (length payload) by lia.
  destruct (Nat.ltb_spec plain_size (length payload)); [lia|].
  assert (ccmp_pn_from_header (ch ++ ci ++ mm) = pn mod 2 ^ 48) as -> by apply pn_from_header.
  rewrite nonce_low_bits. fold nonce.
  rewrite (drop_app_length' ch _ 8), (take_app_length' ci) by (reflexivity || lia).
  unfold ccmp_crypt_payload. rewrite Hcl, Hc', bind_some. fold aad. rewrite Hmac, bind_some. fold mm.
  rewrite <- drop_drop, (drop_app_length' ch _ 8), (drop_app_length' ci) by (reflexivity || lia).
  rewrite take_ge by lia. by rewrite bool_decide_eq_true_2.
Qed.

(** The additional authenticated data never has the Protected bit, which the
    frame itself has and which IEEE 802.11 leaves set there. *)
Lemma aad_drops_protected st plain out_size st' frame :
  iwl_ccmp_encrypt_frame st plain out_size = Some (st', frame) -> frame <> [] ->
  Z.testbit (nth 1 frame 0) 6 = true /\ Z.testbit (nth 1 (ccmp_build_aad frame 24) 0) 6 = false.
Proof.
  intros He Hne. split.
  - unfold iwl_ccmp_encrypt_frame in He. destruct (_ || _) eqn:Hg; [by simplify_eq|].
    bcases. match goal with H : (_ <=? _)%nat = false |- _ => apply Nat.leb_gt in H as Hlen end.
    cbv zeta in He. destruct (ccmp_cbc_mac _ _ _ _); [|done].
    destruct (ccmp_crypt_payload _ _ _ _); [|done]. rewrite !bind_some in He. injection He as _ <-.
    destruct plain as [|a [|b plain]]; [simpl in Hlen; lia..|].
    cbn [take nth insert list_insert app]. rewrite Z.lor_spec. apply orb_true_r.
  - unfold ccmp_build_aad. cbn [Nat.ltb Nat.leb app nth]. rewrite Z.land_spec.
    change (Z.testbit (u8 (Z.lnot 120)) 6) with false. apply andb_false_r.
Qed.

(** ** Proofs: the handshake *)

Lemma send_eapol_keeps send mac ap st eapol st' rc sent :
  iwl_send_eapol_frame send mac ap st eapol = (st', rc, sent) ->
  wpa_key_msg3 st' = wpa_key_msg3 st /\ wpa_ptk st' = wpa_ptk st.
Proof. unfold iwl_send_eapol_frame. case_match; intros; by simplify_eq. Qed.

Lemma derive_keeps mac st st' :
  iwl_derive_ptk mac st = Some st' -> wpa_key_msg3 st' = wpa_key_msg3 st.
Proof.
  unfold iwl_derive_ptk.
  destruct (if 0 <? iwl_memcmp_fixed mac _ _ then _ else _) as [m1 m2].
  destruct (if 0 <? iwl_memcmp_fixed _ _ 32 then _ else _) as [n1 n2].
  destruct (tnu_wpa_prf _ _ _ _); [|done]. rewrite bind_some. intros H. injection H as <-. reflexivity.
Qed.

Lemma snonce_keeps ticks mac st st' :
  iwl_make_snonce ticks mac st = Some st' -> wpa_key_msg3 st' = wpa_key_msg3 st.
Proof.
  unfold iwl_make_snonce. cbv zeta. intros (h & _ & H)%bind_Some.
  apply bind_Some in H as (t & _ & H). by injection H as <-.
Qed.

(** C22 The handshake is completed only by an authenticated message: when
    [iwl_handle_eapol_key] sets the message-3 flag, the message carried a MIC
    valid under the PTK of message 1, and that PTK is still the one installed. *)
Theorem msg3_authenticated send mac ap ticks st eapol st' rc sent :
  iwl_handle_eapol_key send mac ap ticks st eapol = Some (st', rc, sent) ->
  wpa_key_msg3 st = false -> wpa_key_msg3 st' = true ->
  iwl_verify_eapol_mic st eapol = Some true /\ wpa_ptk st' = wpa_ptk st.
Proof.
  intros H H0 H1. unfold iwl_handle_eapol_key in H. cbv zeta in H.
  destruct (_ || _); [simplify_eq; congruence|]. destruct (negb _); [simplify_eq; congruence|].
  destruct (_ && negb _).
  - exfalso. destruct (if nth 0 _ 0 =? 0 then _ else _) as [s1|] eqn:E1; [|done]. rewrite bind_some in H.
    assert (wpa_key_msg3 s1 = false) as K1.
    { destruct (_ =? 0) in E1; [apply snonce_keeps in E1 as ->|injection E1 as <-]; done. }
    destruct (iwl_derive_ptk mac s1) as [s2|] eqn:E2; [|done]. rewrite bind_some in H.
    apply derive_keeps in E2. destruct (iwl_build_eapol_key_msg2 s2 256) as [r|]; [|done].
    rewrite bind_some in H. destruct (_ =? 0)%nat; [simplify_eq; congruence|].
    destruct (iwl_send_eapol_frame _ _ _ s2 r) as [[s3 rc3] sent3] eqn:E3.
    apply send_eapol_keeps in E3 as [E3 _].
    destruct (rc3 <? 0); simplify_eq; cbn [set_key_msg1 wpa_key_msg3] in *; congruence.
  - destruct (_ && _); [|simplify_eq; congruence].
    destruct (iwl_verify_eapol_mic st eapol) as [ok|]; [|done]. rewrite bind_some in H.
    destruct ok; cbn [negb] in H; [|simplify_eq; congruence]. split; [done|].
    destruct (iwl_build_eapol_key_msg4 _ _) as [r|]; [|done]. rewrite bind_some in H.
    destruct (_ =? 0)%nat; [by simplify_eq|].
    destruct (iwl_send_eapol_frame _ _ _ _ r) as [[s3 rc3] sent3] eqn:E3.
    apply send_eapol_keeps in E3 as [_ E3]. destruct (rc3 <? 0); by simplify_eq.
Qed.

(** ** Witnesses *)

Definition demo_mac : list Z := [2; 0; 0; 0; 0; 1].
Definition demo_wpa : wpa_state :=
  Wpa (replicate 32 7) (map Z.of_nat (seq 0 64)) true (replicate 32 9) (replicate 32 5) 1 true false
      0 [2; 0; 0; 0; 0; 9] 0.

Lemma derive_ptk_agrees_witness :
  wpa_ptk <$> iwl_derive_ptk demo_mac demo_wpa =
  wpa_ptk <$> iwl_derive_ptk [2; 0; 0; 0; 0; 9] (peer_view demo_mac demo_wpa).
Proof. apply (derive_ptk_agrees demo_mac demo_wpa); reflexivity. Defined.

Lemma eapol_mic_roundtrip_witness :
  (exists m2, iwl_build_eapol_key_msg2 demo_wpa 256 = Some m2 /\ length m2 = 121%nat /\
     iwl_verify_eapol_mic demo_wpa m2 = Some true) /\
  (exists m4, iwl_build_eapol_key_msg4 demo_wpa 256 = Some m4 /\ length m4 = 99%nat /\
     iwl_verify_eapol_mic demo_wpa m4 = Some true).
Proof. apply (eapol_mic_roundtrip demo_wpa 256); [reflexivity..|lia]. Defined.

Definition demo_plain : list Z := [8; 1; 0; 0] ++ map Z.of_nat (seq 0 41).
Definition demo_frame : list Z :=
  default [] (snd <$> iwl_ccmp_encrypt_frame demo_wpa demo_plain 1600).

Lemma demo_encrypt :
  iwl_ccmp_encrypt_frame demo_wpa demo_plain 1600 = Some (set_tx_pn demo_wpa 1, demo_frame).
Proof. vm_compute. reflexivity. Qed.

Lemma demo_ptk_bytes : bytes 64 (wpa_ptk demo_wpa).
Proof.
  split; [reflexivity|]. apply Forall_map, Forall_forall. intros x Hx%elem_of_seq.
  unfold byte, compose. lia.
Qed.

Lemma ccmp_roundtrip_witness :
  iwl_ccmp_decrypt_payload demo_wpa demo_frame 24 1600 = Some (Some (drop 24 demo_plain)).
Proof.
  apply (ccmp_roundtrip _ _ _ _ _ demo_wpa 1600 demo_encrypt);
    [vm_compute; discriminate|apply demo_ptk_bytes|reflexivity|reflexivity|vm_compute; lia].
Defined.

(** Message 3 as an access point with the same PTK would sign it. *)
Definition demo_msg3 : list Z :=
  let m := list_inserts 5 (put_be16 0x13ca) (eapol_head demo_wpa 95 0 99) in
  list_inserts 81 (take 16 (default [] (tnu_hmac_sha1 (take 16 (wpa_ptk demo_wpa)) m))) m.

Lemma msg3_authenticated_witness :
  exists st' rc sent,
    iwl_handle_eapol_key (fun _ => 0) demo_mac demo_mac 0 demo_wpa demo_msg3 = Some (st', rc, sent) /\
    iwl_verify_eapol_mic demo_wpa demo_msg3 = Some true /\ wpa_ptk st' = wpa_ptk demo_wpa.
Proof.
  destruct (iwl_handle_eapol_key (fun _ => 0) demo_mac demo_mac 0 demo_wpa demo_msg3)
    as [[[st' rc] sent]|] eqn:E; [|exfalso; vm_compute in E; discriminate E].
  exists st', rc, sent. split; [done|].
  apply (msg3_authenticated (fun _ => 0) demo_mac demo_mac 0 demo_wpa demo_msg3 st' rc sent E);
    [reflexivity|]. vm_compute in E. injection E as <- _ _. reflexivity.
Defined.
