(* ===== verification/Wifi.v ===== *)
(** * kernel/drivers/net/iwlwifi.c: received frames, access points, sent frames

    What the driver makes of a frame from the air, before it knows who sent it:
    beacons, authentication and association answers, data frames. A frame is the
    list of its bytes and a pointer into it an offset; a read outside is [None].
    The key handshake and CCMP are those of [Wpa]. Frames to send are written in
    a buffer of the size the caller gives: a write outside of it is [None]. *)
From S2P Require Import Prelude Buf Digest Sha1 Aes Wpa.

(** ** State *)

Definition IWLWIFI_AP_CACHE_MAX : nat := 16.

(** [ap_ssid] has 33 bytes. *)
Record iwlwifi_ap := Ap { ap_valid : bool; ap_ssid : list Z; ap_ssid_len : Z; ap_bssid : list Z;
  ap_channel : Z; ap_rssi : Z; ap_privacy : bool; ap_security_flags : Z }.

Record wifi_state := Wifi { w_wpa : wpa_state; aps : list iwlwifi_ap; ap_count : nat;
  auth_done : bool; auth_status : Z; assoc_done : bool; assoc_status : Z; assoc_id : Z;
  associated : bool; link_ready : bool; rx_callback : bool; associated_ssid : list Z }.

Definition set_aps (l : list iwlwifi_ap) (n : nat) (st : wifi_state) : wifi_state :=
  Wifi (w_wpa st) l n (auth_done st) (auth_status st) (assoc_done st) (assoc_status st) (assoc_id st)
    (associated st) (link_ready st) (rx_callback st) (associated_ssid st).
Definition set_auth (status : Z) (st : wifi_state) : wifi_state :=
  Wifi (w_wpa st) (aps st) (ap_count st) true status (assoc_done st) (assoc_status st) (assoc_id st)
    (associated st) (link_ready st) (rx_callback st) (associated_ssid st).
Definition set_assoc (status aid : Z) (st : wifi_state) : wifi_state :=
  Wifi (w_wpa st) (aps st) (ap_count st) (auth_done st) (auth_status st) true status aid
    (associated st) (link_ready st) (rx_callback st) (associated_ssid st).
Definition set_wpa (w : wpa_state) (st : wifi_state) : wifi_state :=
  Wifi w (aps st) (ap_count st) (auth_done st) (auth_status st) (assoc_done st) (assoc_status st) (assoc_id st)
    (associated st) (link_ready st) (rx_callback st) (associated_ssid st).

(** ** Fields *)

Definition byte_at (p : list Z) (off : Z) : option Z := get 1 p off.
Definition le16_at (p : list Z) (off : Z) : option Z := get 2 p off.
Definition le32_at (p : list Z) (off : Z) : option Z := get 4 p off.
Definition le64_at (p : list Z) (off : Z) : option Z :=
  lo ← le32_at p off; hi ← le32_at p (off + 4); Some (Z.lor lo (Z.shiftl hi 32)).

(** [struct ieee80211_hdr3] *)
Definition HDR3 : Z := 24.
Definition TYPE_MASK : Z := 0x0c.
Definition TYPE_MGT : Z := 0x00.
Definition TYPE_DATA : Z := 0x08.
Definition SUBTYPE_MASK : Z := 0xf0.
Definition SUBTYPE_PROBE_REQ : Z := 0x40.
Definition SUBTYPE_PROBE_RESP : Z := 0x50.
Definition SUBTYPE_AUTH : Z := 0xb0.
Definition SUBTYPE_ASSOC_REQ : Z := 0x00.
Definition SUBTYPE_ASSOC_RESP : Z := 0x10.
Definition SUBTYPE_BEACON : Z := 0x80.
Definition FC1_PROTECTED : Z := 0x40.
Definition CAPINFO_PRIVACY : Z := 0x0010.
Definition CAPINFO_ESS : Z := 0x0001.
Definition ELEMID_SSID : Z := 0.
Definition ELEMID_RATES : Z := 1.
Definition ELEMID_DSPARMS : Z := 3.
Definition ELEMID_RSN : Z := 48.
Definition WIFI_AP_PRIVACY : Z := 1.
Definition WIFI_AP_HIDDEN : Z := 2.
Definition WIFI_AP_WEP : Z := 4.
Definition WIFI_AP_WPA : Z := 8.
Definition WIFI_AP_WPA2 : Z := 16.
Definition WIFI_AP_WPA3 : Z := 32.
Definition flag (v mask : Z) : bool := negb (Z.land v mask =? 0).

(** ** The cache of access points *)

Definition iwl_mac_equal (a b : list Z) : bool := bytes_eq a b.

(** The entry of this address, or else the first free one. *)
Fixpoint slot_loop (i : nat) (l : list iwlwifi_ap) (bssid : list Z) (free : option nat) : option nat :=
  match l with
  | [] => free
  | ap :: l =>
    if ap_valid ap && iwl_mac_equal (ap_bssid ap) bssid then Some i
    else slot_loop (S i) l bssid
           (if negb (ap_valid ap) then match free with None => Some i | _ => free end else free)
  end.

(** [ssid] has [ssid_len] bytes and is not NULL. *)
Definition iwl_cache_ap (ssid : list Z) (ssid_len : Z) (bssid : list Z) (channel : Z) (privacy : bool)
    (security_flags rssi : Z) (st : wifi_state) : wifi_state :=
  if 32 <? ssid_len then st
  else
    match slot_loop 0 (aps st) bssid None with
    | None => st
    | Some slot =>
      let is_new := match aps st !! slot with Some ap => negb (ap_valid ap) | None => false end in
      let text := if ssid_len =? 0 then str "<hidden>" else ssid in
      let ap := Ap true (pad 33 text) ssid_len bssid channel rssi privacy security_flags in
      let count := if is_new && (ap_count st <? IWLWIFI_AP_CACHE_MAX)%nat then S (ap_count st) else ap_count st in
      set_aps (<[slot := ap]> (aps st)) count st
    end.

(** [ssid] is a C string; the names in the cache end in a NUL. *)
Definition iwl_find_ap (st : wifi_state) (ssid : list Z) : option iwlwifi_ap :=
  List.find (fun ap => ap_valid ap && match cstr_of (ap_ssid ap) with Some s => bytes_eq s ssid | None => false end) (aps st).

(** ** Management frames *)

(** The suites of key management at [off]: whether PSK and SAE are among them. *)
Fixpoint akm_loop (n : nat) (ie : list Z) (off : Z) (psk sae : bool) : option (bool * bool) :=
  match n with
  | O => Some (psk, sae)
  | S n =>
    if off + 4 <=? Z.of_nat (length ie) then
      oui ← slice ie off 3;
      suite ← byte_at ie (off + 3);
      let ours := bytes_eq oui [0x00; 0x0f; 0xac] in
      akm_loop n ie (off + 4) (psk || (ours && (suite =? 2))) (sae || (ours && negb (suite =? 2) && (suite =? 8)))
    else Some (psk, sae)
  end.

Definition iwl_security_from_rsn (ie : list Z) : option Z :=
  let len := Z.of_nat (length ie) in
  let flags := Z.lor WIFI_AP_PRIVACY WIFI_AP_WPA2 in
  if len <? 8 then Some flags
  else
    pairwise_count ← le16_at ie 6;
    let off := 6 + 2 + pairwise_count * 4 in
    if len <? off + 2 then Some flags
    else
      akm_count ← le16_at ie off;
      '(saw_psk, saw_sae) ← akm_loop (Z.to_nat akm_count) ie (off + 2) false false;
      let flags := if (saw_sae : bool) then Z.lor flags WIFI_AP_WPA3 else flags in
      Some (if (saw_psk : bool) || negb saw_sae then Z.lor flags WIFI_AP_WPA2 else flags).

Definition iwl_ie_is_wpa_vendor (ie : list Z) : bool :=
  (4 <=? length ie)%nat && bytes_eq (take 4 ie) [0x00; 0x50; 0xf2; 0x01].

(** What the elements of a beacon have said so far. *)
Record ies := Ies { ie_ssid : option (list Z); ie_channel : Z; ie_flags : Z }.

Definition ie_step (s : ies) (id : Z) (ie : list Z) : option ies :=
  if (id =? ELEMID_SSID) && (length ie <=? 32)%nat then Some (Ies (Some ie) (ie_channel s) (ie_flags s))
  else if (id =? ELEMID_DSPARMS) && (1 <=? length ie)%nat then
    c ← byte_at ie 0; Some (Ies (ie_ssid s) c (ie_flags s))
  else if id =? ELEMID_RSN then
    f ← iwl_security_from_rsn ie; Some (Ies (ie_ssid s) (ie_channel s) (Z.lor (ie_flags s) f))
  else if (id =? 221) && iwl_ie_is_wpa_vendor ie then
    Some (Ies (ie_ssid s) (ie_channel s) (Z.lor (ie_flags s) (Z.lor WIFI_AP_PRIVACY WIFI_AP_WPA)))
  else Some s.

(** [while (ies + 2 <= end)], at the offset [p]. *)
Fixpoint ie_loop (fuel : nat) (frame : list Z) (p : Z) (s : ies) : option ies :=
  match fuel with
  | O => None
  | S f =>
    let len := Z.of_nat (length frame) in
    if len <? p + 2 then Some s
    else
      id ← byte_at frame p;
      elen ← byte_at frame (p + 1);
      let p := p + 2 in
      if len <? p + elen then Some s
      else ie ← slice frame p elen; s ← ie_step s id ie; ie_loop f frame (p + elen) s
  end.

(** The end of the parse: flags made final, the access point cached. *)
Definition cache_beacon (addr3 : list Z) (capability : Z) (s : ies) (st : wifi_state) : wifi_state :=
  let flags := if ie_flags s =? WIFI_AP_PRIVACY then Z.lor (ie_flags s) WIFI_AP_WEP else ie_flags s in
  match ie_ssid s with
  | None => st
  | Some ssid =>
    let flags := if (length ssid =? 0)%nat then Z.lor flags WIFI_AP_HIDDEN else flags in
    iwl_cache_ap ssid (Z.of_nat (length ssid)) addr3 (ie_channel s) (flag capability CAPINFO_PRIVACY) flags 0 st
  end.

Definition iwl_parse_mgmt_frame (frame : list Z) (st : wifi_state) : option wifi_state :=
  let len := Z.of_nat (length frame) in
  if len <? HDR3 + 12 then Some st
  else
    fc0 ← byte_at frame 0;
    if negb (Z.land fc0 TYPE_MASK =? TYPE_MGT) then Some st
    else
      let subtype := Z.land fc0 SUBTYPE_MASK in
      if (subtype =? SUBTYPE_AUTH) && (HDR3 + 6 <=? len) then
        alg ← le16_at frame HDR3;
        transaction ← le16_at frame (HDR3 + 2);
        status ← le16_at frame (HDR3 + 4);
        Some (if (alg =? 0) && (transaction =? 2) then set_auth status st else st)
      else if (subtype =? SUBTYPE_ASSOC_RESP) && (HDR3 + 6 <=? len) then
        status ← le16_at frame (HDR3 + 2);
        aid ← le16_at frame (HDR3 + 4);
        Some (set_assoc status (Z.land aid 0x3fff) st)
      else if negb (subtype =? SUBTYPE_BEACON) && negb (subtype =? SUBTYPE_PROBE_RESP) then Some st
      else
        capability ← le16_at frame (HDR3 + 10);
        addr3 ← slice frame 16 6;
        s ← ie_loop (S (length frame)) frame (HDR3 + 12)
              (Ies None 0 (if flag capability CAPINFO_PRIVACY then WIFI_AP_PRIVACY else 0));
        Some (cache_beacon addr3 capability s st).

(** ** Data frames *)

Definition ETH_TYPE_EAPOL : Z := 0x888e.

(** What a frame leads to, beside the new state. *)
Inductive rx_out := RxNone | RxEapol (rc : Z) (sent : list (list Z)) | RxEth (frame : list Z).

Section Receive.
(** The radio, the interface's address, the tick counter. *)
Context (send_mgmt_frame : list Z -> Z) (mac : list Z) (ticks : Z).

(** The payload with its LLC header, in the clear: [None] inside for a frame
    that is dropped. *)
Definition data_payload (frame : list Z) (hdr_len : Z) (protected : bool) (st : wifi_state)
    : option (option (list Z)) :=
  if protected then iwl_ccmp_decrypt_payload (w_wpa st) frame (Z.to_nat hdr_len) 1600
  else llc ← slice frame hdr_len (Z.of_nat (length frame) - hdr_len); Some (Some llc).

Definition iwl_parse_data_frame (frame : list Z) (st : wifi_state) : option (wifi_state * rx_out) :=
  if Z.of_nat (length frame) <? HDR3 + 8 then Some (st, RxNone)
  else
    fc0 ← byte_at frame 0;
    fc1 ← byte_at frame 1;
    if negb (Z.land fc0 TYPE_MASK =? TYPE_DATA) then Some (st, RxNone)
    else
      let hdr_len := if flag (Z.land fc0 SUBTYPE_MASK) 0x80 then HDR3 + 2 else HDR3 in
      llc ← data_payload frame hdr_len (flag fc1 FC1_PROTECTED) st;
      match llc with
      | None => Some (st, RxNone)
      | Some llc =>
        if (length llc <? 8)%nat then Some (st, RxNone)
        else
          head ← slice llc 0 6;
          if negb (bytes_eq head [0xaa; 0xaa; 0x03; 0; 0; 0]) then Some (st, RxNone)
          else
            type ← slice llc 6 2;
            let ethertype := be16_at type in
            if ethertype =? ETH_TYPE_EAPOL then
              match iwl_find_ap st (associated_ssid st) with
              | None => Some (st, RxNone)
              | Some ap =>
                '(w, rc, sent) ← iwl_handle_eapol_key send_mgmt_frame mac (ap_bssid ap) ticks (w_wpa st) (drop 8 llc);
                Some (set_wpa w st, RxEapol rc sent)
              end
            else if negb (link_ready st) || negb (rx_callback st) then Some (st, RxNone)
            else
              let payload := drop 8 llc in
              if (1600 <? 14 + length payload)%nat then Some (st, RxNone)
              else
                addr1 ← slice frame 4 6;
                addr3 ← slice frame 16 6;
                Some (st, RxEth (addr1 ++ addr3 ++ put_be16 ethertype ++ payload))
      end.

Definition IWL_RX_NOERROR : Z := 3.

(** [payload] starts with [struct iwl_rx_mpdu], of four bytes. *)
Definition iwl_handle_mpdu (payload : list Z) (st : wifi_state) : option (wifi_state * rx_out) :=
  let payload_len := Z.of_nat (length payload) in
  if payload_len <? 4 + 4 then Some (st, RxNone)
  else
    frame_len ← le16_at payload 0;
    if (frame_len =? 0) || (payload_len <? 4 + frame_len + 4) then Some (st, RxNone)
    else
      status ← le32_at payload (4 + frame_len);
      if negb (Z.land status IWL_RX_NOERROR =? IWL_RX_NOERROR) then Some (st, RxNone)
      else
        frame ← slice payload 4 frame_len;
        fc0 ← byte_at frame 0;
        if Z.land fc0 TYPE_MASK =? TYPE_DATA then iwl_parse_data_frame frame st
        else st ← iwl_parse_mgmt_frame frame st; Some (st, RxNone).
End Receive.

(** ** Frames to send *)

(** Writing at the pointer and moving it; [None] outside of the buffer. *)
Definition emit (st : option (list Z * Z)) (b : list Z) : option (list Z * Z) :=
  '(buf, p) ← st; buf ← put buf p b; Some (buf, p + Z.of_nat (length b)).

Definition rates : list Z := [0x82; 0x84; 0x8b; 0x96; 0x0c; 0x12; 0x18; 0x24].
Definition broadcast : list Z := replicate 6 0xff.

Definition hdr3 (fc0 fc1 : Z) (addr1 addr2 addr3 : list Z) (seq : Z) : list Z :=
  [fc0; fc1; 0; 0] ++ addr1 ++ addr2 ++ addr3 ++ put_le16 seq.

(** The buffer and the length, which is 0 for a refusal; [ssid] may be NULL. *)
Definition iwl_build_probe_request (out : list Z) (mac : list Z) (ssid : option (list Z)) : option (list Z * Z) :=
  if Z.of_nat (length out) <? HDR3 + 16 then Some (out, 0)
  else
    let name := match ssid with Some s => take 32 s | None => [] end in
    let st := Some (out, 0) in
    let st := emit st (hdr3 (Z.lor TYPE_MGT SUBTYPE_PROBE_REQ) 0 broadcast mac broadcast 0) in
    let st := emit st [ELEMID_SSID; Z.of_nat (length name)] in
    let st := emit st name in
    let st := emit st [1; 8] in
    emit st rates.

Definition iwl_build_auth_frame (out : list Z) (mac : list Z) (ap : iwlwifi_ap) (seq : Z) : option (list Z * Z) :=
  if Z.of_nat (length out) <? HDR3 + 6 then Some (out, 0)
  else
    let st := Some (out, 0) in
    let st := emit st (hdr3 (Z.lor TYPE_MGT SUBTYPE_AUTH) 0 (ap_bssid ap) mac (ap_bssid ap) (u16 (Z.shiftl seq 4))) in
    emit st (put_le16 0 ++ put_le16 1 ++ put_le16 0).

Definition iwl_append_rates : list Z := [ELEMID_RATES; 8] ++ rates.

(** [passphrase] may be NULL. *)
Definition iwl_build_assoc_frame (out : list Z) (mac : list Z) (ap : iwlwifi_ap) (passphrase : option (list Z))
    (seq : Z) : option (list Z * Z) :=
  if Z.of_nat (length out) <? HDR3 + 64 then Some (out, 0)
  else
    let private := ap_privacy ap || match passphrase with Some (_ :: _) => true | _ => false end in
    let cap := if private then Z.lor CAPINFO_ESS CAPINFO_PRIVACY else CAPINFO_ESS in
    ssid ← slice (ap_ssid ap) 0 (ap_ssid_len ap);
    let st := Some (out, 0) in
    let st := emit st (hdr3 (Z.lor TYPE_MGT SUBTYPE_ASSOC_REQ) 0 (ap_bssid ap) mac (ap_bssid ap) (u16 (Z.shiftl seq 4))) in
    let st := emit st (put_le16 cap) in
    let st := emit st (put_le16 100) in
    let st := emit st [ELEMID_SSID; ap_ssid_len ap] in
    let st := emit st ssid in
    let st := emit st iwl_append_rates in
    if private then emit st iwl_append_wpa2_psk_ccmp_rsn else st.

(** [iwlwifi_transmit] on an interface of this driver: the state, the return
    value and the frame handed to the radio. *)
Definition iwlwifi_transmit (send_mgmt_frame : list Z -> Z) (mac : list Z) (eth : list Z) (st : wifi_state)
    : option (wifi_state * Z * option (list Z)) :=
  if negb (associated st) || negb (link_ready st) then Some (st, -2, None)
  else if (length eth <? 14)%nat || (1500 <? length eth)%nat then Some (st, -1, None)
  else
    let ethertype := be16_at (drop 12 eth) in
    let w := w_wpa st in
    let hdr := hdr3 TYPE_DATA 0x01 (bssid w) mac (take 6 eth) (u16 (Z.shiftl (tx_sequence w) 4)) in
    let w := Wpa (wpa_pmk w) (wpa_ptk w) (wpa_ptk_ready w) (wpa_snonce w) (wpa_anonce w) (wpa_replay_counter w)
               (wpa_key_msg1 w) (wpa_key_msg3 w) (ccmp_tx_pn w) (bssid w) (u16 (tx_sequence w + 1)) in
    let wifi := hdr ++ [0xaa; 0xaa; 0x03; 0; 0; 0; u8 (Z.shiftr ethertype 8); u8 ethertype] ++ drop 14 eth in
    if wpa_ptk_ready w then
      '(w, frame) ← iwl_ccmp_encrypt_frame w wifi 1720;
      let st := set_wpa w st in
      if (length frame =? 0)%nat then Some (st, -3, None) else Some (st, send_mgmt_frame frame, Some frame)
    else Some (set_wpa w st, send_mgmt_frame wifi, Some wifi).

(** ** Reads that stay inside *)

Definition octets (l : list Z) : Prop := Forall (fun b => 0 <= b < 256) l.

Lemma octets_slice l off n s : octets l -> slice l off n = Some s -> octets s.
Proof.
  unfold slice. intros H. destruct ((_ && _ && _)%bool); [|done]. intros [= <-].
  by apply Forall_take, Forall_drop.
Qed.

Lemma le_val_bound l : octets l -> 0 <= le_val l < 256 ^ Z.of_nat (length l).
Proof.
  induction 1 as [|b l Hb _ IH]; [cbn; lia|]. cbn [le_val length]. rewrite Nat2Z.inj_succ, Z.pow_succ_r by lia. lia.
Qed.

Lemma get_ok n l off : octets l -> 0 <= off -> off + Z.of_nat n <= Z.of_nat (length l) ->
  exists v, get n l off = Some v /\ 0 <= v < 256 ^ Z.of_nat n.
Proof.
  intros Hl H1 H2. unfold get. rewrite slice_some by lia. set (s := take _ _).
  exists (le_val s). split; [done|]. assert (length s = n) as Hs by (unfold s; rewrite length_take, length_drop; lia).
  rewrite <- Hs. apply le_val_bound. by apply Forall_take, Forall_drop.
Qed.

(** Each reads one, two or four bytes. *)
Lemma byte_ok l off : octets l -> 0 <= off < Z.of_nat (length l) -> exists v, byte_at l off = Some v /\ 0 <= v < 256.
Proof. intros Hl Ho. apply (get_ok 1 l off Hl); lia. Qed.
Lemma le16_ok l off : octets l -> 0 <= off -> off + 2 <= Z.of_nat (length l) -> exists v, le16_at l off = Some v /\ 0 <= v < 65536.
Proof. intros Hl H1 H2. apply (get_ok 2 l off Hl); lia. Qed.
Lemma le32_ok l off : octets l -> 0 <= off -> off + 4 <= Z.of_nat (length l) -> exists v, le32_at l off = Some v /\ 0 <= v < 2 ^ 32.
Proof. intros Hl H1 H2. apply (get_ok 4 l off Hl); lia. Qed.
Lemma slice_ok l off n : octets l -> 0 <= off -> 0 <= n -> off + n <= Z.of_nat (length l) ->
  exists s, slice l off n = Some s /\ octets s /\ Z.of_nat (length s) = n.
Proof.
  intros Hl H1 H2 H3. destruct (slice l off n) as [s|] eqn:E.
  - exists s. split; [done|]. split; [by apply (octets_slice _ _ _ _ Hl E)|]. by apply slice_length in E as [? _].
  - rewrite slice_some in E by done. done.
Qed.

(** ** Elements *)

Lemma akm_loop_ok n : forall ie off p s, octets ie -> 0 <= off -> exists r, akm_loop n ie off p s = Some r.
Proof.
  induction n as [|n IH]; intros ie off p s Hi Ho; cbn [akm_loop]; [by eexists|].
  destruct (Z.leb_spec (off + 4) (Z.of_nat (length ie))); [|by eexists].
  destruct (slice_ok ie off 3 Hi) as (o & -> & _); [lia..|]. rewrite bind_some.
  destruct (byte_ok ie (off + 3) Hi) as (b & -> & _); [lia|]. rewrite bind_some. apply IH; [done|lia].
Qed.

Lemma security_from_rsn_ok ie : octets ie -> exists f, iwl_security_from_rsn ie = Some f.
Proof.
  intros Hi. unfold iwl_security_from_rsn. cbv zeta. destruct (Z.ltb_spec (Z.of_nat (length ie)) 8); [by eexists|].
  destruct (le16_ok ie 6 Hi) as (pc & -> & Hp); [lia..|]. rewrite bind_some.
  destruct (Z.ltb_spec (Z.of_nat (length ie)) (6 + 2 + pc * 4 + 2)); [by eexists|].
  destruct (le16_ok ie (6 + 2 + pc * 4) Hi) as (ac & -> & Ha); [lia..|]. rewrite bind_some.
  destruct (akm_loop_ok (Z.to_nat ac) ie (6 + 2 + pc * 4 + 2) false false Hi) as ([p s] & ->); [lia|].
  rewrite bind_some. by eexists.
Qed.

Lemma ie_step_ok s id ie : octets ie -> exists s', ie_step s id ie = Some s' /\
  ((ie_ssid s' = ie_ssid s) \/ (ie_ssid s' = Some ie /\ (length ie <= 32)%nat)).
Proof.
  intros Hi. unfold ie_step.
  destruct ((id =? ELEMID_SSID) && (length ie <=? 32)%nat) eqn:E1.
  { eexists. split; [done|]. right. split; [done|]. apply andb_prop in E1 as [_ E1]. by apply Nat.leb_le in E1. }
  destruct ((id =? ELEMID_DSPARMS) && (1 <=? length ie)%nat) eqn:E2.
  { apply andb_prop in E2 as [_ E2]. apply Nat.leb_le in E2. destruct (byte_ok ie 0 Hi) as (c & -> & _); [lia|].
    rewrite bind_some. eexists. split; [done|by left]. }
  destruct (id =? ELEMID_RSN).
  { destruct (security_from_rsn_ok ie Hi) as (f & ->). rewrite bind_some. eexists. split; [done|by left]. }
  destruct ((id =? 221) && iwl_ie_is_wpa_vendor ie); eexists; (split; [reflexivity|by left]).
Qed.

(** The name that is kept fits the 32 bytes it may have. *)
Definition ies_ok (s : ies) : Prop := match ie_ssid s with Some ssid => (length ssid <= 32)%nat | None => True end.

Lemma ie_loop_ok fuel : forall frame p s, octets frame -> 0 <= p -> ies_ok s ->
  (Z.to_nat (Z.of_nat (length frame) - p) < fuel)%nat -> exists s', ie_loop fuel frame p s = Some s' /\ ies_ok s'.
Proof.
  induction fuel as [|fuel IH]; intros frame p s Hf Hp Hs Hfuel; [lia|]. cbn [ie_loop]. cbv zeta.
  destruct (Z.ltb_spec (Z.of_nat (length frame)) (p + 2)); [by exists s|].
  destruct (byte_ok frame p Hf) as (id & -> & _); [lia|]. rewrite bind_some.
  destruct (byte_ok frame (p + 1) Hf) as (elen & -> & Hel); [lia|]. rewrite bind_some.
  destruct (Z.ltb_spec (Z.of_nat (length frame)) (p + 2 + elen)); [by exists s|].
  destruct (slice_ok frame (p + 2) elen Hf) as (ie & -> & Hie & _); [lia..|]. rewrite bind_some.
  destruct (ie_step_ok s id ie Hie) as (s' & -> & Hs'). rewrite bind_some.
  apply IH; [done|lia| |lia]. unfold ies_ok in *. by destruct Hs' as [-> | [-> ?]].
Qed.

(** ** The cache *)

Definition ap_ok (ap : iwlwifi_ap) : Prop :=
  length (ap_ssid ap) = 33%nat /\ 0 <= ap_ssid_len ap <= 32 /\ nth 32 (ap_ssid ap) 0 = 0.

(** Sixteen entries with their names ended, no address twice, the count of those
    in use. *)
Definition cache_ok (st : wifi_state) : Prop :=
  length (aps st) = 16%nat /\ Forall ap_ok (aps st) /\
  ap_count st = length (List.filter ap_valid (aps st)) /\
  (forall i j a b, aps st !! i = Some a -> aps st !! j = Some b -> ap_valid a = true -> ap_valid b = true ->
     ap_bssid a = ap_bssid b -> i = j).

(** The slot is this address's, or a free one when the address is new. *)
Lemma slot_loop_spec l bssid : forall n free,
  match slot_loop n l bssid free with
  | Some i =>
    (exists k ap, i = (n + k)%nat /\ l !! k = Some ap /\ ap_valid ap = true /\ ap_bssid ap = bssid) \/
    ((forall k ap, l !! k = Some ap -> ap_valid ap = true -> ap_bssid ap <> bssid) /\
     (free = Some i \/ exists k ap, i = (n + k)%nat /\ l !! k = Some ap /\ ap_valid ap = false))
  | None => True
  end.
Proof.
  induction l as [|ap l IH]; intros n free; cbn [slot_loop].
  - destruct free as [i|]; [|done]. right. split; [|by left]. intros k ap Hk. by rewrite lookup_nil in Hk.
  - unfold iwl_mac_equal. destruct (bytes_eq_spec (ap_bssid ap) bssid) as [Hb|Hb]; destruct (ap_valid ap) eqn:Ev; cbn [andb negb].
    { left. exists 0%nat, ap. by rewrite Nat.add_0_r. }
    all: match goal with |- context [slot_loop ?m ?l0 ?b0 ?f] => specialize (IH m f); destruct (slot_loop m l0 b0 f) as [i|]; [|done] end.
    all: destruct IH as [(k & a & -> & Hk & H1 & H2)|[Hno Hf]];
      [left; exists (S k), a; split; [lia|done]|right; split].
    all: try (intros [|k] a Ha Hva; [injection Ha as <-; congruence|by apply (Hno k)]).
    all: destruct Hf as [Hf|(k & a & -> & Hk & Hv)]; [|right; exists (S k), a; split; [lia|done]].
    all: try by left.
    all: destruct free; [by left|injection Hf as <-; right; exists 0%nat, ap; by rewrite Nat.add_0_r].
Qed.

Lemma filter_insert (l : list iwlwifi_ap) : forall i a b, l !! i = Some a -> ap_valid b = true ->
  length (List.filter ap_valid (<[i := b]> l)) =
  (length (List.filter ap_valid l) + if ap_valid a then 0 else 1)%nat.
Proof.
  induction l as [|c l IH]; intros [|i] a b Hi Hb; try done.
  - injection Hi as ->. cbn. rewrite Hb. destruct (ap_valid a); cbn; lia.
  - change (<[S i := b]> (c :: l)) with (c :: <[i := b]> l). cbn [List.filter].
    destruct (ap_valid c); cbn [length]; rewrite (IH i a b Hi Hb); lia.
Qed.

Lemma filter_le (l : list iwlwifi_ap) : (length (List.filter ap_valid l) <= length l)%nat.
Proof. induction l as [|a l IH]; cbn; [lia|]. destruct (ap_valid a); cbn; lia. Qed.

Lemma filter_free (l : list iwlwifi_ap) : forall i a, l !! i = Some a -> ap_valid a = false ->
  (length (List.filter ap_valid l) < length l)%nat.
Proof.
  induction l as [|c l IH]; intros [|i] a Hi Ha; try done; cbn.
  - injection Hi as ->. rewrite Ha. pose proof (filter_le l). lia.
  - specialize (IH i a Hi Ha). destruct (ap_valid c); cbn; lia.
Qed.

Lemma cached_ap_ok text len bssid ch rssi p f : (length text <= 32)%nat -> 0 <= len <= 32 ->
  ap_ok (Ap true (pad 33 text) len bssid ch rssi p f).
Proof.
  intros Ht Hl. split; [cbn; rewrite length_pad by lia; done|]. split; [done|]. cbn.
  unfold pad, zeros. rewrite app_nth2, nth_lookup by lia.
  destruct (_ !! _) eqn:E; [by apply lookup_replicate in E as [-> _]|done].
Qed.

Lemma cache_ap_keeps ssid len bssid ch p f rssi st : cache_ok st -> Z.of_nat (length ssid) = len ->
  cache_ok (iwl_cache_ap ssid len bssid ch p f rssi st).
Proof.
  intros Hc Hlen. pose proof Hc as (Hl & Ha & Hn & Hd). unfold iwl_cache_ap. cbv zeta.
  destruct (Z.ltb_spec 32 len); [done|].
  pose proof (slot_loop_spec (aps st) bssid 0 None) as Hs. destruct (slot_loop 0 (aps st) bssid None) as [i|]; [|done].
  assert (exists a, aps st !! i = Some a /\
    (forall k b, k <> i -> aps st !! k = Some b -> ap_valid b = true -> ap_bssid b <> bssid)) as (a & Hi & Hne).
  { destruct Hs as [(k & a & -> & Hk & Hv & Hb)|[Hno [?|(k & a & -> & Hk & Hv)]]]; [|done|].
    - exists a. split; [done|]. intros k' b Hk' Hb' Hvb E. apply Hk'. apply (Hd k' k b a); congruence.
    - exists a. split; [done|]. intros k' b _. apply Hno. }
  rewrite Hi. pose proof (lookup_lt_Some _ _ _ Hi) as Hlt. unfold cache_ok. cbn [set_aps aps ap_count].
  split; [by rewrite length_insert|]. split.
  { apply Forall_insert; [done|]. apply cached_ap_ok; [destruct (len =? 0); [cbn; lia|lia]|lia]. }
  split.
  - rewrite (filter_insert _ _ a _ Hi) by done. destruct (ap_valid a) eqn:Ev; cbn [negb andb]; [lia|].
    pose proof (filter_free _ _ _ Hi Ev) as Hfree. rewrite (proj2 (Nat.ltb_lt _ _)) by (unfold IWLWIFI_AP_CACHE_MAX; lia). lia.
  - intros j k b c Hj Hk Hvb Hvc Hbc.
    destruct (decide (j = i)) as [->|Hji], (decide (k = i)) as [->|Hki]; [done| | |].
    + rewrite list_lookup_insert_eq in Hj by done. injection Hj as <-. rewrite list_lookup_insert_ne in Hk by done.
      by apply Hne in Hk.
    + rewrite list_lookup_insert_eq in Hk by done. injection Hk as <-. rewrite list_lookup_insert_ne in Hj by done.
      by apply Hne in Hj.
    + rewrite list_lookup_insert_ne in Hj, Hk by done. by apply (Hd j k b c).
Qed.

(** ** The frames *)

Lemma parse_mgmt_ok frame st : octets frame -> cache_ok st ->
  exists st', iwl_parse_mgmt_frame frame st = Some st' /\ cache_ok st'.
Proof.
  intros Hf Hc. unfold iwl_parse_mgmt_frame, HDR3. cbv zeta.
  destruct (Z.ltb_spec (Z.of_nat (length frame)) (24 + 12)); [by exists st|].
  destruct (byte_ok frame 0 Hf) as (fc0 & -> & _); [lia|]. rewrite bind_some.
  destruct (negb (Z.land fc0 TYPE_MASK =? TYPE_MGT)); [by exists st|].
  rewrite (proj2 (Z.leb_le (24 + 6) _)) by lia. rewrite !andb_true_r.
  destruct (Z.land fc0 SUBTYPE_MASK =? SUBTYPE_AUTH).
  { destruct (le16_ok frame 24 Hf) as (a & -> & _); [lia..|]. rewrite bind_some.
    destruct (le16_ok frame (24 + 2) Hf) as (t & -> & _); [lia..|]. rewrite bind_some.
    destruct (le16_ok frame (24 + 4) Hf) as (s & -> & _); [lia..|]. rewrite bind_some.
    eexists. split; [done|]. by destruct ((a =? 0) && (t =? 2)). }
  destruct (Z.land fc0 SUBTYPE_MASK =? SUBTYPE_ASSOC_RESP).
  { destruct (le16_ok frame (24 + 2) Hf) as (s & -> & _); [lia..|]. rewrite bind_some.
    destruct (le16_ok frame (24 + 4) Hf) as (a & -> & _); [lia..|]. rewrite bind_some. by eexists. }
  destruct (negb _ && negb _); [by exists st|].
  destruct (le16_ok frame (24 + 10) Hf) as (cap & -> & _); [lia..|]. rewrite bind_some.
  destruct (slice_ok frame 16 6 Hf) as (addr3 & -> & _); [lia..|]. rewrite bind_some.
  set (s0 := Ies _ _ _). destruct (ie_loop_ok (S (length frame)) frame (24 + 12) s0 Hf) as (s & -> & Hs); [lia|done|lia|].
  rewrite bind_some. eexists. split; [done|]. unfold cache_beacon. destruct (ie_ssid s) as [ssid|]; [|done].
  by apply cache_ap_keeps.
Qed.

Lemma mac_loop_some tk fuel : forall x data, (length data < fuel)%nat -> exists y, mac_loop fuel tk x data = Some y.
Proof.
  induction fuel as [|fuel IH]; intros x data Hf; [lia|]. cbn [mac_loop]. destruct data as [|b data]; [by exists x|].
  apply IH. rewrite length_drop. cbn [length] in *. lia.
Qed.

Lemma crypt_loop_some tk nonce fuel : forall inp c, (length inp < fuel)%nat ->
  exists y, crypt_loop fuel tk nonce inp c = Some y /\ (length y <= length inp)%nat.
Proof.
  induction fuel as [|fuel IH]; intros inp c Hf; [lia|]. cbn [crypt_loop]. destruct inp as [|b inp]; [by exists []|].
  destruct (IH (drop 16 (b :: inp)) (u16 (c + 1))) as (y & -> & Hy); [rewrite length_drop; cbn [length] in *; lia|].
  rewrite bind_some. eexists. split; [reflexivity|].
  rewrite length_app, length_zip_with, length_take. rewrite length_drop in Hy. lia.
Qed.

Lemma decrypt_ok w frame hdr_len size : exists r, iwl_ccmp_decrypt_payload w frame hdr_len size = Some r /\
  forall plain, r = Some plain -> (length plain <= length frame)%nat.
Proof.
  unfold iwl_ccmp_decrypt_payload. destruct (_ || _); [by eexists|]. destruct (_ <? 8)%nat; [by eexists|].
  destruct (size <? _)%nat; [by eexists|]. cbv zeta.
  match goal with |- context [ccmp_crypt_payload ?tk ?n ?i ?c] =>
    destruct (crypt_loop_some tk n (S (length i)) i c) as (plain & E & Hp); [lia|]; unfold ccmp_crypt_payload; rewrite E end.
  rewrite bind_some. unfold ccmp_cbc_mac. cbv zeta.
  match goal with |- context [if ?b then Some ?x else mac_loop ?f ?tk ?y ?d] =>
    assert (exists z, (if b then Some x else mac_loop f tk y d) = Some z) as (z & ->) end.
  { destruct (_ =? 0)%nat; [by eexists|]. apply mac_loop_some. rewrite length_drop. lia. }
  rewrite bind_some.
  match goal with |- context [mac_loop ?f ?tk ?y ?d] => destruct (mac_loop_some tk f y d) as (z2 & ->); [lia|] end.
  rewrite !bind_some. rewrite length_take, !length_drop in Hp.
  destruct (bool_decide _); eexists; (split; [reflexivity|]); [intros ? [= <-]; lia|done].
Qed.

Lemma sha1_once_eq data : Z.of_nat (length data) < 2 ^ 61 -> tnu_sha1 data = Some (sha1_spec data).
Proof. apply (hash_once_eq (BH := sha1_hash)). Qed.

#[local] Opaque sha1_spec hmac_sha1_spec.

Lemma handle_eapol_ok send mac ap ticks w eapol : Z.of_nat (length eapol) < 2 ^ 60 ->
  exists r, iwl_handle_eapol_key send mac ap ticks w eapol = Some r.
Proof.
  intros Hl. unfold iwl_handle_eapol_key. cbv zeta. destruct (_ || _); [by eexists|].
  destruct (negb _); [by eexists|]. destruct (_ && negb _).
  - set (w1 := set_msg1 _ _ _).
    assert (exists w2, (if nth 0 (wpa_snonce w1) 0 =? 0 then iwl_make_snonce ticks mac w1 else Some w1) = Some w2) as (w2 & ->).
    { destruct (_ =? 0); [|by eexists]. unfold iwl_make_snonce. cbv zeta.
      rewrite !sha1_once_eq by (rewrite ?length_insert, ?length_inserts; cbn; lia). rewrite !bind_some. by eexists. }
    rewrite bind_some.
    assert (exists w3, iwl_derive_ptk mac w2 = Some w3) as (w3 & ->).
    { unfold iwl_derive_ptk. destruct (if _ <? _ then _ else _) as [m1 m2]. destruct (if _ <? _ then _ else _) as [n1 n2].
      rewrite wpa_prf_correct by (rewrite ?length_take; lia). rewrite bind_some. by eexists. }
    rewrite bind_some.
    assert (exists m, iwl_build_eapol_key_msg2 w3 256 = Some m) as (m & ->).
    { unfold iwl_build_eapol_key_msg2. destruct (_ || _); [by eexists|]. cbv zeta.
      rewrite hmac_sha1_eq; [rewrite bind_some; by eexists|rewrite length_take; lia|].
      unfold eapol_head, WPA_EAPOL_KEY_BASE_LEN. rewrite !length_inserts, length_replicate. cbn; lia. }
    rewrite bind_some. destruct (length m =? 0)%nat; [by eexists|].
    destruct (iwl_send_eapol_frame _ _ _ _ _) as [[? rc] ?]. destruct (rc <? 0); by eexists.
  - destruct (_ && _ && _); [|by eexists].
    assert (exists b, iwl_verify_eapol_mic w eapol = Some b) as (b & ->).
    { unfold iwl_verify_eapol_mic. destruct (_ || _); [by eexists|]. cbv zeta.
      rewrite hmac_sha1_eq; [rewrite bind_some; by eexists|rewrite length_take; lia|]. rewrite length_inserts. lia. }
    rewrite bind_some. destruct b; [|by eexists]. cbn [negb].
    set (w1 := set_msg3 _ _).
    assert (exists m, iwl_build_eapol_key_msg4 w1 128 = Some m) as (m & ->).
    { unfold iwl_build_eapol_key_msg4. destruct (_ || _); [by eexists|]. cbv zeta.
      rewrite hmac_sha1_eq; [rewrite bind_some; by eexists|rewrite length_take; lia|].
      unfold eapol_head, WPA_EAPOL_KEY_BASE_LEN. rewrite !length_inserts, length_replicate. cbn; lia. }
    rewrite bind_some. destruct (length m =? 0)%nat; [by eexists|].
    destruct (iwl_send_eapol_frame _ _ _ _ _) as [[? rc] ?]. destruct (rc <? 0); by eexists.
Qed.

Lemma parse_data_ok send mac ticks frame st : octets frame -> Z.of_nat (length frame) < 2 ^ 32 -> cache_ok st ->
  exists st' out, iwl_parse_data_frame send mac ticks frame st = Some (st', out) /\ cache_ok st'.
Proof.
  intros Hf Hl Hc. unfold iwl_parse_data_frame, HDR3. cbv zeta.
  destruct (Z.ltb_spec (Z.of_nat (length frame)) (24 + 8)); [by do 2 eexists|].
  destruct (byte_ok frame 0 Hf) as (fc0 & -> & _); [lia|]. rewrite bind_some.
  destruct (byte_ok frame 1 Hf) as (fc1 & -> & _); [lia|]. rewrite bind_some.
  destruct (negb _); [by do 2 eexists|].
  set (hdr_len := if flag _ 0x80 then _ else _).
  assert (24 <= hdr_len <= 26) as Hh by (unfold hdr_len; destruct (flag _ _); lia). clearbody hdr_len.
  assert (exists r, data_payload frame hdr_len (flag fc1 FC1_PROTECTED) st = Some r /\
    forall llc, r = Some llc -> (length llc <= length frame)%nat) as (r & -> & Hr).
  { unfold data_payload. destruct (flag fc1 FC1_PROTECTED); [apply decrypt_ok|].
    destruct (slice_ok frame hdr_len (Z.of_nat (length frame) - hdr_len) Hf) as (s & -> & _ & Hs); [lia..|].
    rewrite bind_some. eexists. split; [reflexivity|]. intros ? [= <-]. lia. }
  rewrite bind_some. destruct r as [llc|]; [|by do 2 eexists]. specialize (Hr llc eq_refl).
  destruct (Nat.ltb_spec (length llc) 8); [by do 2 eexists|].
  rewrite (slice_some llc 0 6) by lia. rewrite bind_some. destruct (negb _); [by do 2 eexists|].
  rewrite (slice_some llc 6 2) by lia. rewrite bind_some.
  destruct (_ =? ETH_TYPE_EAPOL).
  - destruct (iwl_find_ap st (associated_ssid st)) as [ap|]; [|by do 2 eexists].
    destruct (handle_eapol_ok send mac (ap_bssid ap) ticks (w_wpa st) (drop 8 llc)) as ([[w rc] sent] & ->);
      [rewrite length_drop; lia|]. rewrite bind_some. by do 2 eexists.
  - destruct (_ || _); [by do 2 eexists|]. destruct (_ <? _)%nat; [by do 2 eexists|].
    rewrite !slice_some by lia. rewrite !bind_some. by do 2 eexists.
Qed.

(** An element on the air, and what a list of them says. *)
Definition ie_bytes (ie : Z * list Z) : list Z := fst ie :: Z.of_nat (length (snd ie)) :: snd ie.
Definition elements (l : list (Z * list Z)) : list Z := concat (map ie_bytes l).
Definition ie_fold (l : list (Z * list Z)) (s : ies) : option ies :=
  foldl (fun s ie => s ← s; ie_step s (fst ie) (snd ie)) (Some s) l.
Definition ie_good (ie : Z * list Z) : Prop := 0 <= fst ie < 256 /\ octets (snd ie) /\ (length (snd ie) <= 255)%nat.

Lemma fold_none l : foldl (fun (s : option ies) (ie : Z * list Z) => s ← s; ie_step s (fst ie) (snd ie)) None l = None.
Proof. by induction l. Qed.

Lemma octet_here a b c off : 0 <= b < 256 -> off = Z.of_nat (length a) -> byte_at (a ++ b :: c) off = Some b.
Proof.
  intros Hb ->. unfold byte_at. rewrite (get_skip 1 a _ (Z.of_nat (length a))) by lia. rewrite Z.sub_diag.
  unfold get. change (b :: c) with ([b] ++ c). rewrite slice_here by done. cbn. f_equal. lia.
Qed.

Lemma ie_loop_elements l : Forall ie_good l -> forall fuel pre s, (length (elements l) < fuel)%nat ->
  ie_loop fuel (pre ++ elements l) (Z.of_nat (length pre)) s = ie_fold l s.
Proof.
  unfold elements, ie_fold. induction 1 as [|[id ie] l (Hid & Ho & Hn) _ IH]; intros fuel pre s Hf;
    (destruct fuel as [|fuel]; [lia|]); cbn [ie_loop map concat] in *; cbv zeta.
  - rewrite app_nil_r. rewrite (proj2 (Z.ltb_lt _ _)) by lia. done.
  - cbn [ie_bytes fst snd app length] in *. rewrite length_app in Hf.
    rewrite (proj2 (Z.ltb_ge _ _)) by (rewrite !length_app; cbn [length]; lia).
    rewrite (octet_here pre id _ _ Hid eq_refl), bind_some.
    rewrite (cons_middle id pre), app_assoc.
    rewrite (octet_here (pre ++ [id]) (Z.of_nat (length ie))) by (rewrite ?length_app; cbn [length]; lia). rewrite bind_some.
    rewrite (cons_middle (Z.of_nat (length ie)) (pre ++ [id])), app_assoc.
    set (pre2 := (pre ++ [id]) ++ [Z.of_nat (length ie)]).
    assert (Z.of_nat (length pre) + 2 = Z.of_nat (length pre2)) as -> by (unfold pre2; rewrite !length_app; cbn [length]; lia).
    rewrite (proj2 (Z.ltb_ge _ _)) by (rewrite !length_app; lia).
    rewrite (slice_skip' pre2 _ (Z.of_nat (length pre2))), Z.sub_diag, slice_here, bind_some by (done || lia).
    cbn [foldl fst snd]. rewrite bind_some. destruct (ie_step_ok s id ie Ho) as (s' & -> & _). rewrite bind_some.
    replace (Z.of_nat (length pre2) + Z.of_nat (length ie)) with (Z.of_nat (length (pre2 ++ ie))) by (rewrite length_app; lia).
    rewrite app_assoc. apply IH. lia.
Qed.

Lemma slot_exists l bssid : forall n free, (free <> None \/ exists ap, ap ∈ l /\ (ap_valid ap = false \/ ap_bssid ap = bssid)) ->
  exists i, slot_loop n l bssid free = Some i.
Proof.
  induction l as [|ap l IH]; intros n free He; cbn [slot_loop].
  - destruct He as [He|(a & Ha & _)]; [|by apply elem_of_nil in Ha]. destruct free as [i|]; [by exists i|done].
  - unfold iwl_mac_equal. destruct (bytes_eq_spec (ap_bssid ap) bssid) as [Hb|Hb], (ap_valid ap) eqn:Ev; cbn [andb negb];
      try (by eexists); apply IH.
    2: { destruct He as [?|(a & [->|Ha]%elem_of_cons & Hv)]; [by left| |right; by exists a]. destruct Hv; congruence. }
    all: left; by destruct free.
Qed.

Lemma slot_bound l bssid : forall n free i, slot_loop n l bssid free = Some i ->
  (forall j, free = Some j -> (j < n + length l)%nat) -> (i < n + length l)%nat.
Proof.
  induction l as [|ap l IH]; intros n free i Hs Hf; cbn [slot_loop length] in *; [by apply Hf|].
  destruct (_ && _); [injection Hs as <-; lia|]. apply IH in Hs; [lia|]. intros j Hj.
  destruct (negb (ap_valid ap)); [destruct free|]; (injection Hj as <- || apply Hf in Hj); try lia.
  specialize (Hf _ eq_refl). lia.
Qed.

(** What the cache says of a beacon. *)
Definition beacon_ap (addr3 : list Z) (capability : Z) (ssid : list Z) (s : ies) : iwlwifi_ap :=
  let flags := if ie_flags s =? WIFI_AP_PRIVACY then Z.lor (ie_flags s) WIFI_AP_WEP else ie_flags s in
  Ap true (pad 33 (if (length ssid =? 0)%nat then str "<hidden>" else ssid)) (Z.of_nat (length ssid)) addr3
    (ie_channel s) 0 (flag capability CAPINFO_PRIVACY)
    (if (length ssid =? 0)%nat then Z.lor flags WIFI_AP_HIDDEN else flags).

Lemma fc0_beacon fc0 : fc0 = 0x80 \/ fc0 = 0x50 ->
  Z.land fc0 TYPE_MASK = TYPE_MGT /\ (Z.land fc0 SUBTYPE_MASK =? SUBTYPE_AUTH) = false /\
  (Z.land fc0 SUBTYPE_MASK =? SUBTYPE_ASSOC_RESP) = false /\
  negb (Z.land fc0 SUBTYPE_MASK =? SUBTYPE_BEACON) && negb (Z.land fc0 SUBTYPE_MASK =? SUBTYPE_PROBE_RESP) = false /\
  0 <= fc0 < 256.
Proof. by intros [-> | ->]. Qed.

(** ** The properties *)



(** C40 A data frame that is not protected is handed to the network as if it were
    from the access point, also when the keys of a protected network are
    installed: nothing compares the frame's protection, its sender or its network
    with the association. *)
Theorem plaintext_accepted send mac ticks st fc1 dur addr1 addr2 addr3 seq type payload :
  link_ready st = true -> rx_callback st = true -> wpa_ptk_ready (w_wpa st) = true ->
  0 <= fc1 < 256 -> flag fc1 FC1_PROTECTED = false -> length dur = 2%nat ->
  length addr1 = 6%nat -> length addr2 = 6%nat -> length addr3 = 6%nat -> length seq = 2%nat ->
  0 <= type < 65536 -> type <> ETH_TYPE_EAPOL -> (length payload <= 1586)%nat ->
  iwl_parse_data_frame send mac ticks
    ((TYPE_DATA :: fc1 :: dur ++ addr1 ++ addr2 ++ addr3 ++ seq) ++ ([0xaa; 0xaa; 0x03; 0; 0; 0] ++ put_be16 type ++ payload)) st =
  Some (st, RxEth (addr1 ++ addr3 ++ put_be16 type ++ payload)).
Proof.
  intros Hlr Hcb Hk Hfc Hpr Hd H1 H2 H3 H4 Ht Hne Hp. set (hdr := TYPE_DATA :: _). set (llc := [_; _; _; _; _; _] ++ _).
  assert (length hdr = 24%nat) as Hh by (unfold hdr; cbn [length]; rewrite !length_app; lia).
  assert (length llc = (8 + length payload)%nat) as Hl by (unfold llc; rewrite !length_app; done).
  unfold iwl_parse_data_frame, HDR3. rewrite (proj2 (Z.ltb_ge _ _)) by (rewrite length_app; lia).
  assert (byte_at (hdr ++ llc) 0 = Some TYPE_DATA) as -> by (unfold hdr; cbn [app]; by apply (octet_here [] TYPE_DATA)).
  assert (byte_at (hdr ++ llc) 1 = Some fc1) as -> by (unfold hdr; cbn [app]; by apply (octet_here [TYPE_DATA] fc1)).
  rewrite !bind_some. change (negb (Z.land TYPE_DATA TYPE_MASK =? TYPE_DATA)) with false.
  change (flag (Z.land TYPE_DATA SUBTYPE_MASK) 0x80) with false. cbv iota zeta. rewrite Hpr. unfold data_payload.
  assert (slice (hdr ++ llc) 24 (Z.of_nat (length (hdr ++ llc)) - 24) = Some llc) as ->.
  { rewrite (slice_skip' hdr _ 24) by lia. rewrite <- (app_nil_r llc) at 1. apply slice_here. rewrite length_app. lia. }
  rewrite !bind_some, (proj2 (Nat.ltb_ge _ _)) by lia.
  assert (slice llc 0 6 = Some [0xaa; 0xaa; 0x03; 0; 0; 0]) as -> by (unfold llc; by apply slice_here).
  assert (slice llc 6 2 = Some (put_be16 type)) as ->.
  { unfold llc. rewrite (slice_skip' _ _ 6) by done. by apply slice_here. }
  rewrite !bind_some. destruct (bytes_eq_spec [0xaa; 0xaa; 0x03; 0; 0; 0] [0xaa; 0xaa; 0x03; 0; 0; 0]); [|done]. cbn [negb].
  assert (be16_at (put_be16 type) = type) as ->.
  { unfold be16_at, put_be16. cbn [nth]. rewrite Z.shiftr_div_pow2, lor_shift_add by (try apply u8_range; lia).
    unfold u8. Z.div_mod_to_equations. lia. }
  rewrite (proj2 (Z.eqb_neq type _)) by done. rewrite Hlr, Hcb. cbn [negb orb].
  assert (drop 8 llc = payload) as -> by done. rewrite (proj2 (Nat.ltb_ge _ _)) by lia.
  assert (slice (hdr ++ llc) 4 6 = Some addr1) as ->.
  { assert (hdr ++ llc = (TYPE_DATA :: fc1 :: dur) ++ addr1 ++ (addr2 ++ addr3 ++ seq ++ llc)) as ->
      by (unfold hdr; cbn [app]; by rewrite <- !app_assoc).
    rewrite (slice_skip' _ _ 4) by (cbn [length]; lia). apply slice_here. lia. }
  assert (slice (hdr ++ llc) 16 6 = Some addr3) as ->.
  { assert (hdr ++ llc = (TYPE_DATA :: fc1 :: dur ++ addr1 ++ addr2) ++ addr3 ++ (seq ++ llc)) as ->
      by (unfold hdr; cbn [app]; by rewrite <- !app_assoc).
    rewrite (slice_skip' _ _ 16) by (cbn [length]; rewrite ?length_app; lia). apply slice_here. lia. }
  by rewrite !bind_some.
Qed.

(** The association request is written for a name of 32 bytes on a protected
    network with 94 bytes, six more than the check on the buffer asks for. *)
Theorem assoc_frame_overflow :
  exists ap mac out, ap_ok ap /\ length (ap_bssid ap) = 6%nat /\ length mac = 6%nat /\ length out = 88%nat /\
    iwl_build_assoc_frame out mac ap None 0 = None.
Proof.
  exists (Ap true (pad 33 (replicate 32 65)) 32 (replicate 6 1) 1 0 true 0), (replicate 6 2), (replicate 88 0).
  split; [split; [done|split; [cbn; lia|done]]|]. by repeat split.
Qed.

(** A network of WPA3 alone is called one of WPA2 too. *)
Theorem sae_only_called_wpa2 :
  iwl_security_from_rsn ([1; 0; 0; 0x0f; 0xac; 4; 1; 0; 0; 0x0f; 0xac; 4; 1; 0; 0; 0x0f; 0xac; 8; 0; 0]) =
  Some (Z.lor (Z.lor WIFI_AP_PRIVACY WIFI_AP_WPA2) WIFI_AP_WPA3).
Proof. by vm_compute. Qed.

(** ** A station with an empty cache *)

Definition empty_ap : iwlwifi_ap := Ap false (zeros 33) 0 (zeros 6) 0 0 false 0.
Definition station (ptk_ready : bool) : wifi_state :=
  Wifi (Wpa (zeros 32) (zeros 64) ptk_ready (zeros 32) (zeros 32) 0 true true 0 (zeros 6) 0)
    (replicate 16 empty_ap) 0 false 0 false 0 0 true true true (str "home").

Lemma station_cache b : cache_ok (station b).
Proof.
  split; [done|]. split; [apply Forall_replicate; split; [done|split; [cbn; lia|done]]|]. split; [done|].
  intros i j x y Hx _ Hv _ _. cbn [aps station] in Hx. apply lookup_replicate in Hx as [-> _]. done.
Qed.

Definition beacon_ies : list (Z * list Z) :=
  [(0, str "home"); (1, rates); (3, [6]); (48, drop 2 iwl_append_wpa2_psk_ccmp_rsn)].



Lemma plaintext_accepted_witness :
  iwl_parse_data_frame (fun _ => 0) (zeros 6) 0
    ((TYPE_DATA :: 2 :: zeros 2 ++ replicate 6 1 ++ replicate 6 2 ++ replicate 6 3 ++ zeros 2) ++
     ([0xaa; 0xaa; 0x03; 0; 0; 0] ++ put_be16 0x0800 ++ str "forged")) (station true) =
  Some (station true, RxEth (replicate 6 1 ++ replicate 6 3 ++ put_be16 0x0800 ++ str "forged")).
Proof.
  apply (plaintext_accepted (fun _ => 0) (zeros 6) 0 (station true) 2 (zeros 2) (replicate 6 1) (replicate 6 2)
           (replicate 6 3) (zeros 2) 0x0800 (str "forged")); try done; cbn; lia.
Defined.
