(* ===== verification/Vfs.v ===== *)
(** * kernel/fs/vfs.c

    The in-memory file system: the node array with its sibling lists, path
    normalization, and the operations on paths and nodes. A pointer to a node
    is its index in the array; following a pointer out of the array, or a
    cyclic sibling list, is undefined: [None]. A buffer is its bytes, owned by
    the node. [v_syncs] counts the calls of [tfs_sync_if_mounted], which reads
    the tree and changes nothing in it. *)
From S2P Require Import Prelude KString Printf.

Definition VFS_MAX_NODES : nat := 1024.
Definition VFS_MAX_COMPONENTS : nat := 32.
Definition VFS_NAME_MAX : nat := 63.
Definition VFS_PATH_MAX : Z := 256.

Definition VFS_NODE_DIR : Z := 1.
Definition VFS_NODE_FILE : Z := 2.
Definition VFS_NODE_DEV : Z := 3.
Definition VFS_NODE_PROC : Z := 4.
(** Modes are octal in the source: 0040000, 0100000, 0755 and so on. *)
Definition VFS_S_IFDIR : Z := 0x4000.
Definition VFS_S_IFREG : Z := 0x8000.

Record vnode := Node {
  n_name : list Z; n_type : Z; n_mode : Z; n_uid : Z; n_gid : Z; n_size : Z;
  n_created : Z; n_modified : Z; n_data : option (list Z); n_borrowed : bool;
  n_parent : option nat; n_first : option nat; n_next : option nat }.

Record vfs := Vfs { nodes : list vnode; root_node : option nat; vfs_clock : Z; v_syncs : nat }.

(** A C string argument; [None] is NULL. *)
Definition cstr : Type := option (list Z).

Definition set_links (n : vnode) (parent first next : option nat) : vnode :=
  Node (n_name n) (n_type n) (n_mode n) (n_uid n) (n_gid n) (n_size n) (n_created n)
       (n_modified n) (n_data n) (n_borrowed n) parent first next.
Definition set_modified (n : vnode) (t : Z) : vnode :=
  Node (n_name n) (n_type n) (n_mode n) (n_uid n) (n_gid n) (n_size n) (n_created n)
       t (n_data n) (n_borrowed n) (n_parent n) (n_first n) (n_next n).
Definition set_attrs (n : vnode) (mode uid gid : Z) : vnode :=
  Node (n_name n) (n_type n) mode uid gid (n_size n) (n_created n)
       (n_modified n) (n_data n) (n_borrowed n) (n_parent n) (n_first n) (n_next n).
Definition set_data (n : vnode) (d : option (list Z)) (borrowed : bool) (size : Z) : vnode :=
  Node (n_name n) (n_type n) (n_mode n) (n_uid n) (n_gid n) size (n_created n)
       (n_modified n) d borrowed (n_parent n) (n_first n) (n_next n).

Definition with_nodes (v : vfs) (ns : list vnode) : vfs :=
  Vfs ns (root_node v) (vfs_clock v) (v_syncs v).
Definition tick (v : vfs) : vfs := Vfs (nodes v) (root_node v) (u64 (vfs_clock v + 1)) (v_syncs v).
(** [tfs_sync_if_mounted()], of which [Tfs.v] has the body. *)
Definition sync_hook (v : vfs) : vfs :=
  Vfs (nodes v) (root_node v) (vfs_clock v) (S (v_syncs v)).

(** Write through a pointer. *)
Definition update (v : vfs) (i : nat) (f : vnode -> vnode) : option vfs :=
  n ← nodes v !! i; Some (with_nodes v (<[i := f n]> (nodes v))).

Definition alloc_node (name : list Z) (type mode uid gid : Z) (v : vfs) : vfs * option nat :=
  if (VFS_MAX_NODES <=? length (nodes v))%nat then (v, None)
  else
    let v := tick v in
    (with_nodes v (nodes v ++ [Node (field VFS_NAME_MAX name) type mode uid gid 0 (vfs_clock v)
                                    (vfs_clock v) None false None None None]),
     Some (length (nodes v))).

Definition attach_child (parent child : nat) (v : vfs) : option vfs :=
  p ← nodes v !! parent;
  v ← update v child (fun c => set_links c (Some parent) (n_first c) (n_first p));
  update v parent (fun p => set_links p (n_parent p) (Some child) (n_next p)).

(** [strcmp(a, b) == 0] *)
Definition streq (a b : list Z) : bool := bool_decide (a = b).

Fixpoint find_sibling (fuel : nat) (ns : list vnode) (p : option nat) (name : list Z)
    : option (option nat) :=
  match fuel with
  | O => None
  | S f =>
    match p with
    | None => Some None
    | Some i => n ← ns !! i;
                if streq (n_name n) name then Some (Some i) else find_sibling f ns (n_next n) name
    end
  end.

Definition find_child (v : vfs) (parent : nat) (name : list Z) : option (option nat) :=
  p ← nodes v !! parent; find_sibling (S (length (nodes v))) (nodes v) (n_first p) name.

(** ** Paths *)

Definition SLASH : Z := 47.

(** [while (p is '/') p++] *)
Fixpoint skip_slashes (p : list Z) : list Z :=
  match p with c :: p' => if c =? SLASH then skip_slashes p' else p | [] => [] end.

(** Copy at most [room] characters up to a slash. *)
Fixpoint copy_comp (room : nat) (p : list Z) : list Z * list Z :=
  match room, p with
  | S k, c :: p' =>
    if c =? SLASH then ([], p) else let '(comp, rest) := copy_comp k p' in (c :: comp, rest)
  | _, _ => ([], p)
  end.

Fixpoint skip_comp (p : list Z) : list Z :=
  match p with c :: p' => if c =? SLASH then p else skip_comp p' | [] => [] end.

(** [comps] in the order they were stored. [Some None]: too many components. *)
Fixpoint norm_loop (fuel : nat) (p : list Z) (comps : list (list Z)) : option (option (list (list Z))) :=
  match fuel with
  | O => None
  | S f =>
    match p with
    | [] => Some (Some comps)
    | _ =>
      match skip_slashes p with
      | [] => Some (Some comps)
      | p =>
        let '(comp, p) := copy_comp VFS_NAME_MAX p in
        let p := skip_comp p in
        if streq comp (str ".") || streq comp [] then norm_loop f p comps
        else if streq comp (str "..") then norm_loop f p (removelast comps)
        else if (VFS_MAX_COMPONENTS <=? length comps)%nat then Some None
        else norm_loop f p (comps ++ [comp])
      end
    end
  end.

(** The loop that joins the components in [out]; [None]: no room. *)
Fixpoint join_loop (out_size : Z) (out : list Z) (comps : list (list Z)) : option (list Z) :=
  match comps with
  | [] => Some out
  | c :: comps =>
    if out_size <? Z.of_nat (length out) + Z.of_nat (length c) + 2 then None
    else
      let out := if streq out [SLASH] then out else out ++ [SLASH] in
      join_loop out_size (out ++ c) comps
  end.

(** The normalized path; [Some None] for a return value of -1. *)
Definition vfs_normalize (path cwd : cstr) (out_size : Z) : option (option (list Z)) :=
  match path with
  | None => Some None
  | Some path =>
    if out_size =? 0 then Some None
    else
      source ← (if peek path =? SLASH then Some (take 255 path)
                else
                  let dir := match cwd with Some (c :: d) => c :: d | _ => [SLASH] end in
                  '(text, _) ← ksnprintf VFS_PATH_MAX (str "%s/%s") [VStr (Some dir); VStr (Some path)];
                  Some text);
      comps ← norm_loop (S (length source)) source [];
      match comps with
      | None => Some None
      | Some comps => if out_size <? 2 then Some None else Some (join_loop out_size [SLASH] comps)
      end
  end.

(** The walk of [vfs_lookup]. *)
Fixpoint lookup_loop (fuel : nat) (v : vfs) (p : list Z) (node : option nat) : option (option nat) :=
  match fuel with
  | O => None
  | S f =>
    match p, node with
    | _ :: _, Some i =>
      let '(comp, p) := copy_comp VFS_NAME_MAX p in
      let p := skip_slashes p in
      node ← find_child v i comp; lookup_loop f v p node
    | _, _ => Some node
    end
  end.

Definition vfs_lookup (path cwd : cstr) (v : vfs) : option (option nat) :=
  normal ← vfs_normalize path cwd VFS_PATH_MAX;
  match normal with
  | None => Some None
  | Some normal =>
    if streq normal [SLASH] then Some (root_node v)
    else lookup_loop (S (length normal)) v (tl normal) (root_node v)
  end.

(** What precedes and what follows the last slash. *)
Fixpoint strrchr_split (l : list Z) : option (list Z * list Z) :=
  match l with
  | [] => None
  | c :: l' =>
    match strrchr_split l' with
    | Some (a, b) => Some (c :: a, b)
    | None => if c =? SLASH then Some ([], l') else None
    end
  end.

(** The parent and the name; [Some None] for a return value of -1. *)
Definition parent_and_name (path cwd : cstr) (v : vfs) : option (option (nat * list Z)) :=
  normal ← vfs_normalize path cwd VFS_PATH_MAX;
  match normal with
  | None => Some None
  | Some normal =>
    if streq normal [SLASH] then Some None
    else
      match strrchr_split normal with
      | None => Some None
      | Some (dir, last) =>
        let name := take VFS_NAME_MAX last in
        parent ← (match dir with
                  | [] => Some (root_node v)
                  | _ => vfs_lookup (Some dir) (Some [SLASH]) v
                  end);
        match parent with
        | None => Some None
        | Some p =>
          n ← nodes v !! p;
          if negb (n_type n =? VFS_NODE_DIR) || streq name [] then Some None
          else Some (Some (p, name))
        end
      end
  end.

(** [vfs_mkdir] and [vfs_create_file] differ in the type of the node. *)
Definition vfs_add (type : Z) (path cwd : cstr) (mode uid gid : Z) (v : vfs) : option (vfs * Z) :=
  pn ← parent_and_name path cwd v;
  match pn with
  | None => Some (v, -1)
  | Some (parent, name) =>
    c ← find_child v parent name;
    match c with
    | Some _ => Some (v, -2)
    | None =>
      match alloc_node name type mode uid gid v with
      | (v, None) => Some (v, -3)
      | (v, Some node) => v ← attach_child parent node v; Some (sync_hook v, 0)
      end
    end
  end.

Definition vfs_mkdir : cstr -> cstr -> Z -> Z -> Z -> vfs -> option (vfs * Z) := vfs_add VFS_NODE_DIR.
Definition vfs_create_file : cstr -> cstr -> Z -> Z -> Z -> vfs -> option (vfs * Z) :=
  vfs_add VFS_NODE_FILE.

Definition init_dirs : list (list Z * Z) :=
  [(str "/bin", 0x1ed); (str "/sbin", 0x1ed); (str "/etc", 0x1ed); (str "/dev", 0x1ed);
   (str "/proc", 0x1ed); (str "/home", 0x1ed); (str "/root", 0x1c0); (str "/tmp", 0x3ff);
   (str "/usr", 0x1ed); (str "/var", 0x1ed)].

(** The nodes of an earlier life stay in the array but are not counted. *)
Definition vfs_init (syncs : nat) : option vfs :=
  let '(v, root) := alloc_node [] VFS_NODE_DIR (Z.lor VFS_S_IFDIR 0x1ed) 0 0 (Vfs [] None 0 syncs) in
  let v := Vfs (nodes v) root (vfs_clock v) (v_syncs v) in
  foldl (fun v '(path, mode) => v ← v;
           '(v, _) ← vfs_mkdir (Some path) (Some [SLASH]) (Z.lor VFS_S_IFDIR mode) 0 0 v; Some v)
        (Some v) init_dirs.

Definition vfs_root (v : vfs) : option nat := root_node v.

(** The rewritten link is the parent's [first_child] or a sibling's [next_sibling]. *)
Fixpoint unlink_loop (fuel : nat) (v : vfs) (parent : nat) (prev link : option nat) (name : list Z)
    : option (vfs * Z) :=
  match fuel with
  | O => None
  | S f =>
    match link with
    | None => Some (v, -1)
    | Some i =>
      n ← nodes v !! i;
      if streq (n_name n) name then
        if (match n_first n with Some _ => true | None => false end) then Some (v, -2)
        else
          v ← (match prev with
               | None => update v parent (fun p => set_links p (n_parent p) (n_next n) (n_next p))
               | Some k => update v k (fun p => set_links p (n_parent p) (n_first p) (n_next n))
               end);
          let v := tick v in
          v ← update v parent (fun p => set_modified p (vfs_clock v));
          Some (sync_hook v, 0)
      else unlink_loop f v parent (Some i) (n_next n) name
    end
  end.

Definition vfs_unlink (path cwd : cstr) (v : vfs) : option (vfs * Z) :=
  pn ← parent_and_name path cwd v;
  match pn with
  | None => Some (v, -1)
  | Some (parent, name) =>
    p ← nodes v !! parent;
    unlink_loop (S (length (nodes v))) v parent None (n_first p) name
  end.

Definition vfs_chmod (path cwd : cstr) (mode : Z) (v : vfs) : option (vfs * Z) :=
  node ← vfs_lookup path cwd v;
  match node with
  | None => Some (v, -1)
  | Some i =>
    let v := tick v in
    v ← update v i (fun n => set_modified
          (set_attrs n (Z.lor (Z.land (n_mode n) 0xf000) (Z.land mode 0xfff)) (n_uid n) (n_gid n))
          (vfs_clock v));
    Some (sync_hook v, 0)
  end.

Definition vfs_chown (path cwd : cstr) (uid gid : Z) (v : vfs) : option (vfs * Z) :=
  node ← vfs_lookup path cwd v;
  match node with
  | None => Some (v, -1)
  | Some i =>
    let v := tick v in
    v ← update v i (fun n => set_modified (set_attrs n (n_mode n) uid gid) (vfs_clock v));
    Some (sync_hook v, 0)
  end.

Record vfs_stat_buf := Stat {
  st_mode : Z; st_uid : Z; st_gid : Z; st_size : Z; st_modified : Z; st_device : Z; st_inode : Z;
  st_type : Z }.

(** [Some None] for a return value of -1; the buffer is not NULL. *)
Definition vfs_stat (path cwd : cstr) (v : vfs) : option (option vfs_stat_buf) :=
  node ← vfs_lookup path cwd v;
  match node with
  | None => Some None
  | Some i =>
    n ← nodes v !! i;
    Some (Some (Stat (n_mode n) (n_uid n) (n_gid n) (n_size n) (n_modified n) 1 (n_created n)
                     (n_type n)))
  end.

(** The bytes read; [Some None] for a return value of -1. *)
Definition vfs_read_node (node : option nat) (offset count : Z) (v : vfs) : option (option (list Z)) :=
  match node with
  | None => Some None
  | Some i =>
    n ← nodes v !! i;
    if n_type n =? VFS_NODE_DIR then Some None
    else if n_size n <=? offset then Some (Some [])
    else
      let available := n_size n - offset in
      let count := if available <? count then available else count in
      d ← n_data n;
      if Z.of_nat (length d) <? offset + count then None
      else Some (Some (take (Z.to_nat count) (drop (Z.to_nat offset) d)))
  end.

(** [memcpy(data + offset, buf, count)] inside a buffer. *)
Definition store (d : list Z) (offset : Z) (buf : list Z) : option (list Z) :=
  if Z.of_nat (length d) <? offset + Z.of_nat (length buf) then None
  else Some (take (Z.to_nat offset) d ++ buf ++ drop (Z.to_nat offset + length buf) d).

(** The siblings of a directory in the order [emit] sees them. *)
Fixpoint list_loop (fuel : nat) (ns : list vnode) (p : option nat) : option (list nat) :=
  match fuel with
  | O => None
  | S f => match p with
           | None => Some []
           | Some i => n ← ns !! i; l ← list_loop f ns (n_next n); Some (i :: l)
           end
  end.

Definition vfs_list (dir : option nat) (v : vfs) : option (list nat) :=
  match dir with
  | None => Some []
  | Some i =>
    n ← nodes v !! i;
    if negb (n_type n =? VFS_NODE_DIR) then Some []
    else list_loop (S (length (nodes v))) (nodes v) (n_first n)
  end.

Section Write.
(** What the heap answers to a request: whether [kmalloc] returns a block. A
    request of 0 bytes never does. *)
Context (kmalloc_ok : Z -> bool).

Definition vfs_write_file (path cwd : cstr) (data : list Z) (v : vfs) : option (vfs * Z) :=
  node ← vfs_lookup path cwd v;
  '(v, rc, node) ←
    (match node with
     | Some i => Some (v, 0, Some i)
     | None =>
       '(v, rc) ← vfs_create_file path cwd (Z.lor VFS_S_IFREG 0x1a4) 0 0 v;
       if rc <? 0 then Some (v, rc, None)
       else node ← vfs_lookup path cwd v; Some (v, 0, node)
     end);
  if rc <? 0 then Some (v, rc)
  else
    match node with
    | None => Some (v, -1)
    | Some i =>
      n ← nodes v !! i;
      if negb (n_type n =? VFS_NODE_FILE) && negb (n_type n =? VFS_NODE_PROC) then Some (v, -1)
      else
        let size := Z.of_nat (length data) in
        if negb (size =? 0) && negb (kmalloc_ok (u64 (size + 1))) then Some (v, -2)
        else
          let copy := if size =? 0 then None else Some (data ++ [0]) in
          let v := tick v in
          v ← update v i (fun n => set_modified (set_data n copy false size) (vfs_clock v));
          Some (sync_hook v, 0)
    end.

(** [buf] holds [count] bytes; the result is the return value. *)
Definition vfs_write_node (node : option nat) (offset : Z) (buf : list Z) (v : vfs) : option (vfs * Z) :=
  match node with
  | None => Some (v, -1)
  | Some i =>
    n ← nodes v !! i;
    if negb (n_type n =? VFS_NODE_FILE) then Some (v, -1)
    else
      let count := Z.of_nat (length buf) in
      let e := u64 (offset + count) in
      r ← (if (n_size n <? e) || n_borrowed n then
             let new_size := if n_size n <? e then e else n_size n in
             let alloc := u64 (new_size + 1) in
             if (alloc =? 0) || negb (kmalloc_ok alloc) then Some None
             else
               old ← (match n_data n with
                      | Some d => if n_size n =? 0 then Some []
                                  else if Z.of_nat (length d) <? n_size n then None
                                  else Some (take (Z.to_nat (n_size n)) d)
                      | None => Some []
                      end);
               (* the copied bytes, the zeroed gap and the final NUL; what the
                  heap had in a hole that is not zeroed is not known *)
               if negb (Z.of_nat (length old) =? n_size n) then None
               else Some (Some (set_data n (Some (old ++ replicate (Z.to_nat (new_size - n_size n)) 0 ++ [0]))
                                         false new_size))
           else Some (Some n));
      match r with
      | None => Some (v, -1)
      | Some n =>
        d ← (match n_data n with
             | Some d => d ← store d offset buf; Some (Some d)
             | None => if count =? 0 then Some None else None
             end);
        let v := tick v in
        v ← update v i (fun _ => set_modified (set_data n d (n_borrowed n) (n_size n)) (vfs_clock v));
        Some (v, count)
      end
  end.

End Write.

(** ** Paths: specification *)

(** The pieces of a path between its slashes. *)
Fixpoint segs (p : list Z) : list (list Z) :=
  match p with
  | [] => [[]]
  | c :: p => if c =? SLASH then [] :: segs p
              else match segs p with s :: r => (c :: s) :: r | [] => [[c]] end
  end.

(** What one piece does to the components so far; [None]: too many. *)
Definition resolve_step (r : option (list (list Z))) (seg : list Z) : option (list (list Z)) :=
  comps ← r;
  let c := take VFS_NAME_MAX seg in
  if streq c (str ".") || streq c [] then Some comps
  else if streq c (str "..") then Some (removelast comps)
  else if (VFS_MAX_COMPONENTS <=? length comps)%nat then None else Some (comps ++ [c]).

Definition resolve (p : list Z) : option (list (list Z)) := foldl resolve_step (Some []) (segs p).

Definition path_of (comps : list (list Z)) : list Z :=
  match comps with [] => [SLASH] | _ => concat (map (cons SLASH) comps) end.

(** The text that [vfs_normalize] resolves. *)
Definition source_of (path : list Z) (cwd : cstr) : list Z :=
  take 255 (if peek path =? SLASH then path
            else (match cwd with Some (c :: d) => c :: d | _ => [SLASH] end) ++ [SLASH] ++ path).

(** A component of a normalized path. *)
Definition no_slash (s : list Z) : Prop := Forall (fun c => c <> SLASH) s.
Definition comp_ok (c : list Z) : Prop :=
  c <> [] /\ c <> str "." /\ c <> str ".." /\ no_slash c /\ (length c <= VFS_NAME_MAX)%nat.

Lemma streq_spec a b : reflect (a = b) (streq a b).
Proof. unfold streq. destruct (decide (a = b)); [rewrite bool_decide_eq_true_2|rewrite bool_decide_eq_false_2]; try done; by constructor. Qed.

Lemma streq_refl a : streq a a = true.
Proof. by destruct (streq_spec a a). Qed.

Lemma streq_neq a b : a <> b -> streq a b = false.
Proof. by destruct (streq_spec a b). Qed.

(** The first piece of a path, and what follows it. *)
Definition seg1 (p : list Z) : list Z := hd [] (segs p).

Lemma segs_seg s : no_slash s -> segs s = [s].
Proof.
  induction 1 as [|c s Hc Hs IH]; [done|]. cbn [segs]. rewrite (proj2 (Z.eqb_neq c SLASH)) by done.
  by rewrite IH.
Qed.

Lemma segs_app s p : no_slash s -> segs (s ++ SLASH :: p) = s :: segs p.
Proof.
  induction 1 as [|c s Hc Hs IH]; [done|]. cbn [segs app].
  rewrite (proj2 (Z.eqb_neq c SLASH)) by done. by rewrite IH.
Qed.

(** Every path is a piece followed by nothing or by a slash. *)
Lemma split_seg p : exists s t, p = s ++ t /\ no_slash s /\ (t = [] \/ exists t', t = SLASH :: t').
Proof.
  induction p as [|c p (s & t & -> & Hs & Ht)].
  - exists [], []. split; [done|]. split; [constructor|by left].
  - destruct (Z.eq_dec c SLASH) as [->|Hc].
    + exists [], (SLASH :: s ++ t). split; [done|]. split; [constructor|right; eauto].
    + exists (c :: s), t. split; [done|]. split; [by constructor|done].
Qed.

Lemma skip_comp_app s t : no_slash s -> t = [] \/ (exists t', t = SLASH :: t') -> skip_comp (s ++ t) = t.
Proof.
  intros Hs Ht. induction Hs as [|c s Hc Hs IH]; cbn [skip_comp app].
  - destruct Ht as [->|[t' ->]]; [done|]. cbn [skip_comp]. by rewrite Z.eqb_refl.
  - by rewrite (proj2 (Z.eqb_neq c SLASH)).
Qed.

Lemma copy_comp_app n : forall s t, no_slash s -> t = [] \/ (exists t', t = SLASH :: t') ->
  copy_comp n (s ++ t) = (take n s, drop n s ++ t).
Proof.
  induction n as [|n IH]; intros s t Hs Ht; [done|].
  destruct Hs as [|c s Hc Hs]; cbn [app].
  - destruct Ht as [->|[t' ->]]; [done|]. cbn [copy_comp]. by rewrite Z.eqb_refl.
  - cbn [copy_comp]. rewrite (proj2 (Z.eqb_neq c SLASH)) by done. by rewrite IH.
Qed.

Lemma no_slash_drop n s : no_slash s -> no_slash (drop n s).
Proof. apply Forall_drop. Qed.

Lemma resolve_empty r : resolve_step r [] = r.
Proof. by destruct r. Qed.

Lemma foldl_skip p r : foldl resolve_step r (segs (skip_slashes p)) = foldl resolve_step r (segs p).
Proof.
  revert r. induction p as [|c p IH]; intros r; [done|]. cbn [skip_slashes].
  destruct (Z.eqb_spec c SLASH) as [->|]; [|done]. rewrite IH. cbn [segs].
  rewrite Z.eqb_refl. cbn [foldl]. by rewrite resolve_empty.
Qed.

Lemma foldl_none l : foldl resolve_step None l = None.
Proof. by induction l. Qed.

Lemma skip_slashes_length p : (length (skip_slashes p) <= length p)%nat.
Proof. induction p as [|c p IH]; simpl; [lia|]. case_match; simpl; lia. Qed.

Lemma skip_slashes_head p c p' : skip_slashes p = c :: p' -> c <> SLASH.
Proof.
  induction p as [|x p IH]; [done|]. cbn [skip_slashes].
  destruct (Z.eqb_spec x SLASH); [done|]. by intros [= <- _].
Qed.

(** The parsing loop computes the resolution of the pieces. *)
Lemma norm_loop_spec fuel : forall p comps, (length p < fuel)%nat ->
  norm_loop fuel p comps = Some (foldl resolve_step (Some comps) (segs p)).
Proof.
  induction fuel as [|fuel IH]; intros p comps Hf; [lia|]. cbn [norm_loop].
  destruct p as [|c0 p0]; [done|]. set (p := c0 :: p0) in *.
  rewrite <- (foldl_skip p). pose proof (skip_slashes_length p) as Hl.
  destruct (skip_slashes p) as [|c q] eqn:E; [done|]. apply skip_slashes_head in E as Hc.
  destruct (split_seg (c :: q)) as (s & t & Eq & Hs & Ht). rewrite Eq.
  rewrite copy_comp_app, skip_comp_app by (try done; by apply no_slash_drop).
  assert (0 < length s)%nat as Hs0.
  { destruct s; [|simpl; lia]. destruct Ht as [->|[t' ->]]; [done|]. injection Eq as -> _. done. }
  assert (length t < fuel)%nat as Hlt.
  { apply (f_equal length) in Eq. rewrite length_app in Eq. lia. }
  assert (foldl resolve_step (Some comps) (segs (s ++ t)) =
          foldl resolve_step (resolve_step (Some comps) s) (segs t)) as ->.
  { destruct Ht as [->|[t' ->]].
    - rewrite app_nil_r, segs_seg by done. cbn [foldl segs]. by rewrite resolve_empty.
    - rewrite segs_app by done. cbn [foldl segs]. rewrite Z.eqb_refl. cbn [foldl].
      by rewrite resolve_empty. }
  unfold resolve_step at 2. rewrite bind_some.
  destruct (streq _ (str ".") || streq _ []); [by apply IH|].
  destruct (streq _ (str "..")); [by apply IH|].
  destruct (VFS_MAX_COMPONENTS <=? length comps)%nat; [by rewrite foldl_none|by apply IH].
Qed.

Lemma ksnprintf_join a b :
  ksnprintf VFS_PATH_MAX (str "%s/%s") [VStr (Some a); VStr (Some b)] =
  Some (take 255 (a ++ [SLASH] ++ b), Z.of_nat (length (a ++ [SLASH] ++ b))).
Proof.
  unfold ksnprintf. rewrite kvsnprintf_render by (unfold VFS_PATH_MAX; lia).
  assert (render (str "%s/%s") [VStr (Some a); VStr (Some b)] = Some (a ++ [SLASH] ++ b)) as ->.
  { norm_str. unfold render. cbn. by rewrite app_nil_r. }
  rewrite bind_some. done.
Qed.

(** Normalization is total: it resolves the source text and joins the result. *)
Lemma vfs_normalize_eq path cwd size : 2 <= size ->
  vfs_normalize (Some path) cwd size =
  Some (comps ← resolve (source_of path cwd); join_loop size [SLASH] comps).
Proof.
  intros Hs. unfold vfs_normalize, source_of, resolve.
  destruct (Z.eqb_spec size 0); [lia|].
  assert (forall source, (comps ← norm_loop (S (length source)) source [];
    match comps with
    | None => Some None
    | Some comps => if size <? 2 then Some None else Some (join_loop size [SLASH] comps)
    end) = Some (comps ← foldl resolve_step (Some []) (segs source); join_loop size [SLASH] comps)) as H.
  { intros source. rewrite norm_loop_spec by lia. rewrite bind_some.
    destruct (foldl _ _ _) as [comps|]; [|done]. rewrite bind_some.
    by destruct (Z.ltb_spec size 2); [lia|]. }
  destruct (peek path =? SLASH); [by rewrite bind_some, H|].
  cbv zeta. rewrite ksnprintf_join. rewrite !bind_some. by rewrite H.
Qed.

Lemma resolve_ok_step r seg comps :
  (forall c, r = Some c -> Forall comp_ok c /\ (length c <= VFS_MAX_COMPONENTS)%nat) ->
  no_slash seg -> resolve_step r seg = Some comps ->
  Forall comp_ok comps /\ (length comps <= VFS_MAX_COMPONENTS)%nat.
Proof.
  intros Hr Hs H. destruct r as [cs|]; [|done]. destruct (Hr cs eq_refl) as [H1 H2]. clear Hr.
  unfold resolve_step in H. rewrite bind_some in H.
  destruct (streq_spec (take VFS_NAME_MAX seg) (str ".")); [by simplify_eq/=|].
  destruct (streq_spec (take VFS_NAME_MAX seg) []); [by simplify_eq/=|]. cbn [orb] in H.
  destruct (streq_spec (take VFS_NAME_MAX seg) (str "..")).
  - injection H as <-. clear -H1 H2. split.
    + destruct cs as [|x cs] using rev_ind; [done|]. rewrite removelast_last.
      by apply Forall_app in H1 as [? _].
    + destruct cs as [|x cs] using rev_ind; [simpl; lia|]. rewrite removelast_last.
      rewrite length_app in H2. lia.
  - destruct (Nat.leb_spec VFS_MAX_COMPONENTS (length cs)); [done|]. injection H as <-.
    rewrite length_app. cbn [length]. split; [|lia]. apply Forall_app. split; [done|].
    apply Forall_singleton. repeat split; try done; [by apply Forall_take|].
    rewrite length_take. lia.
Qed.

Lemma segs_no_slash p : Forall no_slash (segs p).
Proof.
  induction p as [|c p IH]; cbn [segs]; [by repeat constructor|].
  destruct (Z.eqb_spec c SLASH); [constructor; [constructor|done]|].
  destruct (segs p); [by repeat constructor|]. inversion IH; subst. constructor; [by constructor|done].
Qed.

(** Components of a resolved path are names. *)
Lemma resolve_ok p comps : resolve p = Some comps ->
  Forall comp_ok comps /\ (length comps <= VFS_MAX_COMPONENTS)%nat.
Proof.
  unfold resolve. pose proof (segs_no_slash p) as Hs. revert Hs.
  assert (forall c, Some [] = Some c -> Forall comp_ok c /\ (length c <= VFS_MAX_COMPONENTS)%nat) as H0
    by (intros c [= <-]; split; [constructor|unfold VFS_MAX_COMPONENTS; simpl; lia]).
  revert H0. generalize (Some ([] : list (list Z))). generalize (segs p). intros l.
  induction l as [|s l IH]; intros r H0 Hs H; cbn [foldl] in H; [by apply H0|].
  apply Forall_cons in Hs as [Hs Hl]. eapply IH; [|exact Hl|exact H].
  intros c Hc. by eapply resolve_ok_step.
Qed.

(** ** Joining *)

Lemma path_of_snoc comps c : comps <> [] -> path_of (comps ++ [c]) = path_of comps ++ [SLASH] ++ c.
Proof.
  intros Hn. destruct comps as [|a comps]; [done|]. unfold path_of. cbn [app].
  change (a :: (comps ++ [c])) with ((a :: comps) ++ [c]). rewrite map_app, concat_app.
  cbn [map concat]. by rewrite app_nil_r.
Qed.

Lemma path_of_root comps : Forall comp_ok comps -> (path_of comps = [SLASH] <-> comps = []).
Proof.
  intros Hok. split; [|by intros ->]. destruct comps as [|c comps]; [done|].
  apply Forall_cons in Hok as [(Hc & _) _]. unfold path_of. cbn [map concat app].
  intros [= E]. by apply app_eq_nil in E as [-> _].
Qed.

Lemma join_step out comps c size : Forall comp_ok comps -> out = path_of comps ->
  (if streq out [SLASH] then out else out ++ [SLASH]) ++ c = path_of (comps ++ [c]) /\
  (Z.of_nat (length out) + Z.of_nat (length c) + 2 <= size ->
   Z.of_nat (length (path_of (comps ++ [c]))) < size).
Proof.
  intros Hok ->. assert (path_of (comps ++ [c]) =
    (if streq (path_of comps) [SLASH] then path_of comps else path_of comps ++ [SLASH]) ++ c) as E.
  { destruct comps as [|a comps]; [cbn; by rewrite app_nil_r|].
    rewrite streq_neq by (intros E; by apply path_of_root in E). by rewrite path_of_snoc, <- app_assoc. }
  split; [done|]. intros H. rewrite E, length_app. case_match; rewrite ?length_app; simpl; lia.
Qed.

Lemma join_loop_spec size rest : forall comps out,
  Forall comp_ok (comps ++ rest) -> Z.of_nat (length (path_of comps)) < size ->
  join_loop size (path_of comps) rest = Some out ->
  out = path_of (comps ++ rest) /\ Z.of_nat (length out) < size.
Proof.
  induction rest as [|c rest IH]; intros comps out Hok Hlen H; cbn [join_loop] in H.
  - injection H as <-. by rewrite app_nil_r.
  - destruct (Z.ltb_spec size (Z.of_nat (length (path_of comps)) + Z.of_nat (length c) + 2)); [done|].
    pose proof Hok as [Hok1 _]%Forall_app.
    destruct (join_step _ comps c size Hok1 eq_refl) as [E Hl].
    rewrite E in H. replace (comps ++ c :: rest) with ((comps ++ [c]) ++ rest) in * by (by rewrite <- app_assoc).
    apply IH in H; [done|done|]. apply Hl. lia.
Qed.

Lemma segs_path_of comps : Forall comp_ok comps -> comps <> [] -> segs (path_of comps) = [] :: comps.
Proof.
  intros Hok Hn. destruct comps as [|c comps]; [done|]. unfold path_of. clear Hn.
  cbn [map concat]. cbn [app]. cbn [segs]. rewrite Z.eqb_refl. f_equal.
  revert c Hok. induction comps as [|d comps IH]; intros c Hok; apply Forall_cons in Hok as [Hc Hok].
  - cbn [map concat]. rewrite app_nil_r. apply segs_seg, Hc.
  - cbn [map concat app]. rewrite segs_app by apply Hc. f_equal. by apply IH.
Qed.

(** Resolving a path in normal form gives its components back. *)
Lemma resolve_path_of comps : Forall comp_ok comps -> (length comps <= VFS_MAX_COMPONENTS)%nat ->
  resolve (path_of comps) = Some comps.
Proof.
  intros Hok Hl. destruct (decide (comps = [])) as [->|Hn]; [done|].
  unfold resolve. rewrite segs_path_of by done. cbn [foldl]. rewrite resolve_empty.
  assert (forall rest done, Forall comp_ok rest -> (length (done ++ rest) <= VFS_MAX_COMPONENTS)%nat ->
    foldl resolve_step (Some done) rest = Some (done ++ rest)) as H; [|by apply (H comps [])].
  clear. induction rest as [|c rest IH]; intros don Hok Hl; [by rewrite app_nil_r|].
  apply Forall_cons in Hok as [(H1 & H2 & H3 & H4 & H5) Hok]. cbn [foldl].
  assert (resolve_step (Some don) c = Some (don ++ [c])) as ->.
  { unfold resolve_step. rewrite bind_some. rewrite take_ge by done.
    rewrite !streq_neq by done. cbn [orb].
    rewrite length_app in Hl. cbn [length] in Hl.
    by destruct (Nat.leb_spec VFS_MAX_COMPONENTS (length don)); [lia|]. }
  rewrite IH; [by rewrite <- app_assoc|done|]. by rewrite <- app_assoc.
Qed.

(** A path in normal form that fits is its own normal form, from anywhere. *)
Lemma normalize_path_of comps cwd out : Forall comp_ok comps -> (length comps <= VFS_MAX_COMPONENTS)%nat ->
  join_loop VFS_PATH_MAX [SLASH] comps = Some out ->
  out = path_of comps /\ vfs_normalize (Some out) cwd VFS_PATH_MAX = Some (Some out).
Proof.
  intros Hok Hl Hj.
  destruct (join_loop_spec VFS_PATH_MAX comps [] out) as [-> Hlen]; [done| |done|].
  { unfold VFS_PATH_MAX. simpl. lia. }
  cbn [app] in *. split; [done|]. rewrite vfs_normalize_eq by (unfold VFS_PATH_MAX; lia).
  assert (source_of (path_of comps) cwd = path_of comps) as ->.
  { unfold source_of. replace (peek (path_of comps) =? SLASH) with true by (by destruct comps).
    apply take_ge. unfold VFS_PATH_MAX in Hlen. lia. }
  by rewrite resolve_path_of, bind_some, Hj by done.
Qed.

(** C36 Normalization is total and canonical: it returns -1 only when there are
    more than 32 components or the result does not fit; otherwise the result is
    the slash-joined list of resolved components, none of them empty, [.] or
    [..] or longer than 63 characters, and normalizing it again, from any
    directory, changes nothing. *)
Theorem normalize_canonical path cwd :
  exists r, vfs_normalize (Some path) cwd VFS_PATH_MAX = Some r /\
    match r with
    | None => forall comps, resolve (source_of path cwd) = Some comps ->
                join_loop VFS_PATH_MAX [SLASH] comps = None
    | Some out => exists comps, resolve (source_of path cwd) = Some comps /\ out = path_of comps /\
        Forall comp_ok comps /\ (length comps <= VFS_MAX_COMPONENTS)%nat /\ (length out <= 255)%nat /\
        forall cwd', vfs_normalize (Some out) cwd' VFS_PATH_MAX = Some (Some out)
    end.
Proof.
  rewrite vfs_normalize_eq by (unfold VFS_PATH_MAX; lia). eexists. split; [done|].
  destruct (resolve (source_of path cwd)) as [comps|] eqn:E; [|done]. rewrite bind_some.
  apply resolve_ok in E as [Hok Hl].
  destruct (join_loop _ _ comps) as [out|] eqn:Ej; [|by intros ? [= <-]].
  exists comps. split; [done|].
  destruct (normalize_path_of comps None out Hok Hl Ej) as [-> _]. split_and!; try done.
  - destruct (join_loop_spec VFS_PATH_MAX comps [] (path_of comps)) as [_ H]; [done| |done|].
    + unfold VFS_PATH_MAX. simpl. lia.
    + unfold VFS_PATH_MAX in H. lia.
  - intros cwd'. by apply (normalize_path_of comps cwd' _ Hok Hl).
Qed.
