(* ===== verification/VfsTree.v ===== *)
(** * The tree of kernel/fs/vfs.c

    The node array of [Vfs.v] read as a tree: the well-formedness of the
    sibling lists, the node a path leads to, and what each operation of vfs.c
    does to the tree and to the contents of the files in it. *)
From S2P Require Import Prelude KString Printf Vfs.

(** ** The tree behind the node array *)

(** [chain ns p l]: following [next_sibling] from [p] visits exactly [l]. *)
Fixpoint chain (ns : list vnode) (p : option nat) (l : list nat) : Prop :=
  match l with
  | [] => p = None
  | i :: l => p = Some i /\ exists n, ns !! i = Some n /\ chain ns (n_next n) l
  end.

(** The name of a node. *)
Definition name_of (ns : list vnode) (i : nat) : option (list Z) := n_name <$> ns !! i.

(** [ch i] lists the children of node [i]. *)
Record wf (v : vfs) (ch : nat -> list nat) : Prop := {
  wf_root : root_node v = Some 0%nat /\ exists r, nodes v !! 0%nat = Some r /\ n_type r = VFS_NODE_DIR;
  wf_chain : forall i n, nodes v !! i = Some n -> chain (nodes v) (n_first n) (ch i);
  wf_out : forall i, nodes v !! i = None -> ch i = [];
  wf_nodup : forall i, NoDup (ch i);
  wf_names : forall i j k, j ∈ ch i -> k ∈ ch i -> name_of (nodes v) j = name_of (nodes v) k -> j = k;
  wf_parent : forall i j k, k ∈ ch i -> k ∈ ch j -> i = j;
  wf_kids : forall i k, k ∈ ch i -> k <> 0%nat /\ (k < length (nodes v))%nat /\
              exists p, nodes v !! i = Some p /\ n_type p = VFS_NODE_DIR;
  wf_up : forall i k n, k ∈ ch i -> nodes v !! k = Some n -> n_parent n = Some i;
  wf_count : (length (nodes v) <= VFS_MAX_NODES)%nat }.

(** The child of a given name. *)
Definition child (ns : list vnode) (ch : nat -> list nat) (i : nat) (c : list Z) : option nat :=
  head (filter (fun k => name_of ns k = Some c) (ch i)).

(** The node a list of components leads to. *)
Fixpoint walk (ns : list vnode) (ch : nat -> list nat) (i : nat) (comps : list (list Z)) : option nat :=
  match comps with [] => Some i | c :: comps => k ← child ns ch i c; walk ns ch k comps end.

Lemma chain_lookup ns p l k : chain ns p l -> k ∈ l -> is_Some (ns !! k).
Proof.
  revert p. induction l as [|i l IH]; intros p H Hk; [by apply elem_of_nil in Hk|].
  destruct H as (_ & n & Hn & H). apply elem_of_cons in Hk as [->|Hk]; [by rewrite Hn|by eapply IH].
Qed.

(** A chain without repetition is no longer than the array. *)
Lemma chain_length ns p l : chain ns p l -> NoDup l -> (length l <= length ns)%nat.
Proof.
  intros Hc Hn. assert (l ⊆ seq 0 (length ns)) as Hs.
  { intros k Hk. apply elem_of_seq. destruct (chain_lookup _ _ _ _ Hc Hk) as [n Hk'].
    apply lookup_lt_Some in Hk'. lia. }
  pose proof (submseteq_length l (seq 0 (length ns))) as H. rewrite length_seq in H. apply H.
  by apply NoDup_submseteq.
Qed.

Lemma find_sibling_spec ns c : forall l fuel p, (length l < fuel)%nat -> chain ns p l ->
  find_sibling fuel ns p c = Some (head (filter (fun k => name_of ns k = Some c) l)).
Proof.
  induction l as [|i l IH]; intros fuel p Hf Hc; (destruct fuel as [|fuel]; [simpl in Hf; lia|]);
    cbn [chain find_sibling] in *; [by rewrite Hc|].
  destruct Hc as (-> & n & Hn & Hc). rewrite Hn, bind_some. rewrite filter_cons.
  assert (name_of ns i = Some (n_name n)) as Hname by (unfold name_of; by rewrite Hn).
  destruct (streq_spec (n_name n) c) as [E|E].
  - by rewrite decide_True by (by rewrite Hname, E).
  - rewrite decide_False by (rewrite Hname; intros [= ?]; done). apply IH; [simpl in Hf; lia|done].
Qed.

Lemma find_child_spec v ch i n c : wf v ch -> nodes v !! i = Some n ->
  find_child v i c = Some (child (nodes v) ch i c).
Proof.
  intros W Hn. unfold find_child. rewrite Hn, bind_some. pose proof (wf_chain v ch W i n Hn) as Hc.
  apply find_sibling_spec; [|done]. pose proof (chain_length _ _ _ Hc (wf_nodup v ch W i)). lia.
Qed.

Lemma child_in ns ch i c k : child ns ch i c = Some k -> k ∈ ch i /\ name_of ns k = Some c.
Proof.
  unfold child. intros H. destruct (filter _ (ch i)) as [|x l] eqn:E; [done|]. injection H as ->.
  assert (k ∈ filter (fun k => name_of ns k = Some c) (ch i)) as Hk by (rewrite E; left).
  apply list_elem_of_filter in Hk. tauto.
Qed.

Lemma child_intro v ch i c k : wf v ch -> k ∈ ch i -> name_of (nodes v) k = Some c ->
  child (nodes v) ch i c = Some k.
Proof.
  intros W Hk Hn. unfold child.
  assert (k ∈ filter (fun k => name_of (nodes v) k = Some c) (ch i)) as H
    by (by apply list_elem_of_filter).
  destruct (filter _ (ch i)) as [|x l] eqn:E; [by apply elem_of_nil in H|]. simpl. f_equal.
  assert (x ∈ filter (fun k => name_of (nodes v) k = Some c) (ch i)) as Hx by (rewrite E; left).
  apply list_elem_of_filter in Hx as [Hxn Hx]. apply (wf_names v ch W i); congruence.
Qed.

Lemma child_none ns ch i c : child ns ch i c = None -> forall k, k ∈ ch i -> name_of ns k <> Some c.
Proof.
  unfold child. intros H k Hk Hn.
  assert (k ∈ filter (fun k => name_of ns k = Some c) (ch i)) as Hf by (by apply list_elem_of_filter).
  destruct (filter _ (ch i)); [by apply elem_of_nil in Hf|done].
Qed.

Lemma walk_app ns ch p q i : walk ns ch i (p ++ q) = k ← walk ns ch i p; walk ns ch k q.
Proof.
  revert i. induction p as [|c p IH]; intros i; [done|]. cbn [app walk].
  destruct (child ns ch i c) as [k|]; [|done]. rewrite !bind_some. apply IH.
Qed.

Lemma walk_snoc ns ch p c i : walk ns ch i (p ++ [c]) = k ← walk ns ch i p; child ns ch k c.
Proof. rewrite walk_app. destruct (walk _ _ _ _); [|done]. rewrite !bind_some. cbn [walk]. by destruct (child _ _ _ _). Qed.

Lemma walk_valid v ch p : forall i k, wf v ch -> is_Some (nodes v !! i) ->
  walk (nodes v) ch i p = Some k -> is_Some (nodes v !! k).
Proof.
  induction p as [|c p IH]; intros i k W Hi H; [by injection H as <-|]. cbn [walk] in H.
  destruct (child _ _ i c) as [j|] eqn:E; [|done]. rewrite bind_some in H.
  apply (IH j); [done| |done]. apply child_in in E as [Hj _].
  apply (wf_kids v ch W) in Hj as (_ & Hj & _). by apply lookup_lt_is_Some.
Qed.

(** A node is reached from the root along one path only. *)
Lemma walk_unique v ch : wf v ch -> forall p q k,
  walk (nodes v) ch 0 p = Some k -> walk (nodes v) ch 0 q = Some k -> p = q.
Proof.
  intros W. induction p as [|c p IH] using rev_ind; intros q k Hp Hq.
  - injection Hp as <-. destruct q as [|d q _] using rev_ind; [done|]. exfalso.
    rewrite walk_snoc in Hq. destruct (walk _ _ _ q); [|done]. rewrite bind_some in Hq.
    apply child_in in Hq as [Hq _]. by apply (wf_kids v ch W) in Hq as [? _].
  - rewrite walk_snoc in Hp. destruct (walk _ _ 0 p) as [i|] eqn:Ei; [|done]. rewrite bind_some in Hp.
    apply child_in in Hp as [Hpi Hpn]. destruct q as [|d q _] using rev_ind.
    + injection Hq as <-. by apply (wf_kids v ch W) in Hpi as [? _].
    + rewrite walk_snoc in Hq. destruct (walk _ _ 0 q) as [j|] eqn:Ej; [|done]. rewrite bind_some in Hq.
      apply child_in in Hq as [Hqi Hqn]. pose proof (wf_parent v ch W _ _ _ Hpi Hqi) as ->.
      rewrite (IH q j eq_refl Ej). congruence.
Qed.

(** The path of [walk]: a list of components as the tail of a normal path. *)
Lemma lookup_loop_spec v ch : wf v ch -> forall comps fuel i,
  Forall comp_ok comps -> is_Some (nodes v !! i) -> (length (path_of comps) <= fuel)%nat ->
  comps <> [] ->
  lookup_loop fuel v (tl (path_of comps)) (Some i) = Some (walk (nodes v) ch i comps).
Proof.
  intros W. induction comps as [|c comps IH]; intros fuel i Hok Hi Hf Hn; [done|]. clear Hn.
  apply Forall_cons in Hok as [(Hc1 & _ & _ & Hc2 & Hc3) Hok].
  assert (tl (path_of (c :: comps)) = c ++ (match comps with [] => [] | _ => path_of comps end)) as ->
    by (unfold path_of; cbn [map concat tl app]; by destruct comps).
  assert (length (path_of (c :: comps)) = S (length c) + length (concat (map (cons SLASH) comps)))%nat as Hl
    by (unfold path_of; cbn [map concat]; by rewrite length_app).
  destruct fuel as [|fuel]; [lia|]. set (t := match comps with [] => [] | _ => path_of comps end).
  assert (t = [] \/ exists t', t = SLASH :: t') as Ht
    by (unfold t; destruct comps; [by left|right; unfold path_of; cbn; eauto]).
  destruct c as [|c0 c]; [done|]. cbn [lookup_loop app].
  change (c0 :: c ++ t) with ((c0 :: c) ++ t). rewrite copy_comp_app by done.
  rewrite take_ge, drop_ge by done. cbn [app].
  destruct Hi as [n Hi]. rewrite (find_child_spec v ch i n) by done. rewrite bind_some.
  assert (skip_slashes t = tl t) as Hsk.
  { unfold t. destruct comps as [|d comps]; [done|]. apply Forall_cons in Hok as [Hd _].
    unfold path_of. cbn [map concat app skip_slashes tl]. rewrite Z.eqb_refl.
    destruct Hd as (Hd & _ & _ & Hd' & _). destruct d as [|d0 d]; [done|].
    apply Forall_cons in Hd' as [Hd' _]. cbn [app skip_slashes].
    by rewrite (proj2 (Z.eqb_neq d0 SLASH)). }
  rewrite Hsk. cbn [walk]. destruct (child _ ch i _) as [k|] eqn:E.
  - rewrite bind_some. destruct comps as [|d comps].
    + cbn [length] in *. destruct fuel; [lia|done].
    + apply IH; [done| | |done].
      * apply child_in in E as [E _]. apply (wf_kids v ch W) in E as (_ & E & _).
        by apply lookup_lt_is_Some.
      * change (length (path_of (d :: comps)) <= fuel)%nat. cbn [length] in Hl. unfold path_of in *. lia.
  - destruct fuel; [cbn [length] in Hl; lia|]. cbn [lookup_loop]. by destruct (tl t).
Qed.

(** The components a path names; [None] when normalization fails. *)
Definition norm_comps (path : list Z) (cwd : cstr) : option (list (list Z)) :=
  comps ← resolve (source_of path cwd); _ ← join_loop VFS_PATH_MAX [SLASH] comps; Some comps.

Lemma normalize_norm path cwd :
  vfs_normalize (Some path) cwd VFS_PATH_MAX = Some (path_of <$> norm_comps path cwd).
Proof.
  rewrite vfs_normalize_eq by (unfold VFS_PATH_MAX; lia). unfold norm_comps.
  destruct (resolve (source_of path cwd)) as [comps|] eqn:E; [|done]. rewrite !bind_some.
  apply resolve_ok in E as [Hok Hl].
  destruct (join_loop _ _ comps) as [out|] eqn:Ej; [|done].
  by destruct (normalize_path_of comps None out Hok Hl Ej) as [-> _].
Qed.

Lemma norm_comps_ok path cwd comps : norm_comps path cwd = Some comps ->
  Forall comp_ok comps /\ (length comps <= VFS_MAX_COMPONENTS)%nat /\
  is_Some (join_loop VFS_PATH_MAX [SLASH] comps).
Proof.
  unfold norm_comps. destruct (resolve (source_of path cwd)) as [cs|] eqn:E; [|done].
  rewrite bind_some. destruct (join_loop _ _ cs) as [out|] eqn:Ej; [|done]. intros [= <-].
  apply resolve_ok in E as [? ?]. by rewrite Ej.
Qed.

Lemma join_loop_prefix size a : forall out b,
  is_Some (join_loop size out (a ++ b)) -> is_Some (join_loop size out a).
Proof.
  induction a as [|c a IH]; intros out b H; [by eexists|]. cbn [app join_loop] in *.
  destruct (_ <? _); [by destruct H|]. by eapply IH.
Qed.

Lemma wf_root_lookup v ch : wf v ch -> root_node v = Some 0%nat /\ is_Some (nodes v !! 0%nat).
Proof. intros W. destruct (wf_root v ch W) as (? & r & -> & _). eauto. Qed.

(** Looking a path up follows its components from the root. *)
Lemma lookup_norm v ch comps cwd : wf v ch -> Forall comp_ok comps ->
  (length comps <= VFS_MAX_COMPONENTS)%nat -> is_Some (join_loop VFS_PATH_MAX [SLASH] comps) ->
  vfs_lookup (Some (path_of comps)) cwd v = Some (walk (nodes v) ch 0 comps).
Proof.
  intros W Hok Hl [out Hj]. destruct (normalize_path_of comps cwd out Hok Hl Hj) as [-> Hn].
  unfold vfs_lookup. rewrite Hn, bind_some. destruct (wf_root_lookup v ch W) as [-> Hr].
  destruct comps as [|c comps]; [by rewrite streq_refl|].
  rewrite streq_neq by (intros E; by apply path_of_root in E).
  by apply lookup_loop_spec; try done; lia.
Qed.

Lemma vfs_lookup_spec v ch path cwd : wf v ch ->
  vfs_lookup (Some path) cwd v = Some (comps ← norm_comps path cwd; walk (nodes v) ch 0 comps).
Proof.
  intros W. unfold vfs_lookup. rewrite normalize_norm, bind_some.
  destruct (norm_comps path cwd) as [comps|] eqn:E; [|done]. cbn [fmap option_fmap option_map].
  rewrite bind_some. apply norm_comps_ok in E as (Hok & Hl & Hj).
  pose proof (lookup_norm v ch comps None W Hok Hl Hj) as H. unfold vfs_lookup in H.
  destruct Hj as [out Hj]. destruct (normalize_path_of comps None out Hok Hl Hj) as [-> Hn].
  by rewrite Hn, bind_some in H.
Qed.

Lemma strrchr_split_last d c : no_slash c -> strrchr_split (d ++ SLASH :: c) = Some (d, c).
Proof.
  intros Hc. assert (strrchr_split c = None) as Hn.
  { induction Hc as [|x c Hx Hc IH]; [done|]. cbn [strrchr_split]. rewrite IH.
    by rewrite (proj2 (Z.eqb_neq x SLASH)). }
  induction d as [|x d IH]; cbn [app strrchr_split]; [by rewrite Hn, Z.eqb_refl|by rewrite IH].
Qed.

(** The directory and the last component of a path. *)
Lemma parent_and_name_spec v ch path cwd : wf v ch ->
  parent_and_name (Some path) cwd v = Some (
    comps ← norm_comps path cwd;
    c ← last comps;
    p ← walk (nodes v) ch 0 (removelast comps);
    n ← nodes v !! p;
    if n_type n =? VFS_NODE_DIR then Some (p, c) else None).
Proof.
  intros W. unfold parent_and_name. rewrite normalize_norm, bind_some.
  destruct (norm_comps path cwd) as [comps|] eqn:E; [|done]. cbn [fmap option_fmap option_map].
  rewrite bind_some. apply norm_comps_ok in E as (Hok & Hl & Hj).
  destruct comps as [|c comps _] using rev_ind; [done|]. clear path cwd.
  rewrite streq_neq by (intros E; apply path_of_root in E; [by destruct comps|done]).
  apply Forall_app in Hok as [Hok Hc]. apply Forall_singleton in Hc as (Hc1 & _ & _ & Hc2 & Hc3).
  rewrite last_snoc, bind_some, removelast_last.
  rewrite length_app in Hl. apply join_loop_prefix in Hj.
  assert (exists d, path_of (comps ++ [c]) = d ++ SLASH :: c /\
            (match d with [] => Some (root_node v) | _ => vfs_lookup (Some d) (Some [SLASH]) v end)
            = Some (walk (nodes v) ch 0 comps)) as (d & -> & Hd).
  { destruct comps as [|a comps].
    - exists []. split; [unfold path_of; cbn; by rewrite app_nil_r|].
      by destruct (wf_root_lookup v ch W) as [-> _].
    - exists (path_of (a :: comps)). split; [by rewrite path_of_snoc|].
      rewrite <- (lookup_norm v ch (a :: comps) (Some [SLASH])) by (try done; lia). done. }
  rewrite strrchr_split_last by done. rewrite take_ge by done. rewrite Hd.
  rewrite bind_some. destruct (walk (nodes v) ch 0 comps) as [p|] eqn:Ep; [|done].
  rewrite bind_some. destruct (wf_root_lookup v ch W) as [_ Hr].
  destruct (walk_valid v ch _ _ _ W Hr Ep) as [n ->]. rewrite !bind_some.
  rewrite streq_neq by done. rewrite orb_false_r. by destruct (n_type n =? VFS_NODE_DIR).
Qed.

(** ** Operations that leave the tree alone *)

(** What the tree is made of. *)
Definition same_links (n n' : vnode) : Prop :=
  n_name n' = n_name n /\ n_type n' = n_type n /\ n_first n' = n_first n /\ n_next n' = n_next n /\
  n_parent n' = n_parent n.

Lemma chain_ext ns ns' l : forall p,
  (forall k n, k ∈ l -> ns !! k = Some n -> exists n', ns' !! k = Some n' /\ n_next n' = n_next n) ->
  chain ns p l -> chain ns' p l.
Proof.
  induction l as [|i l IH]; intros p H Hc; [done|]. destruct Hc as (-> & n & Hn & Hc).
  split; [done|]. destruct (H i n) as (n' & Hn' & E); [left|done|]. exists n'. split; [done|].
  rewrite E. apply IH; [|done]. intros k m Hk. apply H. by right.
Qed.

Lemma child_ext ns ns' ch i c :
  (forall k, k ∈ ch i -> name_of ns' k = name_of ns k) -> child ns' ch i c = child ns ch i c.
Proof.
  unfold child. intros H. f_equal. revert H. induction (ch i) as [|x l IH]; intros H; [done|].
  rewrite !filter_cons, IH by (intros k Hk; apply H; by right).
  pose proof (H x ltac:(left)) as Hx.
  destruct (decide (name_of ns x = Some c)) as [E|E].
  - by rewrite decide_True by congruence.
  - by rewrite decide_False by congruence.
Qed.

Lemma update_some v i f n : nodes v !! i = Some n ->
  update v i f = Some (with_nodes v (<[i := f n]> (nodes v))).
Proof. intros H. unfold update. by rewrite H. Qed.

Section SameLinks.
Context (v v' : vfs) (i : nat) (n n' : vnode) (Hn : nodes v !! i = Some n).
Context (Hv' : nodes v' = <[i := n']> (nodes v)) (Hroot : root_node v' = root_node v).
Context (Hlinks : same_links n n').

Lemma same_lookup k m : nodes v !! k = Some m -> exists m', nodes v' !! k = Some m' /\ same_links m m'.
Proof.
  intros Hk. rewrite Hv'. destruct (decide (k = i)) as [->|Hne].
  - rewrite list_lookup_insert_eq by (by apply lookup_lt_Some in Hn). exists n'. split; [done|].
    by simplify_eq.
  - rewrite list_lookup_insert_ne by done. exists m. by repeat split.
Qed.

Lemma same_lookup_rev k m' : nodes v' !! k = Some m' -> exists m, nodes v !! k = Some m /\ same_links m m'.
Proof.
  intros Hk. destruct (nodes v !! k) as [m|] eqn:E.
  - destruct (same_lookup k m E) as (m2 & H2 & ?). exists m. split; [done|]. congruence.
  - apply lookup_ge_None in E. apply lookup_lt_Some in Hk. rewrite Hv', length_insert in Hk. lia.
Qed.

Lemma same_names k : name_of (nodes v') k = name_of (nodes v) k.
Proof.
  unfold name_of. destruct (nodes v !! k) as [m|] eqn:E.
  - destruct (same_lookup k m E) as (m' & -> & H & _). cbn. by rewrite H.
  - destruct (nodes v' !! k) as [m'|] eqn:E'; [|done].
    destruct (same_lookup_rev k m' E') as (m & ? & _). congruence.
Qed.

Lemma same_wf ch : wf v ch -> wf v' ch.
Proof.
  intros W. split.
  - rewrite Hroot. destruct (wf_root v ch W) as (? & r & Hr & Ht). split; [done|].
    destruct (same_lookup _ _ Hr) as (r' & ? & _ & ? & _). exists r'. split; [done|congruence].
  - intros k m' Hk. destruct (same_lookup_rev k m' Hk) as (m & Hm & _ & _ & -> & _).
    eapply chain_ext; [|by apply (wf_chain v ch W)].
    intros j x _ Hx. destruct (same_lookup j x Hx) as (x' & ? & _ & _ & _ & ? & _). eauto.
  - intros k Hk. apply (wf_out v ch W). apply lookup_ge_None in Hk. apply lookup_ge_None.
    rewrite Hv', length_insert in Hk. done.
  - apply (wf_nodup v ch W).
  - intros a j k Hj Hk. rewrite !same_names. by apply (wf_names v ch W a).
  - apply (wf_parent v ch W).
  - intros a k Hk. destruct (wf_kids v ch W a k Hk) as (? & ? & p & Hp & Ht). split; [done|].
    rewrite Hv', length_insert. split; [done|].
    rewrite <- Hv'. destruct (same_lookup _ _ Hp) as (p' & ? & _ & ? & _). exists p'. split; [done|congruence].
  - intros a k m' Hk Hm. destruct (same_lookup_rev k m' Hm) as (m & Hm0 & _ & _ & _ & _ & ->).
    by apply (wf_up v ch W a k m).
  - rewrite Hv', length_insert. apply (wf_count v ch W).
Qed.

Lemma same_walk ch p : forall a, walk (nodes v') ch a p = walk (nodes v) ch a p.
Proof.
  induction p as [|c p IH]; intros a; [done|]. cbn [walk].
  rewrite (child_ext (nodes v) (nodes v')) by (intros; apply same_names).
  destruct (child _ _ _ _); [|done]. rewrite !bind_some. apply IH.
Qed.

End SameLinks.

(** ** Adding a node *)

(** The children after [k] became the first child of [p]. *)
Definition ch_add (ch : nat -> list nat) (p k : nat) : nat -> list nat :=
  fun i => if decide (i = p) then k :: ch i else ch i.

Section Add.
Context (v v' : vfs) (ch : nat -> list nat) (W : wf v ch).
Context (p : nat) (pn new : vnode) (c : list Z).
Context (Hp : nodes v !! p = Some pn) (Hdir : n_type pn = VFS_NODE_DIR).
Context (Hname : n_name new = c) (Hnew : n_first new = None) (Hnext : n_next new = n_first pn).
Context (Hup : n_parent new = Some p).
Context (Hfree : child (nodes v) ch p c = None) (Hroom : (length (nodes v) < VFS_MAX_NODES)%nat).
Context (Hv' : nodes v' = <[p := set_links pn (n_parent pn) (Some (length (nodes v))) (n_next pn)]>
                          (nodes v ++ [new])).
Context (Hroot : root_node v' = root_node v).

Let m := length (nodes v).

Lemma add_m_fresh i : m ∉ ch i.
Proof. intros H. apply (wf_kids v ch W) in H as (_ & H & _). unfold m in H. lia. Qed.

Lemma add_ch_m : ch m = [].
Proof. apply (wf_out v ch W). by apply lookup_ge_None. Qed.

Lemma add_p_lt : (p < m)%nat.
Proof. by apply lookup_lt_Some in Hp. Qed.

Lemma add_lookup_m : nodes v' !! m = Some new.
Proof.
  pose proof add_p_lt. rewrite Hv', list_lookup_insert_ne by lia. unfold m.
  rewrite lookup_app_r by lia. by rewrite Nat.sub_diag.
Qed.

Lemma add_lookup_p : nodes v' !! p = Some (set_links pn (n_parent pn) (Some m) (n_next pn)).
Proof.
  pose proof add_p_lt. rewrite Hv', list_lookup_insert_eq; [done|]. rewrite length_app. unfold m in *. lia.
Qed.

Lemma add_lookup k : k <> p -> k <> m -> nodes v' !! k = nodes v !! k.
Proof.
  intros H1 H2. rewrite Hv', list_lookup_insert_ne by done.
  destruct (decide (k < m)%nat); [by rewrite lookup_app_l|].
  rewrite (lookup_ge_None_2 (nodes v)) by (unfold m in *; lia).
  apply lookup_ge_None_2. rewrite length_app. cbn [length]. unfold m in *. lia.
Qed.

Lemma add_length : length (nodes v') = S m.
Proof. rewrite Hv', length_insert, length_app. cbn [length]. unfold m. lia. Qed.

(** Every old node keeps its name, its type and its sibling. *)
Lemma add_old k n : nodes v !! k = Some n -> exists n', nodes v' !! k = Some n' /\
  n_name n' = n_name n /\ n_type n' = n_type n /\ n_next n' = n_next n /\ n_parent n' = n_parent n.
Proof.
  intros Hk. destruct (decide (k = p)) as [->|Hne].
  - rewrite add_lookup_p. eexists. split; [done|]. by simplify_eq.
  - apply lookup_lt_Some in Hk as Hl. rewrite add_lookup by (unfold m; lia || done). by exists n.
Qed.

Lemma add_name k : k <> m -> name_of (nodes v') k = name_of (nodes v) k.
Proof.
  intros Hm. unfold name_of. destruct (decide (k = p)) as [->|Hne]; [|by rewrite add_lookup].
  by rewrite add_lookup_p, Hp.
Qed.

Lemma add_name_m : name_of (nodes v') m = Some c.
Proof. unfold name_of. rewrite add_lookup_m. cbn. by rewrite Hname. Qed.

Lemma add_chain i n : nodes v !! i = Some n -> chain (nodes v') (n_first n) (ch i).
Proof.
  intros Hi. eapply chain_ext; [|by apply (wf_chain v ch W)].
  intros k x _ Hx. destruct (add_old k x Hx) as (x' & ? & _ & _ & ? & _). eauto.
Qed.

Lemma add_in i k : k ∈ ch_add ch p m i <-> k ∈ ch i \/ (i = p /\ k = m).
Proof.
  unfold ch_add. destruct (decide (i = p)); [rewrite elem_of_cons|]; intuition congruence.
Qed.

Lemma add_wf : wf v' (ch_add ch p m).
Proof.
  split.
  - rewrite Hroot. destruct (wf_root v ch W) as (? & r & Hr & Ht). split; [done|].
    destruct (add_old _ _ Hr) as (r' & ? & _ & ? & _). exists r'. split; [done|congruence].
  - intros i n Hi. unfold ch_add. destruct (decide (i = p)) as [->|Hne].
    + rewrite add_lookup_p in Hi. injection Hi as <-. split; [done|]. exists new.
      split; [apply add_lookup_m|]. rewrite Hnext. by apply add_chain.
    + destruct (decide (i = m)) as [->|Hm].
      * rewrite add_lookup_m in Hi. injection Hi as <-. rewrite add_ch_m, Hnew. done.
      * rewrite add_lookup in Hi by done. by apply add_chain.
  - intros i Hi. apply lookup_ge_None in Hi. rewrite add_length in Hi. pose proof add_p_lt.
    unfold ch_add. rewrite decide_False by lia. apply (wf_out v ch W), lookup_ge_None. unfold m in *. lia.
  - intros i. unfold ch_add. destruct (decide (i = p)); [|apply (wf_nodup v ch W)].
    constructor; [apply add_m_fresh|apply (wf_nodup v ch W)].
  - assert (forall j, j ∈ ch p -> name_of (nodes v') j <> Some c) as Hc.
    { intros j Hj. rewrite add_name by (intros ->; by apply add_m_fresh in Hj).
      by apply (child_none _ _ _ _ Hfree). }
    intros i j k Hj Hk. rewrite add_in in Hj, Hk.
    destruct Hj as [Hj|[-> ->]], Hk as [Hk|[Hk1 ->]]; try subst i; try done.
    + rewrite !add_name by (intros ->; by eapply add_m_fresh). by apply (wf_names v ch W i).
    + rewrite add_name_m. intros E. by apply Hc in E.
    + rewrite add_name_m. intros E. symmetry in E. by apply Hc in E.
  - intros i j k. rewrite !add_in. intros [Hi|[-> ->]] [Hj|[-> Hj]]; try done.
    + by apply (wf_parent v ch W i j k).
    + subst k. by apply add_m_fresh in Hi.
    + by apply add_m_fresh in Hj.
  - intros i k Hk. rewrite add_length. apply add_in in Hk as [Hk|[-> ->]].
    + destruct (wf_kids v ch W i k Hk) as (? & ? & q & Hq & Ht). split; [done|].
      split; [unfold m; lia|]. destruct (add_old _ _ Hq) as (q' & ? & _ & ? & _).
      exists q'. split; [done|congruence].
    + split; [pose proof add_p_lt; lia|]. split; [lia|]. eexists. split; [apply add_lookup_p|done].
  - intros i k n Hk Hn. apply add_in in Hk as [Hk|[-> ->]].
    + destruct (wf_kids v ch W i k Hk) as (_ & [n0 Hn0]%lookup_lt_is_Some & _).
      destruct (add_old k n0 Hn0) as (n' & Hn' & _ & _ & _ & E). rewrite Hn in Hn'. injection Hn' as <-.
      rewrite E. by apply (wf_up v ch W i k).
    + rewrite add_lookup_m in Hn. by injection Hn as <-.
  - rewrite add_length. unfold m. lia.
Qed.

Lemma add_child i d : child (nodes v') (ch_add ch p m) i d =
  if decide (i = p /\ d = c) then Some m else child (nodes v) ch i d.
Proof.
  assert (child (nodes v') ch i d = child (nodes v) ch i d) as Hold.
  { apply child_ext. intros k Hk. apply add_name. intros ->. by apply add_m_fresh in Hk. }
  rewrite <- Hold. unfold child, ch_add. destruct (decide (i = p)) as [->|Hne].
  - rewrite filter_cons, add_name_m. destruct (decide (Some c = Some d)) as [[= ->]|Hd].
    + by rewrite decide_True.
    + by rewrite decide_False by (intros [_ ->]; done).
  - by rewrite decide_False by tauto.
Qed.

(** Only the path of the new node leads somewhere else. *)
Lemma add_walk P q : walk (nodes v) ch 0 P = Some p ->
  walk (nodes v') (ch_add ch p m) 0 q =
  if decide (q = P ++ [c]) then Some m else walk (nodes v) ch 0 q.
Proof.
  intros HP. induction q as [|d q IH] using rev_ind.
  - rewrite decide_False; [done|]. by destruct P.
  - rewrite walk_snoc, IH. destruct (decide (q = P ++ [c])) as [->|Hq].
    + rewrite bind_some, add_child, !walk_snoc, HP, !bind_some, Hfree.
      assert ((P ++ [c]) ++ [d] <> P ++ [c]) by (intros E%(f_equal length); rewrite !length_app in E; cbn [length] in E; lia).
      pose proof add_p_lt. rewrite !decide_False by (done || lia).
      unfold child. by rewrite add_ch_m.
    + rewrite walk_snoc. destruct (walk (nodes v) ch 0 q) as [k|] eqn:Ek.
      * rewrite !bind_some, add_child. destruct (decide (k = p /\ d = c)) as [[-> ->]|Hn].
        -- rewrite (walk_unique v ch W _ _ _ Ek HP). by rewrite decide_True.
        -- rewrite decide_False; [done|]. intros E. apply app_inj_tail in E as [-> ->].
           apply Hn. split; [congruence|done].
      * rewrite decide_False; [done|]. intros E. apply app_inj_tail in E as [-> ->]. congruence.
Qed.

End Add.

(** The directory a list of components leads to. *)
Definition dir_at (v : vfs) (ch : nat -> list nat) (comps : list (list Z)) : option nat :=
  p ← walk (nodes v) ch 0 comps; n ← nodes v !! p;
  if n_type n =? VFS_NODE_DIR then Some p else None.

(** Everything of a node but its place in the tree and its modification time. *)
Definition attrs (n : vnode) : vnode := set_modified (set_links n None None None) 0.

(** What [vfs_mkdir] and [vfs_create_file] may do: fail and change nothing, or
    make one path lead to a new node with every other path and node as it was. *)
Inductive add_outcome (v : vfs) (ch : nat -> list nat) (type : Z) (path : list Z) (cwd : cstr)
    (mode uid gid : Z) : vfs -> (nat -> list nat) -> Z -> Prop :=
| add_no_parent :
    (forall P c, norm_comps path cwd = Some (P ++ [c]) -> dir_at v ch P = None) ->
    add_outcome v ch type path cwd mode uid gid v ch (-1)
| add_exists P c k :
    norm_comps path cwd = Some (P ++ [c]) -> walk (nodes v) ch 0 (P ++ [c]) = Some k ->
    add_outcome v ch type path cwd mode uid gid v ch (-2)
| add_full P c p :
    norm_comps path cwd = Some (P ++ [c]) -> dir_at v ch P = Some p ->
    walk (nodes v) ch 0 (P ++ [c]) = None -> length (nodes v) = VFS_MAX_NODES ->
    add_outcome v ch type path cwd mode uid gid v ch (-3)
| add_new P c p m n v' ch' :
    norm_comps path cwd = Some (P ++ [c]) -> dir_at v ch P = Some p ->
    walk (nodes v) ch 0 (P ++ [c]) = None ->
    (forall q, walk (nodes v') ch' 0 q = if decide (q = P ++ [c]) then Some m else walk (nodes v) ch 0 q) ->
    nodes v !! m = None -> nodes v' !! m = Some n ->
    attrs n = Node c type mode uid gid 0 (u64 (vfs_clock v + 1)) 0 None false None None None ->
    (forall k x, nodes v !! k = Some x -> exists x', nodes v' !! k = Some x' /\ attrs x' = attrs x) ->
    add_outcome v ch type path cwd mode uid gid v' ch' 0.

Lemma dir_at_node v ch comps p : dir_at v ch comps = Some p ->
  walk (nodes v) ch 0 comps = Some p /\ exists n, nodes v !! p = Some n /\ n_type n = VFS_NODE_DIR.
Proof.
  unfold dir_at. destruct (walk _ _ 0 comps) as [q|]; [|done]. rewrite bind_some.
  destruct (nodes v !! q) as [n|] eqn:E; [|done]. rewrite bind_some.
  destruct (Z.eqb_spec (n_type n) VFS_NODE_DIR); [|done]. intros [= ->]. eauto.
Qed.

(** What [parent_and_name] answers. *)
Lemma parent_and_name_cases v ch path cwd : wf v ch ->
  (parent_and_name (Some path) cwd v = Some None /\
   forall P c, norm_comps path cwd = Some (P ++ [c]) -> dir_at v ch P = None) \/
  exists P c p, parent_and_name (Some path) cwd v = Some (Some (p, c)) /\
    norm_comps path cwd = Some (P ++ [c]) /\ dir_at v ch P = Some p /\ comp_ok c.
Proof.
  intros W. rewrite (parent_and_name_spec v ch) by done.
  destruct (norm_comps path cwd) as [comps|] eqn:E; [|left; split; [done|]; congruence].
  rewrite bind_some. apply norm_comps_ok in E as (Hok & _ & _).
  destruct comps as [|c P _] using rev_ind.
  { left. split; [done|]. intros [] ? [=]. }
  rewrite last_snoc, bind_some, removelast_last. apply Forall_app in Hok as [_ [Hc _]%Forall_cons].
  assert ((p ← walk (nodes v) ch 0 P; n ← nodes v !! p;
           if n_type n =? VFS_NODE_DIR then Some (p, c) else None) = p ← dir_at v ch P; Some (p, c)) as ->.
  { unfold dir_at. destruct (walk (nodes v) ch 0 P) as [q|]; [|done]. rewrite !bind_some.
    destruct (nodes v !! q) as [n|]; [|done]. rewrite !bind_some. by destruct (_ =? _). }
  destruct (dir_at v ch P) as [p|] eqn:Ed.
  - right. exists P, c, p. rewrite bind_some. by split_and!.
  - left. split; [done|]. intros P' c' [= E']. by apply app_inj_tail in E' as [<- _].
Qed.

Lemma attach_child_run v p pn new :
  nodes v !! p = Some pn ->
  let m := length (nodes v) in
  attach_child p m (with_nodes v (nodes v ++ [new])) =
  Some (with_nodes v (<[p := set_links pn (n_parent pn) (Some m) (n_next pn)]>
          (nodes v ++ [set_links new (Some p) (n_first new) (n_first pn)]))).
Proof.
  intros Hp m. pose proof (lookup_lt_Some _ _ _ Hp) as Hl. unfold attach_child. cbn [nodes with_nodes].
  rewrite lookup_app_l, Hp, bind_some by done.
  rewrite (update_some _ _ _ new) by (cbn [nodes with_nodes]; unfold m; by rewrite lookup_app_r, Nat.sub_diag).
  rewrite bind_some. cbn [nodes with_nodes]. unfold m. rewrite insert_app_r_alt, Nat.sub_diag by done.
  erewrite update_some; [|cbn [nodes with_nodes]; rewrite lookup_app_l; [exact Hp|done]].
  done.
Qed.

Lemma vfs_add_run v ch type path cwd mode uid gid : wf v ch ->
  exists v' ch' rc, vfs_add type (Some path) cwd mode uid gid v = Some (v', rc) /\ wf v' ch' /\
    add_outcome v ch type path cwd mode uid gid v' ch' rc.
Proof.
  intros W. unfold vfs_add.
  destruct (parent_and_name_cases v ch path cwd W) as [[-> Hn]|(P & c & p & -> & Hn & Hd & Hc)];
    rewrite bind_some.
  { exists v, ch, (-1). split_and!; [done|done|by constructor]. }
  destruct (dir_at_node _ _ _ _ Hd) as (Hw & pn & Hp & Ht).
  rewrite (find_child_spec v ch p pn) by done. rewrite bind_some.
  assert (walk (nodes v) ch 0 (P ++ [c]) = child (nodes v) ch p c) as Hwc
    by (by rewrite walk_snoc, Hw).
  destruct (child (nodes v) ch p c) as [k|] eqn:Ek.
  { exists v, ch, (-2). split_and!; [done|done|by econstructor]. }
  unfold alloc_node. destruct (Nat.leb_spec VFS_MAX_NODES (length (nodes v))) as [Hf|Hf].
  { exists v, ch, (-3). split_and!; [done|done|]. eapply add_full; try done.
    pose proof (wf_count v ch W). lia. }
  set (new := Node _ _ _ _ _ _ _ _ _ _ _ _ _).
  pose proof (attach_child_run (tick v) p pn new Hp) as Ha. cbv zeta in Ha.
  change (nodes (tick v)) with (nodes v) in *. rewrite Ha, bind_some.
  set (new' := set_links new _ _ _).
  assert (n_name new' = c) as Hname by (unfold new'; cbn; apply take_ge; by apply Hc).
  match goal with |- context [sync_hook ?x] => set (v' := sync_hook x) end.
  exists v', (ch_add ch p (length (nodes v))), 0. split; [done|]. split.
  { by eapply (add_wf v v' ch W p pn new'). }
  eapply (add_new _ _ _ _ _ _ _ _ P c p (length (nodes v)) new'); try done.
  - intros q. by apply (add_walk v v' ch W p pn new').
  - apply lookup_ge_None_2. done.
  - by apply (add_lookup_m v v' p pn new').
  - unfold attrs, new'. rewrite <- Hname. done.
  - intros k x Hk. destruct (decide (k = p)) as [->|Hne].
    + rewrite (add_lookup_p v v' p pn new') by done. eexists. split; [done|].
      rewrite Hp in Hk. by injection Hk as <-.
    + rewrite (add_lookup v v' p pn new') by (done || (apply lookup_lt_Some in Hk; lia)). by eauto.
Qed.

(** ** Removing a node *)

(** The children after [m] left the list of [p]. *)
Definition ch_del (ch : nat -> list nat) (p m : nat) : nat -> list nat :=
  fun i => if decide (i = p) then filter (fun k => k <> m) (ch i) else ch i.

Lemma ch_del_in ch p m i k : k ∈ ch_del ch p m i -> k ∈ ch i.
Proof.
  unfold ch_del. destruct (decide _); [|done]. rewrite list_elem_of_filter. by intros [].
Qed.

Section Del.
Context (v v' : vfs) (ch : nat -> list nat) (W : wf v ch).
Context (p m : nat) (pn' : vnode) (c : list Z).
Context (Hm : child (nodes v) ch p c = Some m) (Hleaf : ch m = []).
Context (Hlen : length (nodes v') = length (nodes v)) (Hroot : root_node v' = root_node v).
Context (Hold : forall k n, nodes v !! k = Some n -> exists n', nodes v' !! k = Some n' /\
  attrs n' = attrs n /\ n_parent n' = n_parent n /\
  (k <> p -> n_first n' = n_first n) /\ (k ∉ ch p -> n_next n' = n_next n)).
Context (Hp' : nodes v' !! p = Some pn').
Context (Hchain : chain (nodes v') (n_first pn') (ch_del ch p m p)).

Lemma attrs_name n n' : attrs n' = attrs n -> n_name n' = n_name n /\ n_type n' = n_type n.
Proof. intros H. apply (f_equal (fun x => (n_name x, n_type x))) in H. by injection H. Qed.

Lemma del_old_rev k n' : nodes v' !! k = Some n' -> exists n, nodes v !! k = Some n /\
  attrs n' = attrs n /\ n_parent n' = n_parent n /\
  (k <> p -> n_first n' = n_first n) /\ (k ∉ ch p -> n_next n' = n_next n).
Proof.
  intros Hk. apply lookup_lt_Some in Hk as Hl. rewrite Hlen in Hl.
  apply lookup_lt_is_Some in Hl as [n Hn]. destruct (Hold k n Hn) as (x & Hx & H).
  exists n. split; [done|]. rewrite Hk in Hx. by injection Hx as <-.
Qed.

Lemma del_name k : name_of (nodes v') k = name_of (nodes v) k.
Proof.
  unfold name_of. destruct (nodes v !! k) as [n|] eqn:E.
  - destruct (Hold k n E) as (n' & -> & [H _]%attrs_name & _). cbn. by rewrite H.
  - destruct (nodes v' !! k) as [n'|] eqn:E'; [|done].
    destruct (del_old_rev k n' E') as (? & ? & _). congruence.
Qed.

Lemma del_wf : wf v' (ch_del ch p m).
Proof.
  split.
  - rewrite Hroot. destruct (wf_root v ch W) as (? & r & Hr & Ht). split; [done|].
    destruct (Hold _ _ Hr) as (r' & ? & [_ ?]%attrs_name & _). exists r'. split; [done|congruence].
  - intros i n Hi. destruct (decide (i = p)) as [->|Hne].
    + rewrite Hp' in Hi. by injection Hi as <-.
    + unfold ch_del. rewrite decide_False by done.
      destruct (del_old_rev i n Hi) as (n0 & Hn0 & _ & _ & Hf & _). rewrite Hf by done.
      eapply chain_ext; [|by apply (wf_chain v ch W)]. intros k x Hk Hx.
      destruct (Hold k x Hx) as (x' & ? & _ & _ & _ & Hnext). exists x'. split; [done|]. apply Hnext.
      intros Hkp. apply Hne. by apply (wf_parent v ch W i p k).
  - intros i Hi. unfold ch_del. assert (ch i = []) as ->; [|by destruct (decide _)].
    apply (wf_out v ch W), lookup_ge_None. rewrite <- Hlen. by apply lookup_ge_None.
  - intros i. unfold ch_del. destruct (decide _); [apply NoDup_filter|]; apply (wf_nodup v ch W).
  - intros i j k Hj%ch_del_in Hk%ch_del_in. rewrite !del_name. by apply (wf_names v ch W i).
  - intros i j k Hi%ch_del_in Hj%ch_del_in. by apply (wf_parent v ch W i j k).
  - intros i k Hk%ch_del_in. rewrite Hlen. destruct (wf_kids v ch W i k Hk) as (? & ? & q & Hq & Ht).
    split; [done|]. split; [done|]. destruct (Hold _ _ Hq) as (q' & ? & [_ ?]%attrs_name & _).
    exists q'. split; [done|congruence].
  - intros i k n Hk%ch_del_in Hn. destruct (del_old_rev k n Hn) as (n0 & Hn0 & _ & -> & _).
    by apply (wf_up v ch W i k).
  - rewrite Hlen. apply (wf_count v ch W).
Qed.

Lemma del_child i d : child (nodes v') (ch_del ch p m) i d =
  if decide (i = p /\ d = c) then None else child (nodes v) ch i d.
Proof.
  apply child_in in Hm as Hm'. destruct Hm' as [Hmp Hmn].
  assert (child (nodes v') ch i d = child (nodes v) ch i d) as Ho
    by (apply child_ext; intros; apply del_name).
  destruct (decide (i = p)) as [->|Hne]; [|rewrite decide_False by tauto; rewrite <- Ho].
  2: { unfold child, ch_del. by rewrite decide_False by done. }
  destruct (child (nodes v') (ch_del ch p m) p d) as [k|] eqn:Ek.
  - apply child_in in Ek as [Hk Hkn]. unfold ch_del in Hk. rewrite decide_True in Hk by done.
    apply list_elem_of_filter in Hk as [Hkm Hk]. rewrite del_name in Hkn.
    rewrite decide_False.
    + symmetry. by apply child_intro.
    + intros [_ ->]. apply Hkm, (wf_names v ch W p); [done|done|congruence].
  - destruct (decide (p = p /\ d = c)) as [_|Hd]; [done|].
    destruct (child (nodes v) ch p d) as [k|] eqn:E; [|done]. apply child_in in E as [Hk Hkn].
    exfalso. eapply child_none; [exact Ek| |rewrite del_name; exact Hkn].
    unfold ch_del. rewrite decide_True by done. apply list_elem_of_filter. split; [|done].
    intros ->. apply Hd. split; [done|congruence].
Qed.

Lemma del_walk P q : walk (nodes v) ch 0 P = Some p ->
  walk (nodes v') (ch_del ch p m) 0 q =
  if decide (q = P ++ [c]) then None else walk (nodes v) ch 0 q.
Proof.
  intros HP. induction q as [|d q IH] using rev_ind.
  - rewrite decide_False; [done|]. by destruct P.
  - rewrite walk_snoc, IH. destruct (decide (q = P ++ [c])) as [->|Hq].
    + assert ((P ++ [c]) ++ [d] <> P ++ [c])
        by (intros E%(f_equal length); rewrite !length_app in E; cbn [length] in E; lia).
      rewrite decide_False by done. rewrite !walk_snoc, HP, bind_some, Hm, bind_some.
      unfold child. by rewrite Hleaf.
    + rewrite walk_snoc. destruct (walk (nodes v) ch 0 q) as [k|] eqn:Ek.
      * rewrite !bind_some, del_child. destruct (decide (k = p /\ d = c)) as [[-> ->]|Hn].
        -- rewrite (walk_unique v ch W _ _ _ Ek HP). by rewrite decide_True.
        -- rewrite decide_False; [done|]. intros E. apply app_inj_tail in E as [-> ->].
           apply Hn. split; [congruence|done].
      * by destruct (decide _).
Qed.

End Del.

(** Bridging a gap in a sibling list. *)
Lemma chain_relink ns ns' k kn l2 l : forall p q,
  chain ns p (l ++ k :: q) ->
  (forall j n, j ∈ l -> ns !! j = Some n -> exists n', ns' !! j = Some n' /\ n_next n' = n_next n) ->
  ns' !! k = Some kn -> chain ns' (n_next kn) l2 -> chain ns' p (l ++ k :: l2).
Proof.
  induction l as [|i l IH]; intros p q Hc Ho Hk H2.
  - destruct Hc as [-> _]. split; [done|]. by exists kn.
  - destruct Hc as (-> & n & Hn & Hc). split; [done|]. destruct (Ho i n) as (n' & Hn' & E); [left|done|].
    exists n'. split; [done|]. rewrite E. eapply IH; [exact Hc| |done|done].
    intros j x Hj. apply Ho. by right.
Qed.

(** Node [m] is out of the sibling list of [p]; nothing else changed. *)
Definition unlinked (v : vfs) (ch : nat -> list nat) (p m : nat) (v' : vfs) : Prop :=
  length (nodes v') = length (nodes v) /\ root_node v' = root_node v /\
  (forall k n, nodes v !! k = Some n -> exists n', nodes v' !! k = Some n' /\
     attrs n' = attrs n /\ n_parent n' = n_parent n /\
     (k <> p -> n_first n' = n_first n) /\ (k ∉ ch p -> n_next n' = n_next n)) /\
  exists pn', nodes v' !! p = Some pn' /\ chain (nodes v') (n_first pn') (ch_del ch p m p).

Lemma filter_id {A} (P : A -> Prop) `{!forall x, Decision (P x)} l : Forall P l -> filter P l = l.
Proof. induction 1 as [|x l Hx _ IH]; [done|]. by rewrite filter_cons, decide_True, IH. Qed.

Lemma filter_del (l1 l2 : list nat) m : NoDup (l1 ++ m :: l2) ->
  filter (fun k => k <> m) (l1 ++ m :: l2) = l1 ++ l2.
Proof.
  intros (_ & H1 & H2)%NoDup_app. apply NoDup_cons in H2 as [H2 _].
  rewrite filter_app, filter_cons, decide_False by tauto.
  f_equal; apply filter_id, Forall_forall; intros k Hk ->; [|done]. apply (H1 m Hk). left.
Qed.

(** No node of the tree is in its own sibling list. *)
Lemma reached_not_own v ch P p : wf v ch -> walk (nodes v) ch 0 P = Some p -> p ∉ ch p.
Proof.
  intros W HP Hp. destruct (wf_kids v ch W _ _ Hp) as (_ & [n Hn]%lookup_lt_is_Some & _).
  assert (child (nodes v) ch p (n_name n) = Some p) as Hc.
  { apply child_intro; [done|done|]. unfold name_of. by rewrite Hn. }
  assert (walk (nodes v) ch 0 (P ++ [n_name n]) = Some p) as H2 by (by rewrite walk_snoc, HP).
  pose proof (walk_unique v ch W _ _ _ HP H2) as E. apply (f_equal length) in E.
  rewrite length_app in E. cbn [length] in E. lia.
Qed.

Lemma leaf_iff v ch i n : wf v ch -> nodes v !! i = Some n -> (n_first n = None <-> ch i = []).
Proof.
  intros W Hn. pose proof (wf_chain v ch W i n Hn) as Hc.
  destruct (ch i); [done|]. destruct Hc as [-> _]. by split.
Qed.

(** Relinking around the found node. *)
Lemma relink v ch p pn mn m l1 l2 : wf v ch -> p ∉ ch p -> nodes v !! p = Some pn ->
  ch p = l1 ++ m :: l2 -> nodes v !! m = Some mn -> chain (nodes v) (n_next mn) l2 ->
  exists v1, (match last l1 with
              | None => update v p (fun p => set_links p (n_parent p) (n_next mn) (n_next p))
              | Some k => update v k (fun p => set_links p (n_parent p) (n_first p) (n_next mn))
              end) = Some v1 /\ unlinked v ch p m v1.
Proof.
  intros W Hself Hp Hl Hm Hc. pose proof (wf_nodup v ch W p) as Hnd. rewrite Hl in Hnd.
  assert (ch_del ch p m p = l1 ++ l2) as Hdel
    by (unfold ch_del; rewrite decide_True, Hl by done; by apply filter_del).
  pose proof (wf_chain v ch W p pn Hp) as Hcp. rewrite Hl in Hcp.
  destruct l1 as [|k l1 _] using rev_ind.
  - eexists. split; [by apply update_some|]. unfold unlinked. cbn [nodes root_node with_nodes].
    split; [by rewrite length_insert|]. split; [done|]. split.
    + intros j n Hj. destruct (decide (j = p)) as [->|Hne].
      * rewrite list_lookup_insert_eq by (by apply lookup_lt_Some in Hp). eexists. split; [done|].
        simplify_eq. by split_and!.
      * rewrite list_lookup_insert_ne by done. exists n. by split_and!.
    + rewrite list_lookup_insert_eq by (by apply lookup_lt_Some in Hp). eexists. split; [done|].
      rewrite Hdel. cbn [n_first set_links app]. eapply chain_ext; [|exact Hc].
      intros j n Hj Hn. rewrite list_lookup_insert_ne; [by eauto|]. intros <-.
      apply Hself. rewrite Hl. right. done.
  - rewrite last_snoc. rewrite <- app_assoc in Hcp. cbn [app] in Hcp.
    assert (k ∈ ch p) as Hkp by (rewrite Hl; elems).
    destruct (wf_kids v ch W _ _ Hkp) as (_ & [kn Hk]%lookup_lt_is_Some & _).
    assert (k <> p) as Hne by (intros ->; done).
    eexists. split; [by apply update_some|]. unfold unlinked. cbn [nodes root_node with_nodes].
    split; [by rewrite length_insert|]. split; [done|]. split.
    + intros j n Hj. destruct (decide (j = k)) as [->|Hne'].
      * rewrite list_lookup_insert_eq by (by apply lookup_lt_Some in Hk). eexists. split; [done|].
        simplify_eq. by split_and!.
      * rewrite list_lookup_insert_ne by done. exists n. by split_and!.
    + rewrite list_lookup_insert_ne by done. exists pn. split; [done|].
      rewrite Hdel, <- app_assoc. cbn [app].
      rewrite <- app_assoc in Hnd. apply NoDup_app in Hnd as (_ & Hnd & Hnd2).
      apply NoDup_cons in Hnd2 as [Hk2 _].
      eapply chain_relink; [exact Hcp| |by rewrite list_lookup_insert_eq by (by apply lookup_lt_Some in Hk)|].
      * intros j n Hj Hn. rewrite list_lookup_insert_ne; [by eauto|]. intros <-.
        apply (Hnd k Hj). left.
      * cbn [n_next set_links]. eapply chain_ext; [|exact Hc]. intros j n Hj Hn.
        rewrite list_lookup_insert_ne; [by eauto|]. intros <-. apply Hk2. right. done.
Qed.

Lemma unlinked_touch v ch p m v1 : unlinked v ch p m v1 ->
  exists v2, update (tick v1) p (fun n => set_modified n (vfs_clock (tick v1))) = Some v2 /\
    unlinked v ch p m (sync_hook v2).
Proof.
  intros (Hl & Hr & Ho & p1 & Hp & Hc). eexists. split; [by apply update_some|].
  unfold unlinked. cbn [nodes root_node with_nodes sync_hook tick].
  assert (forall k n, nodes v1 !! k = Some n -> exists n', <[p:=set_modified p1 (vfs_clock (tick v1))]>
    (nodes v1) !! k = Some n' /\ attrs n' = attrs n /\ n_parent n' = n_parent n /\
    n_first n' = n_first n /\ n_next n' = n_next n) as Ht.
  { intros k n Hk. destruct (decide (k = p)) as [->|Hne].
    - rewrite list_lookup_insert_eq by (by apply lookup_lt_Some in Hk). eexists. split; [done|]. by simplify_eq.
    - rewrite list_lookup_insert_ne by done. by exists n. }
  split; [by rewrite length_insert|]. split; [done|]. split.
  - intros k n Hk. destruct (Ho k n Hk) as (n1 & Hn1 & Ha & Hu & Hf & Hx).
    destruct (Ht k n1 Hn1) as (n2 & Hn2 & Ha2 & Hu2 & Hf2 & Hx2). exists n2.
    by rewrite Ha2, Hu2, Hf2, Hx2.
  - destruct (Ht p p1 Hp) as (p2 & Hp2 & _ & _ & Hf2 & _). exists p2. split; [done|]. rewrite Hf2.
    eapply chain_ext; [|exact Hc]. intros k n _ Hk. destruct (Ht k n Hk) as (n2 & ? & _ & _ & _ & ?). eauto.
Qed.

(** What the loop of [vfs_unlink] does to the siblings it has not passed yet. *)
Lemma unlink_loop_spec v ch p pn c : wf v ch -> p ∉ ch p -> nodes v !! p = Some pn ->
  forall l fuel l1 link, ch p = l1 ++ l -> (length l < fuel)%nat -> chain (nodes v) link l ->
  (forall k, k ∈ l1 -> name_of (nodes v) k <> Some c) ->
  exists v' rc, unlink_loop fuel v p (last l1) link c = Some (v', rc) /\
    match child (nodes v) ch p c with
    | None => v' = v /\ rc = -1
    | Some m => (ch m <> [] /\ v' = v /\ rc = -2) \/ (ch m = [] /\ rc = 0 /\ unlinked v ch p m v')
    end.
Proof.
  intros W Hself Hp. induction l as [|m l IH]; intros fuel l1 link Hl Hf Hc Hno;
    (destruct fuel as [|fuel]; [simpl in Hf; lia|]); cbn [unlink_loop].
  - cbn [chain] in Hc. subst link. exists v, (-1). split; [done|].
    destruct (child (nodes v) ch p c) as [k|] eqn:E; [|done]. apply child_in in E as [Hk Hkn].
    rewrite Hl, app_nil_r in Hk. by apply Hno in Hk.
  - destruct Hc as (-> & mn & Hm & Hc). rewrite Hm, bind_some.
    assert (name_of (nodes v) m = Some (n_name mn)) as Hmn by (unfold name_of; by rewrite Hm).
    destruct (streq_spec (n_name mn) c) as [E|E].
      assert (child (nodes v) ch p c = Some m) as -> by (apply child_intro; [done|rewrite Hl; elems|congruence]).
      pose proof (leaf_iff v ch m mn W Hm) as Hleaf. destruct (n_first mn).
      { exists v, (-2). split; [done|]. left. split_and!; try done. by intros ?%Hleaf. }
      destruct (relink v ch p pn mn m l1 l W Hself Hp Hl Hm Hc) as (v1 & -> & Hu). rewrite bind_some.
      destruct (unlinked_touch _ _ _ _ _ Hu) as (v2 & -> & Hu2). rewrite bind_some.
      exists (sync_hook v2), 0. split; [done|]. right. split; [by apply Hleaf|done].
    + destruct (IH fuel (l1 ++ [m]) (n_next mn)) as (v' & rc & Hr & Hs).
      * by rewrite <- app_assoc.
      * simpl in Hf. lia.
      * done.
      * intros k [Hk| ->%list_elem_of_singleton]%elem_of_app; [by apply Hno|congruence].
      * rewrite last_snoc in Hr. by exists v', rc.
Qed.

(** What [vfs_unlink] may do: fail and change nothing, or cut off the one path
    to a node that has no children. *)
Inductive del_outcome (v : vfs) (ch : nat -> list nat) (path : list Z) (cwd : cstr) :
    vfs -> (nat -> list nat) -> Z -> Prop :=
| del_missing :
    (forall P c, norm_comps path cwd = Some (P ++ [c]) ->
       dir_at v ch P = None \/ walk (nodes v) ch 0 (P ++ [c]) = None) ->
    del_outcome v ch path cwd v ch (-1)
| del_busy P c m :
    norm_comps path cwd = Some (P ++ [c]) -> walk (nodes v) ch 0 (P ++ [c]) = Some m -> ch m <> [] ->
    del_outcome v ch path cwd v ch (-2)
| del_done P c m v' ch' :
    norm_comps path cwd = Some (P ++ [c]) -> walk (nodes v) ch 0 (P ++ [c]) = Some m -> ch m = [] ->
    (forall q, walk (nodes v') ch' 0 q = if decide (q = P ++ [c]) then None else walk (nodes v) ch 0 q) ->
    length (nodes v') = length (nodes v) ->
    (forall k x, nodes v !! k = Some x -> exists x', nodes v' !! k = Some x' /\ attrs x' = attrs x) ->
    del_outcome v ch path cwd v' ch' 0.

Lemma vfs_unlink_run v ch path cwd : wf v ch ->
  exists v' ch' rc, vfs_unlink (Some path) cwd v = Some (v', rc) /\ wf v' ch' /\
    del_outcome v ch path cwd v' ch' rc.
Proof.
  intros W. unfold vfs_unlink.
  destruct (parent_and_name_cases v ch path cwd W) as [[-> Hn]|(P & c & p & -> & Hn & Hd & Hc)];
    rewrite bind_some.
  { exists v, ch, (-1). split_and!; [done|done|]. constructor. intros P c H. left. by eapply Hn. }
  destruct (dir_at_node _ _ _ _ Hd) as (Hw & pn & Hp & Ht). rewrite Hp, bind_some.
  pose proof (wf_chain v ch W p pn Hp) as Hch. pose proof (reached_not_own v ch P p W Hw) as Hself.
  assert (walk (nodes v) ch 0 (P ++ [c]) = child (nodes v) ch p c) as Hwc
    by (by rewrite walk_snoc, Hw).
  destruct (unlink_loop_spec v ch p pn c W Hself Hp (ch p) (S (length (nodes v))) [] (n_first pn))
    as (v' & rc & Hr & Hs); try done.
  { pose proof (chain_length _ _ _ Hch (wf_nodup v ch W p)). lia. }
  { by intros k Hk%elem_of_nil. }
  change (last []) with (@None nat) in Hr. rewrite Hr.
  destruct (child (nodes v) ch p c) as [m|] eqn:Ec.
  - destruct Hs as [(Hb & -> & ->)|(Hleaf & -> & Hu)].
    + exists v, ch, (-2). split_and!; [done|done|by econstructor].
    + destruct Hu as (Hl & Hroot & Ho & pn' & Hp' & Hch').
      exists v', (ch_del ch p m), 0. split; [done|]. split.
      * by apply (del_wf v v' ch W p m pn').
      * eapply del_done; try done.
        -- intros q. by apply (del_walk v v' ch W p m).
        -- intros k x Hk. destruct (Ho k x Hk) as (x' & ? & ? & _). eauto.
  - destruct Hs as [-> ->]. exists v, ch, (-1). split_and!; [done|done|]. constructor.
    intros P' c' E. rewrite Hn in E. injection E as E. apply app_inj_tail in E as [<- <-]. by right.
Qed.

Lemma list_loop_spec ns : forall l fuel p, (length l < fuel)%nat -> chain ns p l ->
  list_loop fuel ns p = Some l.
Proof.
  induction l as [|i l IH]; intros fuel p Hf Hc; (destruct fuel as [|fuel]; [simpl in Hf; lia|]);
    cbn [chain list_loop] in *; [by rewrite Hc|].
  destruct Hc as (-> & n & Hn & Hc). rewrite Hn, bind_some, IH by (try done; simpl in Hf; lia). done.
Qed.

(** ** File contents *)

(** A node's buffer holds its size. *)
Definition data_ok (n : vnode) : Prop :=
  0 <= n_size n < U64_MAX /\
  match n_data n with None => n_size n = 0 | Some d => n_size n <= Z.of_nat (length d) end.

Definition content (n : vnode) : list Z :=
  match n_data n with Some d => take (Z.to_nat (n_size n)) d | None => [] end.

(** A file after a write at an offset: what lies between the old end and the
    offset reads as zeros. *)
Definition splice (l : list Z) (off : nat) (buf : list Z) : list Z :=
  take off (l ++ replicate (off - length l) 0) ++ buf ++ drop (off + length buf) l.

Lemma length_content n : data_ok n -> Z.of_nat (length (content n)) = n_size n.
Proof.
  intros [H0 H]. unfold content. destruct (n_data n); [|simpl; lia]. rewrite length_take. lia.
Qed.

Lemma read_content v i n off count : nodes v !! i = Some n -> n_type n <> VFS_NODE_DIR -> data_ok n ->
  0 <= off -> 0 <= count ->
  vfs_read_node (Some i) off count v =
  Some (Some (take (Z.to_nat count) (drop (Z.to_nat off) (content n)))).
Proof.
  intros Hi Ht Hd Hoff Hc. pose proof (length_content n Hd) as Hl. destruct Hd as [H0 Hd].
  unfold vfs_read_node. rewrite Hi, bind_some. rewrite (proj2 (Z.eqb_neq _ _) Ht).
  destruct (Z.leb_spec (n_size n) off) as [Hle|Hlt]; [by rewrite drop_ge, take_nil by lia|].
  unfold content in *. destruct (n_data n) as [d|]; [|simpl in Hl; lia]. rewrite bind_some. cbv zeta.
  set (k := if n_size n - off <? count then n_size n - off else count).
  assert (k = Z.min (n_size n - off) count) as Ek by (unfold k; destruct (Z.ltb_spec (n_size n - off) count); lia).
  clearbody k. rewrite (proj2 (Z.ltb_ge _ _)) by lia. do 2 f_equal.
  apply list_eq. intros j. destruct (decide (j < Z.to_nat k)%nat) as [Hj|Hj].
  - rewrite !lookup_take_lt, !lookup_drop, lookup_take_lt by lia. done.
  - rewrite (lookup_take_ge _ (Z.to_nat k)) by lia. symmetry.
    destruct (decide (j < Z.to_nat count)%nat); [|by apply lookup_take_ge; lia].
    rewrite lookup_take_lt, lookup_drop, lookup_take_ge by lia. done.
Qed.

Lemma store_run d off buf : 0 <= off -> off + Z.of_nat (length buf) <= Z.of_nat (length d) ->
  store d off buf = Some (take (Z.to_nat off) d ++ buf ++ drop (Z.to_nat off + length buf) d).
Proof. intros H0 H. unfold store. by rewrite (proj2 (Z.ltb_ge _ _)) by lia. Qed.

Lemma overwrite_lookup (d buf : list Z) off j : (off <= length d)%nat ->
  (take off d ++ buf ++ drop (off + length buf) d) !! j =
  if decide (j < off)%nat then d !! j
  else if decide (j < off + length buf)%nat then buf !! (j - off)%nat else d !! j.
Proof.
  intros Hl. destruct (decide (j < off)%nat).
  - rewrite lookup_app_l by (rewrite length_take; lia). by rewrite lookup_take_lt.
  - rewrite lookup_app_r by (rewrite length_take; lia). rewrite length_take, Nat.min_l by done.
    destruct (decide (j < off + length buf)%nat).
    + by rewrite lookup_app_l by lia.
    + rewrite lookup_app_r by lia. rewrite lookup_drop. f_equal. lia.
Qed.

Lemma splice_lookup l off buf j :
  splice l off buf !! j =
  if decide (j < off)%nat then (l ++ replicate (off - length l) 0) !! j
  else if decide (j < off + length buf)%nat then buf !! (j - off)%nat else l !! j.
Proof.
  unfold splice. set (l' := l ++ replicate (off - length l) 0).
  assert (off <= length l')%nat as Hl' by (unfold l'; rewrite length_app, length_replicate; lia).
  pose proof (overwrite_lookup l' buf off j Hl') as H. destruct (decide (j < off)%nat).
  - rewrite <- H, !lookup_app_l by (rewrite length_take; lia). done.
  - rewrite lookup_app_r by (rewrite length_take; lia). rewrite length_take, Nat.min_l by done.
    destruct (decide (j < off + length buf)%nat).
    + by rewrite lookup_app_l by lia.
    + rewrite lookup_app_r by lia. rewrite lookup_drop. f_equal. lia.
Qed.

Lemma length_splice l off buf : length (splice l off buf) = Nat.max (length l) (off + length buf).
Proof. unfold splice. rewrite !length_app, length_take, length_app, length_replicate, length_drop. lia. Qed.

(** Storing into a buffer and cutting it at the file's size. *)
Lemma take_store d off buf size l :
  take size d = l ++ replicate (size - length l) 0 -> (size <= length d)%nat ->
  size = Nat.max (length l) (off + length buf) ->
  take size (take off d ++ buf ++ drop (off + length buf) d) = splice l off buf.
Proof.
  intros Hd Hs Hm. apply list_eq. intros j. destruct (decide (j < size)%nat) as [Hj|Hj].
  - rewrite lookup_take_lt, overwrite_lookup, splice_lookup by lia.
    assert (d !! j = (l ++ replicate (size - length l) 0) !! j) as E
      by (rewrite <- Hd; by rewrite lookup_take_lt).
    destruct (decide (j < off)%nat); [|destruct (decide (j < off + length buf)%nat); [done|]].
    + rewrite E. destruct (decide (j < length l)%nat); [by rewrite !lookup_app_l by lia|].
      rewrite !lookup_app_r by lia. by rewrite !lookup_replicate_2 by lia.
    + by rewrite E, lookup_app_l by lia.
  - rewrite lookup_take_ge by lia. symmetry. apply lookup_ge_None. rewrite length_splice. lia.
Qed.

Section Writes.
Context (kmalloc_ok : Z -> bool).

(** Whether a write needs a new buffer, and its size. *)
Definition write_grows (n : vnode) (off len : Z) : bool := (n_size n <? off + len) || n_borrowed n.
Definition write_alloc (n : vnode) (off len : Z) : Z := Z.max (n_size n) (off + len) + 1.

(** The buffer after a growing write holds the old bytes and zeros. *)
Lemma grown_buffer n new : data_ok n -> n_size n <= new ->
  exists old, (match n_data n with
               | Some d => if n_size n =? 0 then Some []
                           else if Z.of_nat (length d) <? n_size n then None
                           else Some (take (Z.to_nat (n_size n)) d)
               | None => Some []
               end) = Some old /\ old = content n /\ Z.of_nat (length old) = n_size n.
Proof.
  intros Hok Hnew. pose proof (length_content n Hok) as Hlen. exists (content n). split; [|done].
  destruct Hok as [H0 Hd]. unfold content in *. destruct (n_data n) as [d|]; [|done].
  destruct (Z.eqb_spec (n_size n) 0) as [->|]; [done|]. by rewrite (proj2 (Z.ltb_ge _ _)) by lia.
Qed.

Lemma write_node_run v i n off buf : nodes v !! i = Some n -> n_type n = VFS_NODE_FILE -> data_ok n ->
  0 <= off -> off + Z.of_nat (length buf) < U64_MAX ->
  let len := Z.of_nat (length buf) in
  exists v' rc, vfs_write_node kmalloc_ok (Some i) off buf v = Some (v', rc) /\
    ((rc = -1 /\ v' = v /\ write_grows n off len = true /\ kmalloc_ok (write_alloc n off len) = false) \/
     (rc = len /\ root_node v' = root_node v /\ exists n', nodes v' = <[i := n']> (nodes v) /\
        same_links n n' /\ data_ok n' /\ content n' = splice (content n) (Z.to_nat off) buf)).
Proof.
  intros Hi Ht Hok Hoff Hmax len. unfold vfs_write_node. rewrite Hi, bind_some.
  rewrite (proj2 (Z.eqb_eq _ _) Ht). cbn [negb]. cbv zeta. fold len in Hmax |- *.
  pose proof (length_content n Hok) as Hlen. pose proof Hok as [H0 Hd].
  assert (len = Z.of_nat (length buf)) as Elen by done. clearbody len.
  assert (0 <= len) as Hl0 by lia.
  rewrite (u64_small (off + len)) by (unfold U64_MAX in *; lia).
  fold (write_grows n off len). destruct (write_grows n off len) eqn:Hg.
  - set (new := if n_size n <? off + len then off + len else n_size n).
    assert (new = Z.max (n_size n) (off + len)) as Hnew
      by (unfold new; destruct (Z.ltb_spec (n_size n) (off + len)); lia).
    clearbody new. rewrite (u64_small (new + 1)) by (unfold U64_MAX in *; lia).
    replace (new + 1) with (write_alloc n off len) by (unfold write_alloc; lia).
    rewrite (proj2 (Z.eqb_neq (write_alloc n off len) 0)) by (unfold write_alloc; lia). cbn [orb].
    destruct (kmalloc_ok (write_alloc n off len)) eqn:Ek; cbn [negb].
    2: { exists v, (-1). split; [done|]. by left. }
    destruct (grown_buffer n new Hok) as (old & Ho & -> & _); [lia|]. rewrite Ho, bind_some.
    rewrite Hlen, Z.eqb_refl. cbn [negb]. rewrite bind_some. cbn [n_data set_data].
    set (d := content n ++ replicate (Z.to_nat (new - n_size n)) 0 ++ [0]).
    assert (length d = S (Z.to_nat new)) as Hdl
      by (unfold d; rewrite !length_app, length_replicate; cbn [length]; lia).
    rewrite store_run by lia. rewrite !bind_some. cbn [nodes tick].
    erewrite update_some by exact Hi. rewrite bind_some. eexists _, len. split; [done|]. right.
    split; [done|]. split; [done|]. eexists. split; [done|]. split; [by split_and!|].
    unfold data_ok, content at 1. cbn [n_size n_data set_modified set_data]. split.
    + split; [unfold U64_MAX in *; lia|]. rewrite !length_app, length_take, length_drop. lia.
    + apply take_store; [|lia|lia]. unfold d. rewrite app_assoc. rewrite take_app_length'.
      * do 2 f_equal. lia.
      * rewrite length_app, length_replicate. lia.
  - rewrite bind_some. unfold write_grows in Hg. bcases.
    destruct (n_data n) as [d|] eqn:Ed.
    + rewrite store_run by lia. rewrite !bind_some. cbn [nodes tick].
      erewrite update_some by exact Hi. rewrite bind_some. eexists _, len. split; [done|]. right.
      split; [done|]. split; [done|]. eexists. split; [done|]. split; [by split_and!|].
      unfold data_ok, content at 1. cbn [n_size n_data set_modified set_data]. split.
      * split; [done|]. rewrite !length_app, length_take, length_drop. lia.
      * unfold content in *. rewrite Ed in *. apply take_store; [|lia|lia].
        replace (_ - _)%nat with 0%nat by lia. by rewrite app_nil_r.
    + assert (len = 0) as E0 by lia. rewrite E0, Z.eqb_refl, bind_some in *. cbn [nodes tick].
      erewrite update_some by exact Hi. rewrite bind_some. eexists _, 0. split; [done|]. right.
      split; [done|]. split; [done|]. eexists. split; [done|]. split; [by split_and!|].
      unfold data_ok, content. cbn [n_size n_data set_modified set_data]. rewrite Ed. split; [done|].
      assert (buf = []) as -> by (destruct buf; [done|simpl in *; lia]).
      assert (Z.to_nat off = 0%nat) as -> by lia. done.
Qed.

End Writes.

(** ** Every operation on every state *)

Definition data_all (v : vfs) : Prop := Forall data_ok (nodes v).

Lemma update_data v i f v' : (forall n, n_size (f n) = n_size n /\ n_data (f n) = n_data n) ->
  update v i f = Some v' -> data_all v -> data_all v'.
Proof.
  intros Hf. unfold update. destruct (nodes v !! i) as [n|] eqn:E; [|done]. intros [= <-] Hd.
  apply Forall_insert; [done|]. destruct (Hf n) as [H1 H2].
  pose proof (Forall_lookup_1 _ _ _ _ Hd E) as Hn. unfold data_ok in *. by rewrite H1, H2.
Qed.

Lemma alloc_data name type mode uid gid v : data_all v -> data_all (alloc_node name type mode uid gid v).1.
Proof.
  intros Hd. unfold alloc_node. destruct (_ <=? _)%nat; [done|]. apply Forall_app. split; [done|].
  constructor; [|done]. done.
Qed.

Lemma attach_data p k v v' : attach_child p k v = Some v' -> data_all v -> data_all v'.
Proof.
  unfold attach_child. destruct (nodes v !! p) as [pn|]; [|done]. rewrite bind_some.
  destruct (update v k _) as [v1|] eqn:E1; [|done]. rewrite bind_some. intros E2 Hd.
  eapply update_data; [|exact E2|]; [done|]. eapply update_data; [|exact E1|]; done.
Qed.

Lemma add_data type path cwd mode uid gid v v' rc :
  vfs_add type path cwd mode uid gid v = Some (v', rc) -> data_all v -> data_all v'.
Proof.
  unfold vfs_add. destruct (parent_and_name path cwd v) as [[[p c]|]|]; [|intros [= <- _]; done|done].
  rewrite bind_some. destruct (find_child v p c) as [[k|]|]; [intros [= <- _]; done| |done].
  rewrite bind_some. pose proof (alloc_data c type mode uid gid v) as Ha.
  destruct (alloc_node _ _ _ _ _ v) as [v1 [k|]]; [|intros [= <- _]; done].
  destruct (attach_child p k v1) as [v2|] eqn:E; [|done]. rewrite bind_some. intros [= <- _] Hd.
  apply Ha in Hd. by apply (attach_data _ _ _ _ E) in Hd.
Qed.

Lemma unlink_loop_data c p : forall fuel v prev link v' rc,
  unlink_loop fuel v p prev link c = Some (v', rc) -> data_all v -> data_all v'.
Proof.
  induction fuel as [|fuel IH]; intros v prev link v' rc; [done|]. cbn [unlink_loop].
  destruct link as [i|]; [|intros [= <- _]; done]. destruct (nodes v !! i) as [n|]; [|done].
  rewrite bind_some. destruct (streq _ _); [|apply IH].
  destruct (match n_first n with Some _ => true | None => false end); [intros [= <- _]; done|].
  match goal with |- (?x ≫= _) = _ -> _ => destruct x as [v1|] eqn:E1 end; [|done]. rewrite bind_some.
  destruct (update (tick v1) _ _) as [v2|] eqn:E2; [|done]. rewrite bind_some. intros [= <- _] Hd.
  assert (data_all v1) as H1 by (destruct prev; (eapply update_data; [|exact E1|exact Hd]); done).
  enough (data_all v2) by done. eapply update_data; [|exact E2|exact H1]; done.
Qed.

Lemma unlink_data path cwd v v' rc : vfs_unlink path cwd v = Some (v', rc) -> data_all v -> data_all v'.
Proof.
  unfold vfs_unlink. destruct (parent_and_name path cwd v) as [[[p c]|]|]; [|intros [= <- _]; done|done].
  rewrite bind_some. destruct (nodes v !! p); [|done]. rewrite bind_some. apply unlink_loop_data.
Qed.

Lemma insert_data v i n n' v' : nodes v !! i = Some n -> nodes v' = <[i := n']> (nodes v) ->
  data_ok n' -> data_all v -> data_all v'.
Proof. intros _ E Hn Hd. unfold data_all. rewrite E. by apply Forall_insert. Qed.

(** A node whose links stay can be rewritten in a tree. *)
Lemma rewrite_node v ch i n n' v' : wf v ch -> data_all v -> nodes v !! i = Some n ->
  nodes v' = <[i := n']> (nodes v) -> root_node v' = root_node v -> same_links n n' -> data_ok n' ->
  wf v' ch /\ data_all v' /\ (forall q, walk (nodes v') ch 0 q = walk (nodes v) ch 0 q) /\
  nodes v' !! i = Some n'.
Proof.
  intros W Hd Hi E Hr Hs Hn. split_and!.
  - by apply (same_wf v v' i n n').
  - by apply (insert_data v i n n').
  - intros q. by apply (same_walk v v' i n n').
  - rewrite E. apply list_lookup_insert_eq. by apply lookup_lt_Some in Hi.
Qed.

Lemma lookup_valid v ch path cwd i : wf v ch -> vfs_lookup path cwd v = Some (Some i) ->
  exists n, nodes v !! i = Some n.
Proof.
  intros W. destruct path as [path|]; [|done]. rewrite (vfs_lookup_spec v ch) by done. intros [= H].
  destruct (norm_comps path cwd) as [comps|]; [|done]. rewrite bind_some in H.
  destruct (walk_valid v ch comps 0 i W) as [n Hn]; [by apply (wf_root_lookup v ch)|done|by exists n].
Qed.

Lemma vfs_lookup_total v ch path cwd : wf v ch -> is_Some (vfs_lookup path cwd v).
Proof. intros W. destruct path; [|done]. by rewrite (vfs_lookup_spec v ch). Qed.

Lemma write_file_run ok v ch path cwd data : wf v ch -> data_all v ->
  Z.of_nat (length data) + 1 < U64_MAX ->
  exists v' ch' rc, vfs_write_file ok path cwd data v = Some (v', rc) /\ wf v' ch' /\ data_all v' /\
    (rc = 0 -> exists i n, vfs_lookup path cwd v' = Some (Some i) /\ nodes v' !! i = Some n /\
                           n_size n = Z.of_nat (length data) /\ content n = data).
Proof.
  intros W Hd Hmax. unfold vfs_write_file.
  destruct (vfs_lookup_total v ch path cwd W) as [r Hr]. rewrite Hr, bind_some.
  assert (exists v1 ch1 rc node,
    (match r with
     | Some i => Some (v, 0, Some i)
     | None =>
       '(v, rc) ← vfs_create_file path cwd (Z.lor VFS_S_IFREG 0x1a4) 0 0 v;
       if rc <? 0 then Some (v, rc, None)
       else node ← vfs_lookup path cwd v; Some (v, 0, node)
     end) = Some (v1, rc, node) /\ wf v1 ch1 /\ data_all v1 /\
    (rc < 0 \/ rc = 0 /\ vfs_lookup path cwd v1 = Some node)) as (v1 & ch1 & rc & node & -> & W1 & Hd1 & Hn).
  { destruct r as [i|]; [exists v, ch, 0, (Some i); by split_and!; try right|].
    destruct path as [path|]; [|exists v, ch, (-1), None; split_and!; try done; by left].
    destruct (vfs_add_run v ch VFS_NODE_FILE path cwd (Z.lor VFS_S_IFREG 0x1a4) 0 0 W)
      as (v1 & ch1 & rc & Ha & W1 & _).
    pose proof (add_data _ _ _ _ _ _ _ _ _ Ha Hd) as Hd1.
    unfold vfs_create_file. rewrite Ha, bind_some. destruct (Z.ltb_spec rc 0).
    - exists v1, ch1, rc, None. split_and!; try done. by left.
    - destruct (vfs_lookup_total v1 ch1 (Some path) cwd W1) as [node Hn]. rewrite Hn, bind_some.
      exists v1, ch1, 0, node. split_and!; try done. by right. }
  rewrite bind_some. destruct Hn as [Hn|[-> Hn]].
  { rewrite (proj2 (Z.ltb_lt _ _)) by done. exists v1, ch1, rc. split_and!; try done. lia. }
  cbn [Z.ltb]. change (0 <? 0) with false. cbv iota.
  destruct node as [i|]; [|by exists v1, ch1, (-1)].
  destruct (lookup_valid v1 ch1 _ _ i W1 Hn) as [n Hi]. rewrite Hi, bind_some.
  destruct (negb (n_type n =? VFS_NODE_FILE) && _); [by exists v1, ch1, (-1)|].
  cbv zeta. destruct (negb _ && _); [by exists v1, ch1, (-2)|].
  rewrite (update_some _ _ _ n) by done. rewrite bind_some.
  set (n' := set_modified _ _). set (v2 := sync_hook _).
  destruct (rewrite_node v1 ch1 i n n' v2 W1 Hd1 Hi) as (W2 & Hd2 & Hw & Hi2); try done.
  { unfold data_ok, n'. cbn. split; [unfold U64_MAX in *; lia|].
    destruct (Z.eqb_spec (Z.of_nat (length data)) 0) as [->|]; [done|]. rewrite length_app. simpl. lia. }
  exists v2, ch1, 0. split_and!; try done. intros _. exists i, n'. split_and!; try done.
  - destruct path as [path|]; [|done]. rewrite (vfs_lookup_spec v2 ch1) by done. rewrite <- Hn.
    rewrite (vfs_lookup_spec v1 ch1) by done. destruct (norm_comps path cwd); [|done].
    by rewrite !bind_some, Hw.
  - unfold content, n'. cbn [n_data n_size set_modified set_data].
    destruct (Z.eqb_spec (Z.of_nat (length data)) 0) as [E|E].
    + destruct data; [done|simpl in E; lia].
    + rewrite Nat2Z.id. by rewrite take_app_length.
Qed.

(** The calls that change the tree. *)
Inductive vfs_op :=
| OpMkdir (path cwd : cstr) (mode uid gid : Z)
| OpCreate (path cwd : cstr) (mode uid gid : Z)
| OpUnlink (path cwd : cstr)
| OpChmod (path cwd : cstr) (mode : Z)
| OpChown (path cwd : cstr) (uid gid : Z)
| OpWriteFile (path cwd : cstr) (data : list Z)
| OpWriteNode (path cwd : cstr) (offset : Z) (buf : list Z).

(** [OpWriteNode] writes through the node a lookup returned. *)
Definition vfs_exec (ok : Z -> bool) (o : vfs_op) (v : vfs) : option (vfs * Z) :=
  match o with
  | OpMkdir path cwd mode uid gid => vfs_mkdir path cwd mode uid gid v
  | OpCreate path cwd mode uid gid => vfs_create_file path cwd mode uid gid v
  | OpUnlink path cwd => vfs_unlink path cwd v
  | OpChmod path cwd mode => vfs_chmod path cwd mode v
  | OpChown path cwd uid gid => vfs_chown path cwd uid gid v
  | OpWriteFile path cwd data => vfs_write_file ok path cwd data v
  | OpWriteNode path cwd offset buf =>
      node ← vfs_lookup path cwd v; vfs_write_node ok node offset buf v
  end.

(** The sizes the calls pass are those of buffers, and no offset is so large
    that the end of the write wraps around. *)
Definition op_fits (o : vfs_op) : Prop :=
  match o with
  | OpWriteFile _ _ data => Z.of_nat (length data) + 1 < U64_MAX
  | OpWriteNode _ _ offset buf => 0 <= offset /\ offset + Z.of_nat (length buf) < U64_MAX
  | _ => True
  end.

Definition vfs_ok (v : vfs) : Prop := exists ch, wf v ch /\ data_all v.

Lemma add_ok type path cwd mode uid gid v : vfs_ok v ->
  exists v' rc, vfs_add type path cwd mode uid gid v = Some (v', rc) /\ vfs_ok v'.
Proof.
  intros (ch & W & Hd). destruct path as [path|]; [|exists v, (-1); split; [done|by exists ch]].
  destruct (vfs_add_run v ch type path cwd mode uid gid W) as (v' & ch' & rc & E & W' & _).
  exists v', rc. split; [done|]. exists ch'. split; [done|]. by eapply add_data.
Qed.

Lemma unlink_ok path cwd v : vfs_ok v -> exists v' rc, vfs_unlink path cwd v = Some (v', rc) /\ vfs_ok v'.
Proof.
  intros (ch & W & Hd). destruct path as [path|]; [|exists v, (-1); split; [done|by exists ch]].
  destruct (vfs_unlink_run v ch path cwd W) as (v' & ch' & rc & E & W' & _).
  exists v', rc. split; [done|]. exists ch'. split; [done|]. by eapply unlink_data.
Qed.

(** [chmod] and [chown] rewrite one node's attributes. *)
Lemma touch_ok path cwd (f : vnode -> vnode) v : vfs_ok v ->
  (forall n, same_links n (f n) /\ n_size (f n) = n_size n /\ n_data (f n) = n_data n) ->
  exists v' rc, (node ← vfs_lookup path cwd v;
    match node with
    | None => Some (v, -1)
    | Some i => v' ← update (tick v) i f; Some (sync_hook v', 0)
    end) = Some (v', rc) /\ vfs_ok v'.
Proof.
  intros (ch & W & Hd) Hf. destruct (vfs_lookup_total v ch path cwd W) as [r Hr].
  rewrite Hr, bind_some. destruct r as [i|]; [|exists v, (-1); split; [done|by exists ch]].
  destruct (lookup_valid v ch _ _ i W Hr) as [n Hi]. rewrite (update_some _ _ _ n) by done.
  rewrite bind_some. eexists _, 0. split; [done|]. exists ch. destruct (Hf n) as (Hs & H1 & H2).
  pose proof (Forall_lookup_1 _ _ _ _ Hd Hi) as Hn.
  assert (data_ok (f n)) as Hfn by (unfold data_ok in *; by rewrite H1, H2).
  match goal with |- wf ?v' _ /\ _ =>
    by destruct (rewrite_node v ch i n (f n) v' W Hd Hi eq_refl eq_refl Hs Hfn) as (? & ? & _) end.
Qed.

Lemma write_node_ok ok path cwd offset buf v : vfs_ok v -> 0 <= offset ->
  offset + Z.of_nat (length buf) < U64_MAX ->
  exists v' rc, vfs_exec ok (OpWriteNode path cwd offset buf) v = Some (v', rc) /\ vfs_ok v'.
Proof.
  intros (ch & W & Hd) H0 Hmax. cbn [vfs_exec]. destruct (vfs_lookup_total v ch path cwd W) as [r Hr].
  rewrite Hr, bind_some. destruct r as [i|]; [|exists v, (-1); split; [done|by exists ch]].
  destruct (lookup_valid v ch _ _ i W Hr) as [n Hi].
  destruct (Z.eq_dec (n_type n) VFS_NODE_FILE) as [Ht|Ht].
  - pose proof (Forall_lookup_1 _ _ _ _ Hd Hi) as Hn.
    destruct (write_node_run ok v i n offset buf Hi Ht Hn H0 Hmax)
      as (v' & rc & E & [(_ & -> & _)|(_ & Hroot & n' & Hv' & Hs & Hn' & _)]).
    + exists v, rc. split; [done|by exists ch].
    + exists v', rc. split; [done|]. exists ch.
      by destruct (rewrite_node v ch i n n' v' W Hd Hi Hv' Hroot Hs Hn') as (? & ? & _).
  - exists v, (-1). split; [|by exists ch]. unfold vfs_write_node. rewrite Hi, bind_some.
    by rewrite (proj2 (Z.eqb_neq _ _) Ht).
Qed.

Lemma exec_ok ok o v : vfs_ok v -> op_fits o ->
  exists v' rc, vfs_exec ok o v = Some (v', rc) /\ vfs_ok v'.
Proof.
  intros Hv Hf. destruct o; cbn [op_fits] in Hf.
  - by apply add_ok.
  - by apply add_ok.
  - by apply unlink_ok.
  - by apply (touch_ok path cwd (fun n => set_modified (set_attrs n _ _ _) _) v Hv).
  - by apply (touch_ok path cwd (fun n => set_modified (set_attrs n _ _ _) _) v Hv).
  - destruct Hv as (ch & W & Hd).
    destruct (write_file_run ok v ch path cwd data W Hd Hf) as (v' & ch' & rc & E & W' & Hd' & _).
    exists v', rc. split; [done|]. by exists ch'.
  - apply write_node_ok; tauto.
Qed.

Lemma init_ok n : exists v, vfs_init n = Some v /\ vfs_ok v.
Proof.
  unfold vfs_init. unfold alloc_node.
  rewrite (proj2 (Nat.leb_gt VFS_MAX_NODES (length (nodes (Vfs [] None 0 n)))))
    by (cbn [nodes length]; unfold VFS_MAX_NODES; lia).
  set (v0 := Vfs _ _ _ _).
  assert (vfs_ok v0) as H0.
  { exists (fun _ => []). split; [|by repeat constructor]. split; try done.
    - split; [done|]. by eexists.
    - intros [|i] r [= <-]. done.
    - intros i. constructor.
    - intros i j k Hj%elem_of_nil. done.
    - intros i j k Hj%elem_of_nil. done.
    - intros i k Hj%elem_of_nil. done.
    - intros i k n' Hj%elem_of_nil. done.
    - cbn [v0 nodes length]. unfold VFS_MAX_NODES. cbn. lia. }
  clearbody v0. revert v0 H0. induction init_dirs as [|[path mode] l IH]; intros v Hv; [by exists v|].
  cbn [foldl]. rewrite bind_some.
  destruct (add_ok VFS_NODE_DIR (Some path) (Some [SLASH]) (Z.lor VFS_S_IFDIR mode) 0 0 v Hv)
    as (v' & rc & E & Hv'). unfold vfs_mkdir. rewrite E, bind_some. by apply IH.
Qed.

(** The states of the file system after boot and any calls. *)
Inductive vfs_reach (ok : Z -> bool) : vfs -> Prop :=
| reach_init n v : vfs_init n = Some v -> vfs_reach ok v
| reach_exec o v v' rc : vfs_reach ok v -> op_fits o -> vfs_exec ok o v = Some (v', rc) ->
    vfs_reach ok v'.

Lemma reach_vfs_ok ok v : vfs_reach ok v -> vfs_ok v.
Proof.
  induction 1 as [n v E|o v v' rc _ IH Hf E].
  - destruct (init_ok n) as (v' & E' & Hv'). congruence.
  - destruct (exec_ok ok o v IH Hf) as (v2 & rc2 & E2 & Hv2). congruence.
Qed.

(** ** Properties *)

(** C2 [vfs_mkdir] and [vfs_create_file] refine the addition of one path to a
    tree: on a well-formed node array they return, keep it well-formed, and
    either leave it alone (-1 without a parent directory, -2 when the path
    exists, -3 when the array is full) or make exactly that path lead to a new
    node with the given attributes, every other path and node as before. *)
Theorem vfs_add_refines v ch type path cwd mode uid gid : wf v ch ->
  exists v' ch' rc, vfs_add type (Some path) cwd mode uid gid v = Some (v', rc) /\ wf v' ch' /\
    add_outcome v ch type path cwd mode uid gid v' ch' rc.
Proof. apply vfs_add_run. Qed.

Lemma vfs_add_refines_witness : exists v ch, vfs_init 0 = Some v /\ wf v ch /\
  exists v' ch' rc, vfs_add VFS_NODE_DIR (Some (str "a")) (Some (str "/tmp")) 0x1ed 0 0 v = Some (v', rc) /\
    wf v' ch' /\ add_outcome v ch VFS_NODE_DIR (str "a") (Some (str "/tmp")) 0x1ed 0 0 v' ch' rc.
Proof.
  destruct (init_ok 0) as (v & E & ch & W & _). exists v, ch. split; [exact E|]. split; [exact W|].
  exact (vfs_add_refines v ch VFS_NODE_DIR (str "a") (Some (str "/tmp")) 0x1ed 0 0 W).
Defined.

(** C3 [vfs_unlink] refines the removal of one path from a tree: it returns -1
    when the path leads nowhere, -2 when the node has children, and otherwise
    cuts off exactly that path, with every other path and node as before; the
    slot in the array is not given back. *)
Theorem vfs_unlink_refines v ch path cwd : wf v ch ->
  exists v' ch' rc, vfs_unlink (Some path) cwd v = Some (v', rc) /\ wf v' ch' /\
    del_outcome v ch path cwd v' ch' rc.
Proof. apply vfs_unlink_run. Qed.

Lemma vfs_unlink_refines_witness : exists v ch, vfs_init 0 = Some v /\ wf v ch /\
  exists v' ch' rc, vfs_unlink (Some (str "/usr")) None v = Some (v', rc) /\
    wf v' ch' /\ del_outcome v ch (str "/usr") None v' ch' rc.
Proof.
  destruct (init_ok 0) as (v & E & ch & W & _). exists v, ch. split; [exact E|]. split; [exact W|].
  exact (vfs_unlink_refines v ch (str "/usr") None W).
Defined.



(** [vfs_list] terminates on every reached state: it emits the children of
    a directory once each, under distinct names, and they are exactly the nodes
    [find_child] finds. *)
Theorem vfs_list_terminates ok v i n : vfs_reach ok v -> nodes v !! i = Some n ->
  n_type n = VFS_NODE_DIR ->
  exists l, vfs_list (Some i) v = Some l /\ NoDup (map (name_of (nodes v)) l) /\
    forall k c, k ∈ l /\ name_of (nodes v) k = Some c <-> find_child v i c = Some (Some k).
Proof.
  intros (ch & W & _)%reach_vfs_ok Hi Ht. pose proof (wf_chain v ch W i n Hi) as Hc.
  pose proof (chain_length _ _ _ Hc (wf_nodup v ch W i)) as Hl. exists (ch i). split_and!.
  - unfold vfs_list. rewrite Hi, bind_some, (proj2 (Z.eqb_eq _ _) Ht). cbn [negb].
    apply list_loop_spec; [lia|done].
  - apply NoDup_fmap_2_strong, (wf_nodup v ch W). intros j k. apply (wf_names v ch W i).
  - intros k c. rewrite (find_child_spec v ch i n) by done. split.
    + intros [Hk Hkn]. f_equal. by apply child_intro.
    + intros [= Hk]. by apply child_in.
Qed.

Lemma vfs_list_terminates_witness : exists v n, vfs_init 0 = Some v /\ nodes v !! 0%nat = Some n /\
  exists l, vfs_list (Some 0%nat) v = Some l /\ NoDup (map (name_of (nodes v)) l) /\
    forall k c, k ∈ l /\ name_of (nodes v) k = Some c <-> find_child v 0 c = Some (Some k).
Proof.
  destruct (init_ok 0) as (v & E & ch & W & _). destruct (wf_root v ch W) as (_ & n & Hn & Ht).
  exists v, n. split; [exact E|]. split; [exact Hn|].
  exact (vfs_list_terminates (fun _ => true) v 0 n (reach_init _ 0 v E) Hn Ht).
Defined.

(** C35 A write to a file reads back: unless a needed buffer is refused, the
    file then holds the old bytes, zeros up to the offset of a write past the
    end, and the new bytes at the offset, and a read at any position returns
    them; no other node changes. *)
Theorem write_then_read ok v i n off buf : nodes v !! i = Some n -> n_type n = VFS_NODE_FILE ->
  data_ok n -> 0 <= off -> off + Z.of_nat (length buf) < U64_MAX ->
  write_grows n off (Z.of_nat (length buf)) = false \/
    ok (write_alloc n off (Z.of_nat (length buf))) = true ->
  exists v', vfs_write_node ok (Some i) off buf v = Some (v', Z.of_nat (length buf)) /\
    (forall pos count, 0 <= pos -> 0 <= count -> vfs_read_node (Some i) pos count v' =
       Some (Some (take (Z.to_nat count) (drop (Z.to_nat pos) (splice (content n) (Z.to_nat off) buf))))) /\
    (forall j, j <> i -> nodes v' !! j = nodes v !! j).
Proof.
  intros Hi Ht Hn H0 Hmax Hg.
  destruct (write_node_run ok v i n off buf Hi Ht Hn H0 Hmax)
    as (v' & rc & E & [(_ & _ & Hg1 & Hg2)|(-> & _ & n' & Hv' & Hs & Hn' & Hc)]).
  { destruct Hg; congruence. }
  exists v'. split; [done|]. split.
  - intros pos count Hpos Hcount. rewrite <- Hc. apply read_content; try done.
    + rewrite Hv'. apply list_lookup_insert_eq. by apply lookup_lt_Some in Hi.
    + destruct Hs as (_ & -> & _). by rewrite Ht.
  - intros j Hj. rewrite Hv'. by apply list_lookup_insert_ne.
Qed.

(** A file of three bytes. *)
Definition abc_file : vnode :=
  Node (str "f") VFS_NODE_FILE 0 0 0 3 1 1 (Some [97; 98; 99; 0]) false None None None.

Lemma write_then_read_witness : exists v',
  vfs_write_node (fun _ => true) (Some 0%nat) 5 (str "x") (Vfs [abc_file] (Some 0%nat) 1 0) = Some (v', 1) /\
  vfs_read_node (Some 0%nat) 1 8 v' = Some (Some [98; 99; 0; 0; 120]).
Proof.
  destruct (write_then_read (fun _ => true) (Vfs [abc_file] (Some 0%nat) 1 0) 0 abc_file 5 (str "x"))
    as (v' & E & Hr & _).
  - reflexivity.
  - reflexivity.
  - split; [split|]; vm_compute; first [reflexivity|discriminate].
  - discriminate.
  - reflexivity.
  - right. reflexivity.
  - exists v'. split; [exact E|]. rewrite (Hr 1 8) by discriminate. vm_compute. reflexivity.
Defined.

(** [vfs_write_node] adds the offset and the count without a check: when
    the sum wraps around to no more than the size of a file whose buffer the
    file system owns, the bytes go outside the buffer. *)
Theorem write_wraps_outside ok v i n d off buf : nodes v !! i = Some n -> n_type n = VFS_NODE_FILE ->
  n_borrowed n = false -> n_data n = Some d -> Z.of_nat (length d) < off < 2 ^ 64 ->
  2 ^ 64 <= off + Z.of_nat (length buf) -> off + Z.of_nat (length buf) - 2 ^ 64 <= n_size n < 2 ^ 64 ->
  Z.of_nat (length buf) < 2 ^ 64 ->
  vfs_write_node ok (Some i) off buf v = None.
Proof.
  intros Hi Ht Hb Hd Hoff Hw Hs Hl. unfold vfs_write_node. rewrite Hi, bind_some.
  rewrite (proj2 (Z.eqb_eq _ _) Ht). cbn [negb]. cbv zeta.
  assert (u64 (off + Z.of_nat (length buf)) = off + Z.of_nat (length buf) - 2 ^ 64) as -> by wsolve.
  rewrite (proj2 (Z.ltb_ge _ _)) by lia. rewrite Hb. cbn [orb]. rewrite bind_some, Hd. unfold store.
  by rewrite (proj2 (Z.ltb_lt _ _)) by lia.
Qed.

Lemma write_wraps_outside_witness :
  vfs_write_node (fun _ => true) (Some 0%nat) (2 ^ 64 - 1) (str "xy") (Vfs [abc_file] (Some 0%nat) 1 0) = None.
Proof.
  apply (write_wraps_outside _ _ _ abc_file [97; 98; 99; 0]); try reflexivity; cbn; try lia; discriminate.
Defined.
