(* ===== verification/WifiFw.v ===== *)
(** * kernel/drivers/net/iwlwifi.c: choosing, checking and parsing firmware

    The image is the list of its bytes; a pointer into it is an offset. A read
    outside of it is [None]. The state is the part of [struct iwlwifi_state] these
    routines write. *)
From S2P Require Import Prelude Buf Printf Vfs Wpa Wifi.

(** ** Devices and names *)

Record iwl_device_info := Device { dev_id : Z; dev_family : list Z; dev_firmware : list Z }.

Definition device (id : Z) (family firmware : string) : iwl_device_info := Device id (str family) (str firmware).

Definition iwl_devices : list iwl_device_info :=
  [device 0x08b3 "3160" "iwlwifi-3160-17.ucode"; device 0x08b4 "3160" "iwlwifi-3160-17.ucode";
   device 0x3165 "3165" "iwlwifi-7265D-22.ucode"; device 0x3166 "3165" "iwlwifi-7265D-22.ucode";
   device 0x24fb "3168" "iwlwifi-3168-22.ucode";
   device 0x08b1 "7260" "iwlwifi-7260-17.ucode"; device 0x08b2 "7260" "iwlwifi-7260-17.ucode";
   device 0x095a "7265" "iwlwifi-7265-17.ucode"; device 0x095b "7265" "iwlwifi-7265-17.ucode";
   device 0x24f3 "8260" "iwlwifi-8000C-36.ucode"; device 0x24f4 "8260" "iwlwifi-8000C-36.ucode";
   device 0x24fd "8265" "iwlwifi-8265-22.ucode";
   device 0x271b "9000" "iwlwifi-9000-pu-b0-jf-b0-38.ucode"; device 0x271c "9000" "iwlwifi-9000-pu-b0-jf-b0-38.ucode";
   device 0x2526 "9260" "iwlwifi-9260-th-b0-jf-b0-34.ucode";
   device 0x9df0 "9560" "iwlwifi-9260-th-b0-jf-b0-34.ucode"; device 0xa370 "9560" "iwlwifi-9260-th-b0-jf-b0-34.ucode";
   device 0x31dc "9560" "iwlwifi-9260-th-b0-jf-b0-34.ucode";
   device 0x2723 "cc-a0" "iwlwifi-cc-a0-59.ucode"; device 0x2725 "ty-a0" "iwlwifi-ty-a0-gf-a0-59.ucode";
   device 0x06f0 "QuZ" "iwlwifi-QuZ-a0-hr-b0-59.ucode"; device 0x34f0 "QuZ" "iwlwifi-QuZ-a0-hr-b0-59.ucode";
   device 0x4df0 "QuZ" "iwlwifi-QuZ-a0-hr-b0-59.ucode"; device 0xa0f0 "QuZ" "iwlwifi-QuZ-a0-hr-b0-59.ucode";
   device 0x7af0 "so-a0" "iwlwifi-so-a0-gf-a0-72.ucode"; device 0x51f0 "so-a0" "iwlwifi-so-a0-gf-a0-72.ucode";
   device 0x272b "bz" "iwlwifi-bz-b0-fm-c0-92.ucode"; device 0x272c "bz" "iwlwifi-bz-b0-fm-c0-92.ucode";
   device 0x7e40 "ma" "iwlwifi-ma-b0-gf-a0-89.ucode"; device 0x7e70 "gl" "iwlwifi-gl-c0-fm-c0-92.ucode"].

Definition find_device (id : Z) : option iwl_device_info := List.find (fun d => dev_id d =? id) iwl_devices.

Definition iwlwifi_is_supported (vendor_id class_code subclass device_id : Z) : bool :=
  (vendor_id =? 0x8086) && (class_code =? 0x02) && (subclass =? 0x80) &&
  match find_device device_id with Some _ => true | None => false end.

Definition iwl_name_ends_with (name suffix : list Z) : bool :=
  (length suffix <=? length name)%nat && bytes_eq (drop (length name - length suffix) name) suffix.

(** The loop over the name, with the best number, the current one, and whether
    it is inside of digits. *)
Fixpoint score_loop (name : list Z) (best cur : Z) (in_digits : bool) : Z :=
  match name with
  | [] => if in_digits && (best <? cur) then cur else best
  | c :: name =>
    if (ch "0" <=? c) && (c <=? ch "9")
    then score_loop name best (u32 (u32 (cur * 10) + (c - ch "0"))) true
    else score_loop name (if in_digits && (best <? cur) then cur else best) 0 false
  end.

Definition iwl_firmware_name_score (name : list Z) : Z := score_loop name 0 0 false.

Definition iwl_firmware_prefix_for_family (family : option (list Z)) (requested : list Z) : list Z :=
  match family with
  | None => requested
  | Some f =>
    let named (s : string) := bytes_eq f (str s) in
    if named "3160" then str "iwlwifi-3160-" else if named "3165" then str "iwlwifi-7265D-"
    else if named "3168" then str "iwlwifi-3168-" else if named "7260" then str "iwlwifi-7260-"
    else if named "7265" then str "iwlwifi-7265-" else if named "8260" then str "iwlwifi-8000C-"
    else if named "8265" then str "iwlwifi-8265-" else if named "9000" then str "iwlwifi-9000-"
    else if named "9260" then str "iwlwifi-9260-" else if named "9560" then str "iwlwifi-9260-"
    else if named "cc-a0" then str "iwlwifi-cc-a0-" else if named "Qu" then str "iwlwifi-Qu-"
    else if named "QuZ" then str "iwlwifi-QuZ-" else if named "ty-a0" then str "iwlwifi-ty-a0-"
    else if named "so-a0" then str "iwlwifi-so-a0-" else if named "bz" then str "iwlwifi-bz-"
    else if named "ma" then str "iwlwifi-ma-" else if named "gl" then str "iwlwifi-gl-"
    else requested
  end.

(** [strcmp(a, b) > 0] *)
Fixpoint name_after (a b : list Z) : bool :=
  match a, b with
  | [], _ => false
  | _ :: _, [] => true
  | x :: a, y :: b => if x =? y then name_after a b else y <? x
  end.

Definition usable (n : vnode) : bool :=
  (n_type n =? VFS_NODE_FILE) && match n_data n with Some _ => true | None => false end && negb (n_size n =? 0).

(** The best candidate so far, with its score. *)
Definition iwl_firmware_search_emit (prefix : list Z) (best : option (vnode * Z)) (n : vnode) : option (vnode * Z) :=
  if negb (usable n) then best
  else if negb (bytes_eq (take (length prefix) (n_name n)) prefix) then best
  else if negb (iwl_name_ends_with (n_name n) (str ".ucode")) && negb (iwl_name_ends_with (n_name n) (str ".fw")) then best
  else
    let score := iwl_firmware_name_score (n_name n) in
    match best with
    | None => Some (n, score)
    | Some (b, best_score) =>
      if (best_score <? score) || ((score =? best_score) && name_after (n_name n) (n_name b)) then Some (n, score) else best
    end.

Definition lookup_usable (path : list Z) (v : vfs) : option (option vnode) :=
  i ← vfs_lookup (Some path) (Some [SLASH]) v;
  match i with
  | None => Some None
  | Some i => n ← nodes v !! i; Some (if usable n then Some n else None)
  end.

Definition iwl_lookup_firmware_exact (name : list Z) (v : vfs) : option (option vnode) :=
  '(path, _) ← ksnprintf VFS_PATH_MAX (str "/lib/firmware/iwlwifi/%s") [VStr (Some name)];
  r ← lookup_usable path v;
  match r with
  | Some n => Some (Some n)
  | None => '(path, _) ← ksnprintf VFS_PATH_MAX (str "/lib/firmware/%s") [VStr (Some name)]; lookup_usable path v
  end.

(** [vfs_list] with the callback above, on a directory. *)
Definition search_dir (prefix path : list Z) (best : option (vnode * Z)) (v : vfs) : option (option (vnode * Z)) :=
  i ← vfs_lookup (Some path) (Some [SLASH]) v;
  match i with
  | None => Some best
  | Some i =>
    n ← nodes v !! i;
    if n_type n =? VFS_NODE_DIR then
      l ← vfs_list (Some i) v;
      foldl (fun b j => b ← b; n ← nodes v !! j; Some (iwl_firmware_search_emit prefix b n)) (Some best) l
    else Some best
  end.

(** The file, and the name the state then has. *)
Definition iwl_find_firmware_blob (family : option (list Z)) (firmware_name : list Z) (v : vfs)
    : option (option vnode * list Z) :=
  exact ← iwl_lookup_firmware_exact firmware_name v;
  match exact with
  | Some n => Some (Some n, firmware_name)
  | None =>
    let prefix := iwl_firmware_prefix_for_family family firmware_name in
    best ← search_dir prefix (str "/lib/firmware/iwlwifi") None v;
    best ← search_dir prefix (str "/lib/firmware") best v;
    Some (match best with Some (n, _) => (Some n, n_name n) | None => (None, firmware_name) end)
  end.

(** ** The image *)

Definition IWLWIFI_FW_SECTION_MAX : nat := 96.

(** Pointers are offsets in the image, [None] for NULL. *)
Record fw_part := Part { text : option Z; text_size : Z; data : option Z; data_size : Z }.
Record fw_section := Section_ { sec_offset : Z; sec_data : Z; sec_size : Z }.
Record fw_sections := Sections { sec_array : list fw_section; sec_count : nat; sec_bytes : Z }.

Record fw_state := Fw { firmware_version : Z; firmware_build : Z; firmware_tlv : bool; firmware_human : list Z;
  firmware_parsed : bool; runtime_ucode : fw_part; init_ucode : fw_part; boot_ucode : fw_part;
  runtime_sections : fw_sections; init_sections : fw_sections; tlv_flags : Z; api_flags : list Z; capa_flags : list Z }.

Definition set_parts (r i b : fw_part) (s : fw_state) : fw_state :=
  Fw (firmware_version s) (firmware_build s) (firmware_tlv s) (firmware_human s) (firmware_parsed s) r i b
    (runtime_sections s) (init_sections s) (tlv_flags s) (api_flags s) (capa_flags s).
Definition set_sections (r i : fw_sections) (s : fw_state) : fw_state :=
  Fw (firmware_version s) (firmware_build s) (firmware_tlv s) (firmware_human s) (firmware_parsed s)
    (runtime_ucode s) (init_ucode s) (boot_ucode s) r i (tlv_flags s) (api_flags s) (capa_flags s).
Definition set_flags (f : Z) (api capa : list Z) (s : fw_state) : fw_state :=
  Fw (firmware_version s) (firmware_build s) (firmware_tlv s) (firmware_human s) (firmware_parsed s)
    (runtime_ucode s) (init_ucode s) (boot_ucode s) (runtime_sections s) (init_sections s) f api capa.
Definition set_header (version build : Z) (tlv : bool) (human : list Z) (s : fw_state) : fw_state :=
  Fw version build tlv human (firmware_parsed s) (runtime_ucode s) (init_ucode s) (boot_ucode s)
    (runtime_sections s) (init_sections s) (tlv_flags s) (api_flags s) (capa_flags s).
Definition set_parsed (b : bool) (s : fw_state) : fw_state :=
  Fw (firmware_version s) (firmware_build s) (firmware_tlv s) (firmware_human s) b (runtime_ucode s) (init_ucode s)
    (boot_ucode s) (runtime_sections s) (init_sections s) (tlv_flags s) (api_flags s) (capa_flags s).

Definition part_present (p : fw_part) : bool :=
  match text p, data p with
  | Some _, Some _ => negb (text_size p =? 0) && negb (data_size p =? 0)
  | _, _ => false
  end.

Definition firmware_api (version : Z) : Z := Z.land (Z.shiftr version 8) 0xff.

Definition IWL_TLV_UCODE_MAGIC : Z := 0x0a4c5749.
Definition IWL_TLV_HUMAN_SIZE : Z := 64.
Definition IWL_TLV_HEADER_SIZE : Z := 88.

(** The return value is the boolean. *)
Definition iwl_validate_tlv_firmware (fw : list Z) (s : fw_state) : option (fw_state * bool) :=
  if Z.of_nat (length fw) <? IWL_TLV_HEADER_SIZE then Some (s, false)
  else
    zero ← le32_at fw 0;
    magic ← le32_at fw 4;
    if negb (zero =? 0) || negb (magic =? IWL_TLV_UCODE_MAGIC) then Some (s, false)
    else
      human ← slice fw 8 IWL_TLV_HUMAN_SIZE;
      version ← le32_at fw 72;
      build ← le32_at fw 76;
      human ← cstr_of (human ++ [0]);
      Some (set_header version build true human s, true).

(** [while (pos > 0 && sections[pos - 1].offset > offset)] *)
Fixpoint shift_loop (pos : nat) (sections : list fw_section) (offset : Z) : option (list fw_section * nat) :=
  match pos with
  | O => Some (sections, O)
  | S p =>
    sec ← sections !! p;
    if offset <? sec_offset sec then
      if (pos <? length sections)%nat then shift_loop p (<[pos := sec]> sections) offset else None
    else Some (sections, pos)
  end.

Definition iwl_insert_fw_section_sorted (t : fw_sections) (offset data size : Z) : option fw_sections :=
  if (size =? 0) || (IWLWIFI_FW_SECTION_MAX <=? sec_count t)%nat then Some t
  else
    '(l, pos) ← shift_loop (sec_count t) (sec_array t) offset;
    if (pos <? length l)%nat
    then Some (Sections (<[pos := Section_ offset data size]> l) (S (sec_count t)) (u64 (sec_bytes t + size)))
    else None.

(** A modern section: the table, and the part it also counts for. *)
Definition add_section (fw : list Z) (ptr len : Z) (t : fw_sections) (p : fw_part) : option (fw_sections * fw_part) :=
  if (4 <? len) && (sec_count t <? IWLWIFI_FW_SECTION_MAX)%nat then
    offset ← le32_at fw ptr;
    let size := len - 4 in
    t ← iwl_insert_fw_section_sorted t offset (ptr + 4) size;
    Some (t, Part (match text p with None => Some (ptr + 4) | x => x end) (u32 (text_size p + size)) (data p) (data_size p))
  else Some (t, p).

(** [flags[index] = value] for a pair of words, when the index is in range. *)
Definition set_word (fw : list Z) (ptr len : Z) (flags : list Z) : option (list Z) :=
  if 8 <=? len then
    index ← le32_at fw ptr;
    if index <? Z.of_nat (length flags) then v ← le32_at fw (ptr + 4); Some (<[Z.to_nat index := v]> flags)
    else Some flags
  else Some flags.

(** The [switch] on the type of an entry. *)
Definition tlv_entry (fw : list Z) (type ptr len : Z) (s : fw_state) : option fw_state :=
  let r := runtime_ucode s in
  let i := init_ucode s in
  let b := boot_ucode s in
  if type =? 1 then Some (set_parts (Part (Some ptr) len (data r) (data_size r)) i b s)
  else if type =? 2 then Some (set_parts (Part (text r) (text_size r) (Some ptr) len) i b s)
  else if type =? 3 then Some (set_parts r (Part (Some ptr) len (data i) (data_size i)) b s)
  else if type =? 4 then Some (set_parts r (Part (text i) (text_size i) (Some ptr) len) b s)
  else if type =? 5 then Some (set_parts r i (Part (Some ptr) len (data b) (data_size b)) s)
  else if type =? 18 then
    (if 4 <=? len then f ← le32_at fw ptr; Some (set_flags f (api_flags s) (capa_flags s) s) else Some s)
  else if type =? 29 then api ← set_word fw ptr len (api_flags s); Some (set_flags (tlv_flags s) api (capa_flags s) s)
  else if type =? 30 then capa ← set_word fw ptr len (capa_flags s); Some (set_flags (tlv_flags s) (api_flags s) capa s)
  else if type =? 19 then
    '(t, p) ← add_section fw ptr len (runtime_sections s) r;
    Some (set_sections t (init_sections s) (set_parts p i b s))
  else if type =? 20 then
    '(t, p) ← add_section fw ptr len (init_sections s) i;
    Some (set_sections (runtime_sections s) t (set_parts r p b s))
  else Some s.

(** [while (ptr + 8 <= end)]; the boolean is false when an entry overruns. *)
Fixpoint tlv_loop (fuel : nat) (fw : list Z) (alt ptr : Z) (s : fw_state) : option (fw_state * bool) :=
  match fuel with
  | O => None
  | S f =>
    let size := Z.of_nat (length fw) in
    if size <? ptr + 8 then Some (s, true)
    else
      type ← le16_at fw ptr;
      entry_alt ← le16_at fw (ptr + 2);
      len ← le32_at fw (ptr + 4);
      let ptr := ptr + 8 in
      if size <? ptr + len then Some (s, false)
      else
        s ← (if (entry_alt =? 0) || (entry_alt =? alt) then tlv_entry fw type ptr len s else Some s);
        tlv_loop f fw alt (ptr + Z.land (u32 (len + 3)) (u32 (Z.lnot 3))) s
  end.

(** The highest alternative of 3, 2, 1 in the mask. *)
Definition choose_alt (altmask : Z) : Z :=
  if Z.testbit altmask 3 then 3 else if Z.testbit altmask 2 then 2 else if Z.testbit altmask 1 then 1 else 0.

Definition iwl_parse_tlv_sections (fw : list Z) (s : fw_state) : option (fw_state * bool) :=
  altmask ← le64_at fw 80;
  '(s, ok) ← tlv_loop (S (length fw)) fw (choose_alt altmask) IWL_TLV_HEADER_SIZE s;
  if negb ok then Some (s, false)
  else
    let legacy_ok := part_present (runtime_ucode s) && part_present (init_ucode s) in
    let modern_ok := (0 <? sec_count (runtime_sections s))%nat in
    Some (set_parsed (legacy_ok || modern_ok) s, legacy_ok || modern_ok).

(** The five sizes of a legacy header at [off]. *)
Definition legacy_sizes (fw : list Z) (off : Z) : option (Z * Z * Z * Z * Z) :=
  a ← le32_at fw off; b ← le32_at fw (off + 4); c ← le32_at fw (off + 8); d ← le32_at fw (off + 12);
  e ← le32_at fw (off + 16); Some (a, b, c, d, e).

Definition iwl_validate_legacy_firmware (fw : list Z) (s : fw_state) : option (fw_state * bool) :=
  let size := Z.of_nat (length fw) in
  if size <? 28 then Some (s, false)
  else
    version ← le32_at fw 0;
    let header := if 3 <=? firmware_api version then 28 else 24 in
    if size <? header then Some (s, false)
    else
      '(a, b, c, d, e) ← legacy_sizes fw (if header =? 28 then 8 else 4);
      if size <? header + a + b + c + d + e then Some (s, false)
      else
        '(human, _) ← ksnprintf 65 (str "legacy iwl firmware v%u") [VInt version];
        Some (set_header version 0 false human s, true).

Definition iwl_parse_legacy_sections (fw : list Z) (s : fw_state) : option (fw_state * bool) :=
  let header := if 3 <=? firmware_api (firmware_version s) then 28 else 24 in
  '(a, b, c, d, e) ← legacy_sizes fw (if header =? 28 then 8 else 4);
  let r := Part (Some header) a (Some (header + a)) b in
  let i := Part (Some (header + a + b)) c (Some (header + a + b + c)) d in
  let bo := Part (Some (header + a + b + c + d)) e (data (boot_ucode s)) (data_size (boot_ucode s)) in
  let ok := part_present r && part_present i in
  Some (set_parsed ok (set_parts r i bo s), ok).

Definition iwl_parse_firmware_sections (fw : list Z) (s : fw_state) : option (fw_state * bool) :=
  if firmware_tlv s then iwl_parse_tlv_sections fw s else iwl_parse_legacy_sections fw s.

Definition IWL_FW_DMA_SIZE : Z := 512 * 1024.

(** What [iwl_load_firmware] does with a file it found: the return value, and what
    is staged for the card when the image has no sections of its own; [dma_ok] is
    whether the buffer for it could be allocated. *)
Definition iwl_load_firmware (dma_ok : bool) (fw : list Z) (s : fw_state) : option (fw_state * Z * option (list Z)) :=
  '(s, ok) ← iwl_validate_tlv_firmware fw s;
  '(s, ok) ← (if (ok : bool) then Some (s, true) else iwl_validate_legacy_firmware fw s);
  if negb ok then Some (s, -2, None)
  else
    '(s, ok) ← iwl_parse_firmware_sections fw s;
    if (ok : bool) && (sec_count (runtime_sections s) =? 0)%nat then
      let p := runtime_ucode s in
      if negb (part_present p) || (IWL_FW_DMA_SIZE <? text_size p + data_size p) || negb dma_ok then Some (s, 0, None)
      else
        t ← slice fw (default 0 (text p)) (text_size p);
        d ← slice fw (default 0 (data p)) (data_size p);
        Some (s, 0, Some (t ++ d))
    else Some (s, 0, None).

(** ** The table of sections *)

Fixpoint ascending (l : list Z) : Prop :=
  match l with
  | a :: r => match r with b :: _ => a <= b | [] => True end /\ ascending r
  | [] => True
  end.

Definition offsets (l : list fw_section) : list Z := map sec_offset l.

(** From the end down: what is greater moves up by one. *)
Lemma shift_loop_spec offset A : forall x R, exists P Q y, A = P ++ Q /\
  Forall (fun s => offset < sec_offset s) Q /\ (forall p, last P = Some p -> sec_offset p <= offset) /\
  shift_loop (length A) (A ++ x :: R) offset = Some (P ++ y :: Q ++ R, length P).
Proof.
  induction A as [|a A IH] using rev_ind; intros x R.
  - exists [], [], x. by repeat split.
  - rewrite length_app. cbn [length]. rewrite Nat.add_1_r, <- app_assoc. cbn [app shift_loop].
    rewrite list_lookup_middle by done. rewrite bind_some.
    destruct (Z.ltb_spec offset (sec_offset a)) as [Hlt|Hge].
    + rewrite (proj2 (Nat.ltb_lt _ _)) by (rewrite length_app; cbn [length]; lia).
      assert (<[S (length A) := a]> (A ++ a :: x :: R) = A ++ a :: a :: R) as ->.
      { rewrite insert_app_r_alt by lia. replace (S (length A) - length A)%nat with 1%nat by lia. done. }
      destruct (IH a (a :: R)) as (P & Q & y & -> & HQ & HP & ->). exists P, (Q ++ [a]), y.
      split; [by rewrite app_assoc|]. split; [apply Forall_app; split; [done|by constructor]|]. split; [done|].
      by rewrite <- app_assoc.
    + exists (A ++ [a]), [], x. split; [by rewrite app_nil_r|]. split; [done|]. split.
      * intros p. rewrite last_snoc. by intros [= <-].
      * rewrite length_app, <- app_assoc. cbn [app length]. by rewrite Nat.add_1_r.
Qed.

Lemma ascending_insert P : forall Q o, ascending (P ++ Q) -> (forall p, last P = Some p -> p <= o) ->
  Forall (fun q => o < q) Q -> ascending (P ++ o :: Q).
Proof.
  induction P as [|p P IH]; intros Q o Hs Hl Hq.
  - destruct Hq as [|q Q Hq _]; [done|]. split; [lia|done].
  - destruct Hs as [Hp Hs]. split.
    + destruct P as [|p2 P]; [by apply Hl|done].
    + apply IH; [done| |done]. intros q Hlast. apply Hl. destruct P; [done|exact Hlast].
Qed.

(** Ninety-six slots, the used ones in order of their offsets, each with bytes of
    the image, and the total of their sizes. *)
Definition section_inside (fw : list Z) (s : fw_section) : Prop :=
  0 <= sec_data s /\ 0 < sec_size s < 2 ^ 32 /\ sec_data s + sec_size s <= Z.of_nat (length fw).
Definition total (l : list fw_section) : Z := foldr (fun s n => sec_size s + n) 0 l.
Definition table_ok (fw : list Z) (t : fw_sections) : Prop :=
  length (sec_array t) = 96%nat /\ (sec_count t <= 96)%nat /\
  Forall (section_inside fw) (take (sec_count t) (sec_array t)) /\
  ascending (offsets (take (sec_count t) (sec_array t))) /\
  sec_bytes t = total (take (sec_count t) (sec_array t)).

Lemma total_app a b : total (a ++ b) = total a + total b.
Proof. unfold total. induction a as [|x a IH]; cbn [app foldr]; [done|]. rewrite IH. lia. Qed.

Lemma total_sizes_bound fw l : Forall (section_inside fw) l -> 0 <= total l <= Z.of_nat (length l) * 2 ^ 32.
Proof. induction 1 as [|s l (_ & Hs & _) _ IH]; cbn [total foldr length]; [lia|]. unfold total in IH. lia. Qed.

Lemma insert_sorted_ok fw t offset data size : table_ok fw t -> section_inside fw (Section_ offset data size) ->
  exists t', iwl_insert_fw_section_sorted t offset data size = Some t' /\ table_ok fw t' /\
    (sec_count t < 96 -> sec_count t' = S (sec_count t))%nat.
Proof.
  intros (Hl & Hc & Hi & Ha & Hb) Hn. pose proof Hn as (_ & Hsz & _). cbn [sec_size] in Hsz.
  unfold iwl_insert_fw_section_sorted. rewrite (proj2 (Z.eqb_neq size 0)) by lia. cbn [orb].
  destruct (Nat.leb_spec IWLWIFI_FW_SECTION_MAX (sec_count t)) as [Hf|Hlt]; unfold IWLWIFI_FW_SECTION_MAX in *;
    [exists t; split; [done|]; split; [by repeat split|lia]|]. set (A := take (sec_count t) (sec_array t)) in *.
  assert (length A = sec_count t) as HA by (unfold A; rewrite length_take; lia).
  destruct (drop (sec_count t) (sec_array t)) as [|x R] eqn:Ed.
  { apply (f_equal length) in Ed. rewrite length_drop in Ed. cbn in Ed. lia. }
  assert (sec_array t = A ++ x :: R) as Earr by (unfold A; by rewrite <- Ed, take_drop).
  destruct (shift_loop_spec offset A x R) as (P & Q & y & E & HQ & HP & Hs).
  rewrite Earr, <- HA, Hs, bind_some.
  rewrite (proj2 (Nat.ltb_lt _ _)) by (rewrite length_app; cbn [length]; lia).
  eexists. split; [reflexivity|]. split; [|cbn; lia].
  assert (<[length P := Section_ offset data size]> (P ++ y :: Q ++ R) = (P ++ Section_ offset data size :: Q) ++ R) as Ei.
  { rewrite insert_app_r_alt, Nat.sub_diag, <- app_assoc by lia. done. }
  unfold table_ok. cbn [sec_array sec_count sec_bytes]. rewrite Ei.
  assert (length (P ++ Section_ offset data size :: Q) = S (length A)) as Hnew.
  { rewrite E, !length_app. cbn [length]. lia. }
  rewrite (take_app_length' _ R) by done. split.
  { rewrite length_app, Hnew. rewrite Earr, length_app in Hl. cbn [length] in Hl. lia. }
  split; [lia|]. rewrite E in Hi, Ha. apply Forall_app in Hi as [Hi1 Hi2]. split; [|split].
  - apply Forall_app. split; [done|]. by constructor.
  - unfold offsets in *. rewrite map_app in *. cbn [map sec_offset]. apply ascending_insert; [done| |by apply Forall_map].
    intros p. destruct (last P) as [s|] eqn:El.
    + apply last_Some in El as [P' ->]. rewrite map_app. cbn [map]. rewrite last_snoc. intros [= <-]. by apply HP.
    + apply last_None in El as ->. done.
  - rewrite Hb, E, !total_app. cbn [total foldr sec_size]. fold (total Q).
    pose proof (total_sizes_bound fw P Hi1). pose proof (total_sizes_bound fw Q Hi2). rewrite E, length_app in HA.
    rewrite u64_small; lia.
Qed.

(** ** Entries *)

Definition piece_inside (fw : list Z) (p : option Z) (n : Z) : Prop :=
  match p with Some x => 0 <= x /\ 0 <= n /\ x + n <= Z.of_nat (length fw) | None => True end.
Definition part_inside (fw : list Z) (p : fw_part) : Prop :=
  piece_inside fw (text p) (text_size p) /\ piece_inside fw (data p) (data_size p).

(** The runtime part is what is staged, when there are no sections. *)
Definition fw_ok (fw : list Z) (s : fw_state) : Prop :=
  table_ok fw (runtime_sections s) /\ table_ok fw (init_sections s) /\
  (sec_count (runtime_sections s) = 0%nat -> part_inside fw (runtime_ucode s)).

Lemma add_section_ok fw ptr len t p : octets fw -> 0 <= ptr -> 0 <= len < 2 ^ 32 ->
  ptr + len <= Z.of_nat (length fw) -> table_ok fw t ->
  exists t' p', add_section fw ptr len t p = Some (t', p') /\ table_ok fw t' /\
    (sec_count t' = 0%nat -> p' = p /\ t' = t).
Proof.
  intros Hfw Hp Hl Hin Ht. unfold add_section.
  destruct ((4 <? len) && _) eqn:E; [|by exists t, p]. bcases. apply Nat.ltb_lt in H0.
  unfold IWLWIFI_FW_SECTION_MAX in H0.
  destruct (le32_ok fw ptr Hfw) as (off & -> & _); [lia..|]. rewrite bind_some. cbv zeta.
  destruct (insert_sorted_ok fw t off (ptr + 4) (len - 4)) as (t' & -> & Ht' & Hc); [done| |].
  { unfold section_inside. cbn. lia. }
  rewrite bind_some. eexists _, _. split; [done|]. split; [done|]. rewrite Hc by done. done.
Qed.

Lemma set_word_ok fw ptr len flags : octets fw -> 0 <= ptr -> ptr + len <= Z.of_nat (length fw) ->
  exists l, set_word fw ptr len flags = Some l.
Proof.
  intros Hfw Hp Hin. unfold set_word. destruct (Z.leb_spec 8 len); [|by eexists].
  destruct (le32_ok fw ptr Hfw) as (i & -> & _); [lia..|]. rewrite bind_some.
  destruct (_ <? _); [|by eexists].
  destruct (le32_ok fw (ptr + 4) Hfw) as (v & -> & _); [lia..|]. rewrite bind_some. by eexists.
Qed.

Lemma tlv_entry_ok fw type ptr len s : octets fw -> 0 <= ptr -> 0 <= len < 2 ^ 32 ->
  ptr + len <= Z.of_nat (length fw) -> fw_ok fw s -> exists s', tlv_entry fw type ptr len s = Some s' /\ fw_ok fw s'.
Proof.
  intros Hfw Hp Hl Hin (Hr & Hi & Hpart).
  assert (piece_inside fw (Some ptr) len) as Hpi by (cbn; lia).
  unfold tlv_entry. cbv zeta.
  do 5 (destruct (_ =? _); [eexists; split; [reflexivity|]; split; [done|]; split; [done|]; cbn [set_parts runtime_sections runtime_ucode];
    try done; intros Hz; destruct (Hpart Hz); by split|]).
  destruct (_ =? _).
  { destruct (Z.leb_spec 4 len); [|by exists s].
    destruct (le32_ok fw ptr Hfw) as (f & -> & _); [lia..|]. rewrite bind_some. by eexists. }
  do 2 (destruct (_ =? _); [match goal with |- context [set_word fw ptr len ?l] =>
    destruct (set_word_ok fw ptr len l) as (w & ->); [done..|] end; rewrite bind_some; by eexists|]).
  destruct (_ =? _).
  { destruct (add_section_ok fw ptr len (runtime_sections s) (runtime_ucode s)) as (t & p & -> & Ht & Hz); [done..|].
    rewrite bind_some. cbv beta iota. eexists. split; [reflexivity|]. split; [done|]. split; [done|].
    cbn [set_sections set_parts runtime_sections runtime_ucode]. intros H0. destruct (Hz H0) as [-> ->]. by apply Hpart. }
  destruct (_ =? _); [|by exists s].
  destruct (add_section_ok fw ptr len (init_sections s) (init_ucode s)) as (t & p & -> & Ht & Hz); [done..|].
  rewrite bind_some. cbv beta iota. eexists. split; [reflexivity|]. by split.
Qed.

Lemma tlv_loop_ok fw alt fuel : forall ptr s, octets fw -> 0 <= ptr -> fw_ok fw s -> (0 < fuel)%nat ->
  Z.of_nat (length fw) < Z.of_nat fuel + ptr ->
  exists s' b, tlv_loop fuel fw alt ptr s = Some (s', b) /\ fw_ok fw s'.
Proof.
  induction fuel as [|f IH]; intros ptr s Hfw Hp Hs Hf Hlt; [lia|]. cbn [tlv_loop]. cbv zeta.
  destruct (Z.ltb_spec (Z.of_nat (length fw)) (ptr + 8)); [by exists s, true|].
  destruct (le16_ok fw ptr Hfw) as (type & -> & _); [lia..|].
  destruct (le16_ok fw (ptr + 2) Hfw) as (ea & -> & _); [lia..|].
  destruct (le32_ok fw (ptr + 4) Hfw) as (len & -> & Hl); [lia..|]. rewrite !bind_some.
  destruct (Z.ltb_spec (Z.of_nat (length fw)) (ptr + 8 + len)); [by exists s, false|].
  assert (exists s', (if (ea =? 0) || (ea =? alt) then tlv_entry fw type (ptr + 8) len s else Some s) = Some s' /\
    fw_ok fw s') as (s' & -> & Hs').
  { destruct ((_ || _)%bool); [apply tlv_entry_ok; [done|lia..|done]|by exists s]. }
  rewrite bind_some.
  assert (0 <= Z.land (u32 (len + 3)) (u32 (Z.lnot 3))) by (apply Z.land_nonneg; left; apply Z.mod_pos_bound; lia).
  apply IH; [done|lia|done|lia|lia].
Qed.

Lemma legacy_sizes_ok fw off : octets fw -> 0 <= off -> off + 20 <= Z.of_nat (length fw) ->
  exists a b c d e, legacy_sizes fw off = Some (a, b, c, d, e) /\
    0 <= a /\ 0 <= b /\ 0 <= c /\ 0 <= d /\ 0 <= e.
Proof.
  intros Hfw Ho Hin. unfold legacy_sizes.
  destruct (le32_ok fw off Hfw) as (a & -> & ?); [lia..|].
  destruct (le32_ok fw (off + 4) Hfw) as (b & -> & ?); [lia..|].
  destruct (le32_ok fw (off + 8) Hfw) as (c & -> & ?); [lia..|].
  destruct (le32_ok fw (off + 12) Hfw) as (d & -> & ?); [lia..|].
  destruct (le32_ok fw (off + 16) Hfw) as (e & -> & ?); [lia..|].
  rewrite !bind_some. exists a, b, c, d, e. by repeat split; try lia.
Qed.

Lemma cstr_of_zero l : exists s, cstr_of (l ++ [0]) = Some s.
Proof.
  induction l as [|c l (s & IH)]; cbn [app cstr_of]; [by eexists|].
  destruct (c =? 0); [by eexists|]. rewrite IH. by eexists.
Qed.

Lemma human_version v : exists t n, ksnprintf 65 (str "legacy iwl firmware v%u") [VInt v] = Some (t, n).
Proof.
  unfold ksnprintf. rewrite kvsnprintf_render by lia.
  destruct (render (str "legacy iwl firmware v%u") [VInt v]) as [l|] eqn:E; [rewrite bind_some; by eexists _, _|].
  exfalso. revert E. norm_str. unfold render. cbn -[padded number u32]. done.
Qed.

(** What the image must be for the sections to be looked for. *)
Definition header_seen (fw : list Z) (s : fw_state) : Prop :=
  if firmware_tlv s then 88 <= Z.of_nat (length fw)
  else 28 <= Z.of_nat (length fw) /\
    exists a b c d e, let header := if 3 <=? firmware_api (firmware_version s) then 28 else 24 in
      legacy_sizes fw (if header =? 28 then 8 else 4) = Some (a, b, c, d, e) /\
      0 <= a /\ 0 <= b /\ 0 <= c /\ 0 <= d /\ 0 <= e /\ header + a + b + c + d + e <= Z.of_nat (length fw).

Lemma validate_tlv_ok fw s : octets fw -> fw_ok fw s -> exists s' b, iwl_validate_tlv_firmware fw s = Some (s', b) /\
  fw_ok fw s' /\ (b = true -> header_seen fw s').
Proof.
  intros Hfw Hs. unfold iwl_validate_tlv_firmware, IWL_TLV_HEADER_SIZE.
  destruct (Z.ltb_spec (Z.of_nat (length fw)) 88); [by exists s, false|].
  destruct (le32_ok fw 0 Hfw) as (z & -> & _); [lia..|].
  destruct (le32_ok fw 4 Hfw) as (m & -> & _); [lia..|]. rewrite !bind_some.
  destruct ((_ || _)%bool); [by exists s, false|].
  destruct (slice_ok fw 8 IWL_TLV_HUMAN_SIZE Hfw) as (h & -> & _ & _); [unfold IWL_TLV_HUMAN_SIZE; lia..|].
  destruct (le32_ok fw 72 Hfw) as (v & -> & _); [lia..|].
  destruct (le32_ok fw 76 Hfw) as (bu & -> & _); [lia..|]. rewrite !bind_some.
  destruct (cstr_of_zero h) as (t & ->). rewrite bind_some. eexists _, true. split; [reflexivity|].
  split; [done|]. intros _. unfold header_seen. cbn. lia.
Qed.

Lemma validate_legacy_ok fw s : octets fw -> fw_ok fw s -> exists s' b,
  iwl_validate_legacy_firmware fw s = Some (s', b) /\ fw_ok fw s' /\ (b = true -> header_seen fw s').
Proof.
  intros Hfw Hs. unfold iwl_validate_legacy_firmware. cbv zeta.
  destruct (Z.ltb_spec (Z.of_nat (length fw)) 28); [by exists s, false|].
  destruct (le32_ok fw 0 Hfw) as (v & -> & _); [lia..|]. rewrite bind_some.
  destruct (_ <? _); [by exists s, false|].
  set (off := if _ =? 28 then 8 else 4).
  assert (0 <= off <= 8) by (unfold off; case_match; lia).
  destruct (legacy_sizes_ok fw off Hfw) as (a & b & c & d & e & Ez & ?); [lia..|].
  rewrite Ez, bind_some. cbv beta iota.
  destruct (Z.ltb_spec (Z.of_nat (length fw)) ((if 3 <=? firmware_api v then 28 else 24) + a + b + c + d + e));
    [by exists s, false|].
  destruct (human_version v) as (t & n & ->). rewrite bind_some. cbv beta iota. eexists _, true.
  split; [reflexivity|]. split; [done|]. intros _. unfold header_seen. cbn [set_header firmware_tlv firmware_version].
  split; [lia|]. exists a, b, c, d, e. cbv zeta. split; [exact Ez|]. repeat (split; [lia|]). lia.
Qed.

Lemma parse_sections_ok fw s : octets fw -> fw_ok fw s -> header_seen fw s ->
  exists s' b, iwl_parse_firmware_sections fw s = Some (s', b) /\ fw_ok fw s'.
Proof.
  intros Hfw Hs Hh. unfold iwl_parse_firmware_sections, header_seen in *. destruct (firmware_tlv s).
  - unfold iwl_parse_tlv_sections, le64_at.
    destruct (le32_ok fw 80 Hfw) as (lo & -> & _); [lia..|].
    destruct (le32_ok fw (80 + 4) Hfw) as (hi & -> & _); [lia..|]. rewrite !bind_some.
    destruct (tlv_loop_ok fw (choose_alt (Z.lor lo (Z.shiftl hi 32))) (S (length fw)) IWL_TLV_HEADER_SIZE s)
      as (s' & b & -> & Hs'); [done|done|done|lia|unfold IWL_TLV_HEADER_SIZE; lia|].
    rewrite bind_some. cbv beta iota. destruct b; cbn [negb]; [|by exists s', false]. by eexists _, _.
  - destruct Hh as (_ & a & b & c & d & e & Ez & Ha & Hb & Hc & Hd & He & Hsum). cbv zeta in Ez, Hsum.
    unfold iwl_parse_legacy_sections. cbv zeta. rewrite Ez, bind_some. cbv beta iota.
    eexists _, _. split; [reflexivity|]. destruct Hs as (Hr & Hi & _). split; [done|]. split; [done|].
    intros _. assert (24 <= if 3 <=? firmware_api (firmware_version s) then 28 else 24) by (case_match; lia).
    cbn [set_parsed set_parts runtime_ucode part_inside piece_inside text text_size data data_size]. unfold part_inside, piece_inside. cbn. lia.
Qed.

(** Before an image is loaded: the tables have their slots, none used. *)
Definition fresh (s : fw_state) : Prop :=
  length (sec_array (runtime_sections s)) = 96%nat /\ sec_count (runtime_sections s) = 0%nat /\
  sec_bytes (runtime_sections s) = 0 /\
  length (sec_array (init_sections s)) = 96%nat /\ sec_count (init_sections s) = 0%nat /\
  sec_bytes (init_sections s) = 0 /\ text (runtime_ucode s) = None /\ data (runtime_ucode s) = None.

Lemma fresh_ok fw s : fresh s -> fw_ok fw s.
Proof.
  intros (H1 & H2 & H3 & H4 & H5 & H6 & H7 & H8). unfold fw_ok, table_ok, part_inside.
  rewrite H1, H2, H3, H4, H5, H6, H7, H8. cbn. repeat split; (lia || constructor || done).
Qed.

Definition staged_fits (staged : option (list Z)) : Prop :=
  match staged with Some b => Z.of_nat (length b) <= IWL_FW_DMA_SIZE | None => True end.

(** C38 Loading firmware is memory safe for every file: whatever its bytes say, no
    read leaves the image and no write the tables; the section tables end with at
    most 96 entries, each inside of the image, in order of their offsets, with the
    total of their sizes; and what is staged fits the DMA buffer. *)
Theorem firmware_safe dma_ok fw s : octets fw -> fresh s -> exists s' rc staged,
  iwl_load_firmware dma_ok fw s = Some (s', rc, staged) /\
  table_ok fw (runtime_sections s') /\ table_ok fw (init_sections s') /\ (rc = 0 \/ rc = -2) /\
  staged_fits staged.
Proof.
  intros Hfw Hf. unfold iwl_load_firmware.
  destruct (validate_tlv_ok fw s Hfw (fresh_ok fw s Hf)) as (s1 & b1 & -> & Hs1 & Hb1).
  rewrite bind_some. cbv beta iota.
  assert (exists s2 b2, (if b1 then Some (s1, true) else iwl_validate_legacy_firmware fw s1) = Some (s2, b2) /\
    fw_ok fw s2 /\ (b2 = true -> header_seen fw s2)) as (s2 & b2 & -> & Hs2 & Hb2).
  { destruct b1; [exists s1, true; by split; [done|split; [done|]]|by apply validate_legacy_ok]. }
  rewrite bind_some. cbv beta iota. destruct b2; cbn [negb].
  2:{ exists s2, (-2), None. destruct Hs2 as (? & ? & _). repeat (split; [done|]). split; [by right|done]. }
  destruct (parse_sections_ok fw s2 Hfw Hs2 (Hb2 eq_refl)) as (s3 & b3 & -> & Hr & Hi & Hp).
  rewrite bind_some. cbv beta iota zeta.
  assert (exists s' rc staged, Some (s3, 0, None) = Some (s', rc, staged) /\
    table_ok fw (runtime_sections s') /\ table_ok fw (init_sections s') /\ (rc = 0 \/ rc = -2) /\
    staged_fits staged) as Hnone.
  { exists s3, 0, None. repeat (split; [done|]). by split; [left|]. }
  destruct (b3 && (sec_count (runtime_sections s3) =? 0)%nat) eqn:E; [|exact Hnone].
  apply andb_true_iff in E as [_ E]. apply Nat.eqb_eq in E. destruct (Hp E) as [Ht Hd].
  destruct (negb (part_present (runtime_ucode s3)) || (IWL_FW_DMA_SIZE <? text_size (runtime_ucode s3) + data_size (runtime_ucode s3)) || negb dma_ok) eqn:E2;
    [exact Hnone|].
  apply orb_false_iff in E2 as [E2 _]. apply orb_false_iff in E2 as [Ep Es]. apply Z.ltb_ge in Es.
  unfold part_present in Ep. destruct (text (runtime_ucode s3)) as [t|]; [|done].
  destruct (data (runtime_ucode s3)) as [d|]; [|done]. cbn [piece_inside] in *. change (default 0 (Some t)) with t. change (default 0 (Some d)) with d.
  destruct (slice_ok fw t (text_size (runtime_ucode s3)) Hfw) as (x & -> & _ & Hx); [lia..|].
  destruct (slice_ok fw d (data_size (runtime_ucode s3)) Hfw) as (y & -> & _ & Hy); [lia..|].
  rewrite !bind_some. exists s3, 0, (Some (x ++ y)). repeat (split; [done|]). split; [by left|].
  unfold staged_fits. rewrite length_app. lia.
Qed.

(** The number that decides between two files is the largest in the name, and that
    is the device number: between versions 17 and 9 of the same firmware
    [strcmp] decides, for 9. *)
Theorem version_not_compared :
  iwl_firmware_name_score (str "iwlwifi-7260-17.ucode") = 7260 /\
  iwl_firmware_name_score (str "iwlwifi-7260-9.ucode") = 7260 /\
  name_after (str "iwlwifi-7260-9.ucode") (str "iwlwifi-7260-17.ucode") = true.
Proof. by vm_compute. Qed.

(** ** Example: an image with two runtime sections, out of order *)

Definition tlv (type : Z) (body : list Z) : list Z := le_bytes 2 type ++ [0; 0] ++ le_bytes 4 (Z.of_nat (length body)) ++ body.

Definition image : list Z :=
  [0; 0; 0; 0] ++ le_bytes 4 IWL_TLV_UCODE_MAGIC ++ repeat 65 64 ++ le_bytes 4 17 ++ le_bytes 4 1 ++ repeat 0 8 ++
  tlv 19 (le_bytes 4 0x800000 ++ [1; 2; 3; 4]) ++ tlv 19 (le_bytes 4 0x400000 ++ [5; 6]) ++ [0; 0].

Definition unloaded : fw_state :=
  let none := Part None 0 None 0 in
  let table := Sections (repeat (Section_ 0 0 0) 96) 0 0 in
  Fw 0 0 false [] false none none none table table 0 [0; 0; 0; 0] [0; 0; 0; 0].

Lemma firmware_safe_witness : option_map (fun r => sec_bytes (runtime_sections (fst (fst r)))) (iwl_load_firmware true image unloaded) = Some 6 /\
  exists s' rc staged, iwl_load_firmware true image unloaded = Some (s', rc, staged) /\
  table_ok image (runtime_sections s') /\ table_ok image (init_sections s') /\ (rc = 0 \/ rc = -2) /\ staged_fits staged.
Proof.
  split; [by vm_compute|]. apply firmware_safe.
  - apply (bool_decide_unpack (Forall (fun b => 0 <= b < 256) image)). by vm_compute.
  - by vm_compute.
Defined.
