(* ===== verification/Tfs.v ===== *)
(** * kernel/fs/tfs.c

    The TFS image: collecting the tree of [Vfs.v] in an entry table, writing it
    to a block device, and mounting an image from memory or from a device. The
    block layer is the class [BlockLayer]; what the heap answers is [kmalloc_ok]
    as in [Vfs.v]. Log messages are not modelled. A read outside a buffer, or
    through a pointer the code has not set, is undefined: [None]. *)
From S2P Require Import Prelude Buf KString Printf Vfs.

(** What tfs.c asks of the block layer, over the states [D] of the disks. *)
Class BlockLayer (D : Type) := {
  block_device_find : D -> list Z -> bool;
  block_read : D -> list Z -> Z -> Z -> D * option (list Z);
  block_write_lba28 : D -> list Z -> Z -> list Z -> D * Z;
  block_sync : D -> list Z -> D }.

Definition TFS_SECTOR_SIZE : Z := 512.
Definition TFS_TABLE_ALIGN : Z := 4096.
Definition TFS_MAX_ENTRIES : Z := 1024.
Definition TFS_PATH_MAX : Z := 256.
Definition TFS_VERSION : Z := 1.
Definition TFS_DEFAULT_ROOT_LBA : Z := 526336.
Definition TFS_SYNC_BUFFER_MAX : Z := 512 * 1024 * 1024.
Definition TFS_ENTRY_DIR : Z := 1.
Definition TFS_ENTRY_FILE : Z := 2.
(** [sizeof] of the two structures. *)
Definition HEADER_SIZE : Z := 32.
Definition ENTRY_SIZE : Z := 296.
(** The literal and its NUL fill the eight bytes. *)
Definition TFS_MAGIC : list Z := str "TFS1TNU" ++ [0].

Record tfs_header := Header {
  h_magic : list Z; h_version : Z; h_entry_count : Z; h_entries_offset : Z; h_data_offset : Z }.

Record tfs_entry := Entry {
  e_type : Z; e_mode : Z; e_uid : Z; e_gid : Z; e_size : Z; e_offset : Z; e_mtime : Z; e_path : list Z }.

(** The variables of tfs.c. *)
Record tfs := Tfs {
  persistent_enabled : bool; auto_sync_enabled : bool; sync_in_progress : bool;
  persistent_device : list Z; persistent_start_lba : Z; last_image_size : Z }.

Definition set_progress (t : tfs) (b : bool) : tfs :=
  Tfs (persistent_enabled t) (auto_sync_enabled t) b (persistent_device t) (persistent_start_lba t)
      (last_image_size t).
Definition set_image_size (t : tfs) (n : Z) : tfs :=
  Tfs (persistent_enabled t) (auto_sync_enabled t) (sync_in_progress t) (persistent_device t)
      (persistent_start_lba t) n.
Definition set_enabled (t : tfs) (p a : bool) : tfs :=
  Tfs p a (sync_in_progress t) (persistent_device t) (persistent_start_lba t) (last_image_size t).

Definition align_up64 (value align : Z) : Z :=
  Z.land (u64 (value + align - 1)) (u64 (Z.lnot (align - 1))).

(** ** The image *)

Definition header_bytes (h : tfs_header) : list Z :=
  h_magic h ++ le_bytes 4 (h_version h) ++ le_bytes 4 (h_entry_count h) ++
  le_bytes 8 (h_entries_offset h) ++ le_bytes 8 (h_data_offset h).

(** A zeroed entry after its fields were stored and its path copied. *)
Definition entry_bytes (e : tfs_entry) : list Z :=
  le_bytes 4 (e_type e) ++ le_bytes 4 (e_mode e) ++ le_bytes 4 (e_uid e) ++ le_bytes 4 (e_gid e) ++
  le_bytes 8 (e_size e) ++ le_bytes 8 (e_offset e) ++ le_bytes 8 (e_mtime e) ++
  pad TFS_PATH_MAX (take 255 (e_path e)).

Definition header_at (img : list Z) : option tfs_header :=
  magic ← slice img 0 8; version ← get 4 img 8; count ← get 4 img 12; eo ← get 8 img 16;
  dof ← get 8 img 24; Some (Header magic version count eo dof).

(** The path is read as a C string, wherever its NUL is. *)
Definition entry_at (img : list Z) (o : Z) : option tfs_entry :=
  type ← get 4 img o; mode ← get 4 img (o + 4); uid ← get 4 img (o + 8); gid ← get 4 img (o + 12);
  size ← get 8 img (o + 16); offset ← get 8 img (o + 24); mtime ← get 8 img (o + 32);
  path ← cstr_at_off img (o + 40); Some (Entry type mode uid gid size offset mtime path).

(** ** Collecting the tree *)

Record collect_ctx := Ctx { c_entries : list tfs_entry; c_cursor : Z; c_failed : bool }.

Definition fail (c : collect_ctx) : collect_ctx := Ctx (c_entries c) (c_cursor c) true.

(** The names from a node up to the root, at most [room] of them. *)
Fixpoint path_parts (room : nat) (v : vfs) (n : option nat) : option (list (list Z)) :=
  match room, n with
  | S k, Some i =>
    if bool_decide (root_node v = Some i) then Some []
    else nd ← nodes v !! i; parts ← path_parts k v (n_parent nd); Some (n_name nd :: parts)
  | _, _ => Some []
  end.

Fixpoint join_parts (out : list Z) (parts : list (list Z)) : option (list Z) :=
  match parts with
  | [] => Some out
  | p :: parts =>
    if TFS_PATH_MAX <=? Z.of_nat (length out) + Z.of_nat (length p) + 2 then None
    else join_parts (out ++ [SLASH] ++ p) parts
  end.

(** [Some None] for a return value of -1. *)
Definition copy_path_for_node (v : vfs) (i : nat) : option (option (list Z)) :=
  if bool_decide (root_node v = Some i) then Some (Some [SLASH])
  else
    parts ← path_parts 32 v (Some i);
    if (length parts =? 0)%nat || (32 <=? length parts)%nat then Some None
    else Some (join_parts [] (rev parts)).

(** The entry with its offset and size, and the context; [image] is NULL and
    [image_size] its length for the only caller. *)
Definition copy_file_data (image_size : Z) (n : vnode) (e : tfs_entry) (c : collect_ctx)
    : option (tfs_entry * collect_ctx) :=
  if n_size n =? 0 then
    Some (Entry (e_type e) (e_mode e) (e_uid e) (e_gid e) 0 (c_cursor c) (e_mtime e) (e_path e), c)
  else
    let e_nd := u64 (c_cursor c + n_size n) in
    if (image_size <? e_nd) || negb (match n_data n with Some _ => true | None => false end)
    then Some (e, fail c)
    else None.

Definition under_pseudo (path : list Z) : bool :=
  bytes_eq path (str "/dev") || bytes_eq (take 5 path) (str "/dev/") ||
  bytes_eq path (str "/proc") || bytes_eq (take 6 path) (str "/proc/").

(** [vfs_list] with the callback [collect_node]; [fuel] bounds the depth. *)
Fixpoint collect_node (fuel : nat) (v : vfs) (i : nat) (c : collect_ctx) : option collect_ctx :=
  match fuel with
  | O => None
  | S f =>
    let vfs_list_collect c :=
      kids ← vfs_list (Some i) v;
      foldl (fun c k => c ← c; collect_node f v k c) (Some c) kids in
    if c_failed c then Some c
    else
      n ← nodes v !! i;
      path ← copy_path_for_node v i;
      match path with
      | None => Some (fail c)
      | Some path =>
        if under_pseudo path then
          if n_type n =? VFS_NODE_DIR then vfs_list_collect c else Some c
        else if negb (n_type n =? VFS_NODE_DIR) && negb (n_type n =? VFS_NODE_FILE) then Some c
        else if TFS_MAX_ENTRIES <=? Z.of_nat (length (c_entries c)) then Some (fail c)
        else
          let e := Entry (if n_type n =? VFS_NODE_DIR then TFS_ENTRY_DIR else TFS_ENTRY_FILE)
                         (Z.land (n_mode n) 0xfff) (n_uid n) (n_gid n) 0 0 (n_modified n)
                         (take 255 path) in
          '(e, c) ← (if n_type n =? VFS_NODE_FILE then copy_file_data 0 n e c else Some (e, c));
          let c := Ctx (c_entries c ++ [e]) (c_cursor c) (c_failed c) in
          if n_type n =? VFS_NODE_DIR then vfs_list_collect c else Some c
      end
  end.

(** [vfs_list(vfs_root(), collect_node, &ctx)] *)
Definition collect_tree (v : vfs) (c : collect_ctx) : option collect_ctx :=
  kids ← vfs_list (vfs_root v) v;
  foldl (fun c k => c ← c; collect_node (S (length (nodes v))) v k c) (Some c) kids.

Section Tfs.
Context {D : Type} {BL : BlockLayer D} (kmalloc_ok : Z -> bool).

(** ** Writing the image *)

Definition write_image_to_disk (image : list Z) (image_size : Z) (t : tfs) (d : D) : option (tfs * D * Z) :=
  let rounded := Z.land (u64 (image_size + TFS_SECTOR_SIZE - 1)) (u64 (Z.lnot (TFS_SECTOR_SIZE - 1))) in
  image ← (if image_size <? rounded
           then put image image_size (zeros (rounded - image_size)) else Some image);
  data ← slice image 0 rounded;
  let '(d, rc) := block_write_lba28 d (persistent_device t) (u32 (persistent_start_lba t)) data in
  if rc <? 0 then Some (t, d, -1)
  else Some (set_image_size t rounded, block_sync d (persistent_device t), 0).

(** Streaming one file's bytes, a sector at a time. *)
Fixpoint stream_loop (fuel : nat) (t : tfs) (file_offset : Z) (ptr : list Z) (d : D) : option D :=
  match fuel with
  | O => None
  | S f =>
    match ptr with
    | [] => Some d
    | _ =>
      let chunk := take 512 ptr in
      let abs_lba := u64 (persistent_start_lba t + file_offset / TFS_SECTOR_SIZE) in
      let '(d, rc) := block_write_lba28 d (persistent_device t) (u32 abs_lba) (pad 512 chunk) in
      if rc <? 0 then Some d
      else stream_loop f t (u64 (file_offset + Z.of_nat (length chunk))) (drop 512 ptr) d
    end
  end.

Definition stream_file (t : tfs) (v : vfs) (e : tfs_entry) (d : D) : option D :=
  if negb (e_type e =? TFS_ENTRY_FILE) || (e_size e =? 0) then Some d
  else
    node ← vfs_lookup (Some (e_path e)) (Some [SLASH]) v;
    match node with
    | None => Some d
    | Some i =>
      n ← nodes v !! i;
      match n_data n with
      | None => Some d
      | Some data => bytes ← slice data 0 (e_size e);
                     stream_loop (S (length bytes)) t (e_offset e) bytes d
      end
    end.

(** The header buffer once the tree is collected. *)
Definition table_buffer (entries : list tfs_entry) : list Z :=
  let data_offset := align_up64 (TFS_TABLE_ALIGN + TFS_MAX_ENTRIES * ENTRY_SIZE) TFS_TABLE_ALIGN in
  pad (TFS_TABLE_ALIGN + TFS_MAX_ENTRIES * ENTRY_SIZE + TFS_SECTOR_SIZE)
    (pad TFS_TABLE_ALIGN
       (header_bytes (Header TFS_MAGIC TFS_VERSION (Z.of_nat (length entries)) TFS_TABLE_ALIGN data_offset))
     ++ concat (map entry_bytes entries)).

Definition tfs_sync (t : tfs) (v : vfs) (d : D) : option (tfs * D * Z) :=
  if negb (persistent_enabled t) then Some (t, d, 0)
  else if bytes_eq (persistent_device t) [] then Some (t, d, 0)
  else if sync_in_progress t then Some (t, d, 0)
  else if negb (block_device_find d (persistent_device t)) then Some (t, d, -1)
  else
    let t := set_progress t true in
    if negb (kmalloc_ok (TFS_TABLE_ALIGN + TFS_MAX_ENTRIES * ENTRY_SIZE + TFS_SECTOR_SIZE))
    then Some (set_progress t false, d, -1)
    else
      let data_offset := align_up64 (TFS_TABLE_ALIGN + TFS_MAX_ENTRIES * ENTRY_SIZE) TFS_TABLE_ALIGN in
      ctx ← collect_tree v (Ctx [] data_offset false);
      if c_failed ctx then Some (set_progress t false, d, -1)
      else
        let final_size := align_up64 (c_cursor ctx) TFS_SECTOR_SIZE in
        let final_size := if final_size <? data_offset then data_offset else final_size in
        '(t, d, rc) ← write_image_to_disk (table_buffer (c_entries ctx)) data_offset t d;
        if negb (rc =? 0) then Some (set_progress t false, d, rc)
        else
          d ← foldl (fun d e => d ← d; stream_file t v e d) (Some d) (c_entries ctx);
          let d := block_sync d (persistent_device t) in
          Some (set_progress (set_image_size t final_size) false, d, 0).

Definition tfs_is_persistent (t : tfs) : bool := persistent_enabled t.

Definition tfs_set_auto_sync (enabled : bool) (t : tfs) : tfs :=
  set_enabled t (persistent_enabled t) enabled.

(** What each change of the tree calls. *)
Definition tfs_sync_if_mounted (t : tfs) (v : vfs) (d : D) : option (tfs * D * Z) :=
  if negb (persistent_enabled t) || negb (auto_sync_enabled t) || sync_in_progress t
  then Some (t, d, 0) else tfs_sync t v d.

(** ** Mounting an image *)

(** What a file entry leaves in its node; [false] when the allocation failed,
    after the attributes were stored. *)
Definition mount_file (image : list Z) (borrowed : bool) (e : tfs_entry) (i : nat) (v : vfs)
    : option (vfs * bool) :=
  v ← update v i (fun n => set_modified (set_data (set_attrs n
        (Z.lor VFS_S_IFREG (Z.land (e_mode e) 0xfff)) (e_uid e) (e_gid e))
        (n_data n) (n_borrowed n) (e_size e)) (e_mtime e));
  if e_size e =? 0 then Some (v, true)
  else if borrowed then
    v ← update v i (fun n => set_data n (Some (drop (Z.to_nat (e_offset e)) image)) true (n_size n));
    Some (v, true)
  else if negb (kmalloc_ok (u64 (e_size e + 1))) then Some (v, false)
  else
    bytes ← slice image (e_offset e) (e_size e);
    v ← update v i (fun n => set_data n (Some (bytes ++ [0])) false (n_size n));
    Some (v, true).

(** One entry of the table; [(v, false)] when the mount stops with -1. *)
Definition mount_entry (image : list Z) (borrowed : bool) (e : tfs_entry) (v : vfs) : option (vfs * bool) :=
  if bytes_eq (e_path e) [] || bytes_eq (e_path e) [SLASH] then Some (v, true)
  else if e_type e =? TFS_ENTRY_DIR then
    '(v, _) ← vfs_mkdir (Some (e_path e)) (Some [SLASH]) (Z.lor VFS_S_IFDIR (Z.land (e_mode e) 0xfff))
                        (e_uid e) (e_gid e) v;
    Some (v, true)
  else if e_type e =? TFS_ENTRY_FILE then
    if Z.of_nat (length image) <? u64 (e_offset e + e_size e) then Some (v, false)
    else
      '(v, _) ← vfs_create_file (Some (e_path e)) (Some [SLASH])
                  (Z.lor VFS_S_IFREG (Z.land (e_mode e) 0xfff)) (e_uid e) (e_gid e) v;
      node ← vfs_lookup (Some (e_path e)) (Some [SLASH]) v;
      match node with
      | None => Some (v, true)
      | Some i => mount_file image borrowed e i v
      end
  else Some (v, true).

Fixpoint mount_loop (n : nat) (image : list Z) (borrowed : bool) (o : Z) (v : vfs) : option (vfs * Z) :=
  match n with
  | O => Some (v, 0)
  | S n =>
    e ← entry_at image o;
    '(v, go) ← mount_entry image borrowed e v;
    if (go : bool) then mount_loop n image borrowed (o + ENTRY_SIZE) v else Some (v, -1)
  end.

Definition header_ok (h : tfs_header) : bool :=
  bytes_eq (h_magic h) TFS_MAGIC && (h_version h =? TFS_VERSION).

(** [image] has [size] bytes. *)
Definition mount_entries_from_memory (image : list Z) (borrowed : bool) (v : vfs) : option (vfs * Z) :=
  let size := Z.of_nat (length image) in
  if size <? HEADER_SIZE then Some (v, -1)
  else
    h ← header_at image;
    if negb (header_ok h) then Some (v, -1)
    else if size <? u64 (h_entries_offset h + h_entry_count h * ENTRY_SIZE) then Some (v, -1)
    else mount_loop (Z.to_nat (h_entry_count h)) image borrowed (h_entries_offset h) v.

Definition tfs_mount_image (image : list Z) (t : tfs) (v : vfs) : option (tfs * vfs * Z) :=
  '(v, rc) ← mount_entries_from_memory image true v; Some (set_enabled t false false, v, rc).

(** The end of the last file of the table. *)
Fixpoint max_end_loop (n : nat) (table : list Z) (o : Z) (max_end : Z) : option Z :=
  match n with
  | O => Some max_end
  | S n =>
    type ← get 4 table o; offset ← get 8 table (o + 24); size ← get 8 table (o + 16);
    let e_nd := u64 (offset + size) in
    max_end_loop n table (o + ENTRY_SIZE)
      (if (type =? TFS_ENTRY_FILE) && (max_end <? e_nd) then e_nd else max_end)
  end.

Definition tfs_mount_disk (device : cstr) (start_lba : Z) (t : tfs) (v : vfs) (d : D)
    : option (tfs * vfs * D * Z) :=
  match device with
  | None | Some [] => Some (t, v, d, -1)
  | Some device =>
    let '(d, r) := block_read d device start_lba TFS_SECTOR_SIZE in
    match r with
    | None => Some (t, v, d, -1)
    | Some sector =>
      h ← header_at sector;
      if negb (header_ok h) then Some (t, v, d, -1)
      else if (TFS_MAX_ENTRIES <? h_entry_count h) || (TFS_SYNC_BUFFER_MAX <? h_entries_offset h)
              || (TFS_SYNC_BUFFER_MAX <? h_data_offset h) then Some (t, v, d, -1)
      else
        let entries_bytes := h_entry_count h * ENTRY_SIZE in
        let entries_end := h_entries_offset h + entries_bytes in
        if negb (kmalloc_ok (if entries_bytes =? 0 then 1 else entries_bytes)) then Some (t, v, d, -1)
        else
          let '(d, r) := if entries_bytes =? 0 then (d, Some [])
                         else block_read d device (u64 (start_lba + h_entries_offset h / TFS_SECTOR_SIZE))
                                         entries_bytes in
          match r with
          | None => Some (t, v, d, -1)
          | Some table =>
            max_end ← max_end_loop (Z.to_nat (h_entry_count h)) table 0 entries_end;
            let image_size := Z.land (u64 (max_end + TFS_SECTOR_SIZE - 1))
                                     (u64 (Z.lnot (TFS_SECTOR_SIZE - 1))) in
            let image_size := if image_size <? h_data_offset h then h_data_offset h else image_size in
            if TFS_SYNC_BUFFER_MAX <? image_size then Some (t, v, d, -1)
            else if negb (kmalloc_ok image_size) then Some (t, v, d, -1)
            else
              let '(d, r) := block_read d device start_lba image_size in
              match r with
              | None => Some (t, v, d, -1)
              | Some image =>
                let t := set_enabled t false false in
                '(v, rc) ← mount_entries_from_memory image false v;
                if rc <? 0 then Some (t, v, d, -1)
                else Some (Tfs true true (sync_in_progress t) (field 15 device) start_lba image_size, v, d, 0)
              end
          end
    end
  end.

(** ** Finding the root partition *)

(** The first LBA of the second partition; the result is the return value and
    [*out_lba]. *)
Definition gpt_find_root_lba (device : list Z) (d : D) : option (D * option Z) :=
  let '(d, r) := block_read d device 1 TFS_SECTOR_SIZE in
  match r with
  | None => Some (d, None)
  | Some sector =>
    signature ← slice sector 0 8; entry_lba ← get 8 sector 72;
    num ← get 4 sector 80; entry_size ← get 4 sector 84;
    if negb (bytes_eq signature (str "EFI PART")) then Some (d, None)
    else if (entry_size <? 128) || (num <? 2) then Some (d, None)
    else if (entry_size =? 0) || (TFS_SECTOR_SIZE <? entry_size) then Some (d, None)
    else
      let entry_sector_lba := u64 (entry_lba + entry_size / TFS_SECTOR_SIZE) in
      let entry_offset_in_sector := entry_size mod TFS_SECTOR_SIZE in
      let '(d, r) := block_read d device entry_sector_lba TFS_SECTOR_SIZE in
      match r with
      | None => Some (d, None)
      | Some entries_sector =>
        if TFS_SECTOR_SIZE <? entry_offset_in_sector + entry_size then Some (d, None)
        else
          first_lba ← get 8 entries_sector (entry_offset_in_sector + 32);
          if first_lba =? 0 then Some (d, None) else Some (d, Some first_lba)
      end
  end.

Definition candidates : list (list Z) := [str "sda"; str "sdb"; str "sdc"; str "sdd"].

Definition root_lba (device : list Z) (d : D) : option (D * Z) :=
  '(d, r) ← gpt_find_root_lba device d; Some (d, default TFS_DEFAULT_ROOT_LBA r).

Fixpoint mount_installed_loop (devs : list (list Z)) (t : tfs) (v : vfs) (d : D) : option (tfs * vfs * D * Z) :=
  match devs with
  | [] => Some (t, v, d, -1)
  | dev :: devs =>
    if negb (block_device_find d dev) then mount_installed_loop devs t v d
    else
      '(d, lba) ← root_lba dev d;
      '(t, v, d, rc) ← tfs_mount_disk (Some dev) lba t v d;
      if rc =? 0 then Some (t, v, d, 0) else mount_installed_loop devs t v d
  end.

Definition tfs_mount_installed_root : tfs -> vfs -> D -> option (tfs * vfs * D * Z) :=
  mount_installed_loop candidates.

Fixpoint attach_loop (devs : list (list Z)) (t : tfs) (v : vfs) (d : D) : option (tfs * D * Z) :=
  match devs with
  | [] => Some (t, d, -1)
  | dev :: devs =>
    if negb (block_device_find d dev) then attach_loop devs t v d
    else
      '(d, lba) ← root_lba dev d;
      let '(d, r) := block_read d dev lba TFS_SECTOR_SIZE in
      match r with
      | None => attach_loop devs t v d
      | Some _ =>
        '(t, d, _) ← tfs_sync (Tfs true true (sync_in_progress t) (field 15 dev) lba 0) v d;
        Some (t, d, 0)
      end
  end.

Definition tfs_attach_persistent_disk (t : tfs) (v : vfs) (d : D) : option (tfs * D * Z) :=
  if persistent_enabled t then Some (t, d, 0) else attach_loop candidates t v d.

End Tfs.
