(* ===== verification/TfsProofs.v ===== *)
(** * Properties of kernel/fs/tfs.c

    What [Tfs.v] does with the trees of [VfsTree.v]: which trees a sync saves,
    that an image that was written is read back entry by entry, and that mounting
    any image keeps the tree and its buffers sound. *)
From S2P Require Import Prelude Buf KString Printf Vfs VfsTree Tfs.

(** ** Depth of a tree *)

Lemma vfs_list_run v ch i n : wf v ch -> nodes v !! i = Some n -> vfs_list (Some i) v = Some (ch i).
Proof.
  intros W Hi. pose proof (wf_chain v ch W i n Hi) as Hc. unfold vfs_list. rewrite Hi, bind_some.
  destruct (Z.eqb_spec (n_type n) VFS_NODE_DIR) as [Ht|Ht]; cbn [negb].
  - apply list_loop_spec; [|done]. pose proof (chain_length _ _ _ Hc (wf_nodup v ch W i)). lia.
  - destruct (ch i) as [|k l] eqn:E; [done|]. exfalso.
    destruct (wf_kids v ch W i k) as (_ & _ & p & Hp & Hpt); [rewrite E; left|]. congruence.
Qed.

Lemma walk_prefix ns ch P Q i k : walk ns ch i (P ++ Q) = Some k -> exists j, walk ns ch i P = Some j.
Proof. rewrite walk_app. destruct (walk ns ch i P); [by eexists|done]. Qed.

(** The nodes on the way to a node are different. *)
Lemma walk_depth v ch P i : wf v ch -> walk (nodes v) ch 0 P = Some i -> (length P < length (nodes v))%nat.
Proof.
  intros W HP.
  assert (exists l, (forall j, j ∈ l -> exists Q, (length Q <= length P)%nat /\
            walk (nodes v) ch 0 Q = Some j) /\ NoDup l /\ length l = S (length P)) as (l & Hl & Hnd & Hlen).
  { revert i HP. induction P as [|c P IH] using rev_ind; intros i HP.
    - exists [0%nat]. split; [|split; [apply NoDup_singleton|done]].
      intros j ->%list_elem_of_singleton. by exists [].
    - pose proof HP as HP2. rewrite walk_snoc in HP2.
      destruct (walk (nodes v) ch 0 P) as [p|] eqn:E; [|done]. destruct (IH p eq_refl) as (l & Hl & Hnd & Hlen).
      exists (i :: l). rewrite length_app. cbn [length]. split; [|split; [|lia]].
      + intros j [->|Hj]%elem_of_cons; [exists (P ++ [c]); rewrite length_app; cbn [length]; by split; [lia|]|].
        destruct (Hl j Hj) as (Q & HQ & Hw). exists Q. split; [lia|done].
      + constructor; [|done]. intros Hj. destruct (Hl i Hj) as (Q & HQ & Hw).
        pose proof (walk_unique v ch W _ _ _ Hw HP) as ->. rewrite length_app in HQ. cbn [length] in HQ. lia. }
  assert (l ⊆ seq 0 (length (nodes v))) as Hs.
  { intros j Hj. destruct (Hl j Hj) as (Q & _ & Hw).
    destruct (walk_valid v ch Q 0 j W) as [n Hn]; [by apply (wf_root_lookup v ch)|done|].
    apply lookup_lt_Some in Hn. apply elem_of_seq. lia. }
  pose proof (submseteq_length l (seq 0 (length (nodes v))) ltac:(by apply NoDup_submseteq)) as H.
  rewrite length_seq in H. lia.
Qed.

(** ** Paths of nodes *)

Lemma take_rev_snoc (P : list (list Z)) c k : take (S k) (rev (P ++ [c])) = c :: take k (rev P).
Proof. by rewrite rev_app_distr. Qed.

Lemma path_parts_spec v ch : wf v ch -> forall room P i, walk (nodes v) ch 0 P = Some i ->
  path_parts room v (Some i) = Some (take room (rev P)).
Proof.
  intros W. induction room as [|room IH]; intros P i HP; [done|]. cbn [path_parts].
  destruct (wf_root v ch W) as (Hroot & r & Hr & _). rewrite Hroot.
  destruct P as [|c P _] using rev_ind.
  - injection HP as <-. by rewrite bool_decide_eq_true_2.
  - rewrite bool_decide_eq_false_2.
    + rewrite walk_snoc in HP. destruct (walk (nodes v) ch 0 P) as [p|] eqn:E; [|done]. rewrite bind_some in HP.
      apply child_in in HP as [Hk Hn]. unfold name_of in Hn.
      destruct (nodes v !! i) as [n|] eqn:Ei; [|done]. injection Hn as Hn. rewrite bind_some.
      rewrite (wf_up v ch W p i n Hk Ei), (IH P p E), bind_some, take_rev_snoc. by rewrite Hn.
    + intros [= <-]. pose proof (walk_unique v ch W (P ++ [c]) [] 0 HP eq_refl) as E. by destruct P.
Qed.

Lemma join_parts_some parts : forall out r, join_parts out parts = Some r ->
  r = out ++ concat (map (cons SLASH) parts).
Proof.
  induction parts as [|p parts IH]; intros out r; cbn [join_parts map concat].
  - intros [= <-]. by rewrite app_nil_r.
  - destruct (_ <=? _); [done|]. intros ->%IH. by rewrite <- !app_assoc.
Qed.

(** The path [collect_node] works with is the one that leads to the node. *)
Lemma copy_path_spec v ch P i : wf v ch -> walk (nodes v) ch 0 P = Some i ->
  exists r, copy_path_for_node v i = Some r /\ (r = None \/ r = Some (path_of P)).
Proof.
  intros W HP. unfold copy_path_for_node. destruct (wf_root v ch W) as (Hroot & _). rewrite Hroot.
  destruct P as [|c P].
  { injection HP as <-. rewrite bool_decide_eq_true_2 by done. eexists. split; [done|by right]. }
  rewrite bool_decide_eq_false_2.
  2: { intros [= <-]. by pose proof (walk_unique v ch W (c :: P) [] 0 HP eq_refl). }
  rewrite (path_parts_spec v ch W 32 (c :: P) i HP), bind_some.
  destruct (_ || _) eqn:E; [eexists; split; [done|by left]|].
  eexists. split; [done|]. apply orb_false_elim in E as [_ E%Nat.leb_gt].
  rewrite length_take in E. rewrite take_ge, rev_involutive by lia.
  destruct (join_parts [] (c :: P)) as [r|] eqn:Er; [|by left]. right.
  apply join_parts_some in Er as ->. done.
Qed.

(** ** What a sync saves *)

(** A node whose contents [tfs_sync] does not have to store. *)
Definition no_contents (v : vfs) (P : list (list Z)) (i : nat) : Prop :=
  forall n, nodes v !! i = Some n -> n_type n = VFS_NODE_FILE -> under_pseudo (path_of P) = false ->
  n_size n = 0.

Section Collect.
Context (v : vfs) (ch : nat -> list nat) (W : wf v ch).
Context (Hsmall : forall i n, nodes v !! i = Some n -> 0 <= n_size n < 2 ^ 63).

(** The context after a node and what is below it. *)
Definition collected (P : list (list Z)) (i : nat) (c c' : collect_ctx) : Prop :=
  c_cursor c' = c_cursor c /\ (c_failed c = true -> c' = c) /\
  (c_failed c' = false -> forall Q k, walk (nodes v) ch i Q = Some k -> no_contents v (P ++ Q) k).

Lemma collect_kids f P i n : nodes v !! i = Some n -> walk (nodes v) ch 0 P = Some i ->
  (forall k c a, a ∈ ch i -> name_of (nodes v) a = Some k -> 0 < c_cursor c < 2 ^ 63 ->
     exists c', collect_node f v a c = Some c' /\ collected (P ++ [k]) a c c') ->
  forall l c, l ⊆ ch i -> 0 < c_cursor c < 2 ^ 63 ->
  exists c', foldl (fun c k => c ← c; collect_node f v k c) (Some c) l = Some c' /\
    c_cursor c' = c_cursor c /\ (c_failed c = true -> c' = c) /\
    (c_failed c' = false -> forall a k Q j, a ∈ l -> name_of (nodes v) a = Some k ->
       walk (nodes v) ch a Q = Some j -> no_contents v (P ++ k :: Q) j).
Proof.
  intros Hi HP Hone. induction l as [|a l IH]; intros c Hl Hc.
  { exists c. split_and!; try done. intros _ a k Q j Ha%elem_of_nil. done. }
  cbn [foldl]. rewrite bind_some.
  assert (a ∈ ch i) as Ha by (apply Hl; left).
  destruct (wf_kids v ch W i a Ha) as (_ & [na Hna]%lookup_lt_is_Some & _).
  assert (name_of (nodes v) a = Some (n_name na)) as Hname by (unfold name_of; by rewrite Hna).
  destruct (Hone (n_name na) c a Ha Hname Hc) as (c1 & -> & Hc1 & Hf1 & Hs1).
  destruct (IH c1) as (c2 & E2 & Hc2 & Hf2 & Hs2); [intros x Hx; apply Hl; by right|by rewrite Hc1|].
  exists c2. split; [done|]. split; [congruence|]. split.
  - intros Hf. pose proof (Hf1 Hf) as ->. by apply Hf2.
  - intros Hf b k Q j [->|Hb]%elem_of_cons Hk Hw; [|by apply (Hs2 Hf b k Q j)].
    rewrite Hname in Hk. injection Hk as <-.
    replace (P ++ n_name na :: Q) with ((P ++ [n_name na]) ++ Q) by (by rewrite <- app_assoc).
    apply Hs1; [|done]. destruct (c_failed c1) eqn:E; [|done]. pose proof (Hf2 eq_refl). congruence.
Qed.

(** A directory, once its children were collected. *)
Lemma collected_dir P i n c c' : nodes v !! i = Some n -> walk (nodes v) ch 0 P = Some i ->
  c_failed c = false -> n_type n = VFS_NODE_DIR ->
  (c_failed c' = false -> forall a k Q j, a ∈ ch i -> name_of (nodes v) a = Some k ->
       walk (nodes v) ch a Q = Some j -> no_contents v (P ++ k :: Q) j) ->
  c_cursor c' = c_cursor c -> collected P i c c'.
Proof.
  intros Hi HP Hf Ht Hs Hc. split; [done|]. split; [congruence|]. intros Hf' [|k Q] j Hw.
  - injection Hw as <-. intros n' Hn'. rewrite Hi in Hn'. injection Hn' as <-. rewrite Ht. done.
  - cbn [walk] in Hw. destruct (child (nodes v) ch i k) as [a|] eqn:Ea; [|done]. rewrite bind_some in Hw.
    apply child_in in Ea as [Ha Hn]. by apply (Hs Hf' a k Q j).
Qed.

(** A node that is no directory is alone. *)
Lemma collected_leaf P i n c c' : nodes v !! i = Some n -> n_type n <> VFS_NODE_DIR ->
  c_failed c = false -> c_cursor c' = c_cursor c ->
  (c_failed c' = false -> no_contents v P i) -> collected P i c c'.
Proof.
  intros Hi Ht Hf Hc Hs. split; [done|]. split; [congruence|]. intros Hf' [|k Q] j Hw.
  - injection Hw as <-. rewrite app_nil_r. by apply Hs.
  - cbn [walk] in Hw. destruct (child (nodes v) ch i k) as [a|] eqn:Ea; [|done].
    apply child_in in Ea as [Ha _]. destruct (wf_kids v ch W i a Ha) as (_ & _ & p & Hp & Hpt). congruence.
Qed.

Lemma collected_failed P i c c' : c_cursor c' = c_cursor c -> c_failed c = false -> c_failed c' = true ->
  collected P i c c'.
Proof. intros. split; [done|]. split; congruence. Qed.

Lemma collect_node_spec : forall f P i c, walk (nodes v) ch 0 P = Some i ->
  (length (nodes v) < f + length P)%nat -> 0 < c_cursor c < 2 ^ 63 ->
  exists c', collect_node f v i c = Some c' /\ collected P i c c'.
Proof.
  induction f as [|f IH]; intros P i c HP Hf Hc.
  { pose proof (walk_depth v ch P i W HP). lia. }
  cbn [collect_node]. destruct (c_failed c) eqn:Hfail.
  { exists c. split; [done|]. split; [done|]. split; [done|]. congruence. }
  destruct (walk_valid v ch P 0 i W) as [n Hi]; [by apply (wf_root_lookup v ch)|done|].
  rewrite Hi, bind_some. destruct (copy_path_spec v ch P i W HP) as (r & -> & Hr). rewrite bind_some.
  destruct Hr as [->| ->]. { eexists. split; [done|]. by apply collected_failed. }
  rewrite (vfs_list_run v ch i n W Hi), !bind_some.
  assert (forall k c a, a ∈ ch i -> name_of (nodes v) a = Some k -> 0 < c_cursor c < 2 ^ 63 ->
     exists c', collect_node f v a c = Some c' /\ collected (P ++ [k]) a c c') as Hone.
  { intros k c1 a Ha Hk Hc1. apply IH; [|rewrite length_app; cbn [length]; lia|done].
    rewrite walk_snoc, HP. by apply child_intro. }
  pose proof (fun c => collect_kids f P i n Hi HP Hone (ch i) c (reflexivity _)) as Hkids.
  destruct (under_pseudo (path_of P)) eqn:Hps.
  { destruct (Z.eqb_spec (n_type n) VFS_NODE_DIR) as [Ht|Ht].
    - destruct (Hkids c Hc) as (c' & -> & H1 & _ & H3). exists c'. split; [done|].
      by eapply collected_dir.
    - exists c. split; [done|]. eapply collected_leaf; try done. intros _ n' _ _ H. congruence. }
  destruct (Z.eqb_spec (n_type n) VFS_NODE_DIR) as [Ht|Ht]; cbn [negb andb].
  - assert ((n_type n =? VFS_NODE_FILE) = false) as -> by (by rewrite Ht).
    destruct (_ <=? _); [eexists; split; [done|]; by apply collected_failed|].
    rewrite !bind_some. match goal with |- context [Some (Ctx ?a ?b ?x)] =>
      destruct (Hkids (Ctx a b x) Hc) as (c' & -> & H1 & _ & H3) end.
    exists c'. split; [done|]. by eapply collected_dir.
  - destruct (Z.eqb_spec (n_type n) VFS_NODE_FILE) as [Htf|Htf]; cbn [negb].
    2: { exists c. split; [done|]. eapply collected_leaf; try done. intros _ n' Hn'. congruence. }
    destruct (_ <=? _); [eexists; split; [done|]; by apply collected_failed|].
    unfold copy_file_data. destruct (Z.eqb_spec (n_size n) 0) as [Hz|Hz].
    + rewrite bind_some. eexists. split; [done|]. eapply collected_leaf; try done.
      intros _ n' Hn'. congruence.
    + cbv zeta. pose proof (Hsmall i n Hi). rewrite u64_small by lia.
      rewrite (proj2 (Z.ltb_lt _ _)) by lia. cbn [orb]. rewrite bind_some. eexists. split; [done|].
      by apply collected_failed.
Qed.

(** The collection of a whole tree always returns; it fails when a file outside
    [/dev] and [/proc] has contents. *)
Lemma collect_tree_spec c : 0 < c_cursor c < 2 ^ 63 -> c_failed c = false ->
  exists c', collect_tree v c = Some c' /\ c_cursor c' = c_cursor c /\
    (c_failed c' = false -> forall P k, P <> [] -> walk (nodes v) ch 0 P = Some k -> no_contents v P k).
Proof.
  intros Hc Hf. unfold collect_tree, vfs_root. destruct (wf_root v ch W) as (-> & r & Hr & _).
  rewrite (vfs_list_run v ch 0 r W Hr), bind_some.
  destruct (collect_kids (S (length (nodes v))) [] 0 r Hr eq_refl) with (l := ch 0%nat) (c := c)
    as (c' & -> & H1 & _ & H3); [|done|done|].
  - intros k c1 a Ha Hk Hc1. apply collect_node_spec; [|cbn [length app]; lia|done].
    cbn [walk app]. rewrite (child_intro v ch 0 k a W Ha Hk). done.
  - exists c'. split; [done|]. split; [done|]. intros Hf' [|k P] j Hne Hw; [done|].
    cbn [walk] in Hw. destruct (child (nodes v) ch 0 k) as [a|] eqn:Ea; [|done]. rewrite bind_some in Hw.
    apply child_in in Ea as [Ha Hn]. by apply (H3 Hf' a k P j).
Qed.

End Collect.

(** ** The entry table *)

(** An entry that fits the fields of the structure. *)
Definition entry_fits (e : tfs_entry) : Prop :=
  0 <= e_type e < 2 ^ 32 /\ 0 <= e_mode e < 2 ^ 32 /\ 0 <= e_uid e < 2 ^ 32 /\ 0 <= e_gid e < 2 ^ 32 /\
  0 <= e_size e < 2 ^ 64 /\ 0 <= e_offset e < 2 ^ 64 /\ 0 <= e_mtime e < 2 ^ 64 /\
  (length (e_path e) <= 255)%nat /\ Forall (fun c => c <> 0) (e_path e).

Lemma zeros_S n : 0 < n -> zeros n = 0 :: zeros (n - 1).
Proof.
  intros H. unfold zeros. replace (Z.to_nat n) with (S (Z.to_nat (n - 1))) by lia. done.
Qed.

Lemma length_entry_bytes e : Z.of_nat (length (entry_bytes e)) = ENTRY_SIZE.
Proof.
  unfold entry_bytes. rewrite !length_app, !length_le_bytes, length_pad.
  - done.
  - rewrite length_take. unfold TFS_PATH_MAX. lia.
Qed.

(** Reading a field of a structure written field by field. *)
Ltac read_field :=
  match goal with |- get _ ?l _ = _ => unfold l end;
  repeat (erewrite get_skip; [|rewrite ?length_le_bytes; reflexivity|lia]);
  match goal with |- get _ _ ?o = _ => replace o with 0 by lia end;
  rewrite get_here; f_equal; by apply Z.mod_small.

Lemma entry_at_here e post : entry_fits e -> entry_at (entry_bytes e ++ post) 0 = Some e.
Proof.
  intros (H1 & H2 & H3 & H4 & H5 & H6 & H7 & Hl & Hn). unfold entry_at, entry_bytes.
  rewrite <- !app_assoc. set (l := le_bytes 4 (e_type e) ++ _).
  assert (get 4 l 0 = Some (e_type e)) as -> by read_field.
  assert (get 4 l (0 + 4) = Some (e_mode e)) as -> by read_field.
  assert (get 4 l (0 + 8) = Some (e_uid e)) as -> by read_field.
  assert (get 4 l (0 + 12) = Some (e_gid e)) as -> by read_field.
  assert (get 8 l (0 + 16) = Some (e_size e)) as -> by read_field.
  assert (get 8 l (0 + 24) = Some (e_offset e)) as -> by read_field.
  assert (get 8 l (0 + 32) = Some (e_mtime e)) as -> by read_field.
  assert (cstr_at_off l (0 + 40) = Some (e_path e)) as ->; [|by destruct e].
  assert (Z.of_nat (length l) = 40 + TFS_PATH_MAX + Z.of_nat (length post)) as Hlen.
  { unfold l. rewrite !length_app, !length_le_bytes, length_pad by (rewrite length_take; unfold TFS_PATH_MAX; lia).
    unfold TFS_PATH_MAX. lia. }
  unfold cstr_at_off. rewrite Hlen. unfold TFS_PATH_MAX in *.
  rewrite (proj2 (Z.leb_le (0 + 40) _)) by lia. cbn [andb Z.leb Z.compare Z.add].
  change (Z.to_nat 40) with 40%nat. unfold l. rewrite !app_assoc. rewrite <- (app_assoc _ (pad _ _)).
  rewrite drop_app_length' by (by rewrite !length_app, !length_le_bytes).
  unfold pad. rewrite take_ge by done. rewrite <- app_assoc, zeros_S by lia.
  cbn [app]. by rewrite cstr_of_app.
Qed.

Lemma entry_at_skip pre l o : 0 <= o -> entry_at (pre ++ l) (Z.of_nat (length pre) + o) = entry_at l o.
Proof.
  intros Ho. unfold entry_at. unfold get. rewrite <- !Z.add_assoc, !slice_skip by lia.
  assert (cstr_at_off (pre ++ l) (Z.of_nat (length pre) + (o + 40)) = cstr_at_off l (o + 40)) as ->; [|done].
  unfold cstr_at_off. rewrite length_app, Nat2Z.inj_add.
  rewrite (proj2 (Z.leb_le 0 (_ + _))) by lia. rewrite (proj2 (Z.leb_le 0 (o + 40))) by lia. cbn [andb].
  destruct (Z.leb_spec (Z.of_nat (length pre) + (o + 40)) (Z.of_nat (length pre) + Z.of_nat (length l))),
    (Z.leb_spec (o + 40) (Z.of_nat (length l))); try lia; [|done].
  rewrite Z2Nat.inj_add, Nat2Z.id by lia. by rewrite <- drop_drop, drop_app_length.
Qed.

(** The mount's loop, on the entries themselves. *)
Fixpoint replay (ok : Z -> bool) (image : list Z) (borrowed : bool) (es : list tfs_entry) (v : vfs)
    : option (vfs * Z) :=
  match es with
  | [] => Some (v, 0)
  | e :: es => '(v, go) ← mount_entry ok image borrowed e v;
               if (go : bool) then replay ok image borrowed es v else Some (v, -1)
  end.

Lemma mount_loop_replay ok image borrowed : forall es pre post o v,
  Forall entry_fits es -> image = pre ++ concat (map entry_bytes es) ++ post -> Z.of_nat (length pre) = o ->
  mount_loop ok (length es) image borrowed o v = replay ok image borrowed es v.
Proof.
  induction es as [|e es IH]; intros pre post o v Hf Hi Ho; [done|].
  apply Forall_cons in Hf as [He Hf]. cbn [length mount_loop replay map concat] in *.
  assert (entry_at image o = Some e) as ->.
  { rewrite Hi, <- Ho, <- (Z.add_0_r (Z.of_nat _)), entry_at_skip, <- app_assoc by lia. by apply entry_at_here. }
  rewrite bind_some. destruct (mount_entry ok image borrowed e v) as [[v' [|]]|]; try done.
  rewrite !bind_some. apply (IH (pre ++ entry_bytes e) post); [done| |].
  - by rewrite Hi, <- !app_assoc.
  - rewrite length_app. pose proof (length_entry_bytes e). lia.
Qed.

Lemma concat_entries_length es : Z.of_nat (length (concat (map entry_bytes es))) = Z.of_nat (length es) * ENTRY_SIZE.
Proof.
  induction es as [|e es IH]; [done|]. cbn [map concat length]. rewrite length_app.
  pose proof (length_entry_bytes e). lia.
Qed.

(** What [tfs_sync] puts before the data. *)
Definition table_image (es : list tfs_entry) : list Z := take (Z.to_nat 307200) (table_buffer es).

Lemma header_at_here h post : 0 <= h_version h < 2 ^ 32 -> 0 <= h_entry_count h < 2 ^ 32 ->
  0 <= h_entries_offset h < 2 ^ 64 -> 0 <= h_data_offset h < 2 ^ 64 -> length (h_magic h) = 8%nat ->
  header_at (header_bytes h ++ post) = Some h.
Proof.
  intros H1 H2 H3 H4 Hm. unfold header_at, header_bytes. rewrite <- !app_assoc.
  rewrite (slice_here (h_magic h)) by (by rewrite Hm). rewrite bind_some.
  rewrite !(get_skip _ (h_magic h) _ 8) by (rewrite ?Hm; done). set (l := le_bytes 4 (h_version h) ++ _).
  assert (get 4 l (8 - 8) = Some (h_version h)) as -> by read_field.
  assert (get 4 l (12 - 8) = Some (h_entry_count h)) as -> by read_field.
  assert (get 8 l (16 - 8) = Some (h_entries_offset h)) as -> by read_field.
  assert (get 8 l (24 - 8) = Some (h_data_offset h)) as -> by read_field.
  by destruct h.
Qed.

Lemma take_zeros n k : 0 <= n <= k -> take (Z.to_nat n) (zeros k) = zeros n.
Proof. intros H. unfold zeros. rewrite take_replicate. f_equal. lia. Qed.

Lemma align_data_offset : align_up64 (TFS_TABLE_ALIGN + TFS_MAX_ENTRIES * ENTRY_SIZE) TFS_TABLE_ALIGN = 307200.
Proof. reflexivity. Qed.

Lemma table_image_eq es : Z.of_nat (length es) <= TFS_MAX_ENTRIES ->
  let h := Header TFS_MAGIC TFS_VERSION (Z.of_nat (length es)) TFS_TABLE_ALIGN 307200 in
  table_image es = header_bytes h ++ zeros 4064 ++ concat (map entry_bytes es) ++
                   zeros (303104 - Z.of_nat (length es) * ENTRY_SIZE).
Proof.
  intros Hl h. unfold table_image, table_buffer. rewrite align_data_offset. fold h.
  pose proof (concat_entries_length es) as Hc. unfold TFS_MAX_ENTRIES, ENTRY_SIZE, TFS_TABLE_ALIGN, TFS_SECTOR_SIZE in *.
  assert (length (header_bytes h) = 32%nat) as Hh.
  { unfold header_bytes. rewrite !length_app, !length_le_bytes. done. }
  assert (length (pad 4096 (header_bytes h)) = Z.to_nat 4096) as Hp by (apply length_pad; lia).
  unfold pad at 1. rewrite take_app_ge by (rewrite length_app, Hp; lia).
  rewrite length_app, Hp. replace (Z.to_nat 307200 - _)%nat with (Z.to_nat (303104 - Z.of_nat (length es) * 296)) by lia.
  rewrite take_zeros by lia. unfold pad. rewrite Hh, <- !app_assoc. done.
Qed.

Lemma replay_table ok es borrowed v : Forall entry_fits es -> Z.of_nat (length es) <= TFS_MAX_ENTRIES ->
  mount_entries_from_memory ok (table_image es) borrowed v = replay ok (table_image es) borrowed es v.
Proof.
  intros Hf Hl. pose proof (table_image_eq es Hl) as Ht. cbv zeta in Ht.
  set (h := Header _ _ _ _ _) in Ht.
  pose proof (concat_entries_length es) as Hc.
  assert (length (header_bytes h) = 32%nat) as Hh.
  { unfold header_bytes. rewrite !length_app, !length_le_bytes. done. }
  unfold TFS_MAX_ENTRIES, ENTRY_SIZE in *.
  assert (Z.of_nat (length (table_image es)) = 307200) as Hlen.
  { rewrite Ht, !length_app, !length_zeros, Hh. lia. }
  unfold mount_entries_from_memory. rewrite Hlen.
  assert (header_at (table_image es) = Some h) as ->.
  { rewrite Ht. unfold h. apply header_at_here; cbn [h_version h_entry_count h_entries_offset h_data_offset h_magic];
      unfold TFS_TABLE_ALIGN, TFS_VERSION; try lia. done. }
  rewrite bind_some. change (header_ok h) with true. cbn [negb].
  unfold h at 1 2. cbn [h_entries_offset h_entry_count]. unfold TFS_TABLE_ALIGN, ENTRY_SIZE, HEADER_SIZE.
  rewrite u64_small by lia. rewrite (proj2 (Z.ltb_ge _ _)) by lia. rewrite (proj2 (Z.ltb_ge _ _)) by lia.
  unfold h. cbn [h_entries_offset h_entry_count]. rewrite Nat2Z.id.
  apply (mount_loop_replay ok _ borrowed es (header_bytes h ++ zeros 4064) (zeros (303104 - Z.of_nat (length es) * 296)));
    [done| |].
  - rewrite Ht. by rewrite <- app_assoc.
  - rewrite length_app, Hh, length_zeros. unfold TFS_TABLE_ALIGN. lia.
Qed.

(** ** Mounting from memory *)

(** No sum of an entry wraps around. *)
Definition entry_sound (e : tfs_entry) : Prop :=
  0 <= e_offset e /\ 0 <= e_size e /\ e_offset e + e_size e < 2 ^ 64.

(** The header's table does not wrap around, and when it lies inside the image
    every path in it ends and no entry wraps around. *)
Definition table_sound (image : list Z) : Prop :=
  forall h, header_at image = Some h ->
    0 <= h_entries_offset h /\ 0 <= h_entry_count h /\
    h_entries_offset h + h_entry_count h * ENTRY_SIZE < 2 ^ 64 /\
    (h_entries_offset h + h_entry_count h * ENTRY_SIZE <= Z.of_nat (length image) ->
     forall k, 0 <= k < h_entry_count h ->
       exists e, entry_at image (h_entries_offset h + k * ENTRY_SIZE) = Some e /\ entry_sound e).

Lemma mount_file_run ok image e i v ch n : wf v ch -> data_all v -> nodes v !! i = Some n ->
  entry_sound e -> Z.of_nat (length image) < 2 ^ 63 ->
  e_offset e + e_size e <= Z.of_nat (length image) ->
  exists v' n', mount_file ok image true e i v = Some (v', true) /\ wf v' ch /\ data_all v' /\
    nodes v' !! i = Some n' /\ content n' = take (Z.to_nat (e_size e)) (drop (Z.to_nat (e_offset e)) image).
Proof.
  intros W Hd Hi (H1 & H2 & H3) Hlen Hin. unfold mount_file. rewrite (update_some _ _ _ n) by done.
  rewrite bind_some. set (n1 := set_modified _ _).
  pose proof (Forall_lookup_1 _ _ _ _ Hd Hi) as [Hn0 Hn].
  destruct (Z.eqb_spec (e_size e) 0) as [Hz|Hz].
  - set (v1 := with_nodes _ _).
    destruct (rewrite_node v ch i n n1 v1 W Hd Hi) as (W1 & Hd1 & _ & Hi1); try done.
    { unfold data_ok, n1. cbn. rewrite Hz. unfold U64_MAX. split; [lia|]. destruct (n_data n); [lia|done]. }
    exists v1, n1. split_and!; try done. unfold content, n1. cbn. rewrite Hz. by destruct (n_data n).
  - rewrite (update_some _ i _ n1) by (cbn [nodes with_nodes]; apply list_lookup_insert_eq; by apply lookup_lt_Some in Hi).
    rewrite bind_some. set (n2 := set_data _ _ _ _). set (v2 := with_nodes _ _).
    assert (nodes v2 = <[i:=n2]> (nodes v)) as Hv2
      by (unfold v2; cbn [nodes with_nodes]; apply list_insert_insert_eq).
    destruct (rewrite_node v ch i n n2 v2 W Hd Hi) as (W2 & Hd2 & _ & Hi2); try done.
    { unfold data_ok, n2, n1, U64_MAX. cbn. rewrite length_drop. split; lia. }
    exists v2, n2. by split_and!.
Qed.

Lemma mount_entry_ok ok image e v : vfs_ok v -> entry_sound e -> Z.of_nat (length image) < 2 ^ 63 ->
  exists v' go, mount_entry ok image true e v = Some (v', go) /\ vfs_ok v'.
Proof.
  intros Hv He Hlen. unfold mount_entry. destruct (_ || _); [by exists v, true|].
  destruct (_ =? TFS_ENTRY_DIR).
  { destruct (add_ok VFS_NODE_DIR (Some (e_path e)) (Some [SLASH]) (Z.lor VFS_S_IFDIR (Z.land (e_mode e) 0xfff))
      (e_uid e) (e_gid e) v Hv) as (v1 & rc & E & Hv1). unfold vfs_mkdir. rewrite E, bind_some. by exists v1, true. }
  destruct (_ =? TFS_ENTRY_FILE); [|by exists v, true].
  destruct (Z.ltb_spec (Z.of_nat (length image)) (u64 (e_offset e + e_size e))) as [Hb|Hb]; [by exists v, false|].
  destruct (add_ok VFS_NODE_FILE (Some (e_path e)) (Some [SLASH]) (Z.lor VFS_S_IFREG (Z.land (e_mode e) 0xfff))
      (e_uid e) (e_gid e) v Hv) as (v1 & rc & E & ch & W & Hd). unfold vfs_create_file. rewrite E, bind_some.
  destruct (vfs_lookup_total v1 ch (Some (e_path e)) (Some [SLASH]) W) as [r Hr]. rewrite Hr, bind_some.
  destruct r as [i|]; [|exists v1, true; split; [done|by exists ch]].
  destruct (lookup_valid v1 ch _ _ i W Hr) as [n Hi].
  destruct (mount_file_run ok image e i v1 ch n W Hd Hi He Hlen) as (v2 & n2 & E2 & W2 & Hd2 & _).
  - destruct He as (? & ? & ?). rewrite u64_small in Hb by lia. done.
  - exists v2, true. split; [done|by exists ch].
Qed.

Lemma mount_loop_ok ok image : Z.of_nat (length image) < 2 ^ 63 -> forall n o v, vfs_ok v ->
  (forall k, 0 <= k < Z.of_nat n -> exists e, entry_at image (o + k * ENTRY_SIZE) = Some e /\ entry_sound e) ->
  exists v' rc, mount_loop ok n image true o v = Some (v', rc) /\ vfs_ok v'.
Proof.
  intros Hlen. induction n as [|n IH]; intros o v Hv Hk; [by exists v, 0|]. cbn [mount_loop].
  destruct (Hk 0) as (e & He & Hs); [lia|]. rewrite Z.mul_0_l, Z.add_0_r in He. rewrite He, bind_some.
  destruct (mount_entry_ok ok image e v Hv Hs Hlen) as (v1 & go & -> & Hv1). rewrite bind_some.
  destruct go; [|by exists v1, (-1)]. apply IH; [done|]. intros k Hr.
  destruct (Hk (k + 1)) as (e' & He' & Hs'); [lia|]. exists e'. split; [|done]. rewrite <- He'. f_equal. lia.
Qed.

Lemma header_at_total img : 32 <= Z.of_nat (length img) -> is_Some (header_at img).
Proof.
  intros H. unfold header_at. rewrite (slice_some img 0 8), bind_some by lia.
  destruct (get_some 4 img 8) as [a ->]; [lia..|]. destruct (get_some 4 img 12) as [b ->]; [lia..|].
  destruct (get_some 8 img 16) as [c ->]; [lia..|]. destruct (get_some 8 img 24) as [x ->]; [lia..|].
  by eexists.
Qed.

Lemma mount_memory_ok ok image v : vfs_ok v -> Z.of_nat (length image) < 2 ^ 63 -> table_sound image ->
  exists v' rc, mount_entries_from_memory ok image true v = Some (v', rc) /\ vfs_ok v'.
Proof.
  intros Hv Hlen Ht. unfold mount_entries_from_memory.
  destruct (Z.ltb_spec (Z.of_nat (length image)) HEADER_SIZE) as [|Hh]; [by exists v, (-1)|].
  destruct (header_at_total image Hh) as [h Hhd]. rewrite Hhd, bind_some.
  destruct (negb (header_ok h)); [by exists v, (-1)|].
  destruct (Ht h Hhd) as (H1 & H2 & H3 & H4). unfold ENTRY_SIZE in *. rewrite u64_small by lia.
  destruct (Z.ltb_spec (Z.of_nat (length image)) (h_entries_offset h + h_entry_count h * 296)) as [|Hin];
    [by exists v, (-1)|].
  apply mount_loop_ok; [done|done|]. intros k Hk. apply H4; [done|lia].
Qed.

(** ** Properties *)

(** A disk in memory, named sda. *)
#[global] Instance ram_disk : BlockLayer (list Z) := {
  block_device_find d name := bytes_eq name (str "sda");
  block_read d name lba n :=
    (d, if bytes_eq name (str "sda") then slice d (lba * 512) n else None);
  block_write_lba28 d name lba data :=
    match (if bytes_eq name (str "sda") then put d (lba * 512) data else None) with
    | Some d' => (d', 0) | None => (d, -1) end;
  block_sync d name := d }.


Definition init_fs : vfs := default (Vfs [] None 0 0) (vfs_init 0).
(** The tree after [/etc/motd] was written. *)
Definition motd_op : vfs_op := OpWriteFile (Some (str "/etc/motd")) None (str "hello").
Definition motd_fs : vfs := default init_fs (fst <$> vfs_exec (fun _ => true) motd_op init_fs).
Definition on_sda : tfs := Tfs true true false (str "sda") 0 0.

Lemma motd_reach : vfs_reach (fun _ => true) motd_fs.
Proof.
  apply (reach_exec _ motd_op init_fs motd_fs 0).
  - apply (reach_init _ 0). vm_compute. reflexivity.
  - vm_compute. reflexivity.
  - vm_compute. reflexivity.
Qed.

Lemma motd_small : Forall (fun m => n_size m < 2 ^ 63) (nodes motd_fs).
Proof.
  apply List.Forall_forall. intros m Hm. apply Z.ltb_lt. revert m Hm.
  apply (proj1 (List.forallb_forall (fun m => n_size m <? 2 ^ 63) (nodes motd_fs))). vm_compute. reflexivity.
Qed.


(** Mounting the header and entry table that [tfs_sync] builds reads every
    entry back as it was collected: the mount is the replay of those entries in
    their order. *)
Theorem table_roundtrip ok es borrowed v : Forall entry_fits es -> Z.of_nat (length es) <= TFS_MAX_ENTRIES ->
  mount_entries_from_memory ok (table_image es) borrowed v = replay ok (table_image es) borrowed es v.
Proof. apply replay_table. Qed.

Lemma table_roundtrip_witness :
  let es := [Entry TFS_ENTRY_DIR 0x1ed 0 0 0 0 9 (str "/opt"); Entry TFS_ENTRY_FILE 0x1a4 1 2 0 307200 10 (str "/opt/f")] in
  mount_entries_from_memory (fun _ => true) (table_image es) true init_fs =
  replay (fun _ => true) (table_image es) true es init_fs.
Proof.
  intros es. apply (table_roundtrip (fun _ => true) es true init_fs).
  - repeat constructor; vm_compute; (discriminate || reflexivity || (intros E; discriminate E) || lia).
  - vm_compute. discriminate.
Defined.



(** An image with one file whose offset and size add up to 2^64. *)
Definition wrap_image : list Z :=
  header_bytes (Header TFS_MAGIC TFS_VERSION 1 32 328) ++
  entry_bytes (Entry TFS_ENTRY_FILE 0x1a4 0 0 (2 ^ 64 - 328) 328 0 (str "/f")).

(** The check of a file against the image's bounds adds its offset and size
    without a check: this image mounts with 0, and the file it creates has a
    size its buffer does not, so reading it goes outside the image. *)
Theorem mount_wrap_escapes : exists v', tfs_mount_image (fun _ => true) wrap_image on_sda init_fs
    = Some (set_enabled on_sda false false, v', 0) /\
  exists i, vfs_lookup (Some (str "/f")) None v' = Some (Some i) /\ vfs_read_node (Some i) 0 1 v' = None.
Proof.
  eexists. split; [vm_compute; reflexivity|]. exists 11%nat. by split; vm_compute.
Qed.
