(* ===== verification/User.v ===== *)
(** * kernel/security/user.c

    The user table, its files /etc/passwd, /etc/group and /etc/shadow, and
    passwords. The table is the list of the first [users_len] records. What is
    undefined is [None]: an [atoi] that overflows, or what [Vfs.v] leaves so. *)
From S2P Require Import Prelude Buf KString Printf Vfs.

Definition MAX_USERS : nat := 32.
Definition USER_NAME_MAX : nat := 31.
Definition USER_HOME_MAX : nat := 127.
Definition USER_SHELL_MAX : nat := 127.
Definition USER_HASH_SCHEME : list Z := str "tnu1".
Definition COLON : Z := 58.
Definition DOLLAR : Z := 36.
Definition NEWLINE : Z := 10.

Record user_record := User {
  u_name : list Z; u_uid : Z; u_gid : Z; u_home : list Z; u_shell : list Z; u_salt : Z;
  u_hash : Z; u_set : bool }.

Record users_state := Users { users : list user_record; current_user : nat; u_fs : vfs }.

Definition with_users (s : users_state) (us : list user_record) : users_state :=
  Users us (current_user s) (u_fs s).
Definition with_fs (s : users_state) (v : vfs) : users_state := Users (users s) (current_user s) v.
Definition set_secret (u : user_record) (salt hash : Z) (b : bool) : user_record :=
  User (u_name u) (u_uid u) (u_gid u) (u_home u) (u_shell u) salt hash b.

(** ** Hashes *)

Definition FNV_BASIS : Z := 1469598103934665603.
Definition FNV_PRIME : Z := 1099511628211.

Definition fnv1a_update (hash : Z) (s : list Z) : Z :=
  foldl (fun h c => u64 (Z.lxor h (u8 c) * FNV_PRIME)) hash s.

Definition make_salt (name : list Z) (uid : Z) : Z :=
  let h := fnv1a_update FNV_BASIS name in
  let h := u64 (Z.lxor h uid * FNV_PRIME) in
  let h := Z.lxor h 0x544e5531 in
  u32 (Z.lxor h (Z.shiftr h 32)).

Definition hash_password (salt : Z) (password : list Z) : option Z :=
  '(salt_buf, _) ← ksnprintf 16 (str "%x") [VInt salt];
  let h := fnv1a_update FNV_BASIS USER_HASH_SCHEME in
  let h := fnv1a_update h [DOLLAR] in
  let h := fnv1a_update h salt_buf in
  let h := fnv1a_update h [DOLLAR] in
  Some (fnv1a_update h password).

Definition hex_digit (c : Z) : option Z :=
  if (48 <=? c) && (c <=? 57) then Some (c - 48)
  else if (97 <=? c) && (c <=? 102) then Some (c - 97 + 10)
  else if (65 <=? c) && (c <=? 70) then Some (c - 65 + 10)
  else None.

Fixpoint parse_hex_loop (s : list Z) (value : Z) : Z :=
  match s with
  | [] => value
  | c :: s => match hex_digit c with
              | Some d => parse_hex_loop s (Z.lor (u64 (Z.shiftl value 4)) d)
              | None => value
              end
  end.

Definition parse_hex64 (s : list Z) : Z := parse_hex_loop s 0.

(** ** Names and uids *)

Definition name_char (c : Z) : bool :=
  ((97 <=? c) && (c <=? 122)) || ((65 <=? c) && (c <=? 90)) || ((48 <=? c) && (c <=? 57)) ||
  (c =? 95) || (c =? 45).

Definition user_name_valid (name : cstr) : bool :=
  match name with None | Some [] => false | Some name => forallb name_char name end.

Definition user_next_uid (us : list user_record) : Z :=
  u32 (foldl (fun m u => if m <? u_uid u then u_uid u else m) 999 us + 1).

(** The index the loops over the table stop at. *)
Fixpoint find_index (P : user_record -> bool) (us : list user_record) : option nat :=
  match us with
  | [] => None
  | u :: us => if P u then Some 0%nat else i ← find_index P us; Some (S i)
  end.

(** [strcmp(users[i].name, name) == 0] *)
Definition named (name : list Z) (u : user_record) : bool := bytes_eq (u_name u) name.

Definition user_find_name (us : list user_record) (name : list Z) : option user_record :=
  i ← find_index (named name) us; us !! i.

Definition user_find_uid (us : list user_record) (uid : Z) : option user_record :=
  i ← find_index (fun u => u_uid u =? uid) us; us !! i.

Definition add_record (name : list Z) (uid gid : Z) (home shell : list Z) (us : list user_record)
    : list user_record :=
  if (MAX_USERS <=? length us)%nat then us
  else us ++ [User (field USER_NAME_MAX name) uid gid (field USER_HOME_MAX home)
                   (field USER_SHELL_MAX shell) (make_salt name uid) 0 false].

(** ** Reading the files *)

(** What precedes and what follows the first [sep]. *)
Fixpoint split_at_char (sep : Z) (l : list Z) : option (list Z * list Z) :=
  match l with
  | [] => None
  | c :: l => if c =? sep then Some ([], l)
              else '(a, b) ← split_at_char sep l; Some (c :: a, b)
  end.

(** Cutting a line at its first [k] colons. *)
Fixpoint split_fields (k : nat) (line : list Z) : list (list Z) :=
  match k with
  | O => [line]
  | S k => match split_at_char COLON line with
           | None => [line]
           | Some (a, rest) => a :: split_fields k rest
           end
  end.

(** [atoi] of a string. *)
Definition atoi_str (s : list Z) : option Z :=
  Cstr.atoi (S (length s)) (mset_bytes (fun _ => 0) 0 s) 0.

Definition parse_passwd_line (line : list Z) (us : list user_record) : option (list user_record) :=
  match split_fields 6 line with
  | [name; _; uid; gid; _; home; shell] =>
      uid ← atoi_str uid; gid ← atoi_str gid; Some (add_record name (u32 uid) (u32 gid) home shell us)
  | _ => Some us
  end.

(** [strncmp(s, "tnu1$", 5) != 0] *)
Definition scheme_prefix : list Z := USER_HASH_SCHEME ++ [DOLLAR].

Definition parse_shadow_line (line : list Z) (us : list user_record) : list user_record :=
  match split_at_char COLON line with
  | None => us
  | Some (_, []) => us
  | Some (name, rest) =>
    match find_index (named name) us with
    | None => us
    | Some i =>
      if negb (bytes_eq (take 5 rest) scheme_prefix) then us
      else
        match split_at_char DOLLAR (drop 5 rest) with
        | None => us
        | Some (salt, hash) =>
          match us !! i with
          | Some u => <[i := set_secret u (u32 (parse_hex64 salt)) (parse_hex64 hash) true]> us
          | None => us
          end
        end
    end
  end.

(** The text of a file as the 2048-byte copies hold it, up to its first NUL;
    [None] inside when there is no file or no data. *)
Definition file_text (path : list Z) (v : vfs) : option (option (list Z)) :=
  node ← vfs_lookup (Some path) (Some [SLASH]) v;
  match node with
  | None => Some None
  | Some i =>
    n ← nodes v !! i;
    match n_data n with
    | None => Some None
    | Some d => bytes ← slice d 0 (Z.min (n_size n) 2047); s ← cstr_of (bytes ++ [0]); Some (Some s)
    end
  end.

Fixpoint split_lines (l : list Z) : list (list Z) :=
  match l with
  | [] => [[]]
  | c :: l => if c =? NEWLINE then [] :: split_lines l
              else match split_lines l with s :: r => (c :: s) :: r | [] => [[c]] end
  end.

(** The non-empty lines, in order. *)
Definition file_lines (text : list Z) : list (list Z) := filter (fun l => l <> []) (split_lines text).

Section Files.
Context (kmalloc_ok : Z -> bool).

(** ** Writing the files *)

(** One more line in a buffer of 2048 bytes. *)
Definition append_line (buf line : list Z) : list Z :=
  if Z.of_nat (length buf) + Z.of_nat (length line) <? 2048 then buf ++ line else buf.

Definition passwd_line (u : user_record) : option (list Z) :=
  '(line, _) ← ksnprintf 256 (str "%s:x:%u:%u:%s:%s:%s" ++ [NEWLINE])
     [VStr (Some (u_name u)); VInt (u_uid u); VInt (u_gid u); VStr (Some (u_name u));
      VStr (Some (u_home u)); VStr (Some (u_shell u))];
  Some line.

Definition group_line (u : user_record) : option (list Z) :=
  '(line, _) ← ksnprintf 128 (str "%s:x:%u:%s" ++ [NEWLINE])
     [VStr (Some (u_name u)); VInt (u_gid u); VStr (Some (u_name u))];
  Some line.

Definition shadow_line (u : user_record) : option (list Z) :=
  '(line, _) ← (if u_set u then
      ksnprintf 192 (str "%s:%s$%08x$%016llx:0:0:99999:7:::" ++ [NEWLINE])
        [VStr (Some (u_name u)); VStr (Some USER_HASH_SCHEME); VInt (u_salt u); VInt (u_hash u)]
    else ksnprintf 192 (str "%s::0:0:99999:7:::" ++ [NEWLINE]) [VStr (Some (u_name u))]);
  Some line.

(** The text of a file from its first line and the lines of the records. *)
Definition build_text (first : list Z) (line : user_record -> option (list Z)) (us : list user_record)
    : option (list Z) :=
  foldl (fun buf u => buf ← buf; l ← line u; Some (append_line buf l)) (Some first) us.

Definition rebuild_passwd (s : users_state) : option users_state :=
  buf ← build_text [] passwd_line (users s);
  '(v, _) ← vfs_write_file kmalloc_ok (Some (str "/etc/passwd")) (Some [SLASH]) buf (u_fs s);
  Some (with_fs s v).

Definition rebuild_group (s : users_state) : option users_state :=
  buf ← build_text (str "root:x:0:" ++ [NEWLINE] ++ str "wheel:x:10:root" ++ [NEWLINE]) group_line
          (filter (fun u => u_uid u <> 0) (users s));
  '(v, _) ← vfs_write_file kmalloc_ok (Some (str "/etc/group")) (Some [SLASH]) buf (u_fs s);
  Some (with_fs s v).

Definition rebuild_shadow (s : users_state) : option users_state :=
  buf ← build_text [] shadow_line (users s);
  '(v, _) ← vfs_write_file kmalloc_ok (Some (str "/etc/shadow")) (Some [SLASH]) buf (u_fs s);
  '(v, _) ← vfs_chmod (Some (str "/etc/shadow")) (Some [SLASH]) 0x180 v;
  '(v, _) ← vfs_chown (Some (str "/etc/shadow")) (Some [SLASH]) 0 0 v;
  Some (with_fs s v).

Definition parse_shadow (s : users_state) : option users_state :=
  text ← file_text (str "/etc/shadow") (u_fs s);
  match text with
  | None => Some s
  | Some text => Some (with_users s (foldl (fun us l => parse_shadow_line l us) (users s) (file_lines text)))
  end.

Definition root_record (us : list user_record) : list user_record :=
  add_record (str "root") 0 0 (str "/root") (str "/bin/tsh") us.

Definition users_init (s : users_state) : option users_state :=
  let s := Users [] 0 (u_fs s) in
  text ← file_text (str "/etc/passwd") (u_fs s);
  s ← (match text with
       | None => Some s
       | Some text =>
         us ← foldl (fun us l => us ← us; parse_passwd_line l us) (Some (users s)) (file_lines text);
         Some (with_users s us)
       end);
  s ← (if (length (users s) =? 0)%nat then rebuild_passwd (with_users s (root_record (users s))) else Some s);
  s ← (match user_find_name (users s) (str "root") with
       | Some _ => Some s
       | None => rebuild_passwd (with_users s (root_record []))
       end);
  s ← parse_shadow s; s ← rebuild_group s; s ← rebuild_shadow s;
  '(v, _) ← vfs_mkdir (Some (str "/root")) (Some [SLASH]) (Z.lor VFS_S_IFDIR 0x1c0) 0 0 (u_fs s);
  '(v, _) ← vfs_chmod (Some (str "/root")) (Some [SLASH]) 0x1c0 v;
  '(v, _) ← vfs_chown (Some (str "/root")) (Some [SLASH]) 0 0 v;
  Some (with_fs s v).

(** ** Operations *)

Definition user_current (s : users_state) : option user_record := users s !! current_user s.

Definition user_login (name : list Z) (s : users_state) : users_state * Z :=
  match find_index (named name) (users s) with
  | Some i => (Users (users s) i (u_fs s), 0)
  | None => (s, -1)
  end.

(** A NULL password hashes like an empty one. *)
Definition user_check_password (name : list Z) (password : cstr) (s : users_state) : option bool :=
  match user_find_name (users s) name with
  | None => Some false
  | Some u =>
    if negb (u_set u) then Some true
    else h ← hash_password (u_salt u) (default [] password); Some (h =? u_hash u)
  end.

Definition user_login_password (name : list Z) (password : cstr) (s : users_state)
    : option (users_state * Z) :=
  ok ← user_check_password name password s;
  Some (if (ok : bool) then user_login name s else (s, -1)).

Definition user_has_password (name : list Z) (s : users_state) : bool :=
  match user_find_name (users s) name with Some u => u_set u | None => false end.

Definition user_count (s : users_state) : nat := length (users s).
Definition user_get (i : nat) (s : users_state) : option user_record := users s !! i.

Definition rebuild_all (s : users_state) : option users_state :=
  s ← rebuild_passwd s; s ← rebuild_group s; rebuild_shadow s.

Definition user_add (name : cstr) (uid gid : Z) (s : users_state) : option (users_state * Z) :=
  match name with
  | Some nm =>
    if negb (user_name_valid name)
       || (match user_find_name (users s) nm with Some _ => true | None => false end)
       || (match user_find_uid (users s) uid with Some _ => true | None => false end)
       || (MAX_USERS <=? length (users s))%nat
    then Some (s, -1)
    else
      '(home, _) ← ksnprintf 128 (str "/home/%s") [VStr (Some nm)];
      let s := with_users s (add_record nm uid gid home (str "/bin/tsh") (users s)) in
      '(v, _) ← vfs_mkdir (Some home) (Some [SLASH]) (Z.lor VFS_S_IFDIR 0x1c0) uid gid (u_fs s);
      '(v, _) ← vfs_chmod (Some home) (Some [SLASH]) 0x1c0 v;
      '(v, _) ← vfs_chown (Some home) (Some [SLASH]) uid gid v;
      s ← rebuild_all (with_fs s v); Some (s, 0)
  | None => Some (s, -1)
  end.

Definition user_del (name : list Z) (s : users_state) : option (users_state * Z) :=
  match find_index (fun u => named name u && negb (u_uid u =? 0)) (users s) with
  | None => Some (s, -1)
  | Some i =>
    let deleting_current := (current_user s =? i)%nat in
    let us := take i (users s) ++ drop (S i) (users s) in
    let current :=
      if deleting_current || (length us <=? current_user s)%nat then 0%nat
      else if (i <? current_user s)%nat then pred (current_user s) else current_user s in
    s ← rebuild_all (Users us current (u_fs s)); Some (s, 0)
  end.

Definition user_set_password (name password : cstr) (s : users_state) : option (users_state * Z) :=
  match name, password with
  | Some name, Some password =>
    match find_index (named name) (users s) with
    | None => Some (s, -1)
    | Some i =>
      u ← users s !! i;
      let salt := make_salt name (u_uid u) in
      u' ← (match password with
            | [] => Some (set_secret u salt 0 false)
            | _ => let salt := Z.lxor salt (u32 (Z.of_nat (length password))) in
                   h ← hash_password salt password; Some (set_secret u salt h true)
            end);
      s ← rebuild_shadow (with_users s (<[i := u']> (users s))); Some (s, 0)
    end
  | _, _ => Some (s, -1)
  end.

End Files.
