(* ===== verification/UserProofs.v ===== *)
(** * Properties of kernel/security/user.c

    The invariant of the user table of [User.v] under every operation, the
    shadow file's lines, and whose identity a deletion leaves. *)
From stdpp Require Import relations.
From S2P Require Import Prelude Buf KString Printf Vfs VfsTree User.

(** ** The lines of the files are defined *)

Lemma passwd_line_def u : is_Some (passwd_line u).
Proof.
  unfold passwd_line, ksnprintf. rewrite kvsnprintf_render by lia.
  match goal with |- context [render ?f ?a] => assert (is_Some (render f a)) as [l ->] by (render_line; by eexists) end.
  by eexists.
Qed.

Lemma group_line_def u : is_Some (group_line u).
Proof.
  unfold group_line, ksnprintf. rewrite kvsnprintf_render by lia.
  match goal with |- context [render ?f ?a] => assert (is_Some (render f a)) as [l ->] by (render_line; by eexists) end.
  by eexists.
Qed.

(** The text of a record's line in the shadow file. *)
Definition hex8 (v : Z) : list Z := padded (number v 16 false) 8 false 48.
Definition hex16 (v : Z) : list Z := padded (number v 16 false) 16 false 48.
Definition shadow_tail : list Z := str ":0:0:99999:7:::" ++ [NEWLINE].

Definition shadow_text (u : user_record) : list Z :=
  u_name u ++ (if u_set u
    then str ":tnu1$" ++ hex8 (u32 (u_salt u)) ++ [DOLLAR] ++ hex16 (u64 (u_hash u)) ++ shadow_tail
    else [COLON] ++ shadow_tail).

Lemma length_hex v : (length (hex8 v) <= 32)%nat /\ (length (hex16 v) <= 32)%nat.
Proof.
  assert (length (number v 16 false) <= 32)%nat as Hn.
  { unfold number. destruct (v =? 0); [simpl; lia|]. rewrite length_rev. apply length_digits_loop. }
  assert (forall w, w <= 32 -> (length (padded (number v 16 false) w false 48) <= 32)%nat) as H; [|split; apply H; lia].
  intros w Hw. unfold padded. cbn [andb Z.eqb Pos.eqb]. destruct (_ =? 45) eqn:E; cbn [length].
  - rewrite length_app, repeat_length. destruct (number v 16 false); [done|]. cbn [length tl] in *. lia.
  - rewrite length_app, repeat_length. lia.
Qed.

Lemma shadow_line_eq u : (length (u_name u) <= 31)%nat -> shadow_line u = Some (shadow_text u).
Proof.
  intros Hl. unfold shadow_line, shadow_text, ksnprintf. pose proof (length_hex (u32 (u_salt u))) as [H8 _].
  pose proof (length_hex (u64 (u_hash u))) as [_ H16].
  destruct (u_set u); rewrite kvsnprintf_render by lia.
  - match goal with |- context [render ?f ?a] => assert (render f a = Some (u_name u ++ str ":tnu1$" ++
      hex8 (u32 (u_salt u)) ++ [DOLLAR] ++ hex16 (u64 (u_hash u)) ++ shadow_tail)) as -> end.
    { unfold hex8, hex16, shadow_tail. render_line. done. }
    rewrite !bind_some. f_equal. apply take_ge. rewrite !length_app. norm_str.
    unfold shadow_tail. norm_str. cbn [length app]. lia.
  - match goal with |- context [render ?f ?a] => assert (render f a = Some (u_name u ++ [COLON] ++ shadow_tail)) as -> end.
    { unfold shadow_tail. render_line. done. }
    rewrite !bind_some. f_equal. apply take_ge. unfold shadow_tail. norm_str. rewrite !length_app. cbn [length app]. lia.
Qed.

Lemma shadow_line_def u : is_Some (shadow_line u).
Proof.
  unfold shadow_line, ksnprintf. destruct (u_set u); rewrite kvsnprintf_render by lia;
  match goal with |- context [render ?f ?a] => assert (is_Some (render f a)) as [l ->] by (render_line; by eexists) end;
  by eexists.
Qed.

Lemma build_text_def line us : (forall u, is_Some (line u)) -> forall first, (length first <= 2047)%nat ->
  exists t, build_text first line us = Some t /\ (length t <= 2047)%nat.
Proof.
  intros Hd. unfold build_text. induction us as [|u us IH]; intros first Hf; [by exists first|].
  cbn [foldl]. rewrite bind_some. destruct (Hd u) as [l ->]. rewrite bind_some. apply IH.
  unfold append_line. destruct (Z.ltb_spec (Z.of_nat (length first) + Z.of_nat (length l)) 2048); [|done].
  rewrite length_app. lia.
Qed.

(** ** The operations keep the file system and are defined *)

Section Ops.
Context (ok : Z -> bool).

Lemma write_text_ok path (t : list Z) v : vfs_ok v -> (length t <= 2047)%nat ->
  exists v' rc, vfs_write_file ok (Some path) (Some [SLASH]) t v = Some (v', rc) /\ vfs_ok v'.
Proof.
  intros Hv Ht. apply (exec_ok ok (OpWriteFile (Some path) (Some [SLASH]) t) v Hv).
  cbn [op_fits]. unfold U64_MAX. lia.
Qed.

Lemma chmod_ok path mode v : vfs_ok v ->
  exists v' rc, vfs_chmod path (Some [SLASH]) mode v = Some (v', rc) /\ vfs_ok v'.
Proof. intros Hv. by apply (exec_ok ok (OpChmod path (Some [SLASH]) mode) v Hv). Qed.

Lemma chown_ok path uid gid v : vfs_ok v ->
  exists v' rc, vfs_chown path (Some [SLASH]) uid gid v = Some (v', rc) /\ vfs_ok v'.
Proof. intros Hv. by apply (exec_ok ok (OpChown path (Some [SLASH]) uid gid) v Hv). Qed.

Lemma mkdir_ok path mode uid gid v : vfs_ok v ->
  exists v' rc, vfs_mkdir path (Some [SLASH]) mode uid gid v = Some (v', rc) /\ vfs_ok v'.
Proof. intros Hv. by apply (exec_ok ok (OpMkdir path (Some [SLASH]) mode uid gid) v Hv). Qed.

Lemma rebuild_passwd_ok s : vfs_ok (u_fs s) ->
  exists v, rebuild_passwd ok s = Some (with_fs s v) /\ vfs_ok v.
Proof.
  intros Hv. unfold rebuild_passwd.
  destruct (build_text_def passwd_line (users s) passwd_line_def []) as (t & -> & Ht); [simpl; lia|].
  rewrite bind_some. destruct (write_text_ok (str "/etc/passwd") t _ Hv Ht) as (v & rc & -> & Hv').
  exists v. by rewrite bind_some.
Qed.

Lemma rebuild_group_ok s : vfs_ok (u_fs s) ->
  exists v, rebuild_group ok s = Some (with_fs s v) /\ vfs_ok v.
Proof.
  intros Hv. unfold rebuild_group.
  match goal with |- context [build_text ?f group_line ?l] =>
    destruct (build_text_def group_line l group_line_def f) as (t & -> & Ht); [vm_compute; lia|] end.
  rewrite bind_some. destruct (write_text_ok (str "/etc/group") t _ Hv Ht) as (v & rc & -> & Hv').
  exists v. by rewrite bind_some.
Qed.

Lemma rebuild_shadow_ok s : vfs_ok (u_fs s) ->
  exists v, rebuild_shadow ok s = Some (with_fs s v) /\ vfs_ok v.
Proof.
  intros Hv. unfold rebuild_shadow.
  destruct (build_text_def shadow_line (users s) shadow_line_def []) as (t & -> & Ht); [simpl; lia|].
  rewrite bind_some. destruct (write_text_ok (str "/etc/shadow") t _ Hv Ht) as (v & rc & -> & Hv').
  rewrite bind_some. destruct (chmod_ok (Some (str "/etc/shadow")) 0x180 v Hv') as (v2 & rc2 & -> & Hv2).
  rewrite bind_some. destruct (chown_ok (Some (str "/etc/shadow")) 0 0 v2 Hv2) as (v3 & rc3 & -> & Hv3).
  exists v3. by rewrite bind_some.
Qed.

Lemma rebuild_all_ok s : vfs_ok (u_fs s) -> exists v, rebuild_all ok s = Some (with_fs s v) /\ vfs_ok v.
Proof.
  intros Hv. unfold rebuild_all. destruct (rebuild_passwd_ok s Hv) as (v1 & -> & H1). rewrite bind_some.
  destruct (rebuild_group_ok (with_fs s v1) H1) as (v2 & -> & H2). rewrite bind_some.
  destruct (rebuild_shadow_ok (with_fs (with_fs s v1) v2) H2) as (v3 & -> & H3). by exists v3.
Qed.

(** The table's invariant: a valid current user, distinct uids, a record of
    uid 0 named root. *)
Definition table_ok (us : list user_record) (current : nat) : Prop :=
  (current < length us <= MAX_USERS)%nat /\ NoDup (map u_uid us) /\
  exists u, u ∈ us /\ u_uid u = 0 /\ u_name u = str "root".

Definition users_ok (s : users_state) : Prop := vfs_ok (u_fs s) /\ table_ok (users s) (current_user s).

Inductive user_op :=
| UAdd (name : cstr) (uid gid : Z)
| UDel (name : list Z)
| ULogin (name : list Z) (password : cstr)
| USetPassword (name password : cstr).

Definition user_exec (o : user_op) (s : users_state) : option (users_state * Z) :=
  match o with
  | UAdd name uid gid => user_add ok name uid gid s
  | UDel name => user_del ok name s
  | ULogin name password => user_login_password name password s
  | USetPassword name password => user_set_password ok name password s
  end.

Lemma find_index_some P us i : find_index P us = Some i ->
  exists u, us !! i = Some u /\ P u = true /\ forall j x, (j < i)%nat -> us !! j = Some x -> P x = false.
Proof.
  revert i. induction us as [|u us IH]; intros i; [done|]. cbn [find_index]. destruct (P u) eqn:E.
  - intros [= <-]. exists u. split_and!; try done. lia.
  - destruct (find_index P us) as [k|]; [|done]. rewrite bind_some. intros [= <-].
    destruct (IH k eq_refl) as (x & Hx & Hp & Hb). exists x. split_and!; try done.
    intros [|j] y Hj Hy; [by injection Hy as <-|]. apply (Hb j); [lia|done].
Qed.

Lemma find_index_none P us : find_index P us = None -> forall u, u ∈ us -> P u = false.
Proof.
  induction us as [|x us IH]; intros H u Hu; [by apply elem_of_nil in Hu|]. cbn [find_index] in H.
  destruct (P x) eqn:E; [done|]. destruct (find_index P us); [done|].
  apply elem_of_cons in Hu as [->|Hu]; [done|by apply IH].
Qed.

Lemma find_index_insert P us i u u' : us !! i = Some u -> P u' = P u ->
  find_index P (<[i := u']> us) = find_index P us.
Proof.
  revert i. induction us as [|x us IH]; intros i Hi Hp; [done|]. destruct i as [|i].
  - injection Hi as ->. change (<[0%nat := u']> (u :: us)) with (u' :: us). cbn [find_index]. by rewrite Hp.
  - change (<[S i := u']> (x :: us)) with (x :: <[i := u']> us). cbn [find_index]. by rewrite IH.
Qed.

Lemma find_uid_none us uid : user_find_uid us uid = None -> uid ∉ map u_uid us.
Proof.
  intros H Hin. apply list_elem_of_fmap in Hin as (u & -> & Hu). unfold user_find_uid in H.
  destruct (find_index _ us) as [i|] eqn:E.
  - apply find_index_some in E as (x & Hx & _). by rewrite bind_some, Hx in H.
  - pose proof (find_index_none _ _ E u Hu) as Hf. cbn in Hf. by rewrite Z.eqb_refl in Hf.
Qed.

Lemma hash_password_def salt pw : is_Some (hash_password salt pw).
Proof.
  unfold hash_password, ksnprintf. rewrite kvsnprintf_render by lia.
  match goal with |- context [render ?f ?a] => assert (is_Some (render f a)) as [l ->] by (render_line; by eexists) end.
  by eexists.
Qed.

Lemma add_ok' name uid gid s : users_ok s ->
  exists s' rc, user_add ok name uid gid s = Some (s', rc) /\ users_ok s'.
Proof.
  intros Hs. pose proof Hs as (Hv & Hc & Hnd & r & Hr & Hr0 & Hrn). unfold user_add.
  destruct name as [nm|]; [|by exists s, (-1)]. destruct (negb (user_name_valid (Some nm))); [by exists s, (-1)|].
  destruct (user_find_name (users s) nm); [by exists s, (-1)|].
  destruct (user_find_uid (users s) uid) eqn:Eu; [by exists s, (-1)|].
  destruct (Nat.leb_spec MAX_USERS (length (users s))) as [Hm|Hm]; [by exists s, (-1)|]. cbn [orb].
  unfold ksnprintf. rewrite kvsnprintf_render by lia.
  match goal with |- context [render ?f ?a] => assert (is_Some (render f a)) as [l ->] by (render_line; by eexists) end.
  rewrite !bind_some. set (home := take _ l). cbn [u_fs with_users].
  destruct (mkdir_ok (Some home) (Z.lor VFS_S_IFDIR 0x1c0) uid gid _ Hv) as (v1 & rc1 & -> & H1). rewrite bind_some.
  destruct (chmod_ok (Some home) 0x1c0 _ H1) as (v2 & rc2 & -> & H2). rewrite bind_some.
  destruct (chown_ok (Some home) uid gid _ H2) as (v3 & rc3 & -> & H3). rewrite bind_some.
  match goal with |- context [rebuild_all ok ?x] => destruct (rebuild_all_ok x H3) as (v4 & -> & H4) end.
  rewrite bind_some. eexists _, 0. split; [done|]. split; [done|].
  cbn [users current_user with_fs with_users]. unfold add_record.
  rewrite (proj2 (Nat.leb_gt _ _)) by done. unfold table_ok. rewrite length_app, map_app. cbn [length map].
  split; [lia|]. split.
  - apply NoDup_app. split; [done|]. split; [|apply NoDup_singleton].
    intros x Hx ->%list_elem_of_singleton. by apply find_uid_none in Eu.
  - exists r. split; [|done]. apply elem_of_app. by left.
Qed.

Lemma del_ok name s : users_ok s -> exists s' rc, user_del ok name s = Some (s', rc) /\ users_ok s'.
Proof.
  intros Hs. pose proof Hs as (Hv & Hc & Hnd & r & Hr & Hr0 & Hrn). unfold user_del.
  destruct (find_index _ (users s)) as [i|] eqn:Ei; [|by exists s, (-1)].
  apply find_index_some in Ei as (u & Hu & Hp & _). apply andb_prop in Hp as [_ Hu0].
  set (us := take i (users s) ++ drop (S i) (users s)).
  match goal with |- context [Users us ?c (u_fs s)] => set (current := c) end.
  destruct (rebuild_all_ok (Users us current (u_fs s)) Hv) as (v & -> & Hv'). rewrite bind_some.
  eexists _, 0. split; [done|]. split; [done|]. cbn [users current_user with_fs].
  pose proof (take_drop_middle _ _ _ Hu) as E.
  assert (r ∈ us) as Hrin.
  { rewrite <- E in Hr. unfold us. apply elem_of_app in Hr as [Hr|[->|Hr]%elem_of_cons]; [elems| |elems].
    rewrite Hr0 in Hu0. done. }
  apply lookup_lt_Some in Hu as Hlt.
  assert (length us = pred (length (users s))) as Hlen.
  { unfold us. rewrite length_app, length_take, length_drop. lia. }
  assert (0 < length us)%nat as Hpos by (destruct us; [by apply elem_of_nil in Hrin|simpl; lia]).
  split; [|split].
  - rewrite Hlen in *. split; [|lia]. unfold current. destruct (Nat.eqb_spec (current_user s) i); [simpl; lia|].
    cbn [orb]. destruct (Nat.leb_spec (length us) (current_user s)); [lia|].
    destruct (Nat.ltb_spec i (current_user s)); lia.
  - rewrite <- E, map_app in Hnd. cbn [map] in Hnd. unfold us. rewrite map_app.
    apply NoDup_app in Hnd as (H1 & H2 & H3). apply NoDup_cons in H3 as [H3 H4]. apply NoDup_app.
    split; [done|]. split; [|done]. intros x Hx Hx2. apply (H2 x Hx). by right.
  - by exists r.
Qed.

Lemma login_ok name pw s : users_ok s ->
  exists s' rc, user_login_password name pw s = Some (s', rc) /\ users_ok s'.
Proof.
  intros Hs. pose proof Hs as (Hv & Hc & Hnd & Hr). unfold user_login_password.
  assert (exists b, user_check_password name pw s = Some b) as [b ->].
  { unfold user_check_password. destruct (user_find_name (users s) name) as [u|]; [|by eexists].
    destruct (negb (u_set u)); [by eexists|]. destruct (hash_password_def (u_salt u) (default [] pw)) as [h ->].
    by eexists. }
  rewrite bind_some. destruct b; [|by exists s, (-1)]. unfold user_login.
  destruct (find_index _ (users s)) as [i|] eqn:Ei; [|by exists s, (-1)].
  apply find_index_some in Ei as (u & Hu & _). eexists _, 0. split; [done|]. split; [done|].
  cbn [users current_user]. apply lookup_lt_Some in Hu. split; [lia|done].
Qed.

(** Changing a record's secret leaves the table sound. *)
Lemma table_secret us current i u u' : table_ok us current -> us !! i = Some u ->
  u_uid u' = u_uid u -> u_name u' = u_name u -> table_ok (<[i := u']> us) current.
Proof.
  intros (Hc & Hnd & r & Hr & Hr0 & Hrn) Hi Huid Hname. split; [by rewrite length_insert|].
  assert (map u_uid (<[i := u']> us) = map u_uid us) as Em.
  { change (u_uid <$> (<[i := u']> us) = u_uid <$> us). rewrite list_fmap_insert.
    apply list_insert_id. rewrite list_lookup_fmap, Hi. cbn. by rewrite Huid. }
  split; [by rewrite Em|]. apply list_elem_of_lookup in Hr as [k Hk].
  destruct (decide (k = i)) as [->|Hne].
  - exists u'. rewrite Hk in Hi. injection Hi as ->. rewrite Huid, Hname. split; [|done].
    apply list_elem_of_lookup. exists i. apply list_lookup_insert_eq. by apply lookup_lt_Some in Hk.
  - exists r. split; [|done]. apply list_elem_of_lookup. exists k. by rewrite list_lookup_insert_ne.
Qed.

Lemma set_password_ok name pw s : users_ok s ->
  exists s' rc, user_set_password ok name pw s = Some (s', rc) /\ users_ok s'.
Proof.
  intros Hs. pose proof Hs as (Hv & Ht). unfold user_set_password.
  destruct name as [name|]; [|by exists s, (-1)]. destruct pw as [pw|]; [|by exists s, (-1)].
  destruct (find_index _ (users s)) as [i|] eqn:Ei; [|by exists s, (-1)].
  apply find_index_some in Ei as (u & Hu & _). rewrite Hu, bind_some. cbv zeta.
  match goal with |- context [?x ≫= (fun u' : user_record => _)] =>
    assert (exists u', x = Some u' /\ u_uid u' = u_uid u /\ u_name u' = u_name u) as (u' & -> & H1 & H2) end.
  { destruct pw as [|c pw]; [by eexists|].
    match goal with |- context [hash_password ?a ?b] => destruct (hash_password_def a b) as [h ->] end. by eexists. }
  rewrite bind_some.
  destruct (rebuild_shadow_ok (with_users s (<[i:=u']> (users s))) Hv) as (v & -> & Hv'). rewrite bind_some.
  eexists _, 0. split; [done|]. split; [done|]. by apply (table_secret _ _ i u).
Qed.

Lemma user_exec_ok o s : users_ok s -> exists s' rc, user_exec o s = Some (s', rc) /\ users_ok s'.
Proof.
  intros Hs. destruct o; cbn [user_exec]; [by apply add_ok'|by apply del_ok|by apply login_ok|by apply set_password_ok].
Qed.

End Ops.

(** ** Starting up *)

Lemma vfs_lookup_ok path v : vfs_ok v -> exists r, vfs_lookup path (Some [SLASH]) v = Some r /\
  match r with None => True | Some i => exists n, nodes v !! i = Some n /\ data_ok n end.
Proof.
  intros (ch & W & Hd). destruct (vfs_lookup_total v ch path (Some [SLASH]) W) as [r Hr]. exists r.
  split; [done|]. destruct r as [i|]; [|done]. destruct (lookup_valid v ch _ _ i W Hr) as [n Hn].
  exists n. split; [done|]. by apply (Forall_lookup_1 _ _ _ _ Hd Hn).
Qed.

Lemma file_text_def path v : vfs_ok v -> is_Some (file_text path v).
Proof.
  intros Hv. unfold file_text. destruct (vfs_lookup_ok (Some path) v Hv) as (r & -> & Hr).
  rewrite bind_some. destruct r as [i|]; [|by eexists]. destruct Hr as (n & -> & Hn0 & Hn). rewrite bind_some.
  destruct (n_data n) as [d|]; [|by eexists]. rewrite slice_some by lia. rewrite bind_some.
  match goal with |- context [cstr_of ?l] => destruct (cstr_of_nul l) as [t ->] end; [elems|by eexists].
Qed.

Lemma shadow_line_table line us current : table_ok us current -> table_ok (parse_shadow_line line us) current.
Proof.
  intros Ht. unfold parse_shadow_line. destruct (split_at_char COLON line) as [[name [|c rest]]|]; try done.
  destruct (find_index _ us) as [i|] eqn:Ei; [|done]. destruct (negb _); [done|].
  destruct (split_at_char DOLLAR _) as [[a b]|]; [|done].
  apply find_index_some in Ei as (u & Hu & _). rewrite Hu.
  by apply (table_secret us current i u).
Qed.

Lemma shadow_lines_table ls : forall us current, table_ok us current ->
  table_ok (foldl (fun us l => parse_shadow_line l us) us ls) current.
Proof. induction ls as [|l ls IH]; intros us current Ht; [done|]. apply IH. by apply shadow_line_table. Qed.

(** The table a start without a password file has. *)
Lemma root_table : table_ok (root_record []) 0.
Proof.
  split; [vm_compute; lia|]. split; [apply NoDup_singleton|].
  eexists. split; [left|]. split; [done|reflexivity].
Qed.

Lemma users_init_ok ok v : vfs_ok v -> file_text (str "/etc/passwd") v = Some None ->
  exists s, users_init ok (Users [] 0 v) = Some s /\ users_ok s.
Proof.
  intros Hv Hp. unfold users_init. cbn [u_fs]. rewrite Hp, !bind_some. cbn [users length Nat.eqb].
  destruct (rebuild_passwd_ok ok (with_users (Users [] 0 v) (root_record [])) Hv) as (v1 & -> & H1).
  rewrite bind_some. cbn [users with_fs with_users].
  change (user_find_name (root_record []) (str "root")) with (root_record [] !! 0%nat).
  change (root_record [] !! 0%nat) with (Some (hd (User [] 0 0 [] [] 0 0 false) (root_record []))).
  cbv iota beta. rewrite bind_some. unfold parse_shadow. cbn [u_fs with_fs].
  destruct (file_text_def (str "/etc/shadow") v1 H1) as [text ->]. rewrite bind_some.
  match goal with |- context [match text with Some _ => _ | None => Some ?s end] => set (s1 := s) end.
  assert (exists us, (match text with Some t => Some (with_users s1 (foldl (fun us l => parse_shadow_line l us) (users s1) (file_lines t)))
                      | None => Some s1 end) = Some (Users us 0 v1) /\ table_ok us 0) as (us & -> & Ht).
  { destruct text as [t|].
    - eexists. split; [reflexivity|]. apply shadow_lines_table, root_table.
    - exists (root_record []). split; [reflexivity|]. apply root_table. }
  rewrite bind_some. destruct (rebuild_group_ok ok (Users us 0 v1) H1) as (v2 & -> & H2). rewrite bind_some.
  destruct (rebuild_shadow_ok ok (with_fs (Users us 0 v1) v2) H2) as (v3 & -> & H3). rewrite bind_some.
  cbn [u_fs with_fs].
  destruct (mkdir_ok ok (Some (str "/root")) (Z.lor VFS_S_IFDIR 0x1c0) 0 0 v3 H3) as (v4 & r4 & -> & H4). rewrite bind_some.
  destruct (chmod_ok ok (Some (str "/root")) 0x1c0 v4 H4) as (v5 & r5 & -> & H5). rewrite bind_some.
  destruct (chown_ok ok (Some (str "/root")) 0 0 v5 H5) as (v6 & r6 & -> & H6). rewrite bind_some.
  eexists. split; [reflexivity|]. by split.
Qed.

(** A start without a password file. *)
Definition fresh_start (ok : Z -> bool) (s : users_state) : Prop :=
  exists v, vfs_reach ok v /\ file_text (str "/etc/passwd") v = Some None /\
    users_init ok (Users [] 0 v) = Some s.

(** One call of an operation. *)
Definition user_step (ok : Z -> bool) (s s' : users_state) : Prop :=
  exists o rc, user_exec ok o s = Some (s', rc).

Lemma reach_users_ok ok s0 s : fresh_start ok s0 -> rtc (user_step ok) s0 s -> users_ok s.
Proof.
  intros (v & Hv & Hp & E) Hs.
  assert (users_ok s0) as H0.
  { destruct (users_init_ok ok v (reach_vfs_ok ok v Hv) Hp) as (s' & E' & Hs').
    rewrite E in E'. by injection E' as <-. }
  clear E. induction Hs as [s|s s1 s2 (o & rc & E) _ IH]; [done|]. apply IH.
  destruct (user_exec_ok ok o s H0) as (s' & rc' & E2 & Hs2). rewrite E in E2. by injection E2 as <- <-.
Qed.

(** ** Hexadecimal numbers *)

Lemma hex_digit_value c d : Cstr.digit_value c = Some d -> 0 <= d < 16 -> hex_digit c = Some d.
Proof.
  unfold Cstr.digit_value, hex_digit. intros H Hd.
  repeat match goal with |- context [if ?b then _ else _] => destruct b eqn:?
                    | H : context [if ?b then _ else _] |- _ => destruct b eqn:? end;
  bcases; simplify_eq; try done; try (f_equal; lia); try lia.
Qed.

Lemma shift_or v d : 0 <= v -> 0 <= d < 16 -> Z.lor (Z.shiftl v 4) d = v * 16 + d.
Proof. intros _. apply (lor_shift_add d v 4). lia. Qed.

Lemma hex_horner_mono l : forall v, Forall (Cstr.digit_in 16) l -> 0 <= v -> v <= Cstr.horner 16 l v.
Proof.
  induction l as [|c l IH]; intros v Hl Hv; [simpl; lia|]. apply Forall_cons in Hl as [(d & Hd & Hr) Hl].
  change (Cstr.horner 16 (c :: l) v) with (Cstr.horner 16 l (v * 16 + default 0 (Cstr.digit_value c))).
  rewrite Hd. cbn [default]. etrans; [|apply IH]; [simpl|done|simpl]; lia.
Qed.

(** Reading digits up to a character that is none. *)
Lemma parse_hex_horner l rest : (match rest with [] => True | c :: _ => hex_digit c = None end) ->
  Forall (Cstr.digit_in 16) l -> forall v, 0 <= v -> Cstr.horner 16 l v < 2 ^ 64 ->
  parse_hex_loop (l ++ rest) v = Cstr.horner 16 l v.
Proof.
  intros Hrest. induction l as [|c l IH]; intros Hl v Hv Hb.
  - cbn [app]. destruct rest as [|c rest]; [done|]. cbn [parse_hex_loop]. by rewrite Hrest.
  - apply Forall_cons in Hl as [(d & Hd & Hr) Hl]. cbn [app parse_hex_loop].
    rewrite (hex_digit_value c d) by done.
    change (Cstr.horner 16 (c :: l) v) with (Cstr.horner 16 l (v * 16 + default 0 (Cstr.digit_value c))) in *.
    rewrite Hd in *. simpl default in *. assert (0 <= v * 16 + d) as H0 by lia.
    pose proof (hex_horner_mono l (v * 16 + d) Hl H0).
    rewrite u64_small, shift_or by (rewrite ?Z.shiftl_mul_pow2 by lia; change (2 ^ 4) with 16; lia).
    apply IH; [done|lia|done].
Qed.

Lemma parse_hex_padded v w rest : 0 <= v < 2 ^ 64 ->
  (match rest with [] => True | c :: _ => hex_digit c = None end) ->
  parse_hex64 (padded (number v 16 false) w false 48 ++ rest) = v.
Proof.
  intros Hv Hrest. destruct (number_spec v 16 false ltac:(lia) Hv) as (Hne & Hd & _ & Hh).
  unfold padded. cbn [andb Z.eqb Pos.eqb].
  destruct (nth 0 (number v 16 false) 0 =? 45) eqn:E.
  { exfalso. apply Z.eqb_eq in E. destruct (number v 16 false) as [|c l]; [done|]. cbn in E. subst c.
    apply Forall_cons in Hd as [(d & Hd & _) _]. done. }
  set (k := Z.to_nat _). clearbody k.
  assert (parse_hex64 ((repeat 48 k ++ number v 16 false) ++ rest) = parse_hex64 (number v 16 false ++ rest)) as ->.
  { rewrite <- app_assoc. induction k as [|k IH]; [done|]. rewrite <- IH. done. }
  unfold parse_hex64. by rewrite parse_hex_horner by (rewrite ?Hh; lia || done).
Qed.

(** ** Writing the files leaves the table alone *)

Definition same_table (s s' : users_state) : Prop :=
  users s' = users s /\ current_user s' = current_user s.

(** The result of a chain of fallible steps that ends in [with_fs s _]. *)
Ltac same_table_tac H :=
  repeat match type of H with
  | (?x ≫= _) = Some _ => destruct x as [[? ?]|] || destruct x as [?|]; [rewrite bind_some in H|done]
  end; by injection H as <-.

Lemma rebuild_passwd_same ok s s' : rebuild_passwd ok s = Some s' -> same_table s s'.
Proof. unfold rebuild_passwd. intros H. destruct (build_text _ _ _); [rewrite bind_some in H|done]. same_table_tac H. Qed.

Lemma rebuild_group_same ok s s' : rebuild_group ok s = Some s' -> same_table s s'.
Proof. unfold rebuild_group. intros H. destruct (build_text _ _ _); [rewrite bind_some in H|done]. same_table_tac H. Qed.

Lemma rebuild_shadow_same ok s s' : rebuild_shadow ok s = Some s' -> same_table s s'.
Proof. unfold rebuild_shadow. intros H. destruct (build_text _ _ _); [rewrite bind_some in H|done]. same_table_tac H. Qed.

Lemma rebuild_all_same ok s s' : rebuild_all ok s = Some s' -> same_table s s'.
Proof.
  unfold rebuild_all, same_table. intros H. destruct (rebuild_passwd ok s) as [s1|] eqn:E1; [|done].
  rewrite bind_some in H. destruct (rebuild_group ok s1) as [s2|] eqn:E2; [|done]. rewrite bind_some in H.
  apply rebuild_passwd_same in E1 as [A1 B1].
  apply rebuild_group_same in E2 as [A2 B2]. apply rebuild_shadow_same in H as [A3 B3]. split; congruence.
Qed.

(** ** Cutting the shadow file's lines *)

Lemma split_at_char_app sep a b : sep ∉ a -> split_at_char sep (a ++ sep :: b) = Some (a, b).
Proof.
  induction a as [|c a IH]; intros Ha; cbn [app split_at_char]; [by rewrite Z.eqb_refl|].
  apply not_elem_of_cons in Ha as [Hc Ha]. rewrite (proj2 (Z.eqb_neq c sep)) by done.
  by rewrite IH.
Qed.

Lemma hex_no_dollar v w : 0 <= v < 2 ^ 64 -> DOLLAR ∉ padded (number v 16 false) w false 48.
Proof.
  intros Hv. destruct (number_spec v 16 false ltac:(lia) Hv) as (_ & Hd & _ & _).
  assert (DOLLAR ∉ number v 16 false) as Hn.
  { intros Hin. rewrite Forall_forall in Hd. destruct (Hd _ Hin) as (d & Hd' & _). done. }
  assert (forall k, DOLLAR ∉ repeat 48 k) as Hr.
  { intros k H. apply list_elem_of_In, repeat_spec in H. done. }
  unfold padded. cbn [andb Z.eqb Pos.eqb]. destruct (nth 0 (number v 16 false) 0 =? 45).
  - intros [E|[H|H]%elem_of_app]%elem_of_cons; [done|by apply Hr in H|].
    apply Hn. destruct (number v 16 false); [done|]. by right.
  - intros [H|H]%elem_of_app; [by apply Hr in H|done].
Qed.

(** What reading a line of a record with a password does to a table. *)
Lemma parse_shadow_text u us i x : find_index (named (u_name u)) us = Some i -> us !! i = Some x ->
  u_set u = true -> 0 <= u_salt u < 2 ^ 32 -> 0 <= u_hash u < 2 ^ 64 -> COLON ∉ u_name u ->
  forall tail, parse_shadow_line (u_name u ++ str ":tnu1$" ++ hex8 (u_salt u) ++ [DOLLAR] ++ hex16 (u_hash u) ++ COLON :: tail) us
  = <[i := set_secret x (u_salt u) (u_hash u) true]> us.
Proof.
  intros Hi Hx Hs H1 H2 Hc tail. unfold parse_shadow_line.
  change (str ":tnu1$" ++ ?l) with (COLON :: str "tnu1$" ++ l).
  rewrite split_at_char_app by done. change (str "tnu1$" ++ ?l) with (116 :: str "nu1$" ++ l).
  cbv iota beta. rewrite Hi. change (116 :: str "nu1$" ++ ?l) with (scheme_prefix ++ l).
  rewrite take_app_length' by done. rewrite drop_app_length' by done.
  destruct (bytes_eq_spec scheme_prefix scheme_prefix); [|done]. cbn [negb].
  change ([DOLLAR] ++ ?l) with (DOLLAR :: l).
  rewrite split_at_char_app by (apply hex_no_dollar; lia). rewrite Hx.
  unfold hex16. rewrite parse_hex_padded by done.
  assert (parse_hex64 (hex8 (u_salt u)) = u_salt u) as ->; [|by rewrite u32_small].
  unfold hex8. rewrite <- (app_nil_r (padded _ _ _ _)). apply parse_hex_padded; [lia|done].
Qed.

(** ** Properties *)


(** The file system after boot. *)
Definition boot_fs : vfs := default (Vfs [] None 0 0) (vfs_init 0).


(** A shadow line survives a restart: the line written for a record with a
    password, read back into any table that has a record of that name, gives
    the first such record the same salt and hash and changes no other. *)
Theorem shadow_roundtrip u us i x : find_index (named (u_name u)) us = Some i -> us !! i = Some x ->
  u_set u = true -> 0 <= u_salt u < 2 ^ 32 -> 0 <= u_hash u < 2 ^ 64 ->
  (length (u_name u) <= USER_NAME_MAX)%nat -> COLON ∉ u_name u ->
  exists line, shadow_line u = Some (line ++ [NEWLINE]) /\
    parse_shadow_line line us = <[i := set_secret x (u_salt u) (u_hash u) true]> us.
Proof.
  intros Hi Hx Hs H1 H2 Hl Hc. rewrite shadow_line_eq by done. unfold shadow_text. rewrite Hs.
  rewrite u32_small, u64_small by lia. unfold shadow_tail.
  change (str ":0:0:99999:7:::") with (COLON :: str "0:0:99999:7:::").
  eexists. split; [|by apply (parse_shadow_text u us i x)]. by rewrite <- !app_assoc.
Qed.

(** A record with a password. *)
Definition alice : user_record :=
  User (str "alice") 1000 1000 (str "/home/alice") (str "/bin/tsh") 0xdeadbeef 0x0123456789abcdef true.
Definition alice_fresh : user_record := set_secret alice 7 0 false.

Lemma shadow_roundtrip_witness : exists line, shadow_line alice = Some (line ++ [NEWLINE]) /\
  parse_shadow_line line (root_record [] ++ [alice_fresh]) =
  <[1%nat := set_secret alice_fresh 0xdeadbeef 0x0123456789abcdef true]> (root_record [] ++ [alice_fresh]).
Proof.
  apply (shadow_roundtrip alice (root_record [] ++ [alice_fresh]) 1 alice_fresh);
    [reflexivity|reflexivity|reflexivity|split; [discriminate|reflexivity]|split; [discriminate|reflexivity]| |].
  - vm_compute. repeat constructor.
  - vm_compute. intros H. repeat (apply elem_of_cons in H as [H|H]; [discriminate|]). by apply elem_of_nil in H.
Defined.

(** A password that was set is accepted and every other account is as
    before: after [user_set_password] succeeded, [user_check_password] says yes
    for the same name and password and answers for other names as it did. *)
Theorem set_then_check ok name pw s s' : user_set_password ok (Some name) (Some pw) s = Some (s', 0) ->
  user_check_password name (Some pw) s' = Some true /\
  forall other p, other <> name -> user_check_password other p s' = user_check_password other p s.
Proof.
  unfold user_set_password. destruct (find_index (named name) (users s)) as [i|] eqn:Ei; [|done].
  destruct (find_index_some _ _ _ Ei) as (u & Hu & Hn & _). rewrite Hu, bind_some. cbv zeta.
  match goal with |- context [?x ≫= (fun u' : user_record => _)] => destruct x as [u'|] eqn:Eu end; [|done].
  rewrite bind_some. destruct (rebuild_shadow ok _) as [s1|] eqn:Er; [|done]. intros [= <-].
  apply rebuild_shadow_same in Er as [Es _]. cbn [users with_users] in Es.
  assert (u_name u' = u_name u) as Hn'.
  { destruct pw as [|c pw]; [by injection Eu as <-|].
    destruct (hash_password _ (c :: pw)); [|done]. rewrite bind_some in Eu. by injection Eu as <-. }
  assert (forall n, find_index (named n) (users s1) = find_index (named n) (users s)) as Hfind.
  { intros n. rewrite Es. apply (find_index_insert _ _ i u); [done|]. unfold named. by rewrite Hn'. }
  unfold user_check_password, user_find_name. split.
  - rewrite Hfind, Ei, bind_some, Es, list_lookup_insert_eq by (by apply lookup_lt_Some in Hu).
    destruct pw as [|c pw]; [by injection Eu as <-|]. set (salt := Z.lxor _ _) in Eu.
    destruct (hash_password salt (c :: pw)) as [h|] eqn:Eh; [|done]. rewrite bind_some in Eu. injection Eu as <-.
    clearbody salt. cbn [u_set set_secret negb u_salt u_hash].
    change (default [] (Some (c :: pw))) with (c :: pw). by rewrite Eh, bind_some, Z.eqb_refl.
  - intros other p Ho. rewrite Hfind. destruct (find_index (named other) (users s)) as [j|] eqn:Ej; [|done].
    destruct (find_index_some _ _ _ Ej) as (x & Hx & Hxn & _). rewrite !bind_some, Es.
    rewrite list_lookup_insert_ne; [done|]. intros ->. rewrite Hu in Hx. injection Hx as <-.
    unfold named in Hn, Hxn. destruct (bytes_eq_spec (u_name u) name), (bytes_eq_spec (u_name u) other); congruence.
Qed.

Definition demo_users : users_state :=
  Users (root_record [] ++ [alice_fresh; set_secret (User (str "bob") 1001 1001 [] [] 0 0 false) 1 0 false]) 2
        boot_fs.

Definition demo_after : users_state :=
  default demo_users (fst <$> user_set_password (fun _ => true) (Some (str "alice")) (Some (str "pw")) demo_users).

Lemma set_then_check_witness : user_check_password (str "alice") (Some (str "pw")) demo_after = Some true.
Proof.
  refine (proj1 (set_then_check (fun _ => true) (str "alice") (str "pw") demo_users demo_after _)).
  vm_compute. reflexivity.
Defined.

(** Deleting another account can change who is logged in: when the current
    user is the last record and an earlier one is deleted, [user_del] compares
    the old index with the new length and falls back to record 0, whose uid is
    another one, although the user that was logged in is still in the table. *)
Theorem del_switches_user ok name s s' i u : table_ok (users s) (current_user s) ->
  find_index (fun u => named name u && negb (u_uid u =? 0)) (users s) = Some i ->
  (0 < i < current_user s)%nat -> current_user s = pred (length (users s)) -> user_current s = Some u ->
  user_del ok name s = Some (s', 0) ->
  u ∈ users s' /\ exists r, user_current s' = Some r /\ users s !! 0%nat = Some r /\ u_uid r <> u_uid u.
Proof.
  intros (Hc & Hnd & _) Hi Hlt Hlast Hu. unfold user_del. rewrite Hi.
  destruct (find_index_some _ _ _ Hi) as (d & Hd & _ & _).
  set (us := take i (users s) ++ drop (S i) (users s)).
  assert (length us = pred (length (users s))) as Hlen.
  { unfold us. rewrite length_app, length_take, length_drop. lia. }
  rewrite (proj2 (Nat.leb_le (length us) (current_user s))) by lia. rewrite orb_true_r.
  intros H. destruct (rebuild_all ok _) as [s1|] eqn:Er; [|done]. rewrite bind_some in H. injection H as <-.
  apply rebuild_all_same in Er as [Es Ec]. cbn [users current_user] in Es, Ec.
  assert (users s1 !! 0%nat = users s !! 0%nat) as H0.
  { rewrite Es. unfold us. rewrite lookup_app_l by (rewrite length_take; lia). by rewrite lookup_take_lt by lia. }
  destruct (lookup_lt_is_Some_2 (users s) 0) as [r Hr]; [lia|]. split.
  - rewrite Es. unfold us. apply elem_of_app. right. apply list_elem_of_lookup.
    exists (current_user s - S i)%nat. rewrite lookup_drop. rewrite <- Hu. unfold user_current. f_equal. lia.
  - exists r. unfold user_current. rewrite Ec, H0. split; [done|]. split; [done|]. intros E.
    assert (map u_uid (users s) !! 0%nat = Some (u_uid r)) as M0
      by (change (map ?f ?l) with (f <$> l); by rewrite list_lookup_fmap, Hr).
    assert (map u_uid (users s) !! current_user s = Some (u_uid u)) as M1
      by (change (map ?f ?l) with (f <$> l); rewrite list_lookup_fmap; unfold user_current in Hu; by rewrite Hu).
    rewrite E in M0. pose proof (NoDup_lookup _ _ _ _ Hnd M0 M1). lia.
Qed.

Definition demo_deleted : users_state :=
  default demo_users (fst <$> user_del (fun _ => true) (str "alice") demo_users).

Lemma del_switches_user_witness : user_current demo_deleted = users demo_users !! 0%nat.
Proof.
  edestruct (del_switches_user (fun _ => true) (str "alice") demo_users demo_deleted 1) as (_ & r & -> & -> & _).
  - split; [vm_compute; lia|]. split; [refine (bool_decide_eq_true_1 _ _); vm_compute; reflexivity|].
    eexists. split; [left|]. split; reflexivity.
  - reflexivity.
  - vm_compute. lia.
  - reflexivity.
  - reflexivity.
  - vm_compute. reflexivity.
  - reflexivity.
Defined.
