(* ===== verification/Net.v ===== *)
(** * kernel/drivers/net/net.c

    The network stack: Ethernet, ARP, IPv4, ICMP echo, UDP, DNS and DHCP on the
    interfaces of the table. A frame is its bytes; a read outside the bytes a
    function was given is undefined: [None]. What is not code of this file is
    the class [NetDevice]: sending a frame, polling for received ones and the
    clock of the timer interrupt, over the states [E] of the hardware. *)
From S2P Require Import Prelude Buf KString Printf.

Class NetDevice (E : Type) := {
  (* the operations of [struct net_driver_ops]; the result of [transmit] is its
     return value, that of [poll] the frames it hands to the callback *)
  transmit : E -> list Z -> E * Z;
  poll : E -> E * list (list Z);
  pit_ticks : E -> E * Z }.

Definition ETH_TYPE_IPV4 : Z := 0x0800.
Definition ETH_TYPE_ARP : Z := 0x0806.
Definition IP_PROTO_ICMP : Z := 1.
Definition IP_PROTO_UDP : Z := 17.
Definition DNS_PORT : Z := 53.
Definition DNS_SOURCE_PORT : Z := 49153.
Definition DHCP_SERVER_PORT : Z := 67.
Definition DHCP_CLIENT_PORT : Z := 68.
Definition DHCP_MAGIC : Z := 0x63825363.
Definition NET_IFACE_MAX : nat := 8.
Definition NET_NAME_MAX : nat := 15.

Inductive net_iface_type := NET_IFACE_LOOPBACK | NET_IFACE_ETHERNET | NET_IFACE_WIFI.

Record net_iface := Iface {
  if_name : list Z; if_type : net_iface_type; if_up : bool; if_link : bool; if_mac : list Z;
  if_ipv4 : Z; if_netmask : Z; if_rx_packets : Z; if_tx_packets : Z; if_rx_bytes : Z; if_tx_bytes : Z;
  if_gateway : Z; if_dns_server : Z; if_configurable : bool;
  (* whether [ops] and its two members are set *)
  if_transmit : bool; if_poll : bool;
  if_arp_ip : Z; if_arp_mac : list Z; if_arp_valid : bool }.

Definition set_arp (i : net_iface) (ip : Z) (mac : list Z) (valid : bool) : net_iface :=
  Iface (if_name i) (if_type i) (if_up i) (if_link i) (if_mac i) (if_ipv4 i) (if_netmask i)
    (if_rx_packets i) (if_tx_packets i) (if_rx_bytes i) (if_tx_bytes i) (if_gateway i) (if_dns_server i)
    (if_configurable i) (if_transmit i) (if_poll i) ip mac valid.
Definition set_addr (i : net_iface) (ipv4 netmask gateway dns : Z) (up : bool) : net_iface :=
  Iface (if_name i) (if_type i) up (if_link i) (if_mac i) ipv4 netmask
    (if_rx_packets i) (if_tx_packets i) (if_rx_bytes i) (if_tx_bytes i) gateway dns
    (if_configurable i) (if_transmit i) (if_poll i) (if_arp_ip i) (if_arp_mac i) (if_arp_valid i).
Definition count_ping (i : net_iface) : net_iface :=
  Iface (if_name i) (if_type i) (if_up i) (if_link i) (if_mac i) (if_ipv4 i) (if_netmask i)
    (u64 (if_rx_packets i + 1)) (u64 (if_tx_packets i + 1)) (u64 (if_rx_bytes i + 64)) (u64 (if_tx_bytes i + 64))
    (if_gateway i) (if_dns_server i)
    (if_configurable i) (if_transmit i) (if_poll i) (if_arp_ip i) (if_arp_mac i) (if_arp_valid i).

Record ping_wait := Ping { pw_target : Z; pw_id : Z; pw_sequence : Z; pw_complete : bool }.
Record dns_wait := Dns { dw_id : Z; dw_port : Z; dw_server : Z; dw_answer : Z; dw_complete : bool }.
Record dhcp_wait := Dhcp {
  hw_xid : Z; hw_expected : Z; hw_offered : Z; hw_server_id : Z; hw_netmask : Z; hw_gateway : Z;
  hw_dns : Z; hw_complete : bool }.

(** What the frames of one poll are looked at for; [None] is NULL. *)
Record poll_ctx := Ctx { pc_ping : option ping_wait; pc_dns : option dns_wait; pc_dhcp : option dhcp_wait }.

(** ** Bytes *)

Definition byte (l : list Z) (o : Z) : option Z := if 0 <=? o then l !! Z.to_nat o else None.

Definition be16 (l : list Z) (o : Z) : option Z :=
  a ← byte l o; b ← byte l (o + 1); Some (Z.lor (Z.shiftl a 8) b).

Definition be32 (l : list Z) (o : Z) : option Z :=
  a ← byte l o; b ← byte l (o + 1); c ← byte l (o + 2); d ← byte l (o + 3);
  Some (Z.lor (Z.lor (Z.lor (Z.shiftl a 24) (Z.shiftl b 16)) (Z.shiftl c 8)) d).

Definition put16 (v : Z) : list Z := [u8 (Z.shiftr v 8); u8 v].
Definition put32 (v : Z) : list Z := [u8 (Z.shiftr v 24); u8 (Z.shiftr v 16); u8 (Z.shiftr v 8); u8 v].

Definition ipv4_make (a b c d : Z) : Z :=
  Z.lor (Z.lor (Z.lor (Z.shiftl a 24) (Z.shiftl b 16)) (Z.shiftl c 8)) d.

(** The sum of the 16-bit words; a last odd byte counts as the high one. *)
Fixpoint sum_words (l : list Z) (sum : Z) : Z :=
  match l with
  | a :: b :: l => sum_words l (u32 (sum + Z.lor (Z.shiftl a 8) b))
  | [a] => u32 (sum + Z.shiftl a 8)
  | [] => sum
  end.

Fixpoint fold_loop (fuel : nat) (sum : Z) : option Z :=
  match fuel with
  | O => None
  | S f => if Z.shiftr sum 16 =? 0 then Some sum
           else fold_loop f (u32 (Z.land sum 0xffff + Z.shiftr sum 16))
  end.

Definition inet_checksum (l : list Z) : option Z :=
  s ← fold_loop 4 (sum_words l 0); Some (u16 (Z.lnot s)).

Definition mac_is_usable (mac : list Z) : bool :=
  negb (forallb (Z.eqb 0) mac) && negb (forallb (Z.eqb 0xff) mac).

(** ** Receiving *)

Section Device.
Context {E : Type} {ND : NetDevice E}.

Definition broadcast_mac : list Z := replicate 6 0xff.

Definition build_eth (dst src : list Z) (type : Z) : list Z := dst ++ src ++ put16 type.

(** Sending when the interface has a driver. *)
Definition net_transmit (i : net_iface) (frame : list Z) (e : E) : E * Z :=
  if if_transmit i then transmit e frame else (e, -1).

Definition arp_frame (i : net_iface) (target_ip : Z) (target_mac : list Z) (op : Z) : list Z :=
  build_eth (if op =? 1 then broadcast_mac else target_mac) (if_mac i) ETH_TYPE_ARP ++
  put16 1 ++ put16 ETH_TYPE_IPV4 ++ [6; 4] ++ put16 op ++
  if_mac i ++ put32 (if_ipv4 i) ++ (if op =? 2 then target_mac else replicate 6 0) ++ put32 target_ip ++
  replicate 18 0.

Definition send_arp (i : net_iface) (target_ip : Z) (target_mac : list Z) (op : Z) (e : E) : E * Z :=
  net_transmit i (arp_frame i target_ip target_mac op) e.

Definition send_arp_reply (i : net_iface) (arp : list Z) (e : E) : option E :=
  mac ← slice arp 8 6; ip ← be32 arp 14; Some (fst (send_arp i ip mac 2 e)).

(** An IPv4 header with its checksum. *)
Definition ipv4_header (total id proto src dst : Z) : option (list Z) :=
  let h ck := [0x45; 0] ++ put16 total ++ put16 id ++ put16 0 ++ [64; proto] ++ put16 ck ++
              put32 src ++ put32 dst in
  ck ← inet_checksum (h 0); Some (h ck).

Definition icmp_echo (id sequence : Z) : option (list Z) :=
  let m ck := [8; 0] ++ put16 ck ++ put16 id ++ put16 sequence ++
              map (fun k => u8 (65 + Z.of_nat k mod 26)) (seq 0 32) in
  ck ← inet_checksum (m 0); Some (m ck).

Definition send_icmp_echo (i : net_iface) (dst_mac : list Z) (target_ip id sequence : Z) (e : E)
    : option (E * Z) :=
  h ← ipv4_header (20 + 8 + 32) sequence IP_PROTO_ICMP (if_ipv4 i) target_ip;
  m ← icmp_echo id sequence;
  Some (net_transmit i (build_eth dst_mac (if_mac i) ETH_TYPE_IPV4 ++ h ++ m) e).

Definition send_udp4_from (i : net_iface) (dst_mac : list Z) (source_ip target_ip src_port dst_port : Z)
    (payload : list Z) (e : E) : option (E * Z) :=
  let n := Z.of_nat (length payload) in
  if 512 <? n then Some (e, -1)
  else
    h ← ipv4_header (20 + 8 + n) src_port IP_PROTO_UDP source_ip target_ip;
    Some (net_transmit i (build_eth dst_mac (if_mac i) ETH_TYPE_IPV4 ++ h ++
            put16 src_port ++ put16 dst_port ++ put16 (8 + n) ++ put16 0 ++ payload) e).

Definition send_udp4 (i : net_iface) (dst_mac : list Z) (target_ip src_port dst_port : Z)
    (payload : list Z) (e : E) : option (E * Z) :=
  send_udp4_from i dst_mac (if_ipv4 i) target_ip src_port dst_port payload e.

Definition process_arp (i : net_iface) (payload : list Z) (e : E) : option (net_iface * E) :=
  if (length payload <? 28)%nat then Some (i, e)
  else
    hw ← be16 payload 0; proto ← be16 payload 2; hlen ← byte payload 4; plen ← byte payload 5;
    if negb (hw =? 1) || negb (proto =? ETH_TYPE_IPV4) || negb (hlen =? 6) || negb (plen =? 4)
    then Some (i, e)
    else
      op ← be16 payload 6; sender_ip ← be32 payload 14; target_ip ← be32 payload 24;
      if (op =? 2) && (target_ip =? if_ipv4 i) then
        mac ← slice payload 8 6; Some (set_arp i sender_ip mac true, e)
      else if (op =? 1) && (target_ip =? if_ipv4 i) then
        e ← send_arp_reply i payload e; Some (i, e)
      else Some (i, e).

(** The offset after a name; [Some None] for a return value of -1. *)
Fixpoint dns_skip_loop (guard : nat) (msg : list Z) (pos : Z) : option (option Z) :=
  match guard with
  | O => Some None
  | S g =>
    if Z.of_nat (length msg) <=? pos then Some None
    else
      len ← byte msg pos;
      let pos := pos + 1 in
      if len =? 0 then Some (Some pos)
      else if Z.land len 0xc0 =? 0xc0 then
        if Z.of_nat (length msg) <=? pos then Some None else Some (Some (pos + 1))
      else if negb (Z.land len 0xc0 =? 0) then Some None
      else if Z.of_nat (length msg) <? pos + len then Some None
      else dns_skip_loop g msg (pos + len)
  end.

Definition dns_skip_name (msg : list Z) (offset : Z) : option (option Z) :=
  dns_skip_loop (length msg) msg offset.

(** The question section; [Some None] when the message is dropped. *)
Fixpoint dns_questions (n : nat) (msg : list Z) (offset : Z) : option (option Z) :=
  match n with
  | O => Some (Some offset)
  | S n =>
    o ← dns_skip_name msg offset;
    match o with
    | None => Some None
    | Some o => if Z.of_nat (length msg) <? o + 4 then Some None else dns_questions n msg (o + 4)
    end
  end.

(** The first IPv4 address among the answers. *)
Fixpoint dns_answers (n : nat) (msg : list Z) (offset : Z) : option (option Z) :=
  match n with
  | O => Some None
  | S n =>
    o ← dns_skip_name msg offset;
    match o with
    | None => Some None
    | Some o =>
      if Z.of_nat (length msg) <? o + 10 then Some None
      else
        type ← be16 msg o; class ← be16 msg (o + 2); rdlen ← be16 msg (o + 8);
        let o := o + 10 in
        if Z.of_nat (length msg) <? o + rdlen then Some None
        else if (type =? 1) && (class =? 1) && (rdlen =? 4) then a ← be32 msg o; Some (Some a)
        else dns_answers n msg (o + rdlen)
    end
  end.

Definition process_dns (dns : option dns_wait) (payload : list Z) (src_ip src_port dst_port : Z)
    : option (option dns_wait) :=
  match dns with
  | None => Some None
  | Some d =>
    if dw_complete d || (length payload <? 12)%nat || negb (src_ip =? dw_server d) ||
       negb (src_port =? DNS_PORT) || negb (dst_port =? dw_port d)
    then Some (Some d)
    else
      id ← be16 payload 0;
      if negb (id =? dw_id d) then Some (Some d)
      else
        flags ← be16 payload 2;
        if (Z.land flags 0x8000 =? 0) || negb (Z.land flags 0x000f =? 0) then Some (Some d)
        else
          qdcount ← be16 payload 4; ancount ← be16 payload 6;
          o ← dns_questions (Z.to_nat qdcount) payload 12;
          match o with
          | None => Some (Some d)
          | Some o =>
            a ← dns_answers (Z.to_nat ancount) payload o;
            match a with
            | None => Some (Some d)
            | Some a => Some (Some (Dns (dw_id d) (dw_port d) (dw_server d) a true))
            end
          end
  end.

(** The options that matter of a DHCP message. *)
Record dhcp_opts := Opts { op_type : Z; op_server : Z; op_netmask : Z; op_gateway : Z; op_dns : Z }.

Definition dhcp_option (opt : Z) (data : list Z) (o : dhcp_opts) : option dhcp_opts :=
  let n := Z.of_nat (length data) in
  if (opt =? 1) && (4 <=? n) then
    v ← be32 data 0; Some (Opts (op_type o) (op_server o) v (op_gateway o) (op_dns o))
  else if (opt =? 3) && (4 <=? n) then
    v ← be32 data 0; Some (Opts (op_type o) (op_server o) (op_netmask o) v (op_dns o))
  else if (opt =? 6) && (4 <=? n) then
    v ← be32 data 0; Some (Opts (op_type o) (op_server o) (op_netmask o) (op_gateway o) v)
  else if (opt =? 53) && (1 <=? n) then
    v ← byte data 0; Some (Opts v (op_server o) (op_netmask o) (op_gateway o) (op_dns o))
  else if (opt =? 54) && (4 <=? n) then
    v ← be32 data 0; Some (Opts (op_type o) v (op_netmask o) (op_gateway o) (op_dns o))
  else Some o.

(** [Some None] when the message is dropped. *)
Fixpoint dhcp_options (fuel : nat) (payload : list Z) (off : Z) (o : dhcp_opts) : option (option dhcp_opts) :=
  match fuel with
  | O => None
  | S f =>
    if Z.of_nat (length payload) <=? off then Some (Some o)
    else
      opt ← byte payload off;
      let off := off + 1 in
      if opt =? 0 then dhcp_options f payload off o
      else if opt =? 255 then Some (Some o)
      else if Z.of_nat (length payload) <=? off then Some None
      else
        opt_len ← byte payload off;
        let off := off + 1 in
        if Z.of_nat (length payload) <? off + opt_len then Some None
        else
          data ← slice payload off opt_len;
          o ← dhcp_option opt data o;
          dhcp_options f payload (off + opt_len) o
  end.

Definition process_dhcp (dhcp : option dhcp_wait) (payload : list Z) (src_port dst_port : Z)
    : option (option dhcp_wait) :=
  match dhcp with
  | None => Some None
  | Some d =>
    if hw_complete d || negb (src_port =? DHCP_SERVER_PORT) || negb (dst_port =? DHCP_CLIENT_PORT) ||
       (Z.of_nat (length payload) <? 240)
    then Some (Some d)
    else
      b0 ← byte payload 0; b1 ← byte payload 1; b2 ← byte payload 2;
      xid ← be32 payload 4; magic ← be32 payload 236;
      if negb (b0 =? 2) || negb (b1 =? 1) || negb (b2 =? 6) || negb (xid =? hw_xid d) ||
         negb (magic =? DHCP_MAGIC)
      then Some (Some d)
      else
        o ← dhcp_options (S (length payload)) payload 240 (Opts 0 0 0 0 0);
        match o with
        | None => Some (Some d)
        | Some o =>
          if negb (op_type o =? hw_expected d) then Some (Some d)
          else
            ip ← be32 payload 16;
            Some (Some (Dhcp (hw_xid d) (hw_expected d) ip (op_server o)
              (if op_netmask o =? 0 then ipv4_make 255 255 255 0 else op_netmask o) (op_gateway o)
              (if op_dns o =? 0 then op_gateway o else op_dns o) (negb (ip =? 0))))
        end
  end.

Definition process_ipv4 (i : net_iface) (payload : list Z) (c : poll_ctx) : option poll_ctx :=
  let len := Z.of_nat (length payload) in
  if len <? 20 then Some c
  else
    b0 ← byte payload 0;
    if negb (Z.shiftr b0 4 =? 4) then Some c
    else
      let ihl := Z.land b0 0x0f * 4 in
      dst_ip ← be32 payload 16;
      if (ihl <? 20) || (len <? ihl + 8) ||
         (negb (dst_ip =? if_ipv4 i) && negb (dst_ip =? ipv4_make 255 255 255 255))
      then Some c
      else
        src_ip ← be32 payload 12; proto ← byte payload 9;
        if proto =? IP_PROTO_ICMP then
          match pc_ping c with
          | None => Some c
          | Some p =>
            type ← byte payload ihl; id ← be16 payload (ihl + 4); sequence ← be16 payload (ihl + 6);
            if (type =? 0) && (id =? pw_id p) && (sequence =? pw_sequence p) && (src_ip =? pw_target p)
            then Some (Ctx (Some (Ping (pw_target p) (pw_id p) (pw_sequence p) true)) (pc_dns c) (pc_dhcp c))
            else Some c
          end
        else if proto =? IP_PROTO_UDP then
          src_port ← be16 payload ihl; dst_port ← be16 payload (ihl + 2); udp_len ← be16 payload (ihl + 4);
          if (8 <=? udp_len) && (ihl + udp_len <=? len) then
            data ← slice payload (ihl + 8) (udp_len - 8);
            dhcp ← process_dhcp (pc_dhcp c) data src_port dst_port;
            dns ← process_dns (pc_dns c) data src_ip src_port dst_port;
            Some (Ctx (pc_ping c) dns dhcp)
          else Some c
        else Some c.

Definition process_frame_ctx (i : net_iface) (frame : list Z) (c : poll_ctx) (e : E)
    : option (net_iface * poll_ctx * E) :=
  if (length frame <? 14)%nat then Some (i, c, e)
  else
    type ← be16 frame 12;
    let payload := drop 14 frame in
    if type =? ETH_TYPE_ARP then '(i, e) ← process_arp i payload e; Some (i, c, e)
    else if type =? ETH_TYPE_IPV4 then c ← process_ipv4 i payload c; Some (i, c, e)
    else Some (i, c, e).

(** The driver hands the received frames to [process_frame_ctx] one by one. *)
Fixpoint process_frames (i : net_iface) (frames : list (list Z)) (c : poll_ctx) (e : E)
    : option (net_iface * poll_ctx * E) :=
  match frames with
  | [] => Some (i, c, e)
  | f :: frames => '(i, c, e) ← process_frame_ctx i f c e; process_frames i frames c e
  end.

Definition net_poll_iface (i : net_iface) (c : poll_ctx) (e : E) : option (net_iface * poll_ctx * E) :=
  if negb (if_poll i) then Some (i, c, e)
  else let '(e, frames) := poll e in process_frames i frames c e.

Definition same_subnet (a b mask : Z) : bool := Z.land a mask =? Z.land b mask.

(** ** Waiting for an answer *)

(** [while (pit_ticks() - start < limit) { net_poll_iface(...); if (done) ... }]:
    whether the wait ended with [done]. *)
Fixpoint wait_loop (fuel : nat) (limit start : Z) (done : net_iface -> poll_ctx -> bool)
    (i : net_iface) (c : poll_ctx) (e : E) : option (net_iface * poll_ctx * E * bool) :=
  match fuel with
  | O => None
  | S f =>
    let '(e, now) := pit_ticks e in
    if u64 (now - start) <? limit then
      '(i, c, e) ← net_poll_iface i c e;
      if done i c then Some (i, c, e, true) else wait_loop f limit start done i c e
    else Some (i, c, e, false)
  end.

Definition no_ctx : poll_ctx := Ctx None None None.
Definition arp_known (ip : Z) (i : net_iface) : bool := if_arp_valid i && (if_arp_ip i =? ip).

(** The hardware address; [None] inside for a return value of -1. *)
Definition resolve_mac (fuel : nat) (i : net_iface) (ip : Z) (e : E) : option (net_iface * E * option (list Z)) :=
  if negb (if_transmit i) || negb (if_poll i) then Some (i, e, None)
  else if arp_known ip i then Some (i, e, Some (if_arp_mac i))
  else
    let '(e, rc) := send_arp i ip [] 1 e in
    if rc <? 0 then Some (i, e, None)
    else
      let '(e, start) := pit_ticks e in
      '(i, _, e, ok) ← wait_loop fuel 200 start (fun i _ => arp_known ip i) i no_ctx e;
      Some (i, e, if (ok : bool) then Some (if_arp_mac i) else None).

(** ** DHCP *)

Definition dhcp_put_option (opt : Z) (data : list Z) : list Z := [opt; Z.of_nat (length data)] ++ data.

Definition dhcp_packet (i : net_iface) (msg_type xid requested_ip server_id : Z) : list Z :=
  let head := [1; 1; 6; 0] ++ put32 xid ++ zeros 2 ++ put16 0x8000 ++ zeros 16 ++ if_mac i ++
              zeros 202 ++ put32 DHCP_MAGIC in
  let opts := dhcp_put_option 53 [msg_type] ++ dhcp_put_option 61 (1 :: if_mac i) ++
              dhcp_put_option 55 [1; 3; 6] ++
              (if requested_ip =? 0 then [] else dhcp_put_option 50 (put32 requested_ip)) ++
              (if server_id =? 0 then [] else dhcp_put_option 54 (put32 server_id)) in
  pad 300 (head ++ opts ++ [255]).

Definition send_dhcp_message (i : net_iface) (msg_type xid requested_ip server_id : Z) (e : E)
    : option (E * Z) :=
  send_udp4_from i broadcast_mac 0 (ipv4_make 255 255 255 255) DHCP_CLIENT_PORT DHCP_SERVER_PORT
    (dhcp_packet i msg_type xid requested_ip server_id) e.

Definition dhcp_done (_ : net_iface) (c : poll_ctx) : bool :=
  match pc_dhcp c with Some d => hw_complete d | None => false end.

(** One exchange: the message is sent and the answer of the expected type awaited. *)
Definition dhcp_exchange (fuel : nat) (i : net_iface) (msg_type xid requested_ip server_id expected : Z) (e : E)
    : option (net_iface * E * option (option dhcp_wait)) :=
  '(e, rc) ← send_dhcp_message i msg_type xid requested_ip server_id e;
  if rc <? 0 then Some (i, e, None)
  else
    let '(e, start) := pit_ticks e in
    '(i, c, e, ok) ← wait_loop fuel 500 start dhcp_done i
        (Ctx None None (Some (Dhcp xid expected 0 0 0 0 0 false))) e;
    Some (i, e, Some (if (ok : bool) then pc_dhcp c else None)).

(** [net_iface_dhcp] on the interface it has found. *)
Definition iface_dhcp (fuel : nat) (i : net_iface) (e : E) : option (net_iface * E * Z) :=
  if negb (if_up i) || negb (if_link i) || negb (if_transmit i) || negb (if_poll i) ||
     negb (mac_is_usable (if_mac i))
  then Some (i, e, -1)
  else
    let '(e, now) := pit_ticks e in
    let xid := Z.lor 0x544e0000 (Z.land (u32 now) 0xffff) in
    let i := set_arp (set_addr i 0 (if_netmask i) 0 0 (if_up i)) (if_arp_ip i) (if_arp_mac i) false in
    '(i, e, offer) ← dhcp_exchange fuel i 1 xid 0 0 2 e;
    match offer with
    | None => Some (i, e, -2)
    | Some None => Some (i, e, -3)
    | Some (Some offer) =>
      '(i, e, ack) ← dhcp_exchange fuel i 3 xid (hw_offered offer) (hw_server_id offer) 5 e;
      match ack with
      | None => Some (i, e, -4)
      | Some None => Some (i, e, -5)
      | Some (Some ack) =>
        Some (set_arp (set_addr i (hw_offered ack) (hw_netmask ack) (hw_gateway ack) (hw_dns ack) (if_up i))
                      (if_arp_ip i) (if_arp_mac i) false, e, 0)
      end
    end.

(** ** Names *)

Definition DOT : Z := 46.

Definition label_char (c : Z) : bool :=
  ((65 <=? c) && (c <=? 90)) || ((97 <=? c) && (c <=? 122)) || ((48 <=? c) && (c <=? 57)) || (c =? 45).

(** A label and what is left from its dot on. *)
Fixpoint next_label (s : list Z) : list Z * list Z :=
  match s with
  | [] => ([], [])
  | c :: s' => if c =? DOT then ([], s) else let '(l, r) := next_label s' in (c :: l, r)
  end.

(** The encoded labels from position [pos]; [None]: -1. *)
Fixpoint dns_labels (fuel : nat) (label : list Z) (pos : Z) : option (list Z) :=
  match fuel with
  | O => None
  | S f =>
    match label with
    | [] => Some []
    | _ =>
      let '(l, rest) := next_label label in
      let len := Z.of_nat (length l) in
      if (len =? 0) || (63 <? len) || (512 <? pos + 1 + len + 5) then None
      else if negb (forallb label_char l) then None
      else
        out ← dns_labels f (tl rest) (pos + 1 + len); Some (len :: l ++ out)
    end
  end.

(** The query; [None] for a return value of -1. *)
Definition dns_build_query (host : list Z) (id : Z) : option (list Z) :=
  match host with
  | [] => None
  | _ => out ← dns_labels (S (length host)) host 12;
         Some (put16 id ++ put16 0x0100 ++ put16 1 ++ zeros 6 ++ out ++ [0] ++ put16 1 ++ put16 1)
  end.

(** Decimal digits up to 255; [None] when the value is larger. *)
Fixpoint parse_octet (s : list Z) (value : Z) : option (Z * list Z) :=
  match s with
  | c :: s' =>
    if (48 <=? c) && (c <=? 57) then
      let value := value * 10 + (c - 48) in
      if 255 <? value then None else parse_octet s' value
    else Some (value, s)
  | [] => Some (value, [])
  end.

(** [n] more octets; [None] where the code returns 0. *)
Fixpoint parse_octets (n : nat) (s : list Z) : option (list Z) :=
  match n with
  | O => match s with [] => Some [] | _ => None end
  | S k =>
    match s with
    | [] => None
    | _ =>
      '(v, s) ← parse_octet s 0;
      s ← (match k with O => Some s | _ => match s with c :: s => if c =? DOT then Some s else None | [] => None end end);
      rest ← parse_octets k s; Some (v :: rest)
    end
  end.

Definition net_parse_ipv4 (s : list Z) : Z :=
  match parse_octets 4 s with
  | Some [a; b; c; d] => ipv4_make a b c d
  | _ => 0
  end.

Definition net_format_ipv4 (ip out_size : Z) : option (list Z) :=
  '(text, _) ← ksnprintf out_size (str "%u.%u.%u.%u")
    [VInt (Z.land (Z.shiftr ip 24) 0xff); VInt (Z.land (Z.shiftr ip 16) 0xff);
     VInt (Z.land (Z.shiftr ip 8) 0xff); VInt (Z.land ip 0xff)];
  Some text.

(** ** The interface table *)

Definition net_iface_count (ifs : list net_iface) : nat := length ifs.
Definition net_iface_get (index : nat) (ifs : list net_iface) : option net_iface := ifs !! index.

Fixpoint iface_index (P : net_iface -> bool) (ifs : list net_iface) : option nat :=
  match ifs with
  | [] => None
  | i :: ifs => if P i then Some 0%nat else k ← iface_index P ifs; Some (S k)
  end.

Definition net_iface_find (name : list Z) (ifs : list net_iface) : option nat :=
  iface_index (fun i => bytes_eq (if_name i) name) ifs.

Definition net_iface_dhcp (fuel : nat) (name : list Z) (ifs : list net_iface) (e : E)
    : option (list net_iface * E * Z) :=
  match (k ← net_iface_find name ifs; i ← ifs !! k; Some (k, i)) with
  | None => Some (ifs, e, -1)
  | Some (k, i) => '(i, e, rc) ← iface_dhcp fuel i e; Some (<[k := i]> ifs, e, rc)
  end.

Definition add_iface (name : list Z) (type : net_iface_type) (ifs : list net_iface) : list net_iface * option nat :=
  if (NET_IFACE_MAX <=? length ifs)%nat then (ifs, None)
  else (ifs ++ [Iface (field NET_NAME_MAX name) type false false (replicate 6 0) 0 0 0 0 0 0 0 0 false
                      false false 0 (replicate 6 0) false], Some (length ifs)).

Definition net_iface_type_name (t : net_iface_type) : list Z :=
  match t with
  | NET_IFACE_LOOPBACK => str "loopback"
  | NET_IFACE_ETHERNET => str "ethernet"
  | NET_IFACE_WIFI => str "wifi"
  end.

Definition net_iface_configure_ipv4 (name : list Z) (ipv4 netmask gateway : Z) (ifs : list net_iface)
    : list net_iface * Z :=
  match (k ← net_iface_find name ifs; i ← ifs !! k; Some (k, i)) with
  | None => (ifs, -1)
  | Some (k, i) =>
    if negb (if_configurable i) || (ipv4 =? 0) || (netmask =? 0) then (ifs, -1)
    else
      let dns := if (if_dns_server i =? 0) && negb (gateway =? 0) then gateway else if_dns_server i in
      (<[k := set_addr i ipv4 netmask gateway dns true]> ifs, 0)
  end.

Definition net_iface_set_up (name : list Z) (up : bool) (ifs : list net_iface) : list net_iface * Z :=
  match (k ← net_iface_find name ifs; i ← ifs !! k; Some (k, i)) with
  | None => (ifs, -1)
  | Some (k, i) =>
    if negb (if_configurable i) then (ifs, -1)
    else (<[k := set_addr i (if_ipv4 i) (if_netmask i) (if_gateway i) (if_dns_server i) up]> ifs, 0)
  end.

Definition routes (ip : Z) (i : net_iface) : bool :=
  if_up i && if_link i && negb (if_ipv4 i =? 0) && if_transmit i && if_poll i &&
  (same_subnet ip (if_ipv4 i) (if_netmask i) || negb (if_gateway i =? 0)).

Definition route_for (ip : Z) (ifs : list net_iface) : option nat := iface_index (routes ip) ifs.

Definition next_hop (ip : Z) (i : net_iface) : Z :=
  if same_subnet ip (if_ipv4 i) (if_netmask i) then ip else if_gateway i.

Definition net_has_external_transport (ifs : list net_iface) : bool :=
  match route_for (ipv4_make 1 1 1 1) ifs with Some _ => true | None => false end.

Definition ping_done (_ : net_iface) (c : poll_ctx) : bool :=
  match pc_ping c with Some p => pw_complete p | None => false end.

(** The table, the hardware, the return value and [*latency_ms]. *)
Definition net_ping4 (fuel : nat) (ipv4 sequence : Z) (ifs : list net_iface) (e : E)
    : option (list net_iface * E * Z * option Z) :=
  if ipv4 =? ipv4_make 127 0 0 1 then
    Some (alter count_ping 0%nat ifs, e, 0, Some 0)
  else
    match route_for ipv4 ifs with
    | None => Some (ifs, e, -1, None)
    | Some k =>
      i ← ifs !! k;
      if next_hop ipv4 i =? 0 then Some (ifs, e, -1, None)
      else
        '(i, e, mac) ← resolve_mac fuel i (next_hop ipv4 i) e;
        match mac with
        | None => Some (<[k := i]> ifs, e, -1, None)
        | Some mac =>
          let '(e, start) := pit_ticks e in
          '(e, rc) ← send_icmp_echo i mac ipv4 0x544e sequence e;
          if rc <? 0 then Some (<[k := i]> ifs, e, -1, None)
          else
            '(i, _, e, ok) ← wait_loop fuel 300 start ping_done i
                (Ctx (Some (Ping ipv4 0x544e sequence false)) None None) e;
            if (ok : bool) then
              let '(e, now) := pit_ticks e in
              Some (<[k := i]> ifs, e, 0, Some (u32 (u64 (u64 (now - start) * 10))))
            else Some (<[k := i]> ifs, e, -1, None)
        end
    end.

Definition dns_done (_ : net_iface) (c : poll_ctx) : bool :=
  match pc_dns c with Some d => dw_complete d && negb (dw_answer d =? 0) | None => false end.

(** The address is the last component when the return value is 0. *)
Definition net_resolve4 (fuel : nat) (host : list Z) (ifs : list net_iface) (e : E)
    : option (list net_iface * E * Z * Z) :=
  let numeric := net_parse_ipv4 host in
  if negb (numeric =? 0) then Some (ifs, e, 0, numeric)
  else
    match (k ← route_for (ipv4_make 1 1 1 1) ifs; i ← ifs !! k; Some (k, i)) with
    | None => Some (ifs, e, -1, 0)
    | Some (k, i) =>
      if if_dns_server i =? 0 then Some (ifs, e, -1, 0)
      else
        match dns_build_query host 0x544e with
        | None => Some (ifs, e, -1, 0)
        | Some query =>
          let server := if_dns_server i in
          if next_hop server i =? 0 then Some (ifs, e, -1, 0)
          else
            '(i, e, mac) ← resolve_mac fuel i (next_hop server i) e;
            match mac with
            | None => Some (<[k := i]> ifs, e, -1, 0)
            | Some mac =>
              let '(e, start) := pit_ticks e in
              '(e, rc) ← send_udp4 i mac server DNS_SOURCE_PORT DNS_PORT query e;
              if rc <? 0 then Some (<[k := i]> ifs, e, -1, 0)
              else
                '(i, c, e, ok) ← wait_loop fuel 300 start dns_done i
                    (Ctx None (Some (Dns 0x544e DNS_SOURCE_PORT server 0 false)) None) e;
                Some (<[k := i]> ifs, e, (if (ok : bool) then 0 else -1),
                      match pc_dns c with Some d => if (ok : bool) then dw_answer d else 0 | None => 0 end)
            end
        end
    end.

End Device.

(** ** Wireless profiles *)

(** A line and what follows its end of line. *)
Fixpoint span_line (l : list Z) : list Z * option (list Z) :=
  match l with
  | [] => ([], None)
  | c :: l => if c =? 10 then ([], Some l) else let '(a, r) := span_line l in (c :: a, r)
  end.

(** What follows [key=] on the first line that starts so. *)
Fixpoint profile_loop (fuel : nat) (text key : list Z) : option (list Z) :=
  match fuel, text with
  | S f, _ :: _ =>
    let '(line, rest) := span_line text in
    if (length key <? length line)%nat && bytes_eq (take (length key) line) key &&
       (nth (length key) line 0 =? 61)
    then Some (drop (S (length key)) line)
    else match rest with None => None | Some rest => profile_loop f rest key end
  | _, _ => None
  end.

(** The text left in [out]; the pointers are not NULL and [out_size] not 0. *)
Definition profile_value (text key : list Z) (out_size : nat) : list Z :=
  match profile_loop (length text) text key with
  | Some v => take (out_size - 1) v
  | None => []
  end.

Definition profile_bool_value (text key : list Z) : bool :=
  let v := profile_value text key 8 in
  bytes_eq v (str "yes") || bytes_eq v (str "true") || bytes_eq v (str "1").

Record wifi_profile := Profile {
  wp_iface : list Z; wp_ssid : list Z; wp_passphrase : list Z; wp_autoconnect : bool }.

(** [data] is what the node's buffer holds, [None] for NULL; the result is
    [Some None] for a return value of -1. *)
Definition parse_wifi_profile (data : option (list Z)) (size : Z) : option (option wifi_profile) :=
  match data with
  | None => Some None
  | Some d =>
    if size =? 0 then Some None
    else
      bytes ← slice d 0 (Z.min size 255);
      text ← cstr_of (bytes ++ [0]);
      let p := Profile (profile_value text (str "iface") 16) (profile_value text (str "ssid") 33)
                       (profile_value text (str "passphrase") 65) (profile_bool_value text (str "autoconnect")) in
      if bytes_eq (wp_iface p) [] || bytes_eq (wp_ssid p) [] then Some None else Some (Some p)
  end.
