(* ===== verification/NetProofs.v ===== *)
(** * The network stack: theorems

    Receiving a frame reads only inside it whatever its bytes are; the headers
    built carry a correct checksum; dotted addresses and DNS messages read back
    as they were written; the waits for an answer end, and a DHCP server that
    answers in time gets the interface its address. *)
From stdpp Require Import relations.
From S2P Require Import Prelude Buf KString Printf Net.

Create HintDb net.

Definition is_byte (b : Z) : Prop := 0 <= b < 256.
Definition bytes (l : list Z) : Prop := Forall is_byte l.

(** ** Fields *)

Lemma byte_some l o : bytes l -> 0 <= o < Z.of_nat (length l) -> exists b, byte l o = Some b /\ is_byte b.
Proof.
  intros Hl Ho. unfold byte. rewrite (proj2 (Z.leb_le 0 o)) by lia.
  destruct (lookup_lt_is_Some_2 l (Z.to_nat o)) as [b Hb]; [lia|].
  exists b. split; [done|]. exact (Forall_lookup_1 _ _ _ _ Hl Hb).
Qed.

Lemma lor_shift_8 a b : 0 <= b < 256 -> Z.lor (Z.shiftl a 8) b = a * 256 + b.
Proof. apply (lor_shift_add b a 8). lia. Qed.

Lemma be16_some l o : bytes l -> 0 <= o -> o + 2 <= Z.of_nat (length l) ->
  exists v, be16 l o = Some v /\ 0 <= v < 65536.
Proof.
  intros Hl H1 H2. destruct (byte_some l o Hl) as (a & Ea & Ha); [lia|].
  destruct (byte_some l (o + 1) Hl) as (b & Eb & Hb); [lia|].
  unfold be16. rewrite Ea, Eb, !bind_some. eexists. split; [done|].
  unfold is_byte in *. rewrite lor_shift_8; lia.
Qed.

Lemma be32_eq a b c d : is_byte b -> is_byte c -> is_byte d ->
  Z.lor (Z.lor (Z.lor (Z.shiftl a 24) (Z.shiftl b 16)) (Z.shiftl c 8)) d
  = ((a * 256 + b) * 256 + c) * 256 + d.
Proof.
  unfold is_byte. intros Hb Hc Hd.
  rewrite <- (lor_shift_8 _ d), <- (lor_shift_8 _ c), <- (lor_shift_8 a b) by done.
  rewrite !Z.shiftl_lor, !Z.shiftl_shiftl by lia. done.
Qed.

Lemma be32_some l o : bytes l -> 0 <= o -> o + 4 <= Z.of_nat (length l) ->
  exists v, be32 l o = Some v /\ 0 <= v < 4294967296.
Proof.
  intros Hl H1 H2. unfold be32.
  destruct (byte_some l o Hl) as (a & -> & Ha); [lia|].
  destruct (byte_some l (o + 1) Hl) as (b & -> & Hb); [lia|].
  destruct (byte_some l (o + 2) Hl) as (c & -> & Hc); [lia|].
  destruct (byte_some l (o + 3) Hl) as (d & -> & Hd); [lia|].
  rewrite !bind_some. eexists. split; [done|]. rewrite be32_eq by done. unfold is_byte in *. lia.
Qed.

Lemma slice_bytes l o n b : bytes l -> slice l o n = Some b -> bytes b.
Proof.
  intros Hl. unfold slice. destruct ((_ && _ && _)%bool); [|done]. intros [= <-].
  by apply Forall_take, Forall_drop.
Qed.

(** Reading the next field: the read is inside the buffer. *)
Ltac rd_field m :=
  lazymatch m with
  | be16 ?l ?o => destruct (be16_some l o) as (? & -> & ?); [try done; try lia..|rewrite bind_some]
  | be32 ?l ?o => destruct (be32_some l o) as (? & -> & ?); [try done; try lia..|rewrite bind_some]
  | byte ?l ?o => destruct (byte_some l o) as (? & -> & ?); [try done; try lia..|unfold is_byte in *; rewrite bind_some]
  | slice ?l ?o ?n =>
      let S := fresh "S" in
      destruct (slice l o n) eqn:S; [apply slice_bytes in S as ?; [|done]; rewrite bind_some|rewrite slice_some in S by lia; done]
  end.
Ltac rd :=
  match goal with
  | |- is_Some (?m ≫= _) => rd_field m
  | |- exists r, ?m ≫= _ = _ /\ _ => rd_field m
  end.

(** Branching on a guard. *)
Ltac br := match goal with |- context [if ?b then _ else _] => let B := fresh "B" in destruct b eqn:B; bcases end.

(** ** Receiving never reads outside the frame *)

Lemma dns_skip_loop_some g msg pos : bytes msg -> 0 <= pos -> exists r, dns_skip_loop g msg pos = Some r /\
  (forall o, r = Some o -> pos < o <= Z.of_nat (length msg)).
Proof.
  intros Hm. revert pos. induction g as [|g IH]; intros pos Hp; cbn [dns_skip_loop]; [by exists None|].
  br; [by exists None|]. rd.
  br; [eexists; split; [done|]; intros ? [= <-]; lia|].
  br. { br; [by exists None|]. eexists. split; [done|]. intros ? [= <-]. lia. }
  br; [by exists None|]. br; [by exists None|].
  destruct (IH (pos + 1 + x)) as (r & -> & Hr); [lia|]. exists r. split; [done|].
  intros o Ho. apply Hr in Ho. lia.
Qed.

Lemma dns_skip_name_some msg pos : bytes msg -> 0 <= pos -> exists r, dns_skip_name msg pos = Some r /\
  (forall o, r = Some o -> pos < o <= Z.of_nat (length msg)).
Proof. apply dns_skip_loop_some. Qed.

Lemma dns_questions_some n msg o : bytes msg -> 0 <= o -> exists r, dns_questions n msg o = Some r /\
  (forall o', r = Some o' -> 0 <= o').
Proof.
  intros Hm. revert o. induction n as [|n IH]; intros o Ho; cbn [dns_questions].
  { eexists. split; [done|]. by intros ? [= <-]. }
  destruct (dns_skip_name_some msg o) as ([o1|] & -> & H1); [done..| |]; rewrite bind_some; [|by exists None].
  br; [by exists None|]. apply IH. specialize (H1 _ eq_refl). lia.
Qed.

Lemma dns_answers_some n msg o : bytes msg -> 0 <= o -> is_Some (dns_answers n msg o).
Proof.
  intros Hm. revert o. induction n as [|n IH]; intros o Ho; cbn [dns_answers]; [by eexists|].
  destruct (dns_skip_name_some msg o) as ([o1|] & -> & H1); [done..| |]; rewrite bind_some; [|by eexists].
  specialize (H1 _ eq_refl). br; [by eexists|]. do 3 rd. br; [by eexists|]. br; [|apply IH; lia].
  rd. by eexists.
Qed.

Lemma process_dns_some d msg src sp dp : bytes msg -> is_Some (process_dns d msg src sp dp).
Proof.
  intros Hm. destruct d as [d|]; [|by eexists]. unfold process_dns. br; [by eexists|].
  match goal with H : (_ <? _)%nat = false |- _ => apply Nat.ltb_ge in H end.
  rd. br; [by eexists|]. rd. br; [by eexists|]. do 2 rd.
  destruct (dns_questions_some (Z.to_nat x1) msg 12) as ([o|] & -> & Ho); [done..| |]; rewrite bind_some; [|by eexists].
  destruct (dns_answers_some (Z.to_nat x2) msg o) as [[a|] ->]; [done|by apply Ho| |]; by eexists.
Qed.

Lemma dhcp_option_some opt data o : bytes data -> is_Some (dhcp_option opt data o).
Proof. intros Hd. unfold dhcp_option. repeat (br; [rd; by eexists|clear B]). by eexists. Qed.

Lemma dhcp_options_some fuel p off o : bytes p -> 0 <= off ->
  (Z.to_nat (Z.of_nat (length p) - off) < fuel)%nat -> is_Some (dhcp_options fuel p off o).
Proof.
  intros Hp. revert off o. induction fuel as [|f IH]; intros off o H1 H2; cbn [dhcp_options].
  { lia. }
  br; [by eexists|]. rd. br; [apply IH; lia|]. br; [by eexists|]. br; [by eexists|]. rd.
  br; [by eexists|]. rd. destruct (dhcp_option_some x l o) as [o' ->]; [done|]. rewrite bind_some.
  apply IH; lia.
Qed.

Lemma process_dhcp_some d msg sp dp : bytes msg -> is_Some (process_dhcp d msg sp dp).
Proof.
  intros Hm. destruct d as [d|]; [|by eexists]. unfold process_dhcp. br; [by eexists|].
  do 5 rd. br; [by eexists|].
  destruct (dhcp_options_some (S (length msg)) msg 240 (Opts 0 0 0 0 0)) as [[o|] ->]; [done|lia..| |];
    rewrite bind_some; [|by eexists].
  br; [by eexists|]. rd. by eexists.
Qed.

Lemma process_ipv4_some i p c : bytes p -> is_Some (process_ipv4 i p c).
Proof.
  intros Hp. unfold process_ipv4. br; [by eexists|]. rd. br; [by eexists|]. rd. br; [by eexists|].
  do 2 rd. br.
  { destruct (pc_ping c); [|by eexists]. do 3 rd. br; by eexists. }
  br; [|by eexists]. do 3 rd. br; [|by eexists].
  rd. destruct (process_dhcp_some (pc_dhcp c) l x3 x4) as [dhcp ->]; [done|]. rewrite bind_some.
  destruct (process_dns_some (pc_dns c) l x1 x3 x4) as [dns ->]; [done|]. by eexists.
Qed.

Section Device.
Context {E : Type} {ND : NetDevice E}.

Lemma send_arp_reply_some i p (e : E) : bytes p -> (28 <= length p)%nat -> is_Some (send_arp_reply i p e).
Proof. intros Hp Hl. unfold send_arp_reply. do 2 rd. by eexists. Qed.

Lemma process_arp_some i p (e : E) : bytes p -> is_Some (process_arp i p e).
Proof.
  intros Hp. unfold process_arp. br; [by eexists|].
  match goal with H : (_ <? _)%nat = false |- _ => apply Nat.ltb_ge in H end.
  do 4 rd. br; [by eexists|]. do 3 rd. br; [rd; by eexists|]. br; [|by eexists].
  destruct (send_arp_reply_some i p e) as [? ->]; [done..|]. by eexists.
Qed.

Lemma process_frame_some (i : net_iface) (frame : list Z) (c : poll_ctx) (e : E) :
  bytes frame -> is_Some (process_frame_ctx i frame c e).
Proof.
  intros Hf. unfold process_frame_ctx. br; [by eexists|]. apply Nat.ltb_ge in B. rd.
  assert (bytes (drop 14 frame)) as Hd by by apply Forall_drop.
  br. { destruct (process_arp_some i (drop 14 frame) e) as [[? ?] ->]; [done|]. by eexists. }
  br; [|by eexists]. destruct (process_ipv4_some i (drop 14 frame) c) as [? ->]; [done|]. by eexists.
Qed.

End Device.

(** ** Checksums *)

(** The sum of the 16-bit words, unbounded. *)
Fixpoint wsum (l : list Z) : Z :=
  match l with
  | a :: b :: l => a * 256 + b + wsum l
  | [a] => a * 256
  | [] => 0
  end.

(** Induction two elements at a time. *)
Lemma list_ind2 {A} (P : list A -> Prop) :
  P [] -> (forall a, P [a]) -> (forall a b l, P l -> P (a :: b :: l)) -> forall l, P l.
Proof.
  intros H0 H1 H2. enough (forall l, P l /\ forall a, P (a :: l)) as H by (intros l; apply H).
  induction l as [|b l [IH1 IH2]]; [by split|]. split; [apply IH2|]. intros a. by apply H2.
Qed.

Lemma wsum_bounds l : bytes l -> 0 <= wsum l <= 65535 * Z.of_nat (length l).
Proof.
  induction l as [|a|a b l IH] using list_ind2; unfold bytes; rewrite ?Forall_cons; unfold is_byte;
    cbn [wsum length]; [lia|lia|]. intros (Ha & Hb & Hl). apply IH in Hl. lia.
Qed.

Lemma wsum_app a b : Nat.even (length a) = true -> wsum (a ++ b) = wsum a + wsum b.
Proof. induction a as [|x|x y a IH] using list_ind2; intros H; [done|done|]. cbn in *. rewrite IH by done. lia. Qed.

Lemma sum_words_wsum l s : bytes l -> 0 <= s -> s + wsum l < 4294967296 -> sum_words l s = s + wsum l.
Proof.
  revert s. induction l as [|a|a b l IH] using list_ind2; intros s; unfold bytes; rewrite ?Forall_cons;
    unfold is_byte; cbn [wsum sum_words].
  - lia.
  - intros [Ha _] Hs H. rewrite Z.shiftl_mul_pow2 by lia. rewrite u32_small; lia.
  - intros (Ha & Hb & Hl) Hs H. pose proof (wsum_bounds l Hl). rewrite lor_shift_8 by lia.
    rewrite u32_small by lia. rewrite IH by (done || lia). lia.
Qed.

(** Ones-complement folding keeps the residue modulo 65535, and gives 0 for 0 only. *)
Lemma fold_loop_spec s : 0 <= s < 4294967296 ->
  exists f, fold_loop 4 s = Some f /\ 0 <= f < 65536 /\ (f - s) mod 65535 = 0 /\ (f = 0 <-> s = 0).
Proof.
  intros Hs.
  assert (forall n x, 0 <= x < 4294967296 -> fold_loop (S n) x =
    if x / 65536 =? 0 then Some x else fold_loop n (x mod 65536 + x / 65536)) as Hstep.
  { intros n x Hx. cbn [fold_loop]. change 0xffff with (Z.ones 16).
    rewrite Z.land_ones, Z.shiftr_div_pow2 by lia. change (2 ^ 16) with 65536.
    destruct (x / 65536 =? 0); [done|]. rewrite u32_small; [done|]. Z.div_mod_to_equations. lia. }
  rewrite Hstep by done. destruct (Z.eqb_spec (s / 65536) 0) as [E|E].
  { exists s. split; [done|]. rewrite Z.sub_diag. Z.div_mod_to_equations. lia. }
  set (s1 := s mod 65536 + s / 65536). assert (0 < s1 <= 131070) by (unfold s1; Z.div_mod_to_equations; lia).
  assert (exists k, 0 <= k /\ s = s1 + 65535 * k) as (k & Hk0 & Hk) by (exists (s / 65536); unfold s1; Z.div_mod_to_equations; lia).
  clearbody s1. rewrite Hstep by lia. destruct (Z.eqb_spec (s1 / 65536) 0) as [E1|E1].
  { exists s1. split; [done|]. rewrite Hk. replace (s1 - _) with ((- k) * 65535) by lia.
    rewrite Z_mod_mult. split_and!; try lia. Z.div_mod_to_equations. lia. }
  set (s2 := s1 mod 65536 + s1 / 65536). assert (0 < s2 <= 65535) by (unfold s2; Z.div_mod_to_equations; lia).
  assert (s1 = s2 + 65535) by (unfold s2; Z.div_mod_to_equations; lia).
  clearbody s2. rewrite Hstep by lia. rewrite Z.div_small, Z.eqb_refl by lia. exists s2. split; [done|].
  replace (s2 - s) with ((- (k + 1)) * 65535) by lia. rewrite Z_mod_mult. lia.
Qed.

Lemma put16_bytes v : bytes (put16 v).
Proof. repeat constructor; unfold is_byte, u8; apply Z.mod_pos_bound; lia. Qed.
Lemma put32_bytes v : bytes (put32 v).
Proof. repeat constructor; unfold is_byte, u8; apply Z.mod_pos_bound; lia. Qed.
#[export] Hint Resolve put16_bytes put32_bytes : net.

Lemma bytes_app a b : bytes a -> bytes b -> bytes (a ++ b).
Proof. intros Ha Hb. by apply Forall_app. Qed.
Lemma bytes_cons b l : is_byte b -> bytes l -> bytes (b :: l).
Proof. by constructor. Qed.
Lemma bytes_nil : bytes [].
Proof. constructor. Qed.
Lemma bytes_replicate n b : is_byte b -> bytes (replicate n b).
Proof. intros H. by apply Forall_replicate. Qed.
#[export] Hint Resolve bytes_app bytes_cons bytes_nil bytes_replicate : net.
#[export] Hint Extern 1 (is_byte _) => (unfold is_byte in *; lia) : net.

Lemma wsum_put16 v : 0 <= v < 65536 -> wsum (put16 v) = v.
Proof.
  intros Hv. cbn. rewrite Z.shiftr_div_pow2 by lia. change (2 ^ 8) with 256. unfold u8.
  Z.div_mod_to_equations. lia.
Qed.

Lemma lnot_u16 f : 0 <= f < 65536 -> u16 (Z.lnot f) = 65535 - f.
Proof. intros Hf. unfold Z.lnot, u16. Z.div_mod_to_equations. lia. Qed.

(** A message whose checksum field was 0 when the sum was taken checks. *)
Lemma checksum_fills a b : bytes a -> bytes b -> Nat.even (length a) = true ->
  Z.of_nat (length a + length b) < 32768 ->
  exists ck, inet_checksum (a ++ put16 0 ++ b) = Some ck /\ 0 <= ck < 65536 /\
             inet_checksum (a ++ put16 ck ++ b) = Some 0.
Proof.
  intros Ha Hb He Hl. pose proof (wsum_bounds a Ha). pose proof (wsum_bounds b Hb).
  assert (forall v, 0 <= v < 65536 -> wsum (a ++ put16 v ++ b) = wsum a + wsum b + v) as Hw.
  { intros v Hv. rewrite wsum_app by done. rewrite (wsum_app (put16 v)) by done. rewrite wsum_put16 by done. lia. }
  assert (forall v, 0 <= v < 65536 -> sum_words (a ++ put16 v ++ b) 0 = wsum a + wsum b + v) as Hsum.
  { intros v Hv. rewrite sum_words_wsum; rewrite ?Hw by done; [lia| |lia|lia].
    apply Forall_app; split; [done|]. apply Forall_app; split; [apply put16_bytes|done]. }
  unfold inet_checksum. rewrite (Hsum 0) by lia.
  destruct (fold_loop_spec (wsum a + wsum b + 0)) as (f & Ef & Hf & Hm & Hz); [lia|].
  rewrite Ef, bind_some. exists (65535 - f). rewrite lnot_u16 by done. split; [done|]. split; [lia|].
  rewrite Hsum by lia.
  destruct (fold_loop_spec (wsum a + wsum b + (65535 - f))) as (g & Eg & Hg & Hgm & Hgz); [lia|].
  rewrite Eg, bind_some, lnot_u16 by done. f_equal.
  apply Z.mod_divide in Hm as [k Hk]; [|lia]. apply Z.mod_divide in Hgm as [j Hj]; [|lia].
  enough (g = 65535) by lia. assert (g = 65535 * (j - k + 1)) by lia. nia.
Qed.

Lemma ipv4_header_check total id proto src dst : is_byte proto ->
  exists h, ipv4_header total id proto src dst = Some h /\ length h = 20%nat /\ inet_checksum h = Some 0.
Proof.
  intros Hp. set (a := [0x45; 0] ++ put16 total ++ put16 id ++ put16 0 ++ [64; proto]).
  set (b := put32 src ++ put32 dst).
  destruct (checksum_fills a b) as (ck & E0 & _ & E1); [unfold a|unfold b|done|done|]; [auto 12 with net..|].
  exists (a ++ put16 ck ++ b). unfold ipv4_header.
  assert (forall v, [0x45; 0] ++ put16 total ++ put16 id ++ put16 0 ++ [64; proto] ++ put16 v ++
    put32 src ++ put32 dst = a ++ put16 v ++ b) as Ea by done.
  rewrite Ea, E0, bind_some, Ea. done.
Qed.

Lemma icmp_echo_check id sequence :
  exists m, icmp_echo id sequence = Some m /\ length m = 40%nat /\ inet_checksum m = Some 0.
Proof.
  set (pat := map (fun k => u8 (65 + Z.of_nat k mod 26)) (seq 0 32)).
  destruct (checksum_fills [8; 0] (put16 id ++ put16 sequence ++ pat)) as (ck & E0 & _ & E1);
    [auto with net| |done|done|].
  - repeat apply bytes_app; auto with net. apply Forall_forall. intros x Hx.
    apply list_elem_of_fmap in Hx as (k & -> & _). unfold is_byte. apply u8_range.
  - exists ([8; 0] ++ put16 ck ++ put16 id ++ put16 sequence ++ pat). unfold icmp_echo. fold pat.
    rewrite E0, bind_some. done.
Qed.

(** the IPv4 header and the ICMP echo request that are sent carry checksums
    a receiver accepts: the ones-complement sum over the whole of each comes
    out as zero. *)
Theorem sent_headers_check (total id proto src dst sequence : Z) : is_byte proto ->
  (exists h, ipv4_header total id proto src dst = Some h /\ length h = 20%nat /\ inet_checksum h = Some 0) /\
  (exists m, icmp_echo id sequence = Some m /\ length m = 40%nat /\ inet_checksum m = Some 0).
Proof. intros Hp. split; [by apply ipv4_header_check|apply icmp_echo_check]. Qed.

Lemma sent_headers_check_witness :
  exists h, ipv4_header 60 7 IP_PROTO_ICMP 0x0a000002 0x08080808 = Some h /\ inet_checksum h = Some 0.
Proof.
  destruct (sent_headers_check 60 7 IP_PROTO_ICMP 0x0a000002 0x08080808 7) as [(h & H1 & _ & H2) _].
  - unfold is_byte, IP_PROTO_ICMP. lia.
  - by exists h.
Defined.

(** ** Dotted addresses *)

Definition nondigit_head (s : list Z) : bool :=
  match s with c :: _ => negb ((48 <=? c) && (c <=? 57)) | [] => true end.

Lemma parse_octet_app s v w rest : parse_octet s v = Some (w, []) -> nondigit_head rest = true ->
  parse_octet (s ++ rest) v = Some (w, rest).
Proof.
  intros H Hr. revert v H. induction s as [|c s IH]; intros v; cbn [parse_octet app].
  - intros [= ->]. destruct rest as [|c rest]; [done|]. cbn in Hr |- *. apply negb_true_iff in Hr. by rewrite Hr.
  - destruct ((48 <=? c) && (c <=? 57)); [|done]. destruct (255 <? _); [done|]. apply IH.
Qed.

(** A byte in decimal reads back, is short, and is not empty. *)
Definition octet_check (b : Z) : bool :=
  let s := number b 10 false in
  bool_decide (parse_octet s 0 = Some (b, [])) && (length s <=? 3)%nat && (1 <=? length s)%nat.

Lemma octet_text b : is_byte b -> exists c s, number b 10 false = c :: s /\
  parse_octet (c :: s) 0 = Some (b, []) /\ (length (c :: s) <= 3)%nat.
Proof.
  intros Hb. assert (bytes_all octet_check = true) as Hall by (vm_compute; reflexivity).
  pose proof (bytes_check octet_check Hall b Hb) as H. unfold octet_check in H.
  apply andb_prop in H as [H H3]. apply andb_prop in H as [H1 H2].
  apply bool_decide_eq_true_1 in H1. apply Nat.leb_le in H2, H3.
  destruct (number b 10 false) as [|c s]; [cbn in H3; lia|]. exists c, s. split; [reflexivity|]. split; assumption.
Qed.

(** One octet of the text: what is left after it and its dot. *)
Lemma parse_octets_step k b rest : is_byte b ->
  parse_octets (S (S k)) (number b 10 false ++ DOT :: rest) = l ← parse_octets (S k) rest; Some (b :: l).
Proof.
  intros Hb. destruct (octet_text b Hb) as (c & s & -> & H & _).
  change (parse_octets (S (S k)) ((c :: s) ++ DOT :: rest)) with
    ('(v, s) ← parse_octet ((c :: s) ++ DOT :: rest) 0;
     s ← match s with c :: s => if c =? DOT then Some s else None | [] => None end;
     rest ← parse_octets (S k) s; Some (v :: rest)).
  rewrite (parse_octet_app (c :: s) 0 b) by done. done.
Qed.

Lemma parse_octets_last b : is_byte b -> parse_octets 1 (number b 10 false) = Some [b].
Proof.
  intros Hb. destruct (octet_text b Hb) as (c & s & -> & H & _).
  change (parse_octets 1 (c :: s)) with
    ('(v, s) ← parse_octet (c :: s) 0; s ← Some s; rest ← parse_octets 0 s; Some (v :: rest)).
  by rewrite H.
Qed.

Lemma land_ff v : Z.land v 0xff = v mod 256.
Proof. change 0xff with (Z.ones 8). by rewrite Z.land_ones by lia. Qed.

Lemma ipv4_make_split ip : 0 <= ip < 4294967296 ->
  ipv4_make ((Z.shiftr ip 24) mod 256) ((Z.shiftr ip 16) mod 256) ((Z.shiftr ip 8) mod 256) (ip mod 256) = ip.
Proof.
  intros H. unfold ipv4_make. rewrite be32_eq by (unfold is_byte; apply Z.mod_pos_bound; lia).
  rewrite !Z.shiftr_div_pow2 by lia. change (2 ^ 24) with 16777216. change (2 ^ 16) with 65536.
  change (2 ^ 8) with 256. Z.div_mod_to_equations. lia.
Qed.

(** What ["%u"] prints for a byte. *)
Definition octet (b : Z) : list Z := padded (number (u32 b) 10 false) 0 false 32.

Lemma octet_number b : is_byte b -> octet b = number b 10 false.
Proof. intros Hb. unfold octet. rewrite u32_small by (unfold is_byte in Hb; lia). apply padded_narrow. lia. Qed.

(** C1 an address printed in dotted form is read back as the same address. *)
Theorem ipv4_text_roundtrip (ip out_size : Z) : 0 <= ip < 4294967296 -> 16 <= out_size ->
  exists text, net_format_ipv4 ip out_size = Some text /\ net_parse_ipv4 text = ip.
Proof.
  intros Hip Hs. unfold net_format_ipv4, ksnprintf. rewrite !land_ff.
  set (a := Z.shiftr ip 24 mod 256). set (b := Z.shiftr ip 16 mod 256). set (c := Z.shiftr ip 8 mod 256).
  set (d := ip mod 256). pose proof (ipv4_make_split ip Hip) as Hmk. fold a b c d in Hmk.
  assert (is_byte a /\ is_byte b /\ is_byte c /\ is_byte d) as (Ha & Hb & Hc & Hd)
    by (unfold is_byte, a, b, c, d; split_and!; apply Z.mod_pos_bound; lia).
  clearbody a b c d. rewrite kvsnprintf_render by lia.
  set (text := number a 10 false ++ DOT :: number b 10 false ++ DOT :: number c 10 false ++ DOT :: number d 10 false).
  match goal with |- context [render ?f ?x] => assert (render f x = Some text) as -> end.
  { transitivity (Some (octet a ++ DOT :: octet b ++ DOT :: octet c ++ DOT :: octet d)).
    - rewrite <- (app_nil_r (octet d)). unfold octet, DOT. render_line. done.
    - by rewrite !octet_number by done. }
  rewrite !bind_some. exists text. split.
  - f_equal. apply take_ge. unfold text.
    destruct (octet_text a Ha) as (? & ? & -> & _ & ?), (octet_text b Hb) as (? & ? & -> & _ & ?),
      (octet_text c Hc) as (? & ? & -> & _ & ?), (octet_text d Hd) as (? & ? & -> & _ & ?).
    repeat first [rewrite length_app | progress cbn [length] in *]. lia.
  - unfold net_parse_ipv4, text. rewrite !parse_octets_step, parse_octets_last by done. exact Hmk.
Qed.

Lemma ipv4_text_roundtrip_witness :
  exists text, net_format_ipv4 0xc0a8010a 16 = Some text /\ net_parse_ipv4 text = 0xc0a8010a.
Proof. apply (ipv4_text_roundtrip 0xc0a8010a 16); lia. Defined.

(** ** Fields of a message that was built *)

Lemma byte_skip a l o : Z.of_nat (length a) <= o -> byte (a ++ l) o = byte l (o - Z.of_nat (length a)).
Proof.
  intros H. unfold byte. rewrite !(proj2 (Z.leb_le 0 _)) by lia.
  rewrite lookup_app_r by lia. f_equal. lia.
Qed.

Lemma be16_skip a l o : Z.of_nat (length a) <= o -> be16 (a ++ l) o = be16 l (o - Z.of_nat (length a)).
Proof. intros H. unfold be16. rewrite !byte_skip by lia. by rewrite Z.add_sub_swap. Qed.

Lemma be32_skip a l o : Z.of_nat (length a) <= o -> be32 (a ++ l) o = be32 l (o - Z.of_nat (length a)).
Proof. intros H. unfold be32. rewrite !byte_skip by lia. by rewrite !Z.add_sub_swap. Qed.

Lemma byte_here b l : byte (b :: l) 0 = Some b.
Proof. done. Qed.

Lemma be16_here v l : 0 <= v < 65536 -> be16 (put16 v ++ l) 0 = Some v.
Proof.
  intros H. change (be16 (put16 v ++ l) 0) with (Some (Z.lor (Z.shiftl (u8 (Z.shiftr v 8)) 8) (u8 v))).
  rewrite lor_shift_8 by apply u8_range. f_equal.
  rewrite Z.shiftr_div_pow2 by lia. change (2 ^ 8) with 256. unfold u8. Z.div_mod_to_equations. lia.
Qed.

Lemma be32_here v l : 0 <= v < 4294967296 -> be32 (put32 v ++ l) 0 = Some v.
Proof.
  intros H. change (be32 (put32 v ++ l) 0) with (Some (ipv4_make (u8 (Z.shiftr v 24)) (u8 (Z.shiftr v 16)) (u8 (Z.shiftr v 8)) (u8 v))).
  unfold ipv4_make. rewrite be32_eq by apply u8_range. f_equal.
  rewrite !Z.shiftr_div_pow2 by lia. change (2 ^ 24) with 16777216. change (2 ^ 16) with 65536.
  change (2 ^ 8) with 256. unfold u8. Z.div_mod_to_equations. lia.
Qed.

Lemma be16_at v l o : 0 <= v < 65536 -> o = 0 -> be16 (put16 v ++ l) o = Some v.
Proof. intros H ->. by apply be16_here. Qed.
Lemma be32_at v l o : 0 <= v < 4294967296 -> o = 0 -> be32 (put32 v ++ l) o = Some v.
Proof. intros H ->. by apply be32_here. Qed.

(** Reading at the position where the field was put. *)
Ltac lens := rewrite ?length_app, ?length_zeros; cbn [length put16 put32]; lia.
Ltac at_field := repeat first
  [ rewrite be16_at by lens | rewrite be32_at by lens
  | rewrite be16_skip by lens | rewrite be32_skip by lens | rewrite byte_skip by lens ].

(** ** Names in DNS messages *)

(** An encoded name: labels up to the root or a compression pointer. *)
Inductive dname : list Z -> Prop :=
  | dname_root : dname [0]
  | dname_pointer a b : 0xc0 <= a < 256 -> dname [a; b]
  | dname_label l n : (1 <= length l <= 63)%nat -> dname n -> dname (Z.of_nat (length l) :: l ++ n).

Definition label_check (b : Z) : bool :=
  if b <? 64 then Z.land b 0xc0 =? 0 else if 0xc0 <=? b then Z.land b 0xc0 =? 0xc0 else true.

Lemma label_bits b : is_byte b -> (b < 64 -> Z.land b 0xc0 = 0) /\ (0xc0 <= b -> Z.land b 0xc0 = 0xc0).
Proof.
  intros Hb. assert (bytes_all label_check = true) as Hall by (vm_compute; reflexivity).
  pose proof (bytes_check label_check Hall b Hb) as H. unfold label_check in H. split; intros Hr.
  - rewrite (proj2 (Z.ltb_lt b 64)) in H by lia. by apply Z.eqb_eq.
  - rewrite (proj2 (Z.ltb_ge b 64)), (proj2 (Z.leb_le _ b)) in H by lia. by apply Z.eqb_eq.
Qed.

Lemma skip_dname n : dname n -> forall g pre rest, (length n <= g)%nat ->
  dns_skip_loop g (pre ++ n ++ rest) (Z.of_nat (length pre)) = Some (Some (Z.of_nat (length pre + length n))).
Proof.
  induction 1 as [|a b Ha|l n Hl _ IH]; intros g pre rest Hg; cbn [length] in Hg;
    destruct g as [|g]; try lia; cbn [dns_skip_loop];
    rewrite (proj2 (Z.leb_gt _ _)) by (rewrite !length_app; cbn [length]; lia);
    rewrite byte_skip, Z.sub_diag by lia; cbn [app]; rewrite byte_here, bind_some.
  - cbn [Z.eqb length]. do 2 f_equal. lia.
  - rewrite (proj2 (Z.eqb_neq a 0)) by lia. destruct (label_bits a) as [_ H]; [unfold is_byte; lia|].
    rewrite H by lia. cbn [Z.eqb Pos.eqb].
    rewrite (proj2 (Z.leb_gt _ _)) by (rewrite !length_app; cbn [length]; lia). cbn [length]. do 2 f_equal. lia.
  - rewrite (proj2 (Z.eqb_neq _ 0)) by lia. destruct (label_bits (Z.of_nat (length l))) as [H _]; [unfold is_byte; lia|].
    rewrite H by lia. cbn [Z.eqb negb].
    rewrite (proj2 (Z.ltb_ge _ _)) by (rewrite !length_app; cbn [length]; rewrite !length_app; lia).
    specialize (IH g (pre ++ Z.of_nat (length l) :: l) rest).
    rewrite !length_app in *. cbn [length] in *. rewrite !length_app in *.
    replace (Z.of_nat (length pre) + 1 + Z.of_nat (length l)) with (Z.of_nat (length pre + S (length l))) by lia.
    rewrite <- app_assoc in IH. cbn [app] in IH. rewrite <- !app_assoc. rewrite IH by lia. do 2 f_equal. lia.
Qed.

Lemma skip_name_at msg n pre rest o : dname n -> msg = pre ++ n ++ rest -> o = Z.of_nat (length pre) ->
  dns_skip_name msg o = Some (Some (o + Z.of_nat (length n))).
Proof.
  intros Hn -> ->. unfold dns_skip_name. rewrite skip_dname; [do 2 f_equal; lia|done|].
  rewrite !length_app. lia.
Qed.

Lemma dns_labels_dname f : forall s pos out, dns_labels f s pos = Some out -> dname (out ++ [0]).
Proof.
  induction f as [|f IH]; intros s pos out; cbn [dns_labels]; [done|].
  destruct s as [|c s]; [intros [= <-]; constructor|]. destruct (next_label (c :: s)) as [l rest].
  destruct ((_ || _ || _)%bool) eqn:B; [done|]. bcases. destruct (negb _); [done|].
  destruct (dns_labels f _ _) as [o|] eqn:El; [|done]. rewrite bind_some. intros [= <-].
  cbn [app]. rewrite <- app_assoc. constructor; [lia|]. by apply IH in El.
Qed.

(** The question of a query is a name followed by its type and class. *)
Lemma query_question host id q : dns_build_query host id = Some q ->
  exists n, dname n /\ q = put16 id ++ put16 0x0100 ++ put16 1 ++ zeros 6 ++ n ++ put16 1 ++ put16 1.
Proof.
  unfold dns_build_query. destruct host as [|c host]; [done|].
  destruct (dns_labels _ _ _) as [out|] eqn:E; [|done]. rewrite bind_some. intros [= <-].
  exists (out ++ [0]). split; [by apply dns_labels_dname in E|]. by rewrite <- (app_assoc out).
Qed.

(** ** Answers *)

Record rr := RR { rr_name : list Z; rr_type : Z; rr_class : Z; rr_ttl : Z; rr_data : list Z }.

Definition rr_bytes (r : rr) : list Z :=
  rr_name r ++ put16 (rr_type r) ++ put16 (rr_class r) ++ put32 (rr_ttl r) ++
  put16 (Z.of_nat (length (rr_data r))) ++ rr_data r.

Definition rr_ok (r : rr) : Prop :=
  dname (rr_name r) /\ 0 <= rr_type r < 65536 /\ 0 <= rr_class r < 65536 /\ Z.of_nat (length (rr_data r)) < 65536.

(** Whether the answer is an IPv4 address. *)
Definition rr_is_a (r : rr) : bool := (rr_type r =? 1) && (rr_class r =? 1) && (Z.of_nat (length (rr_data r)) =? 4).

Definition dns_reply (q : list Z) (id flags : Z) (rrs : list rr) : list Z :=
  put16 id ++ put16 flags ++ put16 1 ++ put16 (Z.of_nat (length rrs)) ++ zeros 4 ++ drop 12 q ++
  concat (map rr_bytes rrs).

(** One record of the answers. *)
Lemma dns_answers_step n r pre rest : rr_ok r ->
  dns_answers (S n) (pre ++ rr_bytes r ++ rest) (Z.of_nat (length pre)) =
  if rr_is_a r then a ← be32 (rr_data r ++ rest) 0; Some (Some a)
  else dns_answers n (pre ++ rr_bytes r ++ rest) (Z.of_nat (length (pre ++ rr_bytes r))).
Proof.
  intros (Hn & Ht & Hc & Hd). cbn [dns_answers].
  set (tail := put16 (rr_type r) ++ put16 (rr_class r) ++ put32 (rr_ttl r) ++
               put16 (Z.of_nat (length (rr_data r))) ++ rr_data r ++ rest).
  assert (pre ++ rr_bytes r ++ rest = (pre ++ rr_name r) ++ tail) as Em
    by (unfold rr_bytes, tail; by rewrite <- !app_assoc).
  rewrite (skip_name_at _ (rr_name r) pre tail) by (done || by rewrite Em, <- app_assoc).
  rewrite bind_some, Em. set (pn := pre ++ rr_name r).
  assert (Z.of_nat (length pre) + Z.of_nat (length (rr_name r)) = Z.of_nat (length pn)) as -> by (unfold pn; rewrite length_app; lia).
  assert (Z.of_nat (length (pn ++ tail)) = Z.of_nat (length pn) + 10 + Z.of_nat (length (rr_data r)) + Z.of_nat (length rest)) as El
    by (unfold tail; rewrite !length_app; cbn [length put16 put32]; lia).
  rewrite (proj2 (Z.ltb_ge _ _)) by lia.
  rewrite !(be16_skip pn), (be32_skip pn) by lia.
  replace (Z.of_nat (length pn) - Z.of_nat (length pn)) with 0 by lia.
  replace (Z.of_nat (length pn) + 2 - Z.of_nat (length pn)) with 2 by lia.
  replace (Z.of_nat (length pn) + 8 - Z.of_nat (length pn)) with 8 by lia.
  replace (Z.of_nat (length pn) + 10 - Z.of_nat (length pn)) with 10 by lia.
  assert (be16 tail 0 = Some (rr_type r)) as -> by (unfold tail; by at_field).
  assert (be16 tail 2 = Some (rr_class r)) as -> by (unfold tail; by at_field).
  assert (be16 tail 8 = Some (Z.of_nat (length (rr_data r)))) as -> by (unfold tail; by at_field).
  assert (be32 tail 10 = be32 (rr_data r ++ rest) 0) as -> by (unfold tail; by at_field).
  rewrite !bind_some. rewrite (proj2 (Z.ltb_ge _ _)) by lia. fold (rr_is_a r).
  destruct (rr_is_a r); [done|]. f_equal. unfold pn, rr_bytes. rewrite !length_app. cbn [length put16 put32]. lia.
Qed.

Lemma dns_answers_first pre rs r post (ip : Z) head n : Forall rr_ok (rs ++ r :: post) ->
  Forall (fun x => rr_is_a x = false) rs -> rr_type r = 1 -> rr_class r = 1 -> rr_data r = put32 ip ->
  0 <= ip < 4294967296 -> (length rs < n)%nat -> head = pre ++ concat (map rr_bytes (rs ++ r :: post)) ->
  dns_answers n head (Z.of_nat (length pre)) = Some (Some ip).
Proof.
  revert pre n. induction rs as [|x rs IH]; intros pre n Hok Hna Ht Hc Hd Hip Hn ->;
    (destruct n as [|n]; [cbn in Hn; lia|]); cbn [app map concat] in *; apply Forall_cons in Hok as [Hx Hok];
    rewrite dns_answers_step by done.
  - unfold rr_is_a. rewrite Ht, Hc, Hd. cbn [length put32 Z.eqb Pos.eqb andb Z.of_nat Pos.of_succ_nat Pos.succ].
    by rewrite be32_here.
  - apply Forall_cons in Hna as [Hxa Hna]. rewrite Hxa. apply IH; [done..|cbn in Hn; lia|].
    by rewrite <- app_assoc.
Qed.

(** an answer to a query the resolver sent is understood: whatever name was
    asked for, if the configured server replies to it with some records of
    which the first IPv4 address is [ip], the wait completes with [ip]. *)
Theorem dns_answer_understood (host q : list Z) (id port server flags ip : Z) (pre : list rr) (r : rr) (post : list rr) :
  dns_build_query host id = Some q ->
  0 <= id < 65536 -> 0 <= flags < 65536 -> Z.testbit flags 15 = true -> Z.land flags 0xf = 0 ->
  Forall rr_ok (pre ++ r :: post) -> Forall (fun x => rr_is_a x = false) pre ->
  rr_type r = 1 -> rr_class r = 1 -> rr_data r = put32 ip -> 0 <= ip < 4294967296 ->
  Z.of_nat (length (pre ++ r :: post)) < 65536 ->
  process_dns (Some (Dns id port server 0 false)) (dns_reply q id flags (pre ++ r :: post)) server DNS_PORT port
  = Some (Some (Dns id port server ip true)).
Proof.
  intros Hq Hid Hfl Hqr Hrc Hok Hna Ht Hc Hd Hip Hn.
  destruct (query_question _ _ _ Hq) as (nm & Hnm & ->). set (rs := pre ++ r :: post) in *.
  set (msg := dns_reply _ id flags rs). set (recs := concat (map rr_bytes rs)).
  set (hdr := put16 id ++ put16 flags ++ put16 1 ++ put16 (Z.of_nat (length rs)) ++ zeros 4).
  set (qs := put16 1 ++ put16 1).
  assert (msg = hdr ++ nm ++ qs ++ recs) as Em.
  { transitivity (hdr ++ (nm ++ qs) ++ recs); [done|by rewrite <- (app_assoc nm)]. }
  assert (length hdr = 12%nat) as Hh by done. unfold process_dns. cbn [dw_complete dw_server dw_port dw_id].
  rewrite (proj2 (Nat.ltb_ge _ _)) by (rewrite Em, length_app; lia). rewrite !Z.eqb_refl. cbn [negb orb].
  assert (be16 msg 0 = Some id) as -> by (unfold msg, dns_reply; by at_field).
  rewrite bind_some, Z.eqb_refl. cbn [negb].
  assert (be16 msg 2 = Some flags) as -> by (unfold msg, dns_reply; by at_field).
  rewrite bind_some, Hrc. rewrite (proj2 (Z.eqb_neq (Z.land flags 0x8000) 0)); cbn [orb negb Z.eqb].
  2: { intros H0. apply (f_equal (fun x => Z.testbit x 15)) in H0. rewrite Z.land_spec, Hqr in H0. done. }
  assert (be16 msg 4 = Some 1) as -> by (unfold msg, dns_reply; by at_field).
  assert (be16 msg 6 = Some (Z.of_nat (length rs))) as -> by (unfold msg, dns_reply; by at_field).
  rewrite !bind_some. change (Z.to_nat 1) with 1%nat. cbn [dns_questions].
  rewrite (skip_name_at msg nm hdr (qs ++ recs)) by done. rewrite bind_some.
  rewrite (proj2 (Z.ltb_ge _ _)) by (rewrite Em, !length_app; cbn [length qs put16 app]; lia). rewrite bind_some.
  replace (12 + Z.of_nat (length nm) + 4) with (Z.of_nat (length (hdr ++ nm ++ qs)))
    by (rewrite !length_app, Hh; cbn [length qs put16 app]; lia).
  rewrite (dns_answers_first (hdr ++ nm ++ qs) pre r post ip msg); [done..| |].
  - rewrite Nat2Z.id. unfold rs. rewrite length_app. cbn [length]. lia.
  - rewrite Em, <- !app_assoc. done.
Qed.

Definition example_a : rr := RR [0xc0; 0x0c] 1 1 60 (put32 0x5db8d822).
Definition example_cname : rr := RR [0xc0; 0x0c] 5 1 60 [3; 119; 119; 119; 0].

Lemma dns_answer_understood_witness : exists q, dns_build_query (str "tnu.example") 0x544e = Some q /\
  process_dns (Some (Dns 0x544e DNS_SOURCE_PORT 0x0a000203 0 false))
    (dns_reply q 0x544e 0x8180 ([example_cname] ++ example_a :: [])) 0x0a000203 DNS_PORT DNS_SOURCE_PORT
  = Some (Some (Dns 0x544e DNS_SOURCE_PORT 0x0a000203 0x5db8d822 true)).
Proof.
  eexists. split; [vm_compute; reflexivity|].
  apply (dns_answer_understood (str "tnu.example")); [vm_compute; reflexivity|lia|lia|vm_compute; reflexivity..| | |reflexivity|reflexivity|reflexivity|lia|cbn; lia].
  - assert (dname [0xc0; 0x0c]) by (constructor; lia).
    constructor; [|constructor; [|constructor]]; (split; [done|cbn; lia]).
  - by constructor.
Defined.

(** ** Waiting *)

(** What waiting can change of an interface: its ARP entry. *)
Definition same_iface (i i' : net_iface) : Prop := exists ip mac v, i' = set_arp i ip mac v.

Lemma same_iface_refl i : same_iface i i.
Proof. exists (if_arp_ip i), (if_arp_mac i), (if_arp_valid i). by destruct i. Qed.
Lemma same_iface_trans i i' i'' : same_iface i i' -> same_iface i' i'' -> same_iface i i''.
Proof. intros (? & ? & ? & ->) (ip & mac & v & ->). by exists ip, mac, v. Qed.

(** A wait for a DHCP answer: what it waits for stays, and it is only complete
    with an address and a mask. *)
Definition dhcp_later (d d' : option dhcp_wait) : Prop :=
  match d, d' with
  | None, None => True
  | Some d, Some d' => hw_xid d' = hw_xid d /\ hw_expected d' = hw_expected d /\
      (hw_complete d = true -> d' = d) /\
      (hw_complete d' = true -> d' = d \/ (hw_offered d' <> 0 /\ hw_netmask d' <> 0))
  | _, _ => False
  end.

Lemma dhcp_later_refl d : dhcp_later d d.
Proof. destruct d; cbn; auto. Qed.

Lemma dhcp_later_trans d d' d'' : dhcp_later d d' -> dhcp_later d' d'' -> dhcp_later d d''.
Proof.
  destruct d as [d|], d' as [d'|], d'' as [d''|]; cbn; try done.
  intros (-> & -> & H1 & H2) (-> & -> & H3 & H4). split_and!; try done.
  - intros Hc. specialize (H1 Hc). subst d'. auto.
  - intros Hc. destruct (H4 Hc) as [->|]; auto.
Qed.

Ltac obind :=
  match goal with |- ?m ≫= _ = Some _ -> _ =>
    let v := fresh "v" in destruct m as [v|]; [rewrite bind_some|done] end.

Lemma process_dhcp_later d msg sp dp d' : process_dhcp d msg sp dp = Some d' -> dhcp_later d d'.
Proof.
  destruct d as [d|]; cbn [process_dhcp]; [|by intros [= <-]].
  destruct ((_ || _ || _ || _)%bool) eqn:B; [intros [= <-]; apply dhcp_later_refl|]. bcases.
  do 5 obind. destruct (negb _ || _ || _ || _ || _); [intros [= <-]; apply dhcp_later_refl|]. obind.
  destruct v4 as [o|]; [|intros [= <-]; apply dhcp_later_refl].
  destruct (negb _); [intros [= <-]; apply dhcp_later_refl|]. obind. intros [= <-]. cbn. split_and!; try done.
  - congruence.
  - intros Hc. apply negb_true_iff in Hc. bcases. right. split; [done|].
    destruct (op_netmask o =? 0) eqn:En; bcases; done.
Qed.

Lemma process_ipv4_later i p c c' : process_ipv4 i p c = Some c' -> dhcp_later (pc_dhcp c) (pc_dhcp c').
Proof.
  unfold process_ipv4. destruct (_ <? 20); [intros [= <-]; apply dhcp_later_refl|]. obind.
  destruct (negb _); [intros [= <-]; apply dhcp_later_refl|]. obind.
  destruct (_ || _); [intros [= <-]; apply dhcp_later_refl|]. do 2 obind. destruct (_ =? IP_PROTO_ICMP).
  - destruct (pc_ping c); [|intros [= <-]; apply dhcp_later_refl]. do 3 obind.
    destruct (_ && _); intros [= <-]; apply dhcp_later_refl.
  - destruct (_ =? IP_PROTO_UDP); [|intros [= <-]; apply dhcp_later_refl]. do 3 obind.
    destruct (_ && _); [|intros [= <-]; apply dhcp_later_refl]. obind.
    destruct (process_dhcp _ _ _ _) eqn:Hd; [rewrite bind_some|done]. obind. intros [= <-]. cbn.
    by apply process_dhcp_later in Hd.
Qed.

(** A DNS wait changes only by a message with its id, from port 53 of its
    server to its port. *)
Lemma process_dns_matched d msg src sp dp d' : process_dns (Some d) msg src sp dp = Some d' ->
  d' = Some d \/ (src = dw_server d /\ sp = DNS_PORT /\ dp = dw_port d /\ be16 msg 0 = Some (dw_id d)).
Proof.
  unfold process_dns. destruct ((_ || _ || _ || _ || _)%bool) eqn:B; [intros [= <-]; by left|]. bcases.
  destruct (be16 msg 0) as [id|]; [rewrite bind_some|done].
  destruct (Z.eqb_spec id (dw_id d)) as [->|]; [|intros [= <-]; by left]. intros _. by right.
Qed.

(** A DHCP wait changes only by a message of its transaction, from port 67 to
    port 68. *)
Lemma process_dhcp_matched d msg sp dp d' : process_dhcp (Some d) msg sp dp = Some d' ->
  d' = Some d \/ (sp = DHCP_SERVER_PORT /\ dp = DHCP_CLIENT_PORT /\ be32 msg 4 = Some (hw_xid d)).
Proof.
  unfold process_dhcp. destruct ((_ || _ || _ || _)%bool) eqn:B; [intros [= <-]; by left|]. bcases.
  do 3 obind. destruct (be32 msg 4) as [xid|]; [rewrite bind_some|done]. obind.
  destruct ((_ || _ || _ || _ || _)%bool) eqn:B; [intros [= <-]; by left|]. bcases. subst. intros _. by right.
Qed.


Section Waiting.
Context {E : Type} {ND : NetDevice E}.

(** The hardware after some frames were sent. *)
Definition sends : relation E := rtc (fun e e' => exists frame, e' = fst (transmit e frame)).

Lemma net_transmit_sends i frame e : sends e (fst (net_transmit i frame e)).
Proof. unfold net_transmit. destruct (if_transmit i); [|apply rtc_refl]. apply rtc_once. by exists frame. Qed.

Lemma process_arp_keeps i p e i' e' : process_arp i p e = Some (i', e') -> same_iface i i' /\ sends e e'.
Proof.
  unfold process_arp. assert (same_iface i i /\ sends e e) by (split; [apply same_iface_refl|apply rtc_refl]).
  destruct (_ <? 28)%nat; [by intros [= <- <-]|]. do 4 obind. destruct (_ || _ || _ || _); [by intros [= <- <-]|].
  do 3 obind. destruct (_ && _).
  - obind. intros [= <- <-]. split; [by eexists _, _, _|apply rtc_refl].
  - destruct (_ && _); [|by intros [= <- <-]]. destruct (send_arp_reply i p e) as [e1|] eqn:Es; [|done].
    rewrite bind_some. intros [= <- <-]. split; [apply same_iface_refl|]. revert Es.
    unfold send_arp_reply. do 2 obind. intros [= <-]. apply net_transmit_sends.
Qed.

(** What handling frames can change. *)
Lemma process_frame_keeps i f c e i' c' e' : process_frame_ctx i f c e = Some (i', c', e') ->
  same_iface i i' /\ dhcp_later (pc_dhcp c) (pc_dhcp c') /\ sends e e'.
Proof.
  unfold process_frame_ctx.
  assert (same_iface i i /\ dhcp_later (pc_dhcp c) (pc_dhcp c) /\ sends e e)
    by (split_and!; [apply same_iface_refl|apply dhcp_later_refl|apply rtc_refl]).
  destruct (_ <? 14)%nat; [by intros [= <- <- <-]|]. obind. destruct (_ =? ETH_TYPE_ARP).
  - destruct (process_arp i _ e) as [[i1 e1]|] eqn:Ea; [|done]. rewrite bind_some. intros [= <- <- <-].
    apply process_arp_keeps in Ea as [? ?]. split_and!; [done|apply dhcp_later_refl|done].
  - destruct (_ =? ETH_TYPE_IPV4); [|by intros [= <- <- <-]].
    destruct (process_ipv4 i _ c) as [c1|] eqn:Ei; [|done]. rewrite bind_some. intros [= <- <- <-].
    apply process_ipv4_later in Ei. by split_and!; [apply same_iface_refl| |apply rtc_refl].
Qed.

Lemma process_frames_keeps fs : forall i c e i' c' e', process_frames i fs c e = Some (i', c', e') ->
  same_iface i i' /\ dhcp_later (pc_dhcp c) (pc_dhcp c') /\ sends e e'.
Proof.
  induction fs as [|f fs IH]; intros i c e i' c' e'; cbn [process_frames].
  - intros [= <- <- <-]. split_and!; [apply same_iface_refl|apply dhcp_later_refl|apply rtc_refl].
  - destruct (process_frame_ctx i f c e) as [[[i1 c1] e1]|] eqn:Ef; [|done]. rewrite bind_some.
    apply process_frame_keeps in Ef as (H1 & H2 & H3). intros (H4 & H5 & H6)%IH.
    split_and!; [by eapply same_iface_trans|by eapply dhcp_later_trans|by etrans].
Qed.

Lemma process_frames_some i fs c e : Forall bytes fs -> is_Some (process_frames i fs c e).
Proof.
  intros H. revert i c e. induction H as [|f fs Hf _ IH]; intros i c e; cbn [process_frames]; [by eexists|].
  destruct (process_frame_some i f c e Hf) as [[[i1 c1] e1] ->]. rewrite bind_some. apply IH.
Qed.


(** One turn of a wait, as the hardware sees it: a look at the clock, a poll,
    and the frames sent in answer to what was received. *)
Definition turn (e e' : E) : Prop := sends (fst (poll (fst (pit_ticks e)))) e'.

(** Within [n] turns, however they go, the clock has reached the limit. *)
Definition expires (limit start : Z) (n : nat) (e : E) : Prop :=
  forall e', nsteps turn n e e' -> limit <= u64 (snd (pit_ticks e') - start).

(** For [n] turns, however they go, the clock stays below the limit, and the
    poll of the turn after them hands over a frame that is [P]. *)
Definition arrives (limit start : Z) (P : list Z -> Prop) (n : nat) (e : E) : Prop :=
  (forall k e', (k <= n)%nat -> nsteps turn k e e' -> u64 (snd (pit_ticks e') - start) < limit) /\
  (forall e', nsteps turn n e e' -> Exists P (snd (poll (fst (pit_ticks e'))))).

(** The driver delivers bytes. *)
Hypothesis poll_bytes : forall e, Forall bytes (snd (poll e)).

(** One turn. *)
Lemma poll_turn i c e : exists i' c' e', net_poll_iface i c (fst (pit_ticks e)) = Some (i', c', e') /\
  same_iface i i' /\ dhcp_later (pc_dhcp c) (pc_dhcp c') /\ (if_poll i = true -> turn e e').
Proof.
  unfold net_poll_iface, turn. destruct (if_poll i); cbn [negb].
  - specialize (poll_bytes (fst (pit_ticks e))). destruct (poll (fst (pit_ticks e))) as [e1 fs]. cbn [fst snd] in *.
    destruct (process_frames_some i fs c e1 poll_bytes) as [[[i1 c1] e2] H1]. exists i1, c1, e2.
    split; [done|]. apply process_frames_keeps in H1 as (? & ? & ?). by split_and!.
  - eexists _, _, _. split; [done|]. split_and!; [apply same_iface_refl|apply dhcp_later_refl|done].
Qed.

Lemma same_iface_poll i i' : same_iface i i' -> if_poll i' = if_poll i.
Proof. by intros (? & ? & ? & ->). Qed.

(** A wait ends when the clock passes its limit. *)
Lemma wait_expires n limit start done i c e : if_poll i = true -> expires limit start n e ->
  exists i' c' e' ok, wait_loop (S n) limit start done i c e = Some (i', c', e', ok).
Proof.
  revert i c e. induction n as [|n IH]; intros i c e Hp Hx; cbn [wait_loop].
  - destruct (pit_ticks e) as [e1 now] eqn:Et. specialize (Hx e (nsteps_O _ _)). rewrite Et in Hx. cbn in Hx.
    rewrite (proj2 (Z.ltb_ge _ _)) by done. by eexists _, _, _, _.
  - destruct (poll_turn i c e) as (i1 & c1 & e2 & Hpoll & Hs & _ & Ht).
    destruct (pit_ticks e) as [e1 now]. destruct (_ <? limit); [|by eexists _, _, _, _].
    cbn [fst] in Hpoll. rewrite Hpoll, bind_some. destruct (done i1 c1); [by eexists _, _, _, _|].
    change (exists i' c' e' ok, wait_loop (S n) limit start done i1 c1 e2 = Some (i', c', e', ok)).
    apply IH; [by rewrite (same_iface_poll _ _ Hs)|]. intros e' Hn. apply Hx. eapply nsteps_l; [by apply Ht|done].
Qed.

(** The timer runs: from any reading on, whatever is sent and polled, five
    seconds are over within [n] turns. *)
Definition clock_runs (n : nat) : Prop :=
  forall e e', sends (fst (pit_ticks e)) e' -> expires 500 (snd (pit_ticks e)) n e'.

Lemma clock_runs_wait n limit e e' done i c : clock_runs n -> limit <= 500 -> if_poll i = true ->
  sends (fst (pit_ticks e)) e' ->
  exists i' c' e1 ok, wait_loop (S n) limit (snd (pit_ticks e)) done i c e' = Some (i', c', e1, ok).
Proof.
  intros Hc Hl Hp Hs. apply wait_expires; [done|]. intros e1 Hn. specialize (Hc e e' Hs e1 Hn). lia.
Qed.

Lemma wait_same fuel limit start done : forall i c e i' c' e' ok,
  wait_loop fuel limit start done i c e = Some (i', c', e', ok) -> same_iface i i'.
Proof.
  induction fuel as [|f IH]; intros i c e i' c' e' ok; cbn [wait_loop]; [done|].
  pose proof (poll_turn i c e) as (i1 & c1 & e2 & Hpoll & Hs & _ & _).
  destruct (pit_ticks e) as [e1 now]. destruct (_ <? limit); [|intros [= <- _ _ _]; apply same_iface_refl].
  cbn [fst] in Hpoll. rewrite Hpoll, bind_some. destruct (done i1 c1); [by intros [= <- _ _ _]|].
  intros H%IH. by eapply same_iface_trans.
Qed.

Lemma resolve_mac_returns n i ip e : clock_runs n ->
  exists i' e' mac, resolve_mac (S n) i ip e = Some (i', e', mac) /\ same_iface i i'.
Proof.
  intros Hc. unfold resolve_mac. destruct (negb (if_transmit i) || negb (if_poll i)) eqn:B.
  { eexists _, _, _. split; [done|apply same_iface_refl]. }
  bcases. destruct (arp_known ip i); [eexists _, _, _; split; [done|apply same_iface_refl]|].
  destruct (send_arp i ip [] 1 e) as [e1 rc]. destruct (rc <? 0); [eexists _, _, _; split; [done|apply same_iface_refl]|].
  destruct (clock_runs_wait n 200 e1 (fst (pit_ticks e1)) (fun i _ => arp_known ip i) i no_ctx)
    as (i' & c' & e' & ok & Hw); [done|lia|done|apply rtc_refl|].
  destruct (pit_ticks e1) as [e2 start]. cbn [fst snd] in Hw. rewrite Hw, bind_some.
  eexists _, _, _. split; [done|]. by eapply wait_same.
Qed.

Lemma dhcp_exchange_returns n i type xid ip sid expected e : clock_runs n -> if_poll i = true ->
  exists i' e' r, dhcp_exchange (S n) i type xid ip sid expected e = Some (i', e', r) /\ same_iface i i'.
Proof.
  intros Hc Hp. unfold dhcp_exchange, send_dhcp_message, send_udp4_from.
  destruct (512 <? _); [rewrite bind_some; eexists _, _, _; split; [done|apply same_iface_refl]|].
  destruct (ipv4_header_check (20 + 8 + Z.of_nat (length (dhcp_packet i type xid ip sid))) DHCP_CLIENT_PORT IP_PROTO_UDP 0
    (ipv4_make 255 255 255 255)) as (h & -> & _ & _); [unfold is_byte, IP_PROTO_UDP; lia|].
  rewrite bind_some. destruct (net_transmit i _ e) as [e1 rc]. rewrite bind_some.
  destruct (rc <? 0); [eexists _, _, _; split; [done|apply same_iface_refl]|].
  destruct (clock_runs_wait n 500 e1 (fst (pit_ticks e1)) dhcp_done i (Ctx None None (Some (Dhcp xid expected 0 0 0 0 0 false))))
    as (i' & c' & e' & ok & Hw); [done|lia|done|apply rtc_refl|].
  destruct (pit_ticks e1) as [e2 start]. cbn [fst snd] in Hw. rewrite Hw, bind_some.
  eexists _, _, _. split; [done|]. by eapply wait_same.
Qed.

Lemma iface_dhcp_returns n i e : clock_runs n ->
  exists i' e' rc, iface_dhcp (S n) i e = Some (i', e', rc) /\ -5 <= rc <= 0.
Proof.
  intros Hc. unfold iface_dhcp. destruct (_ || _ || _ || _ || _) eqn:B; [by eexists _, _, _|]. bcases.
  destruct (pit_ticks e) as [e1 now]. set (xid := Z.lor _ _). set (i1 := set_arp _ _ _ false).
  destruct (dhcp_exchange_returns n i1 1 xid 0 0 2 e1) as (i2 & e2 & r & -> & Hs); [done..|]. rewrite bind_some.
  destruct r as [[offer|]|]; [|by eexists _, _, _..].
  destruct (dhcp_exchange_returns n i2 3 xid (hw_offered offer) (hw_server_id offer) 5 e2) as (i3 & e3 & r3 & -> & _);
    [done|by rewrite (same_iface_poll _ _ Hs)|]. rewrite bind_some.
  destruct r3 as [[ack|]|]; by eexists _, _, _.
Qed.

Lemma iface_index_lookup P ifs k : iface_index P ifs = Some k -> exists i, ifs !! k = Some i /\ P i = true.
Proof.
  revert k. induction ifs as [|i ifs IH]; intros k; cbn [iface_index]; [done|].
  destruct (P i) eqn:HP; [by intros [= <-]; exists i|].
  destruct (iface_index P ifs) as [j|]; [|done]. rewrite bind_some. intros [= <-]. by apply IH.
Qed.

Lemma routes_poll ip i : routes ip i = true -> if_poll i = true.
Proof. unfold routes. intros H. bcases. done. Qed.

Lemma net_ping4_returns n ipv4 sequence ifs e : clock_runs n ->
  exists ifs' e' rc ms, net_ping4 (S n) ipv4 sequence ifs e = Some (ifs', e', rc, ms) /\ -1 <= rc <= 0.
Proof.
  intros Hc. unfold net_ping4. destruct (_ =? ipv4_make 127 0 0 1); [by eexists _, _, _, _|].
  destruct (route_for ipv4 ifs) as [k|] eqn:Er; [|by eexists _, _, _, _].
  destruct (iface_index_lookup _ _ _ Er) as (i & Hi & Hr). apply routes_poll in Hr. rewrite Hi, bind_some.
  destruct (_ =? 0); [by eexists _, _, _, _|].
  destruct (resolve_mac_returns n i (next_hop ipv4 i) e Hc) as (i1 & e1 & mac & -> & Hs). rewrite bind_some.
  destruct mac as [mac|]; [|by eexists _, _, _, _]. unfold send_icmp_echo.
  destruct (ipv4_header_check (20 + 8 + 32) sequence IP_PROTO_ICMP (if_ipv4 i1) ipv4) as (h & -> & _);
    [unfold is_byte, IP_PROTO_ICMP; lia|]. destruct (icmp_echo_check 0x544e sequence) as (m & -> & _).
  pose proof (net_transmit_sends i1 (build_eth mac (if_mac i1) ETH_TYPE_IPV4 ++ h ++ m) (fst (pit_ticks e1))) as Ht.
  destruct (pit_ticks e1) as [e2 start] eqn:Et. rewrite !bind_some. cbn [fst] in Ht.
  destruct (net_transmit i1 _ e2) as [e3 rc]. destruct (rc <? 0); [by eexists _, _, _, _|].
  destruct (clock_runs_wait n 300 e1 e3 ping_done i1 (Ctx (Some (Ping ipv4 0x544e sequence false)) None None))
    as (i' & c' & e' & ok & Hw); [done|lia|by rewrite (same_iface_poll _ _ Hs)|by rewrite Et|].
  rewrite Et in Hw. cbn [snd] in Hw. rewrite Hw, bind_some. destruct ok; [|by eexists _, _, _, _].
  destruct (pit_ticks e'). by eexists _, _, _, _.
Qed.

Lemma net_resolve4_returns n host ifs e : clock_runs n ->
  exists ifs' e' rc ip, net_resolve4 (S n) host ifs e = Some (ifs', e', rc, ip) /\ -1 <= rc <= 0.
Proof.
  intros Hc. unfold net_resolve4. destruct (negb _); [by eexists _, _, _, _|].
  destruct (route_for (ipv4_make 1 1 1 1) ifs) as [k|] eqn:Er; [|by eexists _, _, _, _].
  destruct (iface_index_lookup _ _ _ Er) as (i & Hi & Hr). apply routes_poll in Hr. rewrite bind_some, Hi, bind_some.
  destruct (_ =? 0); [by eexists _, _, _, _|]. destruct (dns_build_query host 0x544e) as [q|]; [|by eexists _, _, _, _].
  destruct (_ =? 0); [by eexists _, _, _, _|].
  destruct (resolve_mac_returns n i (next_hop (if_dns_server i) i) e Hc) as (i1 & e1 & mac & -> & Hs). rewrite bind_some.
  destruct mac as [mac|]; [|by eexists _, _, _, _]. unfold send_udp4, send_udp4_from.
  destruct (pit_ticks e1) as [e2 start] eqn:Et. destruct (512 <? _); [rewrite bind_some; by eexists _, _, _, _|].
  destruct (ipv4_header_check (20 + 8 + Z.of_nat (length q)) DNS_SOURCE_PORT IP_PROTO_UDP (if_ipv4 i1) (if_dns_server i))
    as (h & -> & _); [unfold is_byte, IP_PROTO_UDP; lia|]. rewrite bind_some.
  match goal with |- context [net_transmit i1 ?f e2] => pose proof (net_transmit_sends i1 f e2) as Ht;
    destruct (net_transmit i1 f e2) as [e3 rc] end.
  rewrite bind_some. destruct (rc <? 0); [by eexists _, _, _, _|].
  destruct (clock_runs_wait n 300 e1 e3 dns_done i1 (Ctx None (Some (Dns 0x544e DNS_SOURCE_PORT (if_dns_server i) 0 false)) None))
    as (i' & c' & e' & ok & Hw); [done|lia|by rewrite (same_iface_poll _ _ Hs)|by rewrite Et|].
  rewrite Et in Hw. cbn [snd] in Hw. rewrite Hw, bind_some. destruct ok; by eexists _, _, _, _.
Qed.

(** C12 no network call hangs: as long as the timer runs, DHCP, ping and name
    resolution return whatever arrives or fails to arrive, within one turn more
    than the clock needs, with one of their documented return values. *)
Theorem network_calls_return (n : nat) (name host : list Z) (ipv4 sequence : Z) (ifs : list net_iface) (e : E) :
  clock_runs n ->
  (exists ifs' e' rc, net_iface_dhcp (S n) name ifs e = Some (ifs', e', rc) /\ -5 <= rc <= 0) /\
  (exists ifs' e' rc ms, net_ping4 (S n) ipv4 sequence ifs e = Some (ifs', e', rc, ms) /\ -1 <= rc <= 0) /\
  (exists ifs' e' rc ip, net_resolve4 (S n) host ifs e = Some (ifs', e', rc, ip) /\ -1 <= rc <= 0).
Proof.
  intros Hc. split_and!; [|by apply net_ping4_returns|by apply net_resolve4_returns].
  unfold net_iface_dhcp. destruct (k ← _; _) as [[k i]|]; [|by eexists _, _, _].
  destruct (iface_dhcp_returns n i e Hc) as (i' & e' & rc & -> & Hrc). rewrite bind_some. by eexists _, _, _.
Qed.

End Waiting.

(** ** A DHCP server's answers *)

Definition opts_bytes (l : list (Z * list Z)) : list Z :=
  concat (map (fun '(c, d) => c :: Z.of_nat (length d) :: d) l).
Definition opt_ok (x : Z * list Z) : Prop := 0 < fst x < 255 /\ bytes (snd x) /\ Z.of_nat (length (snd x)) < 256.
Definition opt_apply (o : dhcp_opts) (x : Z * list Z) : dhcp_opts := default o (dhcp_option (fst x) (snd x) o).

Lemma opts_bytes_length l : (length l <= length (opts_bytes l))%nat.
Proof.
  induction l as [|[c d] l IH]; [done|].
  change (opts_bytes ((c, d) :: l)) with ((c :: Z.of_nat (length d) :: d) ++ opts_bytes l).
  rewrite length_app. cbn [length]. lia.
Qed.

Lemma dhcp_options_encoded l : forall fuel pre post o, (length l < fuel)%nat -> Forall opt_ok l ->
  dhcp_options fuel (pre ++ opts_bytes l ++ 255 :: post) (Z.of_nat (length pre)) o
  = Some (Some (foldl opt_apply o l)).
Proof.
  induction l as [|[code d] l IH]; intros fuel pre post o Hf Hok; (destruct fuel as [|fuel]; [cbn in Hf; lia|]);
    cbn [dhcp_options]; rewrite (proj2 (Z.leb_gt _ _)) by (rewrite !length_app; cbn [length]; lia);
    rewrite (byte_skip pre _ (Z.of_nat (length pre))), Z.sub_diag by lia.
  - change (opts_bytes []) with (@nil Z). cbn [app]. rewrite byte_here, bind_some. done.
  - apply Forall_cons in Hok as [(Hc & Hb & Hl) Hok]. cbn [fst snd] in *.
    change (opts_bytes ((code, d) :: l)) with ((code :: Z.of_nat (length d) :: d) ++ opts_bytes l).
    set (tail := opts_bytes l ++ 255 :: post). rewrite <- (app_assoc (code :: _)). fold tail. cbn [app].
    rewrite byte_here, bind_some. rewrite !(proj2 (Z.eqb_neq code _)) by lia.
    rewrite (proj2 (Z.leb_gt _ _)) by (rewrite !length_app; cbn [length]; lia).
    rewrite byte_skip by lia. replace (Z.of_nat (length pre) + 1 - Z.of_nat (length pre)) with 1 by lia.
    change (byte (code :: Z.of_nat (length d) :: d ++ tail) 1) with (Some (Z.of_nat (length d))). rewrite bind_some.
    rewrite (proj2 (Z.ltb_ge _ _)) by (rewrite !length_app; cbn [length]; rewrite length_app; lia).
    assert (pre ++ code :: Z.of_nat (length d) :: d ++ tail = (pre ++ [code; Z.of_nat (length d)]) ++ d ++ tail) as ->
      by by rewrite <- app_assoc.
    rewrite (slice_skip' _ (d ++ tail) (Z.of_nat (length pre) + 1 + 1)) by (rewrite ?length_app; cbn [length]; lia).
    rewrite Z.sub_diag, slice_here, bind_some by done.
    destruct (dhcp_option_some code d o Hb) as [o1 Ho]. rewrite Ho, bind_some.
    replace (Z.of_nat (length pre) + 1 + 1 + Z.of_nat (length d))
      with (Z.of_nat (length ((pre ++ [code; Z.of_nat (length d)]) ++ d))) by (rewrite !length_app; cbn [length]; lia).
    rewrite (app_assoc _ d). unfold tail. rewrite IH by (cbn in Hf; lia || done).
    cbn [foldl]. unfold opt_apply at 3. cbn [fst snd]. by rewrite Ho.
Qed.

(** The message of an answer of a type to a transaction. *)
Definition dhcp_message (xid ip : Z) (hops : Z) (a b : list Z) (l : list (Z * list Z)) (post : list Z) : list Z :=
  [2; 1; 6; hops] ++ put32 xid ++ a ++ put32 ip ++ b ++ put32 DHCP_MAGIC ++ opts_bytes l ++ 255 :: post.

(** The IPv4 packet of a broadcast datagram. *)
Definition broadcast_packet (ip8 ip6 ck : list Z) (src_port dst_port : Z) (payload trailer : list Z) : list Z :=
  [0x45] ++ ip8 ++ [IP_PROTO_UDP] ++ ip6 ++ put32 (ipv4_make 255 255 255 255) ++
  put16 src_port ++ put16 dst_port ++ put16 (8 + Z.of_nat (length payload)) ++ ck ++ payload ++ trailer.

(** A frame that answers transaction [xid] with a message of a type. *)
Definition dhcp_answer (xid type : Z) (f : list Z) : Prop :=
  exists eth ip8 ip6 ck trailer ip hops a b l post,
    f = eth ++ put16 ETH_TYPE_IPV4 ++ broadcast_packet ip8 ip6 ck DHCP_SERVER_PORT DHCP_CLIENT_PORT
      (dhcp_message xid ip hops a b l post) trailer /\
    length eth = 12%nat /\ length ip8 = 8%nat /\ length ip6 = 6%nat /\ length ck = 2%nat /\
    length a = 8%nat /\ length b = 216%nat /\ Forall opt_ok l /\
    op_type (foldl opt_apply (Opts 0 0 0 0 0) l) = type /\ 0 < ip < 4294967296 /\
    Z.of_nat (length (dhcp_message xid ip hops a b l post)) < 65528.

Lemma length_dhcp_message xid ip hops a b l post : length a = 8%nat -> length b = 216%nat ->
  (240 + length (opts_bytes l ++ 255%Z :: post) = length (dhcp_message xid ip hops a b l post))%nat.
Proof. intros Ha Hb. unfold dhcp_message. rewrite !length_app. cbn [length put32]. rewrite Ha, Hb. lia. Qed.

Lemma process_dhcp_answer d xid ip hops a b l post : length a = 8%nat -> length b = 216%nat -> Forall opt_ok l ->
  0 <= xid < 4294967296 -> 0 < ip < 4294967296 ->
  hw_complete d = false -> hw_xid d = xid -> hw_expected d = op_type (foldl opt_apply (Opts 0 0 0 0 0) l) ->
  exists d', process_dhcp (Some d) (dhcp_message xid ip hops a b l post) DHCP_SERVER_PORT DHCP_CLIENT_PORT
    = Some (Some d') /\ hw_complete d' = true.
Proof.
  intros Ha Hb Hl Hxid Hip Hc Hx He. pose proof (length_dhcp_message xid ip hops a b l post Ha Hb) as Hlen.
  unfold process_dhcp. set (m := dhcp_message _ _ _ _ _ _ _) in *. rewrite Hc, !Z.eqb_refl.
  rewrite (proj2 (Z.ltb_ge _ 240)) by lia. cbn [orb negb].
  change (byte m 0) with (Some 2). change (byte m 1) with (Some 1). change (byte m 2) with (Some 6).
  assert (be32 m 4 = Some xid) as -> by (unfold m, dhcp_message; by at_field).
  assert (be32 m 236 = Some DHCP_MAGIC) as -> by (unfold m, dhcp_message; unfold DHCP_MAGIC; by at_field).
  assert (be32 m 16 = Some ip) as -> by (unfold m, dhcp_message; by at_field).
  rewrite !bind_some, Hx, !Z.eqb_refl. cbn [negb orb Z.eqb Pos.eqb].
  set (head := [2; 1; 6; hops] ++ put32 xid ++ a ++ put32 ip ++ b ++ put32 DHCP_MAGIC).
  assert (m = head ++ opts_bytes l ++ 255 :: post) as Em by (unfold m, dhcp_message, head; by rewrite <- !app_assoc).
  assert (Z.of_nat (length head) = 240) as Eh by (unfold head; rewrite !length_app; cbn [length put32]; lia).
  assert (forall f o, dhcp_options f m 240 o = dhcp_options f (head ++ opts_bytes l ++ 255 :: post) (Z.of_nat (length head)) o)
    as -> by (intros; by rewrite Eh, Em).
  rewrite dhcp_options_encoded; [|rewrite Em, !length_app; pose proof (opts_bytes_length l); lia|done].
  rewrite bind_some, <- He, Z.eqb_refl. cbn [negb]. rewrite bind_some. eexists. split; [done|].
  cbn [hw_complete]. by rewrite (proj2 (Z.eqb_neq ip 0)) by lia.
Qed.

Lemma broadcast_packet_received i c ip8 ip6 ck sp dp payload trailer :
  length ip8 = 8%nat -> length ip6 = 6%nat -> length ck = 2%nat ->
  Z.of_nat (length payload) < 65528 -> 0 <= sp < 65536 -> 0 <= dp < 65536 ->
  bytes (broadcast_packet ip8 ip6 ck sp dp payload trailer) ->
  exists src, process_ipv4 i (broadcast_packet ip8 ip6 ck sp dp payload trailer) c =
  (dhcp ← process_dhcp (pc_dhcp c) payload sp dp; dns ← process_dns (pc_dns c) payload src sp dp;
   Some (Ctx (pc_ping c) dns dhcp)).
Proof.
  intros H8 H6 Hck Hl Hs Hd Hb. unfold process_ipv4. set (p := broadcast_packet _ _ _ _ _ _ _) in *.
  assert (Z.of_nat (length p) = 28 + Z.of_nat (length payload) + Z.of_nat (length trailer)) as Hp
    by (unfold p, broadcast_packet; lens).
  rewrite (proj2 (Z.ltb_ge _ 20)) by lia. change (byte p 0) with (Some 0x45). rewrite bind_some.
  change (negb (Z.shiftr 69 4 =? 4)) with false. change (Z.land 69 0x0f * 4) with 20. cbv iota.
  assert (be32 p 16 = Some (ipv4_make 255 255 255 255)) as ->
    by (unfold p, broadcast_packet; at_field; change (ipv4_make 255 255 255 255) with 4294967295; by at_field).
  rewrite bind_some, Z.eqb_refl. change (20 <? 20) with false.
  rewrite (proj2 (Z.ltb_ge _ (20 + 8))) by lia. rewrite andb_false_r. cbn [orb].
  destruct (be32_some p 12 Hb) as (src & -> & _); [lia..|]. rewrite bind_some. exists src.
  assert (byte p 9 = Some IP_PROTO_UDP) as -> by (unfold p, broadcast_packet; at_field; by rewrite H8).
  rewrite bind_some. change (IP_PROTO_UDP =? IP_PROTO_ICMP) with false. rewrite Z.eqb_refl. cbv iota.
  assert (be16 p 20 = Some sp) as -> by (unfold p, broadcast_packet; by at_field).
  assert (be16 p (20 + 2) = Some dp) as -> by (unfold p, broadcast_packet; by at_field).
  assert (be16 p (20 + 4) = Some (8 + Z.of_nat (length payload))) as -> by (unfold p, broadcast_packet; by at_field).
  rewrite !bind_some. rewrite !(proj2 (Z.leb_le _ _)) by lia. cbn [andb].
  assert (slice p (20 + 8) (8 + Z.of_nat (length payload) - 8) = Some payload) as ->; [|done].
  set (h := [0x45] ++ ip8 ++ [IP_PROTO_UDP] ++ ip6 ++ put32 (ipv4_make 255 255 255 255) ++
    put16 sp ++ put16 dp ++ put16 (8 + Z.of_nat (length payload)) ++ ck).
  assert (p = h ++ payload ++ trailer) as -> by (unfold p, broadcast_packet, h; by rewrite <- !app_assoc).
  rewrite (slice_skip' h _ 28) by (unfold h; lens). apply slice_here. lia.
Qed.

Lemma broadcast_received {E : Type} {ND : NetDevice E} i c (e : E) eth p : length eth = 12%nat ->
  process_frame_ctx i (eth ++ put16 ETH_TYPE_IPV4 ++ p) c e = c' ← process_ipv4 i p c; Some (i, c', e).
Proof.
  intros He. unfold process_frame_ctx. rewrite (proj2 (Nat.ltb_ge _ _)) by lens.
  assert (be16 (eth ++ put16 ETH_TYPE_IPV4 ++ p) 12 = Some ETH_TYPE_IPV4) as ->
    by (unfold ETH_TYPE_IPV4; by at_field).
  rewrite bind_some. change (ETH_TYPE_IPV4 =? ETH_TYPE_ARP) with false. rewrite Z.eqb_refl. cbv iota.
  rewrite app_assoc, drop_app_length' by lens. done.
Qed.

(** An expected answer completes the wait. *)
Lemma answer_completes {E : Type} {ND : NetDevice E} i c (e : E) d f xid type :
  dhcp_answer xid type f -> bytes f -> 0 <= xid < 4294967296 ->
  pc_dhcp c = Some d -> hw_xid d = xid -> hw_expected d = type ->
  exists c', process_frame_ctx i f c e = Some (i, c', e) /\ dhcp_done i c' = true.
Proof.
  intros (eth & ip8 & ip6 & ck & trailer & ip & hops & a & b & l & post & -> & He & H8 & H6 & Hck & Ha & Hb &
    Hl & Ht & Hip & Hlen) Hf Hxid Hd Hx Hexp.
  set (m := dhcp_message _ _ _ _ _ _ _) in *.
  rewrite broadcast_received by done.
  apply Forall_app in Hf as [_ Hf]. apply Forall_app in Hf as [_ Hf].
  destruct (broadcast_packet_received i c ip8 ip6 ck DHCP_SERVER_PORT DHCP_CLIENT_PORT m trailer) as [src ->];
    [done..|unfold DHCP_SERVER_PORT; lia|unfold DHCP_CLIENT_PORT; lia|done|].
  assert (bytes m) as Hm.
  { unfold broadcast_packet in Hf. do 9 apply Forall_app in Hf as [_ Hf]. by apply Forall_app in Hf as [Hf _]. }
  destruct (process_dns_some (pc_dns c) m src DHCP_SERVER_PORT DHCP_CLIENT_PORT Hm) as [dns ->].
  rewrite Hd. destruct (hw_complete d) eqn:Hc.
  - unfold process_dhcp. rewrite Hc. cbn [orb]. rewrite !bind_some. eexists. split; [done|]. exact Hc.
  - destruct (process_dhcp_answer d xid ip hops a b l post) as (d' & Hp & Hc'); [done..|by rewrite Ht|].
    fold m in Hp. rewrite Hp, !bind_some. eexists. split; [done|]. exact Hc'.
Qed.

Lemma lor_bound n a b : 0 <= n -> 0 <= a < 2 ^ n -> 0 <= b < 2 ^ n -> 0 <= Z.lor a b < 2 ^ n.
Proof.
  intros Hn Ha Hb. assert (0 <= Z.lor a b) as H0 by (apply Z.lor_nonneg; lia).
  assert (Z.lor a b / 2 ^ n = 0) as Hd.
  { rewrite <- Z.shiftr_div_pow2, Z.shiftr_lor, !Z.shiftr_div_pow2, !Z.div_small by done. done. }
  apply Z.div_small_iff in Hd as [?|?]; lia.
Qed.

(** ** DHCP is live *)

Section Dhcp.
Context {E : Type} {ND : NetDevice E}.
Hypothesis poll_bytes : forall e, Forall bytes (snd (poll e)).

Lemma later_done i i' c c' : dhcp_later (pc_dhcp c) (pc_dhcp c') -> dhcp_done i c = true -> dhcp_done i' c' = true.
Proof.
  unfold dhcp_done, dhcp_later. destruct (pc_dhcp c) as [d|], (pc_dhcp c') as [d'|]; try done.
  intros (_ & _ & H & _) Hc. by rewrite (H Hc).
Qed.

(** The context waits for a type of answer to a transaction. *)
Definition waits (xid type : Z) (c : poll_ctx) : Prop :=
  exists d, pc_dhcp c = Some d /\ hw_xid d = xid /\ hw_expected d = type.

Lemma waits_later xid type c c' : waits xid type c -> dhcp_later (pc_dhcp c) (pc_dhcp c') -> waits xid type c'.
Proof.
  intros (d & Hd & Hx & He). unfold dhcp_later. rewrite Hd. destruct (pc_dhcp c') as [d'|] eqn:Hd'; [|done].
  intros (H1 & H2 & _). exists d'. by rewrite H1, H2.
Qed.

Lemma frames_complete xid type fs : 0 <= xid < 4294967296 -> Forall bytes fs -> Exists (dhcp_answer xid type) fs ->
  forall i c (e : E) i' c' e', waits xid type c -> process_frames i fs c e = Some (i', c', e') ->
  dhcp_done i' c' = true.
Proof.
  intros Hxid Hb Hx. induction Hx as [f fs Hf|f fs _ IH]; intros i c e i' c' e' Hw; cbn [process_frames];
    apply Forall_cons in Hb as [Hbf Hb].
  - destruct Hw as (d & Hd & Hdx & Hde).
    destruct (answer_completes i c e d f xid type Hf Hbf Hxid Hd Hdx Hde) as (c1 & -> & Hc1). rewrite bind_some.
    intros (_ & Hl & _)%process_frames_keeps. by apply (later_done i i' c1 c').
  - destruct (process_frame_ctx i f c e) as [[[i1 c1] e1]|] eqn:Ef; [|done]. rewrite bind_some.
    apply IH; [done|]. apply process_frame_keeps in Ef as (_ & Hl & _). by eapply waits_later.
Qed.

(** A wait whose answer arrives ends with it. *)
Lemma wait_answered xid type n limit start : 0 <= xid < 4294967296 -> forall fuel i c e, (n < fuel)%nat ->
  if_poll i = true -> waits xid type c -> arrives limit start (dhcp_answer xid type) n e ->
  exists i' c' e', wait_loop fuel limit start dhcp_done i c e = Some (i', c', e', true) /\
    same_iface i i' /\ dhcp_later (pc_dhcp c) (pc_dhcp c') /\ dhcp_done i' c' = true.
Proof.
  intros Hxid. induction n as [|n IH]; intros fuel i c e Hf Hp Hw [Ht Ha];
    (destruct fuel as [|fuel]; [lia|]); cbn [wait_loop];
    destruct (poll_turn poll_bytes i c e) as (i1 & c1 & e2 & Hpoll & Hs & Hl & Hturn);
    pose proof (Ht 0%nat e ltac:(lia) (nsteps_O _ _)) as Hnow.
  - specialize (Ha e (nsteps_O _ _)). unfold net_poll_iface in Hpoll |- *. rewrite Hp in *. cbn [negb] in *.
    pose proof (poll_bytes (fst (pit_ticks e))) as Hb.
    destruct (pit_ticks e) as [e1 now]. cbn [fst snd] in *. rewrite (proj2 (Z.ltb_lt _ _)) by done.
    destruct (poll e1) as [e1' fs]. cbn [snd] in *. rewrite Hpoll, bind_some.
    assert (dhcp_done i1 c1 = true) as Hd by (by eapply (frames_complete xid type fs)).
    rewrite Hd. by eexists _, _, _.
  - destruct (pit_ticks e) as [e1 now] eqn:Et. cbn [fst snd] in *. rewrite (proj2 (Z.ltb_lt _ _)) by done.
    rewrite Hpoll, bind_some. destruct (dhcp_done i1 c1) eqn:Hd; [by eexists _, _, _|].
    assert (turn e e2) as Hte by (by apply Hturn).
    destruct (IH fuel i1 c1 e2) as (i' & c' & e' & Hw' & Hs' & Hl' & Hd').
    + lia.
    + by rewrite (same_iface_poll _ _ Hs).
    + by eapply waits_later.
    + split; [intros k e' Hk Hn; apply (Ht (S k) e'); [lia|by eapply nsteps_l]|].
      intros e' Hn. apply Ha. by eapply nsteps_l.
    + exists i', c', e'. split_and!; [done|by eapply same_iface_trans|by eapply dhcp_later_trans|done].
Qed.

(** The frame of a message to the server. *)
Definition dhcp_request (type xid : Z) (f : list Z) : Prop :=
  exists i ip sid h, length (if_mac i) = 6%nat /\
    ipv4_header 328 DHCP_CLIENT_PORT IP_PROTO_UDP 0 (ipv4_make 255 255 255 255) = Some h /\
    f = build_eth broadcast_mac (if_mac i) ETH_TYPE_IPV4 ++ h ++ put16 DHCP_CLIENT_PORT ++ put16 DHCP_SERVER_PORT ++
        put16 308 ++ put16 0 ++ dhcp_packet i type xid ip sid.

(** A server that answers a type of message: whenever one is sent, it is sent
    without error, and however the next turns go an answer of the other type
    arrives before the time is over. *)
Definition server_answers (req rep : Z) (n : nat) : Prop :=
  forall xid f e, 0 <= xid < 4294967296 -> dhcp_request req xid f ->
    0 <= snd (transmit e f) /\
    let t := pit_ticks (fst (transmit e f)) in arrives 500 (snd t) (dhcp_answer xid rep) n (fst t).

Lemma length_dhcp_packet i type xid ip sid : length (if_mac i) = 6%nat ->
  length (dhcp_packet i type xid ip sid) = 300%nat.
Proof.
  intros Hm. unfold dhcp_packet. apply length_pad. rewrite !length_app. unfold dhcp_put_option. cbn [length put32 put16].
  rewrite !length_zeros, Hm. destruct (ip =? 0), (sid =? 0); cbn; lia.
Qed.

Lemma exchange_answered fuel n req rep i xid ip sid e : server_answers req rep n -> (n < fuel)%nat ->
  0 <= xid < 4294967296 -> if_poll i = true -> if_transmit i = true -> length (if_mac i) = 6%nat ->
  exists i' e' d, dhcp_exchange fuel i req xid ip sid rep e = Some (i', e', Some (Some d)) /\ same_iface i i' /\
    hw_offered d <> 0 /\ hw_netmask d <> 0.
Proof.
  intros Hs Hf Hxid Hp Ht Hm. unfold dhcp_exchange, send_dhcp_message, send_udp4_from.
  rewrite length_dhcp_packet by done. change (512 <? Z.of_nat 300) with false. cbv iota.
  destruct (ipv4_header_check 328 DHCP_CLIENT_PORT IP_PROTO_UDP 0 (ipv4_make 255 255 255 255)) as (h & Hh & _ & _).
  { unfold is_byte, IP_PROTO_UDP. lia. }
  change (20 + 8 + Z.of_nat 300) with 328. rewrite Hh, bind_some. unfold net_transmit. rewrite Ht.
  set (f := build_eth _ _ _ ++ _). destruct (Hs xid f e) as [Hrc Ha]; [done|by exists i, ip, sid, h|].
  destruct (transmit e f) as [e1 rc]. cbn [fst snd] in *. rewrite bind_some, (proj2 (Z.ltb_ge rc 0)) by done.
  destruct (pit_ticks e1) as [e2 start]. cbn [fst snd] in *.
  destruct (wait_answered xid rep n 500 start Hxid fuel i (Ctx None None (Some (Dhcp xid rep 0 0 0 0 0 false))) e2)
    as (i' & c' & e' & -> & Hsi & Hl & Hd); [done|done|by eexists|done|].
  rewrite bind_some. unfold dhcp_done in Hd. cbn [pc_dhcp dhcp_later] in Hl. destruct (pc_dhcp c') as [d|]; [|done].
  destruct Hl as (_ & _ & _ & Hc). exists i', e', d. split; [done|]. split; [done|].
  destruct (Hc Hd) as [->|]; done.
Qed.

(** C10 with a server on the link that answers, [net_iface_dhcp] gets the
    interface an address: it returns 0 with an address and a mask set, whatever
    other frames arrive in between, in whatever order. *)
Theorem dhcp_configures (fuel n m : nat) (i : net_iface) (e : E) :
  if_up i = true -> if_link i = true -> if_transmit i = true -> if_poll i = true ->
  length (if_mac i) = 6%nat -> mac_is_usable (if_mac i) = true ->
  server_answers 1 2 n -> server_answers 3 5 m -> (n < fuel)%nat -> (m < fuel)%nat ->
  exists i' e', iface_dhcp fuel i e = Some (i', e', 0) /\ if_ipv4 i' <> 0 /\ if_netmask i' <> 0 /\ if_up i' = true.
Proof.
  intros Hup Hlk Htx Hp Hm Hmac Ho Ha Hn Hk. unfold iface_dhcp. rewrite Hup, Hlk, Htx, Hp, Hmac. cbn [negb orb].
  destruct (pit_ticks e) as [e1 now]. set (xid := Z.lor 0x544e0000 _). set (i1 := set_arp _ _ _ false).
  assert (0 <= xid < 4294967296) as Hxid.
  { change 4294967296 with (2 ^ 32). apply lor_bound; [lia|lia|]. change 0xffff with (Z.ones 16).
    rewrite Z.land_ones by lia. change (2 ^ 16) with 65536. change (2 ^ 32) with 4294967296.
    pose proof (Z.mod_pos_bound (u32 now) 65536). lia. }
  destruct (exchange_answered fuel n 1 2 i1 xid 0 0 e1) as (i2 & e2 & d & -> & (? & ? & ? & ->) & _ & _); [done..|].
  rewrite bind_some.
  destruct (exchange_answered fuel m 3 5 (set_arp i1 x x0 x1) xid (hw_offered d) (hw_server_id d) e2)
    as (i3 & e3 & d3 & -> & (? & ? & ? & ->) & Hoff & Hmask); [done..|].
  rewrite bind_some. by eexists _, _.
Qed.

End Dhcp.

(** A link with a server on it: the clock, and the answers on their way as the
    transaction and type of each. *)
Record lan := Lan { lan_now : Z; lan_inbox : list (Z * Z) }.

Definition lan_frame (x : Z * Z) : list Z :=
  zeros 12 ++ put16 ETH_TYPE_IPV4 ++ broadcast_packet (zeros 8) (zeros 6) (zeros 2) DHCP_SERVER_PORT DHCP_CLIENT_PORT
    (dhcp_message (fst x) 0x0a00020f 0 (zeros 8) (zeros 216) [(53, [u8 (snd x)])] []) [].

#[local] Instance lan_device : NetDevice lan := {
  transmit e f :=
    match be32 f 46, byte f 284 with
    | Some xid, Some type => (Lan (lan_now e) (lan_inbox e ++ [(xid, if type =? 1 then 2 else 5)]), 0)
    | _, _ => (e, 0)
    end;
  poll e := (Lan (lan_now e + 1) [], map lan_frame (lan_inbox e));
  pit_ticks e := (e, u64 (lan_now e)) }.

Lemma lan_poll_bytes (e : lan) : Forall bytes (snd (poll e)).
Proof.
  cbn [poll lan_device snd]. apply Forall_forall. intros f (x & -> & _)%list_elem_of_fmap. unfold lan_frame.
  assert (forall n, bytes (zeros n)) by (intros n; apply bytes_replicate; unfold is_byte; lia).
  assert (is_byte (u8 (snd x))) by apply u8_range.
  assert (bytes (opts_bytes [(53, [u8 (snd x)])])).
  { change (bytes [53; 1; u8 (snd x)]). auto with net. }
  unfold broadcast_packet, dhcp_message, IP_PROTO_UDP. auto 30 with net.
Qed.

Lemma dhcp_packet_fields i type xid ip sid : length (if_mac i) = 6%nat -> 0 <= xid < 4294967296 ->
  be32 (dhcp_packet i type xid ip sid) 4 = Some xid /\ byte (dhcp_packet i type xid ip sid) 242 = Some type.
Proof.
  intros Hm Hx. unfold dhcp_packet, pad, dhcp_put_option. rewrite <- !app_assoc. split; [by at_field|].
  at_field. rewrite length_zeros, Hm. done.
Qed.

Lemma dhcp_request_fields type xid f : dhcp_request type xid f -> 0 <= xid < 4294967296 ->
  be32 f 46 = Some xid /\ byte f 284 = Some type.
Proof.
  intros (i & ip & sid & h & Hm & Hh & ->) Hx.
  destruct (ipv4_header_check 328 DHCP_CLIENT_PORT IP_PROTO_UDP 0 (ipv4_make 255 255 255 255)) as (h' & Hh' & Hl & _).
  { unfold is_byte, IP_PROTO_UDP. lia. }
  rewrite Hh in Hh'. injection Hh' as <-. unfold build_eth, broadcast_mac.
  destruct (dhcp_packet_fields i type xid ip sid Hm Hx) as [Hx' Ht].
  set (p := dhcp_packet _ _ _ _ _) in *.
  set (u := build_eth broadcast_mac (if_mac i) ETH_TYPE_IPV4 ++ h ++ put16 DHCP_CLIENT_PORT ++ put16 DHCP_SERVER_PORT ++ put16 308 ++ put16 0).
  assert (Z.of_nat (length u) = 42) as Hu by (unfold u, build_eth, broadcast_mac; rewrite !length_app, length_replicate; lens).
  match goal with |- be32 ?x _ = _ /\ _ => assert (x = u ++ p) as -> by (unfold u; unfold build_eth, broadcast_mac; by rewrite <- !app_assoc) end.
  rewrite be32_skip, byte_skip, Hu by lia. done.
Qed.

Lemma lan_answers req : req = 1 \/ req = 3 -> server_answers req (if req =? 1 then 2 else 5) 0.
Proof.
  intros Hreq xid f e Hx Hf. destruct (dhcp_request_fields req xid f Hf Hx) as [H1 H2].
  cbn [transmit lan_device]. rewrite H1, H2. cbn [fst snd pit_ticks]. split; [lia|]. split.
  - intros k e' Hk Hn. assert (k = 0%nat) as -> by lia. inversion Hn; subst. cbn [snd pit_ticks lan_now lan_device].
    rewrite Z.sub_diag. done.
  - intros e' Hn. inversion Hn; subst. cbn [snd fst poll pit_ticks lan_inbox lan_device]. rewrite map_app.
    apply Exists_app. right. apply Exists_cons. left. unfold lan_frame. cbn [fst snd].
    exists (zeros 12), (zeros 8), (zeros 6), (zeros 2), [], 0x0a00020f, 0, (zeros 8), (zeros 216).
    exists [(53, [u8 (if req =? 1 then 2 else 5)])], [].
    split; [done|]. do 6 (split; [done|]). split.
    { constructor; [|constructor]. unfold opt_ok. cbn. split; [lia|]. split; [|lia]. constructor; [apply u8_range|constructor]. }
    split; [destruct Hreq as [-> | ->]; done|]. split; [lia|done].
Qed.

(** An interface of that link. *)
Definition eth0 : net_iface :=
  Iface (str "eth0") NET_IFACE_ETHERNET true true [2; 84; 134; 128; 14; 3] 0 0 0 0 0 0 0 0 true true true 0 (zeros 6) false.

Lemma dhcp_configures_witness : exists i' e', iface_dhcp 1 eth0 (Lan 7 []) = Some (i', e', 0) /\
  if_ipv4 i' <> 0 /\ if_netmask i' <> 0 /\ if_up i' = true.
Proof.
  apply (dhcp_configures lan_poll_bytes 1 0 0 eth0 (Lan 7 [])); try done.
  - apply (lan_answers 1). by left.
  - apply (lan_answers 3). by right.
  - lia.
  - lia.
Defined.

(** On that link a turn takes at least one tick. *)
Lemma lan_sends e e' : sends e e' -> lan_now e' = lan_now e.
Proof.
  induction 1 as [|e e1 e' [f ->] _ ->]; [done|]. cbn [transmit lan_device].
  by destruct (be32 f 46), (byte f 284).
Qed.

Lemma lan_turns k e e' : nsteps turn k e e' -> lan_now e' = lan_now e + Z.of_nat k.
Proof.
  revert e. induction k as [|k IH]; intros e H; inversion H as [|? ? e1 ? Ht Hn]; subst; [lia|].
  rewrite (IH _ Hn), (lan_sends _ _ Ht). cbn. lia.
Qed.

Lemma lan_clock_runs : clock_runs 500.
Proof.
  intros e e' Hs%lan_sends e1 Hn%lan_turns. cbn [fst snd pit_ticks lan_device] in *. rewrite Hn, Hs.
  unfold u64. rewrite <- Zminus_mod. replace (_ - _) with 500 by lia. done.
Qed.

Lemma network_calls_return_witness : clock_runs 500 /\
  exists ifs' e' rc ms, net_ping4 501 0x08080808 1 [eth0] (Lan 7 []) = Some (ifs', e', rc, ms) /\ -1 <= rc <= 0.
Proof.
  split; [apply lan_clock_runs|].
  apply (network_calls_return lan_poll_bytes 500 [] [] 0x08080808 1 [eth0] (Lan 7 []) lan_clock_runs).
Defined.


(** An echo reply from 8.8.8.8 to the address 0. *)
Definition pong : list Z :=
  [0x45; 0; 0; 28; 0; 0; 0; 0; 64; 1; 0; 0; 8; 8; 8; 8; 0; 0; 0; 0; 0; 0; 0; 0; 0x54; 0x4e; 0; 1].

