(* ===== verification/Keys.v ===== *)
(** * kernel/arch/x86_64/include/arch/keyboard.h: key codes

    The codes of keys without a character, which [Keyboard] queues and [Syscall]
    turns into terminal input. *)
From S2P Require Import Prelude.

Definition KEY_UP : Z := 0x101.
Definition KEY_DOWN : Z := 0x102.
Definition KEY_LEFT : Z := 0x103.
Definition KEY_RIGHT : Z := 0x104.
Definition KEY_HOME : Z := 0x105.
Definition KEY_END : Z := 0x106.
Definition KEY_DELETE : Z := 0x107.
Definition KEY_CTRL_C : Z := 0x108.
Definition KEY_COPY : Z := 0x109.
Definition KEY_PASTE : Z := 0x10a.
Definition KEY_SHIFT_LEFT : Z := 0x10b.
Definition KEY_SHIFT_RIGHT : Z := 0x10c.
Definition KEY_TTY1 : Z := 0x10d.
Definition KEY_TTY6 : Z := 0x112.
Definition KEY_CTRL : Z := 0x114.
Definition KEY_ALT : Z := 0x115.
