(* ===== verification/Keyboard.v ===== *)
(** * kernel/arch/x86_64/keyboard.c: scancodes, layouts, key queues, the i8042

    The static variables of the file are one record. Ports and the tick counter
    are the class [Ports]. A [char] is signed: the characters of code page 437
    above 127 are negative. Counters of interrupts wrap at 64 bits. *)
From stdpp Require Import relations.
From S2P Require Import Prelude Buf Keys.

(** ** Queues *)

Definition KBD_BUFFER : nat := 256.
Definition KBD_EVENT_BUFFER : nat := 1024.

(** A ring buffer and its two positions. *)
Record ring := Ring { r_buf : list Z; r_read : nat; r_write : nat }.

(** ** State *)

Record mods := Mods { shift_down : bool; left_shift_down : bool; right_shift_down : bool;
  ctrl_down : bool; alt_down : bool; altgr_down : bool; caps_lock : bool }.

Record kbd := Kbd { keys : ring; evts : ring; key_down : list bool; ext_key_down : list bool;
  held : mods; extended_prefix : bool; set2_break_prefix : bool; raw_set2_mode : bool;
  scancode_set : Z; backspace_last_make_tick : Z; interrupt_generation : Z;
  interrupt_consumed_generation : Z; irq_count : Z; poll_count : Z; layout : list Z }.

Definition set_keys (r : ring) (k : kbd) : kbd :=
  Kbd r (evts k) (key_down k) (ext_key_down k) (held k) (extended_prefix k) (set2_break_prefix k)
    (raw_set2_mode k) (scancode_set k) (backspace_last_make_tick k) (interrupt_generation k)
    (interrupt_consumed_generation k) (irq_count k) (poll_count k) (layout k).
Definition set_evts (r : ring) (k : kbd) : kbd :=
  Kbd (keys k) r (key_down k) (ext_key_down k) (held k) (extended_prefix k) (set2_break_prefix k)
    (raw_set2_mode k) (scancode_set k) (backspace_last_make_tick k) (interrupt_generation k)
    (interrupt_consumed_generation k) (irq_count k) (poll_count k) (layout k).
Definition set_down (d : list bool) (k : kbd) : kbd :=
  Kbd (keys k) (evts k) d (ext_key_down k) (held k) (extended_prefix k) (set2_break_prefix k)
    (raw_set2_mode k) (scancode_set k) (backspace_last_make_tick k) (interrupt_generation k)
    (interrupt_consumed_generation k) (irq_count k) (poll_count k) (layout k).
Definition set_ext_down (d : list bool) (k : kbd) : kbd :=
  Kbd (keys k) (evts k) (key_down k) d (held k) (extended_prefix k) (set2_break_prefix k)
    (raw_set2_mode k) (scancode_set k) (backspace_last_make_tick k) (interrupt_generation k)
    (interrupt_consumed_generation k) (irq_count k) (poll_count k) (layout k).
Definition set_held (m : mods) (k : kbd) : kbd :=
  Kbd (keys k) (evts k) (key_down k) (ext_key_down k) m (extended_prefix k) (set2_break_prefix k)
    (raw_set2_mode k) (scancode_set k) (backspace_last_make_tick k) (interrupt_generation k)
    (interrupt_consumed_generation k) (irq_count k) (poll_count k) (layout k).
Definition set_prefixes (extended break : bool) (k : kbd) : kbd :=
  Kbd (keys k) (evts k) (key_down k) (ext_key_down k) (held k) extended break
    (raw_set2_mode k) (scancode_set k) (backspace_last_make_tick k) (interrupt_generation k)
    (interrupt_consumed_generation k) (irq_count k) (poll_count k) (layout k).
Definition set_mode (raw : bool) (set : Z) (k : kbd) : kbd :=
  Kbd (keys k) (evts k) (key_down k) (ext_key_down k) (held k) (extended_prefix k) (set2_break_prefix k)
    raw set (backspace_last_make_tick k) (interrupt_generation k)
    (interrupt_consumed_generation k) (irq_count k) (poll_count k) (layout k).
Definition set_tick (t : Z) (k : kbd) : kbd :=
  Kbd (keys k) (evts k) (key_down k) (ext_key_down k) (held k) (extended_prefix k) (set2_break_prefix k)
    (raw_set2_mode k) (scancode_set k) t (interrupt_generation k)
    (interrupt_consumed_generation k) (irq_count k) (poll_count k) (layout k).
Definition set_generations (gen consumed : Z) (k : kbd) : kbd :=
  Kbd (keys k) (evts k) (key_down k) (ext_key_down k) (held k) (extended_prefix k) (set2_break_prefix k)
    (raw_set2_mode k) (scancode_set k) (backspace_last_make_tick k) gen consumed
    (irq_count k) (poll_count k) (layout k).
Definition set_counts (irqs polls : Z) (k : kbd) : kbd :=
  Kbd (keys k) (evts k) (key_down k) (ext_key_down k) (held k) (extended_prefix k) (set2_break_prefix k)
    (raw_set2_mode k) (scancode_set k) (backspace_last_make_tick k) (interrupt_generation k)
    (interrupt_consumed_generation k) irqs polls (layout k).
Definition set_layout (name : list Z) (k : kbd) : kbd :=
  Kbd (keys k) (evts k) (key_down k) (ext_key_down k) (held k) (extended_prefix k) (set2_break_prefix k)
    (raw_set2_mode k) (scancode_set k) (backspace_last_make_tick k) (interrupt_generation k)
    (interrupt_consumed_generation k) (irq_count k) (poll_count k) name.

Definition set_shifts (shift left right : bool) (m : mods) : mods :=
  Mods shift left right (ctrl_down m) (alt_down m) (altgr_down m) (caps_lock m).
Definition set_ctrl (b : bool) (m : mods) : mods :=
  Mods (shift_down m) (left_shift_down m) (right_shift_down m) b (alt_down m) (altgr_down m) (caps_lock m).
Definition set_alts (alt altgr : bool) (m : mods) : mods :=
  Mods (shift_down m) (left_shift_down m) (right_shift_down m) (ctrl_down m) alt altgr (caps_lock m).
Definition set_caps (b : bool) (m : mods) : mods :=
  Mods (shift_down m) (left_shift_down m) (right_shift_down m) (ctrl_down m) (alt_down m) (altgr_down m) b.

(** ** Pushing *)

Definition push_event (ev : Z) (k : kbd) : kbd :=
  let r := evts k in
  let next := (S (r_write r) mod KBD_EVENT_BUFFER)%nat in
  let read := if (next =? r_read r)%nat then (S (r_read r) mod KBD_EVENT_BUFFER)%nat else r_read r in
  set_evts (Ring (<[r_write r := ev]> (r_buf r)) read next) k.

Definition push_key (key : Z) (k : kbd) : kbd :=
  let r := keys k in
  let next := (S (r_write r) mod KBD_BUFFER)%nat in
  if (next =? r_read r)%nat then k
  else push_event (Z.land key 0x7fff) (set_keys (Ring (<[r_write r := key]> (r_buf r)) (r_read r) next) k).

(** ** Keys and tables *)

(** A table as runs of neighbouring entries; the others are 0. *)
Fixpoint in_rows (rows : list (Z * list Z)) (code : Z) : Z :=
  match rows with
  | [] => 0
  | (start, cs) :: rows =>
    if (start <=? code) && (code <? start + Z.of_nat (length cs)) then nth (Z.to_nat (code - start)) cs 0
    else in_rows rows code
  end.

Definition normal_map : list (Z * list Z) :=
  [(0x01, [27]); (0x02, str "1234567890-="); (0x0e, [8; 9]); (0x10, str "qwertyuiop[]"); (0x1c, [10]);
   (0x1e, str "asdfghjkl;'`"); (0x2b, str "\zxcvbnm,./"); (0x39, [32]); (0x56, str "<")].
Definition shift_map : list (Z * list Z) :=
  [(0x01, [27]); (0x02, str "!@#$%^&*()_+"); (0x0e, [8; 9]); (0x10, str "QWERTYUIOP{}"); (0x1c, [10]);
   (0x1e, str "ASDFGHJKL:" ++ [34] ++ str "~"); (0x2b, str "|ZXCVBNM<>?"); (0x39, [32]); (0x56, str ">")].
Definition it_normal_map : list (Z * list Z) :=
  [(0x01, [27]); (0x02, str "1234567890'^"); (0x0e, [8; 9]); (0x10, str "qwertyuiope+"); (0x1c, [10]);
   (0x1e, str "asdfghjkloa\"); (0x2b, str "uzxcvbnm,.-"); (0x39, [32]); (0x56, str "<")].
Definition it_shift_map : list (Z * list Z) :=
  [(0x01, [27]); (0x02, str "!" ++ [34] ++ str "#$%&/()=?^"); (0x0e, [8; 9]); (0x10, str "QWERTYUIOPE*"); (0x1c, [10]);
   (0x1e, str "ASDFGHJKLOA|"); (0x2b, str "UZXCVBNM;:_"); (0x39, [32]); (0x56, str ">")].
Definition it_altgr_map : list (Z * list Z) := [(0x1a, str "[]"); (0x27, str "@#")].
Definition it_altgr_shift_map : list (Z * list Z) := [(0x1a, str "{}"); (0x27, str "@#")].
Definition de_normal_map : list (Z * list Z) :=
  [(0x01, [27]); (0x02, str "1234567890" ++ [0xe1] ++ str "'"); (0x0e, [8; 9]);
   (0x10, str "qwertzuiop" ++ [0x81] ++ str "+"); (0x1c, [10]);
   (0x1e, str "asdfghjkl" ++ [0x94; 0x84] ++ str "^"); (0x2b, str "#yxcvbnm,.-"); (0x39, [32]); (0x56, str "<")].
Definition de_shift_map : list (Z * list Z) :=
  [(0x01, [27]); (0x02, str "!" ++ [34] ++ str "#$%&/()=?`"); (0x0e, [8; 9]);
   (0x10, str "QWERTZUIOP" ++ [0x9a] ++ str "*"); (0x1c, [10]);
   (0x1e, str "ASDFGHJKL" ++ [0x99; 0x8e] ++ str "`"); (0x2b, str "'YXCVBNM;:_"); (0x39, [32]); (0x56, str ">")].
Definition de_altgr_map : list (Z * list Z) :=
  [(0x10, str "@"); (0x08, str "{[]}\"); (0x1b, str "~"); (0x56, str "|")].
Definition de_altgr_shift_map : list (Z * list Z) :=
  [(0x10, str "@"); (0x08, str "{[]}\"); (0x1b, str "~"); (0x56, str "|")].
Definition it_accent_map : list (Z * list Z) :=
  [(0x0d, [0x8d]); (0x1a, [0x8a]); (0x27, [0x95; 0x85]); (0x2b, [0x97])].
Definition it_accent_shift_map : list (Z * list Z) := [(0x1a, [0x82])].

(** A table as its entries. *)
Fixpoint in_pairs (pairs : list (Z * Z)) (code : Z) : Z :=
  match pairs with [] => 0 | (c, v) :: pairs => if c =? code then v else in_pairs pairs code end.

Definition set2_to_set1 : list (Z * Z) :=
  [(0x76, 0x01); (0x16, 0x02); (0x1e, 0x03); (0x26, 0x04); (0x25, 0x05); (0x2e, 0x06); (0x36, 0x07);
   (0x3d, 0x08); (0x3e, 0x09); (0x46, 0x0a); (0x45, 0x0b); (0x4e, 0x0c); (0x55, 0x0d); (0x66, 0x0e);
   (0x0d, 0x0f); (0x15, 0x10); (0x1d, 0x11); (0x24, 0x12); (0x2d, 0x13); (0x2c, 0x14); (0x35, 0x15);
   (0x3c, 0x16); (0x43, 0x17); (0x44, 0x18); (0x4d, 0x19); (0x54, 0x1a); (0x5b, 0x1b); (0x5a, 0x1c);
   (0x14, 0x1d); (0x1c, 0x1e); (0x1b, 0x1f); (0x23, 0x20); (0x2b, 0x21); (0x34, 0x22); (0x33, 0x23);
   (0x3b, 0x24); (0x42, 0x25); (0x4b, 0x26); (0x4c, 0x27); (0x52, 0x28); (0x0e, 0x29); (0x12, 0x2a);
   (0x5d, 0x2b); (0x1a, 0x2c); (0x22, 0x2d); (0x21, 0x2e); (0x2a, 0x2f); (0x32, 0x30); (0x31, 0x31);
   (0x3a, 0x32); (0x41, 0x33); (0x49, 0x34); (0x4a, 0x35); (0x59, 0x36); (0x11, 0x38); (0x29, 0x39);
   (0x58, 0x3a); (0x61, 0x56)].
Definition set2_ext_to_set1 : list (Z * Z) :=
  [(0x14, 0x1d); (0x11, 0x38); (0x5a, 0x1c); (0x6c, 0x47); (0x75, 0x48); (0x6b, 0x4b); (0x74, 0x4d);
   (0x69, 0x4f); (0x72, 0x50); (0x71, 0x53)].

(** ** Layouts *)

(** A byte as a [char]. *)
Definition i8 (c : Z) : Z := if c <? 128 then c else c - 256.

Definition is_alpha (c : Z) : bool :=
  ((ch "a" <=? c) && (c <=? ch "z")) || ((ch "A" <=? c) && (c <=? ch "Z")).

Definition shifted_with_caps (m : mods) (normal shifted : Z) : Z :=
  if normal =? 0 then 0
  else if caps_lock m && is_alpha normal && is_alpha shifted
  then (if shift_down m then normal else shifted)
  else (if shift_down m then shifted else normal).

(** [strchr]: the index of the first [c]. *)
Fixpoint index_of (c : Z) (l : list Z) : option nat :=
  match l with [] => None | x :: l => if x =? c then Some O else option_map S (index_of c l) end.

Definition qwerty : list Z := str "qwertyuiop[]asdfghjkl;'zxcvbnm,./".
Definition dvorak : list Z := str "',.pyfgcrl/=aoeuidhtns-;qjkxbmwvz".
Definition qwerty_shift : list Z := str "QWERTYUIOP{}ASDFGHJKL:" ++ [34] ++ str "ZXCVBNM<>?".
Definition dvorak_shift : list Z := [34] ++ str "<>PYFGCRL?+AOEUIDHTNS_:QJKXBMWVZ".

Definition layout_is (k : list Z) (name : string) : bool := bytes_eq k (str name).

(** [c] is not 0. *)
Definition remap_layout (lay : list Z) (c : Z) : Z :=
  if layout_is lay "fr" then
    if c =? ch "q" then ch "a" else if c =? ch "Q" then ch "A"
    else if c =? ch "a" then ch "q" else if c =? ch "A" then ch "Q"
    else if c =? ch "w" then ch "z" else if c =? ch "W" then ch "Z"
    else if c =? ch "z" then ch "w" else if c =? ch "Z" then ch "W" else c
  else if layout_is lay "dvorak" then
    match index_of c qwerty with
    | Some p => nth p dvorak 0
    | None => match index_of c qwerty_shift with Some p => nth p dvorak_shift 0 | None => c end
    end
  else if layout_is lay "uk" then (if c =? ch "#" then ch "~" else c)
  else if layout_is lay "it" || layout_is lay "es" then
    (if c =? ch "`" then ch "'" else if c =? ch "~" then 34 else c)
  else c.

Definition layout_char (lay : list Z) (m : mods) (scancode : Z) : Z :=
  let at_ (t : list (Z * list Z)) := i8 (in_rows t scancode) in
  let altgr (c normal : Z) := if altgr_down m && negb (c =? 0) then c else normal in
  if 128 <=? scancode then 0
  else if layout_is lay "de" then
    altgr (if shift_down m then at_ de_altgr_shift_map else at_ de_altgr_map)
      (shifted_with_caps m (at_ de_normal_map) (at_ de_shift_map))
  else if layout_is lay "it" then
    altgr (if shift_down m then at_ it_altgr_shift_map else at_ it_altgr_map)
      (let accent := if shift_down m then at_ it_accent_shift_map else at_ it_accent_map in
       if negb (accent =? 0) then accent
       else shifted_with_caps m (at_ it_normal_map) (at_ it_shift_map))
  else
    let c := shifted_with_caps m (at_ normal_map) (at_ shift_map) in
    if negb (c =? 0) then remap_layout lay c else 0.

(** ** Scancodes of set 1 *)

Definition down_at (d : list bool) (code : Z) : bool := nth (Z.to_nat code) d false.

(** The key an extended code stands for: 0 for none. *)
Definition extended_key (code : Z) : Z :=
  if code =? 0x47 then KEY_HOME else if code =? 0x48 then KEY_UP else if code =? 0x4b then KEY_LEFT
  else if code =? 0x4d then KEY_RIGHT else if code =? 0x4f then KEY_END else if code =? 0x50 then KEY_DOWN
  else if code =? 0x53 then KEY_DELETE else 0.

Definition process_extended_scancode (scancode : Z) (k : kbd) : kbd :=
  let release := negb (Z.land scancode 0x80 =? 0) in
  let code := Z.land scancode 0x7f in
  if 128 <=? code then k
  else if release then
    let k := set_ext_down (<[Z.to_nat code := false]> (ext_key_down k)) k in
    let k := if code =? 0x1d then set_held (set_ctrl false (held k)) k
             else if code =? 0x38 then set_held (set_alts false false (held k)) k else k in
    let key := extended_key code in
    if key =? 0 then k else push_event (u16 (Z.lor key 0x8000)) k
  else if down_at (ext_key_down k) code then k
  else
    let k := set_ext_down (<[Z.to_nat code := true]> (ext_key_down k)) k in
    if code =? 0x1c then push_key 10 k
    else if code =? 0x1d then set_held (set_ctrl true (held k)) k
    else if code =? 0x38 then set_held (set_alts true true (held k)) k
    else if code =? 0x4b then push_key (if shift_down (held k) then KEY_SHIFT_LEFT else KEY_LEFT) k
    else if code =? 0x4d then push_key (if shift_down (held k) then KEY_SHIFT_RIGHT else KEY_RIGHT) k
    else
      let key := extended_key code in
      if key =? 0 then k else push_key key k.

(** The ports of the i8042 and the tick counter. *)
Class Ports (E : Type) := {
  inb : E -> Z -> E * Z;
  outb : E -> Z -> Z -> E;
  cpu_pause : E -> E;
  pit_ticks : E -> E * Z
}.

(** The events of a released key. *)
Definition release_key (code : Z) (k : kbd) : kbd :=
  let k := set_down (<[Z.to_nat code := false]> (key_down k)) k in
  let m := held k in
  let k :=
    if code =? 0x2a then set_held (set_shifts (false || right_shift_down m) false (right_shift_down m) m) k
    else if code =? 0x36 then set_held (set_shifts (left_shift_down m || false) (left_shift_down m) false m) k
    else if code =? 0x1d then push_event (u16 (Z.lor 0x114 0x8000)) (set_held (set_ctrl false m) k)
    else if code =? 0x38 then push_event (u16 (Z.lor 0x115 0x8000)) (set_held (set_alts false false m) k)
    else if code =? 0x39 then push_event (u16 (Z.lor 0x113 0x8000)) k
    else k in
  let c := layout_char (layout k) (held k) code in
  if c =? 0 then k else push_event (u16 (Z.lor (u8 c) 0x8000)) k.

(** A made key, after the test for repeats: from [if (code == 0x2a)] on. *)
Definition make_key (code : Z) (k : kbd) : kbd :=
  let m := held k in
  let both := ctrl_down m && alt_down m in
  let plain :=
    if code =? 0x3a then set_held (set_caps (negb (caps_lock m)) m) k
    else
      let c := layout_char (layout k) m code in
      if c =? 0 then k else push_key c k in
  if code =? 0x2a then set_held (set_shifts true true (right_shift_down m) m) k
  else if code =? 0x36 then set_held (set_shifts true (left_shift_down m) true m) k
  else if code =? 0x1d then push_key KEY_CTRL (set_held (set_ctrl true m) k)
  else if code =? 0x38 then push_key KEY_ALT (set_held (set_alts true (altgr_down m) m) k)
  else if code =? 0x39 then push_event 0x113 (push_key (ch " ") k)
  else if both && (0x3b <=? code) && (code <=? 0x40) then push_key (KEY_TTY1 + (code - 0x3b)) k
  else if ctrl_down m && shift_down m && (code =? 0x2e) then push_key KEY_COPY k
  else if ctrl_down m && shift_down m && (code =? 0x2f) then push_key KEY_PASTE k
  else if ctrl_down m && (code =? 0x2e) then
    push_key KEY_CTRL_C (set_generations (u64 (interrupt_generation k + 1)) (interrupt_consumed_generation k) k)
  else if ctrl_down m then
    let c := layout_char (layout k) m code in
    let c := if (ch "A" <=? c) && (c <=? ch "Z") then c - ch "A" + ch "a" else c in
    if (ch "a" <=? c) && (c <=? ch "z") then push_key (c - ch "a" + 1) k else plain
  else plain.

Section Driver.
Context {E : Type} `{Ports E}.

Definition process_set1_scancode (e : E) (scancode : Z) (k : kbd) : E * kbd :=
  let release := negb (Z.land scancode 0x80 =? 0) in
  let code := Z.land scancode 0x7f in
  if 128 <=? code then (e, k)
  else if release then (e, release_key code k)
  else
    let go (e : E) (k : kbd) :=
      let k := set_down (<[Z.to_nat code := true]> (key_down k)) k in
      let '(e, k) := if code =? 0x0e then let '(e, now) := pit_ticks e in (e, set_tick now k) else (e, k) in
      (e, make_key code k) in
    if down_at (key_down k) code then
      if negb (code =? 0x0e) then (e, k)
      else
        let '(e, now) := pit_ticks e in
        if u64 (now - backspace_last_make_tick k) <? 5 then (e, k)
        else go e (set_tick now k)
    else go e k.

Definition PS2_ACK : Z := 0xfa.
Definition PS2_RESEND : Z := 0xfe.
Definition PS2_BAT_OK : Z := 0xaa.

Definition process_scancode (e : E) (scancode : Z) (k : kbd) : E * kbd :=
  if (scancode =? PS2_ACK) || (scancode =? PS2_RESEND) || (scancode =? PS2_BAT_OK) then (e, k)
  else if scancode =? 0xf0 then (e, set_prefixes (extended_prefix k) true (set_mode true 2 k))
  else if scancode =? 0xe0 then (e, set_prefixes true (set2_break_prefix k) k)
  else if negb (raw_set2_mode k) && (scancode =? 0x66) then process_set1_scancode e 0x0e k
  else if raw_set2_mode k || (scancode_set k =? 2) || set2_break_prefix k then
    let release := set2_break_prefix k in
    let extended := extended_prefix k in
    let mapped :=
      if scancode <? 128 then in_pairs (if extended then set2_ext_to_set1 else set2_to_set1) scancode else 0 in
    let k := set_prefixes false false k in
    if mapped =? 0 then (e, k)
    else
      let mapped := if release then Z.lor mapped 0x80 else mapped in
      if extended then (e, process_extended_scancode mapped k) else process_set1_scancode e mapped k
  else if extended_prefix k then
    (e, process_extended_scancode scancode (set_prefixes false (set2_break_prefix k) k))
  else process_set1_scancode e scancode k.

(** ** The controller *)

Definition I8042_DATA : Z := 0x60.
Definition I8042_STATUS : Z := 0x64.
Definition I8042_COMMAND : Z := 0x64.
Definition OUTPUT_FULL (status : Z) : bool := negb (Z.land status 0x01 =? 0).
Definition INPUT_FULL (status : Z) : bool := negb (Z.land status 0x02 =? 0).
Definition AUX_DATA (status : Z) : bool := negb (Z.land status 0x20 =? 0).
Definition WAIT_ITERS : nat := Z.to_nat 100000.
Definition FLUSH_LIMIT : nat := 256.
Definition PS2_COMMAND_RETRIES : nat := 3.

Definition i8042_io_wait (e : E) : E := Nat.iter 64 cpu_pause e.

Fixpoint wait_input_clear (n : nat) (e : E) : E * Z :=
  match n with
  | O => (e, -1)
  | S n => let '(e, status) := inb e I8042_STATUS in
           if INPUT_FULL status then wait_input_clear n (cpu_pause e) else (e, 0)
  end.

Fixpoint wait_output_full (n : nat) (e : E) : E * Z :=
  match n with
  | O => (e, -1)
  | S n => let '(e, status) := inb e I8042_STATUS in
           if OUTPUT_FULL status then inb e I8042_DATA else wait_output_full n (cpu_pause e)
  end.

Fixpoint drain_output (n : nat) (e : E) : E :=
  match n with
  | O => e
  | S n => let '(e, status) := inb e I8042_STATUS in
           if OUTPUT_FULL status then drain_output n (i8042_io_wait (fst (inb e I8042_DATA))) else e
  end.

Definition controller_command (command : Z) (e : E) : E * Z :=
  let '(e, r) := wait_input_clear WAIT_ITERS e in
  if r <? 0 then (e, -1) else (outb e I8042_COMMAND command, 0).

Definition controller_read_config (e : E) : E * Z :=
  let '(e, r) := controller_command 0x20 e in
  if r <? 0 then (e, -1) else wait_output_full WAIT_ITERS e.

Definition controller_write_config (config : Z) (e : E) : E * Z :=
  let '(e, r) := controller_command 0x60 e in
  if r <? 0 then (e, -1)
  else
    let '(e, r) := wait_input_clear WAIT_ITERS e in
    if r <? 0 then (e, -1) else (outb e I8042_DATA config, 0).

Fixpoint ps2_wait_ack (n : nat) (e : E) : E * Z :=
  match n with
  | O => (e, -1)
  | S n =>
    let '(e, status) := inb e I8042_STATUS in
    if OUTPUT_FULL status then
      let '(e, value) := inb e I8042_DATA in
      if AUX_DATA status then ps2_wait_ack n e
      else if value =? PS2_ACK then (e, 0)
      else if value =? PS2_RESEND then (e, 1)
      else ps2_wait_ack n e
    else ps2_wait_ack n (cpu_pause e)
  end.

Fixpoint ps2_write_tries (tries : nat) (value : Z) (e : E) : E * Z :=
  match tries with
  | O => (e, -1)
  | S tries =>
    let '(e, r) := wait_input_clear WAIT_ITERS e in
    if r <? 0 then (e, -1)
    else
      let '(e, ack) := ps2_wait_ack WAIT_ITERS (outb e I8042_DATA value) in
      if ack =? 0 then (e, 0) else if ack <? 0 then (e, -1) else ps2_write_tries tries value e
  end.

Definition ps2_write (value : Z) (e : E) : E * Z := ps2_write_tries PS2_COMMAND_RETRIES value e.
Definition ps2_write_ignore_ack (value : Z) (e : E) : E := fst (ps2_write value e).

(** [config &= (uint8_t)~bits] and [config |= bits]. *)
Definition clear_bits (bits config : Z) : Z := Z.land config (u8 (Z.lnot bits)).
Definition set_bits (bits config : Z) : Z := Z.lor config bits.

(** The configuration during the set-up, and the one at its end. *)
Definition setup_config (config_value : Z) : Z :=
  let config := if 0 <=? config_value then u8 config_value else 0 in
  set_bits 0x40 (set_bits 0x20 (set_bits 0x10 (clear_bits (Z.lor 0x01 0x02) config))).
Definition active_config (config : Z) : Z :=
  set_bits 0x40 (set_bits 0x01 (clear_bits 0x02 (set_bits 0x20 (clear_bits 0x10 config)))).

Definition keyboard_controller_setup (e : E) (k : kbd) : E * kbd :=
  let e := fst (controller_command 0xad e) in
  let e := fst (controller_command 0xa7 e) in
  let e := drain_output FLUSH_LIMIT e in
  let '(e, config_value) := controller_read_config e in
  let config := setup_config config_value in
  let e := fst (controller_write_config config e) in
  let e := fst (controller_command 0xaa e) in
  let e := fst (wait_output_full WAIT_ITERS e) in
  let e := fst (controller_write_config config e) in
  let e := fst (controller_command 0xab e) in
  let e := fst (wait_output_full WAIT_ITERS e) in
  let e := fst (controller_command 0xae e) in
  let e := fst (controller_write_config (active_config config) e) in
  let '(e, active) := controller_read_config e in
  let k := if (0 <=? active) && (Z.land active 0x40 =? 0) then set_mode true 2 k else set_mode false 1 k in
  let e := drain_output FLUSH_LIMIT e in
  let e := ps2_write_ignore_ack 0xf5 e in
  let e := ps2_write_ignore_ack 0xf6 e in
  let k := if negb (raw_set2_mode k) then set_mode (raw_set2_mode k) 1 k else k in
  let e := ps2_write_ignore_ack 0xf4 e in
  (drain_output FLUSH_LIMIT e, k).

Definition no_keys : list bool := replicate 128 false.

Definition keyboard_init (e : E) (k : kbd) : E * kbd :=
  keyboard_controller_setup e
    (Kbd (Ring (r_buf (keys k)) 0 0) (evts k) no_keys no_keys
       (Mods false false false false false (altgr_down (held k)) false) false false false 1 0
       (interrupt_generation k) (interrupt_consumed_generation k) (irq_count k) (poll_count k) (str "us")).

Definition keyboard_reset_console_state (k : kbd) : kbd :=
  Kbd (Ring (r_buf (keys k)) 0 0) (Ring (r_buf (evts k)) 0 0) no_keys no_keys
    (Mods false false false false false false (caps_lock (held k))) false false (raw_set2_mode k) (scancode_set k) 0
    (interrupt_generation k) (interrupt_consumed_generation k) (irq_count k) (poll_count k) (layout k).

(** ** Reading *)

Fixpoint poll_loop (n : nat) (e : E) (k : kbd) : E * kbd :=
  match n with
  | O => (e, k)
  | S n =>
    let '(e, status) := inb e I8042_STATUS in
    if OUTPUT_FULL status then
      let '(e, scancode) := inb e I8042_DATA in
      let '(e, k) := if AUX_DATA status then (e, k) else process_scancode e scancode k in
      poll_loop n e k
    else (e, k)
  end.

Definition keyboard_poll (e : E) (k : kbd) : E * kbd :=
  poll_loop 64 e (set_counts (irq_count k) (u64 (poll_count k + 1)) k).

Definition keyboard_handle_irq (e : E) (k : kbd) : E * kbd :=
  keyboard_poll e (set_counts (u64 (irq_count k + 1)) (poll_count k) k).

Definition keyboard_inject_set1_scancode := process_set1_scancode.
Definition keyboard_inject_extended_set1_scancode := process_extended_scancode.

Definition keyboard_is_ctrl_down (k : kbd) : bool := ctrl_down (held k).

Definition keyboard_try_getchar (k : kbd) : kbd * Z :=
  let r := keys k in
  if (r_read r =? r_write r)%nat then (k, -1)
  else (set_keys (Ring (r_buf r) (S (r_read r) mod KBD_BUFFER)%nat (r_write r)) k, nth (r_read r) (r_buf r) 0).

(** While it waits, interrupts run: [n] rounds, each an interrupt. *)
Fixpoint keyboard_getchar (n : nat) (e : E) (k : kbd) : option (E * kbd * Z) :=
  match n with
  | O => None
  | S n =>
    let '(k, c) := keyboard_try_getchar k in
    if c <? 0 then let '(e, k) := keyboard_handle_irq (cpu_pause e) k in keyboard_getchar n e k
    else Some (e, k, c)
  end.

Definition keyboard_try_get_event (e : E) (k : kbd) : E * kbd * Z :=
  let '(e, k) := keyboard_poll e k in
  let r := evts k in
  if (r_read r =? r_write r)%nat then (e, k, -1)
  else (e, set_evts (Ring (r_buf r) (S (r_read r) mod KBD_EVENT_BUFFER)%nat (r_write r)) k, nth (r_read r) (r_buf r) 0).

Definition keyboard_event_available (e : E) (k : kbd) : E * kbd * bool :=
  let '(e, k) := keyboard_poll e k in (e, k, negb (r_read (evts k) =? r_write (evts k))%nat).

Definition keyboard_input_available (e : E) (k : kbd) : E * kbd * bool :=
  let '(e, k) := keyboard_poll e k in (e, k, negb (r_read (keys k) =? r_write (keys k))%nat).

Definition available : list (list Z) :=
  map str ["us"; "uk"; "de"; "fr"; "it"; "es"; "nl"; "lt"; "pl"; "dvorak"]%string.

Definition keyboard_set_layout (name : list Z) (k : kbd) : kbd * Z :=
  if existsb (bytes_eq name) available then (set_layout name k, 0) else (k, -1).

Definition keyboard_current_layout (k : kbd) : list Z := layout k.

Definition keyboard_consume_interrupt (e : E) (k : kbd) : E * kbd * bool :=
  let '(e, k) := keyboard_poll e k in
  if interrupt_consumed_generation k =? interrupt_generation k then (e, k, false)
  else
    let k := set_generations (interrupt_generation k) (interrupt_generation k) k in
    let r := keys k in
    let k := if negb (r_read r =? r_write r)%nat && (nth (r_read r) (r_buf r) 0 =? KEY_CTRL_C)
             then set_keys (Ring (r_buf r) (S (r_read r) mod KBD_BUFFER)%nat (r_write r)) k else k in
    (e, k, true).

Definition keyboard_ack_interrupt (k : kbd) : kbd :=
  set_generations (interrupt_generation k) (interrupt_generation k) k.
End Driver.

(** ** Ring buffers as queues *)

(** Splits on the comparisons of indices. *)
Ltac index_cases :=
  repeat match goal with
  | |- context [(?a <=? ?b)%nat] => destruct (Nat.leb_spec a b)
  | |- context [(?a <? ?b)%nat] => destruct (Nat.ltb_spec a b)
  | |- context [(?a =? ?b)%nat] => destruct (Nat.eqb_spec a b)
  | H : context [(?a <=? ?b)%nat] |- _ => destruct (Nat.leb_spec a b)
  | H : context [(?a <? ?b)%nat] |- _ => destruct (Nat.ltb_spec a b)
  | H : context [(?a =? ?b)%nat] |- _ => destruct (Nat.eqb_spec a b)
  end; try lia.

Section Ring_queue.
Variable N : nat.
Hypothesis N_pos : (1 < N)%nat.

Definition ring_ok (r : ring) : Prop := length (r_buf r) = N /\ (r_read r < N)%nat /\ (r_write r < N)%nat.

Definition ring_used (r : ring) : nat :=
  if (r_read r <=? r_write r)%nat then (r_write r - r_read r)%nat else (N + r_write r - r_read r)%nat.
Definition ring_index (r : ring) (i : nat) : nat :=
  if (r_read r + i <? N)%nat then (r_read r + i)%nat else (r_read r + i - N)%nat.

(** What waits in the ring, the oldest first. *)
Definition contents (r : ring) : list Z := map (fun i => nth (ring_index r i) (r_buf r) 0) (seq 0 (ring_used r)).

Lemma S_mod n : (n < N)%nat -> (S n mod N = if S n =? N then 0 else S n)%nat.
Proof.
  intros H. destruct (Nat.eqb_spec (S n) N) as [->|]; [apply Nat.Div0.mod_same|apply Nat.mod_small; lia].
Qed.

Lemma length_contents r : length (contents r) = ring_used r.
Proof. unfold contents. by rewrite length_map, length_seq. Qed.

Lemma ring_push_ok r x : ring_ok r -> ring_ok (Ring (<[r_write r := x]> (r_buf r)) (r_read r) (S (r_write r) mod N)).
Proof.
  intros (H1 & H2 & H3). split; [cbn [r_buf]; by rewrite length_insert|]. split; [done|]. apply Nat.mod_upper_bound. lia.
Qed.

Lemma ring_pop_ok r : ring_ok r -> ring_ok (Ring (r_buf r) (S (r_read r) mod N) (r_write r)).
Proof. intros (H1 & H2 & H3). split; [done|]. split; [apply Nat.mod_upper_bound; lia|done]. Qed.

Lemma contents_push r x : ring_ok r -> (S (r_write r) mod N)%nat <> r_read r ->
  contents (Ring (<[r_write r := x]> (r_buf r)) (r_read r) (S (r_write r) mod N)) = contents r ++ [x].
Proof.
  intros (Hl & Hr & Hw) Hf. rewrite S_mod in * by done. unfold contents.
  assert (ring_used (Ring (<[r_write r := x]> (r_buf r)) (r_read r) (if (S (r_write r) =? N)%nat then 0%nat else S (r_write r)))
    = S (ring_used r)) as ->.
  { unfold ring_used. cbn [r_read r_write].
    index_cases. }
  rewrite seq_S, map_app. cbn [map Nat.add r_buf]. f_equal.
  - apply map_ext_in. intros i Hi%in_seq. unfold ring_index, ring_used in *. cbn [r_read].
    rewrite !nth_lookup, list_lookup_insert_ne; [done|].
    index_cases.
  - f_equal. assert (ring_index (Ring (<[r_write r := x]> (r_buf r)) (r_read r) (if (S (r_write r) =? N)%nat then 0%nat else S (r_write r))) (ring_used r) = r_write r) as ->.
    { unfold ring_index, ring_used. cbn [r_read].
      index_cases. }
    by rewrite nth_lookup, list_lookup_insert_eq by lia.
Qed.

(** The oldest goes first. *)
Lemma contents_pop r : ring_ok r -> r_read r <> r_write r ->
  contents r = nth (r_read r) (r_buf r) 0 :: contents (Ring (r_buf r) (S (r_read r) mod N) (r_write r)).
Proof.
  intros (Hl & Hr & Hw) He. rewrite S_mod by done. unfold contents.
  set (r' := Ring _ _ _).
  assert (ring_used r = S (ring_used r')) as ->.
  { unfold ring_used, r'. cbn [r_read r_write].
    index_cases. }
  cbn [seq map]. f_equal.
  - f_equal. unfold ring_index. rewrite (proj2 (Nat.ltb_lt _ _)) by lia. lia.
  - rewrite <- (seq_shift _ 0), map_map. apply map_ext_in. intros i Hi%in_seq. cbn [r_buf r']. f_equal.
    unfold ring_index, ring_used, r' in *. cbn [r_read r_write] in *.
    index_cases.
Qed.

Lemma ring_full r : ring_ok r -> (S (r_write r) mod N)%nat = r_read r <-> length (contents r) = (N - 1)%nat.
Proof.
  intros H. rewrite length_contents. destruct H as (Hl & Hr & Hw). rewrite S_mod by done. unfold ring_used.
  index_cases.
Qed.

Lemma ring_empty r : ring_ok r -> r_read r = r_write r <-> contents r = [].
Proof.
  intros (Hl & Hr & Hw). rewrite <- length_zero_iff_nil, length_contents. unfold ring_used.
  index_cases.
Qed.
End Ring_queue.

(** ** The invariant *)

(** The queues are rings, there is a flag for every key, and shift is down when
    one of the shift keys is. *)
Definition shifts_agree (m : mods) : Prop := shift_down m = left_shift_down m || right_shift_down m.
Definition kbd_ok (k : kbd) : Prop :=
  ring_ok KBD_BUFFER (keys k) /\ ring_ok KBD_EVENT_BUFFER (evts k) /\
  length (key_down k) = 128%nat /\ length (ext_key_down k) = 128%nat /\ shifts_agree (held k).

#[local] Opaque KBD_BUFFER KBD_EVENT_BUFFER.

Lemma key_size : (1 < KBD_BUFFER)%nat.
Proof. apply Nat.ltb_lt. by vm_compute. Qed.
Lemma event_size : (1 < KBD_EVENT_BUFFER)%nat.
Proof. apply Nat.ltb_lt. by vm_compute. Qed.

Create HintDb kbd.

Lemma push_event_ok ev k : kbd_ok k -> kbd_ok (push_event ev k).
Proof.
  intros (H1 & H2 & H3). split; [done|]. split; [|done]. unfold push_event. cbn [set_evts evts].
  destruct (_ =? _)%nat.
  - by apply (ring_push_ok _ event_size (Ring _ _ _)), ring_pop_ok; [apply event_size|].
  - by apply ring_push_ok; [apply event_size|].
Qed.
#[local] Hint Resolve push_event_ok : kbd.

Lemma push_key_ok c k : kbd_ok k -> kbd_ok (push_key c k).
Proof.
  intros Hk. unfold push_key. destruct (_ =? _)%nat; [done|]. apply push_event_ok.
  destruct Hk as (H1 & H2). split; [|done]. by apply ring_push_ok; [apply key_size|].
Qed.
#[local] Hint Resolve push_key_ok : kbd.

Lemma set_held_ok m k : shifts_agree m -> kbd_ok k -> kbd_ok (set_held m k).
Proof. intros Hm (H1 & H2 & H3 & H4 & _). by do 4 (split; [done|]). Qed.
#[local] Hint Resolve set_held_ok : kbd.

Lemma set_down_ok code b k : kbd_ok k -> kbd_ok (set_down (<[code := b]> (key_down k)) k).
Proof. intros (H1 & H2 & H3 & H4 & H5). do 2 (split; [done|]). split; [cbn; by rewrite length_insert|done]. Qed.
#[local] Hint Resolve set_down_ok : kbd.

Lemma set_ext_down_ok code b k : kbd_ok k -> kbd_ok (set_ext_down (<[code := b]> (ext_key_down k)) k).
Proof. intros (H1 & H2 & H3 & H4 & H5). do 3 (split; [done|]). split; [cbn; by rewrite length_insert|done]. Qed.
#[local] Hint Resolve set_ext_down_ok : kbd.

(** The other setters touch nothing of it. *)
Lemma set_prefixes_ok a b k : kbd_ok k -> kbd_ok (set_prefixes a b k).
Proof. done. Qed.
Lemma set_mode_ok a b k : kbd_ok k -> kbd_ok (set_mode a b k).
Proof. done. Qed.
Lemma set_tick_ok a k : kbd_ok k -> kbd_ok (set_tick a k).
Proof. done. Qed.
Lemma set_generations_ok a b k : kbd_ok k -> kbd_ok (set_generations a b k).
Proof. done. Qed.
Lemma set_counts_ok a b k : kbd_ok k -> kbd_ok (set_counts a b k).
Proof. done. Qed.
#[local] Hint Resolve set_prefixes_ok set_mode_ok set_tick_ok set_generations_ok set_counts_ok : kbd.

Lemma held_agree k : kbd_ok k -> shifts_agree (held k).
Proof. by intros (_ & _ & _ & _ & H). Qed.
Lemma set_ctrl_agree b m : shifts_agree m -> shifts_agree (set_ctrl b m).
Proof. done. Qed.
Lemma set_alts_agree a b m : shifts_agree m -> shifts_agree (set_alts a b m).
Proof. done. Qed.
Lemma set_caps_agree b m : shifts_agree m -> shifts_agree (set_caps b m).
Proof. done. Qed.
Lemma set_shifts_agree a b m : shifts_agree (set_shifts (a || b) a b m).
Proof. done. Qed.
Lemma left_agree b m : shifts_agree (set_shifts true true b m).
Proof. done. Qed.
Lemma right_agree a m : shifts_agree (set_shifts true a true m).
Proof. unfold shifts_agree. cbn. by rewrite orb_true_r. Qed.
#[local] Hint Resolve held_agree set_ctrl_agree set_alts_agree set_caps_agree set_shifts_agree left_agree right_agree : kbd.

(** Splits on the tests of a step and closes the cases. *)
Ltac step_ok :=
  intros; cbv zeta;
  repeat match goal with |- context [if ?b then _ else _] => destruct b end; eauto 10 with kbd.

Lemma process_extended_ok s k : kbd_ok k -> kbd_ok (process_extended_scancode s k).
Proof.
  intros Hk. unfold process_extended_scancode. cbv zeta. step_ok.
Qed.
Lemma release_key_ok code k : kbd_ok k -> kbd_ok (release_key code k).
Proof.
  intros Hk. unfold release_key. cbv zeta.
  set (k0 := set_down _ k). assert (kbd_ok k0) as H0 by (unfold k0; auto with kbd). clearbody k0.
  step_ok.
Qed.
Lemma make_key_ok code k : kbd_ok k -> kbd_ok (make_key code k).
Proof. intros Hk. unfold make_key. step_ok. Qed.
#[local] Hint Resolve process_extended_ok release_key_ok make_key_ok : kbd.

Section Driver_invariant.
Context {E : Type} `{Ports E}.

Lemma process_set1_ok e s k : kbd_ok k -> kbd_ok (snd (process_set1_scancode e s k)).
Proof.
  intros Hk. unfold process_set1_scancode. cbv zeta.
  destruct (pit_ticks e) as [e1 t1]. destruct (pit_ticks e1) as [e2 t2].
  repeat match goal with |- context [if ?b then _ else _] => destruct b end; cbn [snd]; auto 10 with kbd.
Qed.

Lemma process_scancode_ok e s k : kbd_ok k -> kbd_ok (snd (process_scancode e s k)).
Proof.
  intros Hk. unfold process_scancode. cbv zeta.
  repeat match goal with |- context [if ?b then _ else _] => destruct b end; cbn [snd];
    auto using process_set1_ok with kbd.
Qed.

Lemma poll_loop_ok n : forall e k, kbd_ok k -> kbd_ok (snd (poll_loop n e k)).
Proof.
  induction n as [|n IH]; intros e k Hk; cbn [poll_loop]; [done|].
  destruct (inb e I8042_STATUS) as [e1 status]. destruct (OUTPUT_FULL status); [|done].
  destruct (inb e1 I8042_DATA) as [e2 s]. destruct (AUX_DATA status); [by apply IH|].
  pose proof (process_scancode_ok e2 s k Hk) as Hs. destruct (process_scancode e2 s k) as [e3 k3]. by apply IH.
Qed.

Lemma keyboard_poll_ok e k : kbd_ok k -> kbd_ok (snd (keyboard_poll e k)).
Proof. intros Hk. unfold keyboard_poll. apply poll_loop_ok. auto with kbd. Qed.

Lemma try_getchar_ok k : kbd_ok k -> kbd_ok (fst (keyboard_try_getchar k)).
Proof.
  intros Hk. unfold keyboard_try_getchar. destruct (_ =? _)%nat; [done|].
  destruct Hk as (H1 & H2). split; [|done]. by apply ring_pop_ok; [apply key_size|].
Qed.

Lemma setup_ok e k : kbd_ok k -> kbd_ok (snd (keyboard_controller_setup e k)).
Proof.
  intros Hk. unfold keyboard_controller_setup.
  repeat match goal with |- context [let '(_, _) := ?x in _] => destruct x end.
  cbn [snd]. step_ok.
Qed.

Lemma start_ring N r : (1 < N)%nat -> length (r_buf r) = N -> ring_ok N (Ring (r_buf r) 0 0).
Proof. intros HN Hr. split; [done|]. cbn. lia. Qed.

(** What the rest of the kernel and the interrupts do to the driver. *)
Inductive kstep : E * kbd -> E * kbd -> Prop :=
| step_irq e k : kstep (e, k) (keyboard_handle_irq e k)
| step_poll e k : kstep (e, k) (keyboard_poll e k)
| step_world e e' k : kstep (e, k) (e', k)
| step_set1 e k s : kstep (e, k) (keyboard_inject_set1_scancode e s k)
| step_extended e k s : kstep (e, k) (e, keyboard_inject_extended_set1_scancode s k)
| step_getchar e k : kstep (e, k) (e, fst (keyboard_try_getchar k))
| step_event e k : kstep (e, k) (fst (keyboard_try_get_event e k))
| step_consume e k : kstep (e, k) (fst (keyboard_consume_interrupt e k))
| step_ack e k : kstep (e, k) (e, keyboard_ack_interrupt k)
| step_reset e k : kstep (e, k) (e, keyboard_reset_console_state k)
| step_layout e k name : kstep (e, k) (e, fst (keyboard_set_layout name k)).

Lemma kstep_ok x y : kstep x y -> kbd_ok (snd x) -> kbd_ok (snd y).
Proof.
  intros Hs Hk. destruct Hs; cbn [snd] in *.
  - apply keyboard_poll_ok. auto with kbd.
  - by apply keyboard_poll_ok.
  - done.
  - by apply process_set1_ok.
  - by apply process_extended_ok.
  - by apply try_getchar_ok.
  - unfold keyboard_try_get_event. pose proof (keyboard_poll_ok e k Hk) as Hp.
    destruct (keyboard_poll e k) as [e1 k1]. cbn [snd] in Hp. destruct (_ =? _)%nat; [done|].
    destruct Hp as (H1 & H2 & H3). split; [done|]. split; [|done]. by apply ring_pop_ok; [apply event_size|].
  - unfold keyboard_consume_interrupt. pose proof (keyboard_poll_ok e k Hk) as Hp.
    destruct (keyboard_poll e k) as [e1 k1]. cbn [snd] in Hp. destruct (_ =? _); [done|]. cbn [fst snd].
    destruct (_ && _); [|auto with kbd].
    destruct Hp as (H1 & H2). split; [|done]. by apply ring_pop_ok; [apply key_size|].
  - by apply set_generations_ok.
  - destruct Hk as (H1 & H2 & _). unfold kbd_ok. cbn [keyboard_reset_console_state keys evts key_down ext_key_down held].
    split; [apply start_ring; [apply key_size|apply H1]|]. split; [apply start_ring; [apply event_size|apply H2]|].
    by repeat split.
  - unfold keyboard_set_layout. by destruct (existsb _ _).
Qed.
End Driver_invariant.

(** ** What the queues hold *)

Definition waiting (k : kbd) : list Z := contents KBD_BUFFER (keys k).
Definition waiting_events (k : kbd) : list Z := contents KBD_EVENT_BUFFER (evts k).

Lemma waiting_push c k : kbd_ok k ->
  waiting (push_key c k) = if decide (length (waiting k) = 255%nat) then waiting k else waiting k ++ [c].
Proof.
  intros (Hr & _). unfold waiting, push_key. pose proof (ring_full _ key_size _ Hr) as Hf.
  change (KBD_BUFFER - 1)%nat with 255%nat in Hf.
  destruct (Nat.eqb_spec (S (r_write (keys k)) mod KBD_BUFFER) (r_read (keys k))) as [He|He].
  - by rewrite decide_True by (by apply Hf).
  - rewrite decide_False by (intros ?; by apply He, Hf). cbn [keys set_keys set_evts push_event].
    by apply contents_push; [apply key_size| |].
Qed.

Lemma waiting_push_event ev k : kbd_ok k ->
  waiting_events (push_event ev k) =
  (if decide (length (waiting_events k) = 1023%nat) then tail (waiting_events k) else waiting_events k) ++ [ev].
Proof.
  intros (_ & Hr & _). unfold waiting_events, push_event. pose proof (ring_full _ event_size _ Hr) as Hf.
  change (KBD_EVENT_BUFFER - 1)%nat with 1023%nat in Hf. cbn [evts set_evts]. pose proof event_size as HN.
  destruct (Nat.eqb_spec (S (r_write (evts k)) mod KBD_EVENT_BUFFER) (r_read (evts k))) as [He|He].
  - rewrite decide_True by (by apply Hf).
    assert (r_read (evts k) <> r_write (evts k)) as Hne.
    { intros E%(ring_empty _ event_size _ Hr). apply Hf in He. by rewrite E in He. }
    rewrite (contents_pop _ HN _ Hr Hne). cbn [tail].
    pose proof (contents_push _ HN (Ring (r_buf (evts k)) (S (r_read (evts k)) mod KBD_EVENT_BUFFER) (r_write (evts k))) ev
      (ring_pop_ok _ HN _ Hr)) as Hp.
    cbn [r_read r_write r_buf] in Hp. apply Hp. rewrite He.
    destruct Hr as (_ & Hrr & _). rewrite S_mod by done. index_cases.
  - rewrite decide_False by (intros ?; by apply He, Hf). by apply contents_push.
Qed.

Lemma waiting_getchar k : kbd_ok k ->
  match waiting k with
  | [] => keyboard_try_getchar k = (k, -1)
  | c :: q => snd (keyboard_try_getchar k) = c /\ waiting (fst (keyboard_try_getchar k)) = q
  end.
Proof.
  intros (Hr & _). unfold waiting, keyboard_try_getchar. pose proof (ring_empty _ key_size _ Hr) as He.
  destruct (Nat.eqb_spec (r_read (keys k)) (r_write (keys k))) as [E|E].
  - by rewrite (proj1 He E).
  - by rewrite (contents_pop _ key_size _ Hr E).
Qed.

(** ** Typing *)

Lemma code_bits code : 0 <= code < 128 ->
  Z.land code 0x80 = 0 /\ Z.land code 0x7f = code /\
  Z.land (code + 128) 0x80 = 128 /\ Z.land (code + 128) 0x7f = code.
Proof.
  intros Hc.
  assert (Forall (fun n => let c := Z.of_nat n in Z.land c 0x80 = 0 /\ Z.land c 0x7f = c /\
    Z.land (c + 128) 0x80 = 128 /\ Z.land (c + 128) 0x7f = c) (seq 0 128)) as H
    by (vm_compute; repeat constructor).
  rewrite Forall_forall in H. specialize (H (Z.to_nat code)). cbv zeta in H. rewrite Z2Nat.id in H by lia.
  apply H, elem_of_seq. lia.
Qed.

(** The driver in the translated mode, with layout, modifiers, keys down and
    waiting keys given. *)
Definition state_is (lay : list Z) (m : mods) (d : list bool) (q : list Z) (k : kbd) : Prop :=
  kbd_ok k /\ layout k = lay /\ held k = m /\ key_down k = d /\ extended_prefix k = false /\
  set2_break_prefix k = false /\ raw_set2_mode k = false /\ scancode_set k = 1 /\ waiting k = q.

Lemma state_event lay m d q k ev : state_is lay m d q k -> state_is lay m d q (push_event ev k).
Proof. intros (H & Hr). split; [by apply push_event_ok|]. exact Hr. Qed.

Lemma state_key lay m d q k c : state_is lay m d q k -> (length q < 255)%nat ->
  state_is lay m d (q ++ [c]) (push_key c k).
Proof.
  intros (Hk & Hl & Hm & Hd & H1 & H2 & H3 & H4 & Hq) Hlen.
  pose proof (waiting_push c k Hk) as Hw. rewrite Hq, decide_False in Hw by lia.
  split; [by apply push_key_ok|]. unfold push_key in *. destruct (_ =? _)%nat; by repeat split.
Qed.

Lemma state_down lay m d q k code b : state_is lay m d q k -> state_is lay m (<[code := b]> d) q (set_down (<[code := b]> (key_down k)) k).
Proof.
  intros (Hk & Hl & Hm & <- & Hr). split; [by apply set_down_ok|].
  split; [exact Hl|]. split; [exact Hm|]. split; [done|exact Hr].
Qed.

Lemma state_held lay m m' d q k : shifts_agree m' -> state_is lay m d q k -> state_is lay m' d q (set_held m' k).
Proof. intros Hm (Hk & Hl & _ & Hr). split; [by apply set_held_ok|]. split; [exact Hl|]. split; [done|exact Hr]. Qed.

Lemma state_tick lay m d q k t : state_is lay m d q k -> state_is lay m d q (set_tick t k).
Proof. done. Qed.

(** A code of the main block that stands for a character. *)
Definition plain_code (code : Z) : Prop :=
  0 <= code < 0x60 /\ code <> 0x2a /\ code <> 0x36 /\ code <> 0x1d /\ code <> 0x38 /\ code <> 0x3a.

Lemma space_char lay m : layout_char lay m 0x39 = ch " ".
Proof.
  unfold layout_char. change (128 <=? 0x39) with false. cbv iota zeta.
  destruct (layout_is lay "de"); [|destruct (layout_is lay "it")].
  1-2: by destruct m as [[] ? ? ? ? [] []].
  change (i8 (in_rows normal_map 57)) with (ch " "). change (i8 (in_rows shift_map 57)) with (ch " ").
  assert (shifted_with_caps m (ch " ") (ch " ") = ch " ") as -> by (by destruct m as [[] ? ? ? ? ? []]).
  cbn [Z.eqb negb]. unfold remap_layout. change (ch " " =? 0) with false. cbn [negb].
  destruct (layout_is lay "fr"); [done|]. destruct (layout_is lay "dvorak"); [done|].
  destruct (layout_is lay "uk"); [done|]. by destruct (layout_is lay "it" || layout_is lay "es").
Qed.

Lemma nth_repeat_false i : nth i no_keys false = false.
Proof. unfold no_keys. rewrite nth_lookup. destruct (replicate 128 false !! i) eqn:E; [|done]. by apply lookup_replicate in E as [-> _]. Qed.

Section Typing.
Context {E : Type} `{Ports E}.

(** A string of scancodes. *)
Fixpoint run (e : E) (ss : list Z) (k : kbd) : E * kbd :=
  match ss with [] => (e, k) | s :: ss => let '(e, k) := process_scancode e s k in run e ss k end.

Lemma run_app ss1 : forall e ss2 k, run e (ss1 ++ ss2) k = let '(e, k) := run e ss1 k in run e ss2 k.
Proof. induction ss1 as [|s ss1 IH]; intros e ss2 k; cbn [app run]; [done|]. destruct (process_scancode e s k). apply IH. Qed.

Lemma scancode_set1 e k s : 0 <= s < 256 -> s <> 0xfa -> s <> 0xfe -> s <> 0xaa -> s <> 0xf0 -> s <> 0xe0 -> s <> 0x66 ->
  extended_prefix k = false -> set2_break_prefix k = false -> raw_set2_mode k = false -> scancode_set k = 1 ->
  process_scancode e s k = process_set1_scancode e s k.
Proof.
  intros Hs H1 H2 H3 H4 H5 H6 He Hb Hr Hset. unfold process_scancode, PS2_ACK, PS2_RESEND, PS2_BAT_OK.
  rewrite !(proj2 (Z.eqb_neq s _)) by done. cbn [orb]. rewrite Hr, Hb, Hset, He. done.
Qed.

Lemma process_make e k code : 0 <= code < 128 -> down_at (key_down k) code = false ->
  exists e' k0, process_set1_scancode e code k = (e', make_key code k0) /\
    (forall lay m d q, state_is lay m d q k -> state_is lay m (<[Z.to_nat code := true]> d) q k0).
Proof.
  intros Hc Hd. destruct (code_bits code Hc) as (B1 & B2 & _). unfold process_set1_scancode.
  rewrite B1, B2, (proj2 (Z.leb_gt 128 code)), Hd by lia. cbn [negb Z.eqb].
  destruct (code =? 0x0e).
  - destruct (pit_ticks e) as [e1 now]. do 2 eexists. split; [reflexivity|]. intros lay m d q Hs.
    apply state_tick. by apply state_down.
  - do 2 eexists. split; [reflexivity|]. intros lay m d q Hs. by apply state_down.
Qed.

Lemma process_release e k code : 0 <= code < 128 ->
  process_set1_scancode e (code + 128) k = (e, release_key code k).
Proof.
  intros Hc. destruct (code_bits code Hc) as (_ & _ & B1 & B2). unfold process_set1_scancode.
  by rewrite B1, B2, (proj2 (Z.leb_gt 128 code)) by lia.
Qed.

(** One of the make codes of a character. *)
Lemma make_key_char code k lay m d q : state_is lay m d q k -> plain_code code -> ctrl_down m = false ->
  layout_char lay m code <> 0 -> (length q < 255)%nat ->
  state_is lay m d (q ++ [layout_char lay m code]) (make_key code k).
Proof.
  intros Hs (Hc & H1 & H2 & H3 & H4 & H5) Hm Hn Hq. assert (held k = m) as Eh by apply Hs.
  assert (layout k = lay) as El by apply Hs. unfold make_key. rewrite Eh, El, Hm. cbn [andb]. cbv zeta.
  rewrite (proj2 (Z.eqb_neq code 0x2a)), (proj2 (Z.eqb_neq code 0x36)), (proj2 (Z.eqb_neq code 0x1d)),
    (proj2 (Z.eqb_neq code 0x38)), (proj2 (Z.eqb_neq code 0x3a)) by done.
  destruct (Z.eqb_spec code 0x39) as [->|Hsp].
  - rewrite space_char. apply state_event. by apply state_key.
  - rewrite (proj2 (Z.eqb_neq _ 0)) by done. by apply state_key.
Qed.

Lemma release_key_char code k lay m d q : state_is lay m (<[Z.to_nat code := true]> d) q k ->
  plain_code code -> d !! Z.to_nat code = Some false -> state_is lay m d q (release_key code k).
Proof.
  intros Hs (Hc & H1 & H2 & H3 & H4 & H5) Hd. unfold release_key.
  rewrite (proj2 (Z.eqb_neq code 0x2a)), (proj2 (Z.eqb_neq code 0x36)), (proj2 (Z.eqb_neq code 0x1d)),
    (proj2 (Z.eqb_neq code 0x38)) by done. cbv zeta.
  apply (state_down _ _ _ _ _ (Z.to_nat code) false) in Hs.
  rewrite list_insert_insert_eq, (list_insert_id d) in Hs by done.
  set (k0 := set_down _ k) in *. clearbody k0.
  destruct (code =? 0x39); destruct (_ =? 0); repeat apply state_event; done.
Qed.

(** A key pressed and released. *)
Lemma stroke e k lay m d q code : state_is lay m d q k -> plain_code code -> d !! Z.to_nat code = Some false ->
  ctrl_down m = false -> layout_char lay m code <> 0 -> (length q < 255)%nat ->
  exists e' k', run e [code; code + 128] k = (e', k') /\ state_is lay m d (q ++ [layout_char lay m code]) k'.
Proof.
  intros Hs Hp Hdc Hm Hn Hq. pose proof Hp as (Hc & Ho). pose proof Hs as (_ & _ & _ & Hd & P1 & P2 & P3 & P4 & _).
  destruct (process_make e k code) as (e1 & k0 & E0 & Hk0);
    [lia|unfold down_at; rewrite Hd, nth_lookup; by rewrite Hdc|].
  apply Hk0 in Hs. pose proof (make_key_char code k0 lay m _ q Hs Hp Hm Hn Hq) as Hmk.
  exists e1, (release_key code (make_key code k0)). split; [|by apply release_key_char].
  cbn [run]. rewrite scancode_set1 by (done || lia). rewrite E0.
  pose proof Hmk as (_ & _ & _ & _ & R1 & R2 & R3 & R4 & _).
  rewrite scancode_set1 by (done || lia). by rewrite process_release by lia.
Qed.

Definition no_mods : mods := Mods false false false false false false false.
Definition right_shift : mods := Mods true false true false false false false.

(** A key between the press and the release of the right shift key. *)
Lemma shifted_stroke e k lay q code : state_is lay no_mods no_keys q k -> plain_code code ->
  layout_char lay right_shift code <> 0 -> (length q < 255)%nat ->
  exists e' k', run e [0x36; code; code + 128; 0xb6] k = (e', k') /\
    state_is lay no_mods no_keys (q ++ [layout_char lay right_shift code]) k'.
Proof.
  intros Hs Hp Hn Hq. change [0x36; code; code + 128; 0xb6] with ([0x36] ++ [code; code + 128] ++ [0x36 + 128]).
  rewrite run_app. pose proof Hs as (_ & _ & _ & Hd & P1 & P2 & P3 & P4 & _).
  destruct (process_make e k 0x36) as (e1 & k0 & E0 & Hk0); [lia|by rewrite Hd|].
  apply Hk0 in Hs.
  assert (run e [0x36] k = (e1, set_held right_shift k0)) as ->.
  { cbn [run]. rewrite scancode_set1 by done. rewrite E0.
    change (make_key 54 k0) with (set_held (set_shifts true (left_shift_down (held k0)) true (held k0)) k0).
    by destruct Hs as (_ & _ & -> & _). }
  apply (state_held _ _ right_shift) in Hs; [|done].
  destruct (stroke e1 (set_held right_shift k0) lay right_shift _ q code Hs Hp) as (e2 & k2 & E2 & H2); try done.
  { destruct Hp as (Hc & _ & Hp & _). rewrite list_lookup_insert_ne by (change 54%nat with (Z.to_nat 54); lia).
    unfold no_keys. apply lookup_replicate. split; [done|lia]. }
  cbv iota beta. rewrite run_app, E2. exists e2, (release_key 0x36 k2).
  pose proof H2 as (_ & _ & Hm & _ & R1 & R2 & R3 & R4 & _). cbn [run app].
  rewrite scancode_set1 by done. rewrite process_release by lia. split; [done|].
  unfold release_key. cbn [Z.eqb Pos.eqb]. cbv zeta.
  apply (state_down _ _ _ _ _ (Z.to_nat 0x36) false) in H2.
  rewrite list_insert_insert_eq, (list_insert_id no_keys) in H2 by done.
  set (k3 := set_down _ k2) in *. assert (held k3 = right_shift) as Eh by (by apply H2).
  rewrite Eh. apply (state_held _ _ no_mods) in H2; [|done].
  change (set_shifts (left_shift_down right_shift || false) (left_shift_down right_shift) false right_shift) with no_mods.
  destruct (_ =? 0); [done|by apply state_event].
Qed.

(** The keystrokes of an ASCII character on the us layout. *)
Definition us_key (c : Z) : option (Z * bool) :=
  match List.find (fun i => in_rows normal_map (Z.of_nat i) =? c) (seq 0 96) with
  | Some i => Some (Z.of_nat i, false)
  | None => match List.find (fun i => in_rows shift_map (Z.of_nat i) =? c) (seq 0 96) with
            | Some i => Some (Z.of_nat i, true)
            | None => None
            end
  end.
Definition strokes (c : Z) : list Z :=
  match us_key c with
  | Some (code, false) => [code; code + 128]
  | Some (code, true) => [0x36; code; code + 128; 0xb6]
  | None => []
  end.

Definition us_key_good (c : Z) : bool :=
  match us_key c with
  | Some (code, sh) =>
    (0 <=? code) && (code <? 0x60) && negb (code =? 0x2a) && negb (code =? 0x36) && negb (code =? 0x1d) &&
    negb (code =? 0x38) && negb (code =? 0x3a) &&
    (layout_char (str "us") (if sh then right_shift else no_mods) code =? c)
  | None => false
  end.

Lemma us_key_ok c : 32 <= c < 127 -> exists code (sh : bool), us_key c = Some (code, sh) /\ plain_code code /\
  layout_char (str "us") (if sh then right_shift else no_mods) code = c.
Proof.
  intros Hc. assert (forallb (fun n => us_key_good (Z.of_nat n)) (seq 32 95) = true) as G by (by vm_compute).
  rewrite forallb_forall in G. specialize (G (Z.to_nat c)). rewrite Z2Nat.id in G by lia.
  specialize (G ltac:(apply in_seq; lia)). unfold us_key_good in G.
  destruct (us_key c) as [[code sh]|]; [|done]. bcases. exists code, sh. split; [done|].
  repeat match goal with X : (_ =? _) = true |- _ => apply Z.eqb_eq in X | X : (_ =? _) = false |- _ => apply Z.eqb_neq in X end.
  split; [|done]. unfold plain_code. repeat split; done || lia.
Qed.

Lemma type_text text : Forall (fun c => 32 <= c < 127) text -> forall e k q,
  state_is (str "us") no_mods no_keys q k -> (length q + length text <= 255)%nat ->
  exists e' k', run e (concat (map strokes text)) k = (e', k') /\ state_is (str "us") no_mods no_keys (q ++ text) k'.
Proof.
  induction 1 as [|c text Hc _ IH]; intros e k q Hs Hq; cbn [map concat].
  - exists e, k. by rewrite app_nil_r.
  - cbn [length] in Hq. destruct (us_key_ok c Hc) as (code & sh & Ek & Hp & Ec).
    assert (exists e' k', run e (strokes c) k = (e', k') /\ state_is (str "us") no_mods no_keys (q ++ [c]) k') as (e1 & k1 & E1 & H1).
    { unfold strokes. rewrite Ek. destruct sh; rewrite <- Ec.
      - apply shifted_stroke; [done|done|rewrite Ec; lia|lia].
      - apply (stroke e k (str "us") no_mods no_keys q code); [done|done| |done|rewrite Ec; lia|lia].
        unfold no_keys. apply lookup_replicate. split; [done|destruct Hp; lia]. }
    rewrite run_app, E1. destruct (IH e1 k1 (q ++ [c]) H1) as (e2 & k2 & E2 & H2); [rewrite length_app; cbn; lia|].
    exists e2, k2. by rewrite <- app_assoc in H2.
Qed.

(** Reading [n] keys. *)
Fixpoint read_keys (n : nat) (k : kbd) : list Z :=
  match n with
  | O => []
  | S n => let '(k, c) := keyboard_try_getchar k in c :: read_keys n k
  end.

Lemma read_waiting q : forall k, kbd_ok k -> waiting k = q -> read_keys (length q) k = q.
Proof.
  induction q as [|c q IH]; intros k Hk Hq; [done|]. cbn [length read_keys].
  pose proof (waiting_getchar k Hk) as Hw. rewrite Hq in Hw. destruct Hw as [<- Hw].
  pose proof (try_getchar_ok k Hk) as Ho. destruct (keyboard_try_getchar k) as [k1 c]. cbn [fst snd] in *.
  by rewrite IH.
Qed.
End Typing.

(** ** What a key leaves alone *)

(** The prefixes and the mode change only in [process_scancode]. *)
Definition mode_of (k : kbd) : bool * bool * bool * Z :=
  (extended_prefix k, set2_break_prefix k, raw_set2_mode k, scancode_set k).

Create Rewrite HintDb kmode.

Lemma mode_push_event ev k : mode_of (push_event ev k) = mode_of k.
Proof. done. Qed.
Lemma mode_push_key c k : mode_of (push_key c k) = mode_of k.
Proof. unfold push_key. by destruct (_ =? _)%nat. Qed.
Lemma mode_set_held m k : mode_of (set_held m k) = mode_of k.
Proof. done. Qed.
Lemma mode_set_down d k : mode_of (set_down d k) = mode_of k.
Proof. done. Qed.
Lemma mode_set_ext_down d k : mode_of (set_ext_down d k) = mode_of k.
Proof. done. Qed.
Lemma mode_set_generations a b k : mode_of (set_generations a b k) = mode_of k.
Proof. done. Qed.
Lemma mode_set_tick a k : mode_of (set_tick a k) = mode_of k.
Proof. done. Qed.
#[local] Hint Rewrite mode_push_event mode_push_key mode_set_held mode_set_down mode_set_ext_down
  mode_set_generations mode_set_tick : kmode.

Ltac step_mode :=
  cbv zeta; repeat match goal with |- context [if ?b then _ else _] => destruct b end;
  cbv beta iota; cbn [snd]; autorewrite with kmode; done.

Lemma process_extended_mode s k : mode_of (process_extended_scancode s k) = mode_of k.
Proof. unfold process_extended_scancode. step_mode. Qed.
Lemma release_key_mode code k : mode_of (release_key code k) = mode_of k.
Proof. unfold release_key. step_mode. Qed.
Lemma make_key_mode code k : mode_of (make_key code k) = mode_of k.
Proof. unfold make_key. step_mode. Qed.
#[local] Hint Rewrite process_extended_mode release_key_mode make_key_mode : kmode.

(** Only the shift keys change shift. *)
Definition shift_of (k : kbd) : bool * bool := (shift_down (held k), left_shift_down (held k)).

Lemma shift_push_key c k : shift_of (push_key c k) = shift_of k.
Proof. unfold push_key. by destruct (_ =? _)%nat. Qed.

Lemma shift_push_event ev k : shift_of (push_event ev k) = shift_of k.
Proof. done. Qed.

Lemma process_extended_shift s k : shift_of (process_extended_scancode s k) = shift_of k.
Proof.
  unfold process_extended_scancode. cbv zeta.
  repeat match goal with |- context [if ?b then _ else _] => destruct b end; rewrite ?shift_push_key; done.
Qed.

Lemma make_key_shift code k : shift_of k = (true, true) -> shift_of (make_key code k) = (true, true).
Proof.
  intros Hs. unfold make_key. cbv zeta. injection Hs as Hd Hl.
  repeat match goal with |- context [if ?b then _ else _] => destruct b end; rewrite ?shift_push_event, ?shift_push_key;
    unfold shift_of; cbn; by rewrite ?Hd, ?Hl.
Qed.

Lemma release_key_shift code k : code <> 0x2a -> shift_of k = (true, true) -> shift_of (release_key code k) = (true, true).
Proof.
  intros Hc Hs. unfold release_key. rewrite (proj2 (Z.eqb_neq code 0x2a)) by done. cbv zeta. injection Hs as Hd Hl.
  repeat match goal with |- context [if ?b then _ else _] => destruct b end;
    unfold shift_of; cbn; by rewrite ?Hd, ?Hl.
Qed.

Section Sticking.
Context {E : Type} `{Ports E}.

Lemma process_set1_mode e s k : mode_of (snd (process_set1_scancode e s k)) = mode_of k.
Proof.
  unfold process_set1_scancode. destruct (pit_ticks e) as [e1 t1]. destruct (pit_ticks e1) as [e2 t2]. step_mode.
Qed.

Lemma byte_code s : 0 <= s < 256 -> Z.land s 0x80 <> 0 -> Z.land s 0x7f = 0x2a -> s = 0xaa.
Proof.
  intros Hs Hr Hc. destruct (Z.lt_ge_cases s 128); [destruct (code_bits s) as (? & _); [lia|done]|].
  destruct (code_bits (s - 128)) as (_ & _ & _ & Hb); [lia|]. replace (s - 128 + 128) with s in Hb by lia. lia.
Qed.

Lemma process_set1_shift e s k : 0 <= s < 256 -> s <> 0xaa -> shift_of k = (true, true) ->
  shift_of (snd (process_set1_scancode e s k)) = (true, true).
Proof.
  intros Hb Hs Hk. unfold process_set1_scancode. cbv zeta.
  destruct (128 <=? _); [done|]. destruct (Z.eqb_spec (Z.land s 0x80) 0) as [Hr|Hr]; cbn [negb].
  - destruct (pit_ticks e) as [e1 t1]. destruct (pit_ticks e1) as [e2 t2].
    repeat match goal with |- context [if ?b then _ else _] => destruct b end; cbn [snd]; try done; by apply make_key_shift.
  - cbn [snd]. apply release_key_shift; [|done]. intros Hc. by apply Hs, byte_code.
Qed.

(** Shift held in the translated mode. *)
Definition stuck (k : kbd) : Prop :=
  shift_of k = (true, true) /\ set2_break_prefix k = false /\ raw_set2_mode k = false /\ scancode_set k = 1.

Lemma process_scancode_stuck e s k : 0 <= s < 256 -> s <> 0xf0 -> stuck k -> stuck (snd (process_scancode e s k)).
Proof.
  intros Hb Hf Hk. pose proof Hk as (Hs & H1 & H2 & H3). unfold process_scancode.
  rewrite (proj2 (Z.eqb_neq s 0xf0)) by done. rewrite H1, H2, H3.
  destruct (Z.eqb_spec s PS2_BAT_OK) as [|Ha]; [by rewrite orb_true_r|].
  destruct (_ || _); [done|]. destruct (s =? 0xe0); [done|]. cbn [negb andb orb].
  assert (forall s', 0 <= s' < 256 -> s' <> 0xaa -> stuck (snd (process_set1_scancode e s' k))) as Hset.
  { intros s' Hs' Hn. split; [by apply process_set1_shift|].
    pose proof (process_set1_mode e s' k) as Hm. unfold mode_of in Hm. injection Hm as _ -> -> ->. done. }
  destruct (s =? 0x66); [by apply Hset|]. change (1 =? 2) with false. cbn [orb]. cbv iota.
  destruct (extended_prefix k); [|by apply Hset]. cbn [snd].
  pose proof (process_extended_mode s (set_prefixes false false k)) as Hm. unfold mode_of in Hm.
  injection Hm as _ E2 E3 E4. split; [by rewrite process_extended_shift|]. by rewrite E2, E3, E4.
Qed.

Lemma run_stuck ss : Forall (fun s => 0 <= s < 256 /\ s <> 0xf0) ss -> forall e k, stuck k -> stuck (snd (run e ss k)).
Proof.
  induction 1 as [|s ss [Hb Hs] _ IH]; intros e k Hk; cbn [run]; [done|].
  pose proof (process_scancode_stuck e s k Hb Hs Hk) as Hp. destruct (process_scancode e s k). by apply IH.
Qed.
End Sticking.

(** ** Scancode set 2 *)

(** A key of set 2: whether it is extended, its code, whether it is released. *)
Record action := Action { a_ext : bool; a_code : Z; a_release : bool }.

Definition set2_bytes (a : action) : list Z :=
  (if a_ext a then [0xe0] else []) ++ (if a_release a then [0xf0] else []) ++ [a_code a].

(** The scancode of set 1 of the same key. *)
Definition set1_code (a : action) : Z :=
  in_pairs (if a_ext a then set2_ext_to_set1 else set2_to_set1) (a_code a).
Definition known (a : action) : Prop := 0 <= a_code a < 128 /\ set1_code a <> 0.

Section Set2.
Context {E : Type} `{Ports E}.

Definition set1_apply (e : E) (a : action) (k : kbd) : E * kbd :=
  let s := if a_release a then Z.lor (set1_code a) 0x80 else set1_code a in
  if a_ext a then (e, process_extended_scancode s k) else process_set1_scancode e s k.

Fixpoint set1_all (e : E) (acts : list action) (k : kbd) : E * kbd :=
  match acts with [] => (e, k) | a :: acts => let '(e, k) := set1_apply e a k in set1_all e acts k end.

Definition raw_mode (k : kbd) : Prop := mode_of k = (false, false, true, 2).

Lemma raw_id k : raw_mode k -> set_mode true 2 k = k /\ set_prefixes false false k = k.
Proof. unfold raw_mode, mode_of. destruct k. cbn. by intros [= -> -> -> ->]. Qed.

(** The last byte of a key, with the prefixes before it. *)
Lemma last_byte e k a : raw_mode k -> known a ->
  process_scancode e (a_code a) (set_prefixes (a_ext a) (a_release a) k) = set1_apply e a k.
Proof.
  intros Hk (Hc & Hn). destruct (raw_id k Hk) as [_ Hp]. unfold raw_mode, mode_of in Hk. injection Hk as _ _ Hr Hs.
  unfold process_scancode, PS2_ACK, PS2_RESEND, PS2_BAT_OK. rewrite !(proj2 (Z.eqb_neq (a_code a) _)) by lia.
  cbn [orb set_prefixes raw_set2_mode set2_break_prefix extended_prefix]. rewrite Hr. cbn [negb andb orb].
  rewrite (proj2 (Z.ltb_lt (a_code a) 128)) by lia. fold (set1_code a). rewrite (proj2 (Z.eqb_neq (set1_code a) 0)) by done.
  change (set_prefixes false false (set_prefixes (a_ext a) (a_release a) k)) with (set_prefixes false false k).
  by rewrite Hp.
Qed.

Lemma set2_one e k a : raw_mode k -> known a -> run e (set2_bytes a) k = set1_apply e a k.
Proof.
  intros Hk Ha. destruct (raw_id k Hk) as [Hm Hp]. unfold set2_bytes. rewrite <- (last_byte e k a Hk Ha).
  pose proof Hk as Hk'. unfold raw_mode, mode_of in Hk'. injection Hk' as He Hb _ _.
  assert (process_scancode e 0xf0 k = (e, set_prefixes false true k)) as F1.
  { change (process_scancode e 240 k) with (e, set_prefixes (extended_prefix k) true (set_mode true 2 k)). by rewrite Hm, He. }
  assert (process_scancode e 0xe0 k = (e, set_prefixes true false k)) as F2.
  { change (process_scancode e 224 k) with (e, set_prefixes true (set2_break_prefix k) k). by rewrite Hb. }
  assert (process_scancode e 0xf0 (set_prefixes true false k) = (e, set_prefixes true true k)) as F3.
  { change (process_scancode e 240 (set_prefixes true false k)) with (e, set_prefixes true true (set_mode true 2 k)). by rewrite Hm. }
  destruct (a_ext a), (a_release a); cbn [app run]; rewrite ?F1, ?F2, ?F3, ?Hp; by destruct (process_scancode e (a_code a) _).
Qed.

Lemma set1_apply_mode e a k : mode_of (snd (set1_apply e a k)) = mode_of k.
Proof. unfold set1_apply. destruct (a_ext a); [apply process_extended_mode|apply process_set1_mode]. Qed.
End Set2.

(** ** The properties *)

(** C33 A driver that is initialised stays well formed whatever interrupts, polls,
    injected scancodes, reads, resets and layout changes follow: positions inside
    the buffers, a flag for every key, shift down exactly when one of the shift
    keys is; and then the keys wait in a first-in first-out queue of 255, which
    loses a new key when it is full, the events in one of 1023, which loses the
    oldest. *)
Theorem keyboard_invariant {E : Type} `{Ports E} (e : E) k y :
  length (r_buf (keys k)) = 256%nat -> ring_ok KBD_EVENT_BUFFER (evts k) ->
  rtc kstep (keyboard_init e k) y ->
  kbd_ok (snd y) /\
  (forall c, waiting (push_key c (snd y)) =
     if decide (length (waiting (snd y)) = 255%nat) then waiting (snd y) else waiting (snd y) ++ [c]) /\
  (forall ev, waiting_events (push_event ev (snd y)) =
     (if decide (length (waiting_events (snd y)) = 1023%nat) then tail (waiting_events (snd y)) else waiting_events (snd y)) ++ [ev]) /\
  match waiting (snd y) with
  | [] => keyboard_try_getchar (snd y) = (snd y, -1)
  | c :: q => snd (keyboard_try_getchar (snd y)) = c /\ waiting (fst (keyboard_try_getchar (snd y))) = q
  end.
Proof.
  intros Hb He Hy. assert (kbd_ok (snd (keyboard_init e k))) as Hi.
  { apply setup_ok. split; [by apply start_ring; [apply key_size|]|]. split; [done|]. by repeat split. }
  assert (kbd_ok (snd y)) as Hok by (induction Hy as [|x z y Hs _ IH]; [done|]; by apply IH, (kstep_ok x)).
  split; [done|]. split; [intros c; by apply waiting_push|]. split; [intros ev; by apply waiting_push_event|].
  by apply waiting_getchar.
Qed.

(** C31 Typing: on the us layout every text of up to 255 printable ASCII
    characters has scancodes that put exactly this text in the queue, to be read
    in its order, and leave every key up. *)
Theorem typing_us {E : Type} `{Ports E} (e : E) k text :
  state_is (str "us") no_mods no_keys [] k -> Forall (fun c => 32 <= c < 127) text -> (length text <= 255)%nat ->
  exists e' k', run e (concat (map strokes text)) k = (e', k') /\
    state_is (str "us") no_mods no_keys text k' /\ read_keys (length text) k' = text.
Proof.
  intros Hs Ht Hl. destruct (type_text text Ht e k [] Hs Hl) as (e' & k' & Er & Hs'). exists e', k'.
  split; [done|]. split; [done|]. apply read_waiting; apply Hs'.
Qed.

(** C32 The scancode 0xaa that reports the release of the left shift key is
    taken for the keyboard's self-test answer and dropped, so once the key was
    pressed, shift is down after every further input of scancode set 1. *)
Theorem left_shift_sticks {E : Type} `{Ports E} (e : E) k lay q ss :
  state_is lay no_mods no_keys q k -> Forall (fun s => 0 <= s < 256 /\ s <> 0xf0) ss ->
  process_scancode e 0xaa k = (e, k) /\
  shift_down (held (snd (run e (0x2a :: ss) k))) = true /\
  left_shift_down (held (snd (run e (0x2a :: ss) k))) = true.
Proof.
  intros Hs Hss. split; [done|]. pose proof Hs as (_ & _ & _ & Hd & P1 & P2 & P3 & P4 & _).
  destruct (process_make e k 0x2a) as (e1 & k0 & E0 & Hk0); [lia|by rewrite Hd|]. apply Hk0 in Hs.
  cbn [run]. rewrite scancode_set1 by done. rewrite E0.
  assert (stuck (make_key 0x2a k0)) as Hst by (destruct Hs as (_ & _ & _ & _ & _ & Q2 & Q3 & Q4 & _); by repeat split).
  destruct (run_stuck ss Hss e1 _ Hst) as (Hsh & _). unfold shift_of in Hsh. by injection Hsh as -> ->.
Qed.

(** Every accented letter of the german and italian layouts is a negative
    [char]: its key waits in the queue as a negative number, which the readers
    take for an empty queue, and the key is gone. *)
Theorem accents_lost {E : Type} `{Ports E} (e : E) k lay m code :
  (lay, m, code) ∈ [(str "de", no_mods, 0x0c); (str "de", no_mods, 0x1a); (str "de", no_mods, 0x27);
    (str "de", no_mods, 0x28); (str "it", no_mods, 0x0d); (str "it", no_mods, 0x1a); (str "it", no_mods, 0x27);
    (str "it", no_mods, 0x28); (str "it", no_mods, 0x2b)] ->
  state_is lay m no_keys [] k ->
  exists e' k', run e [code; code + 128] k = (e', k') /\ waiting k' = [layout_char lay m code] /\
    snd (keyboard_try_getchar k') < 0 /\ waiting (fst (keyboard_try_getchar k')) = [].
Proof.
  intros Hin Hs.
  assert (plain_code code /\ ctrl_down m = false /\ layout_char lay m code < 0) as (Hp & Hm & Hn).
  { unfold plain_code. repeat (apply elem_of_cons in Hin as [[= -> -> ->]|Hin]; [split; [lia|by vm_compute]|]).
    by apply elem_of_nil in Hin. }
  destruct (stroke e k lay m no_keys [] code Hs Hp) as (e' & k' & Er & Hs'); [|done|lia|cbn; lia|].
  { unfold no_keys. apply lookup_replicate. split; [done|destruct Hp; lia]. }
  exists e', k'. assert (waiting k' = [layout_char lay m code]) as Hw by apply Hs'. split; [done|]. split; [done|].
  pose proof (waiting_getchar k' (proj1 Hs')) as Hg. rewrite Hw in Hg. destruct Hg as [-> ->]. done.
Qed.


(** ** A controller that holds some bytes *)

Module Wire.
#[global] Instance wire : Ports (list Z) := {
  inb e port := if port =? I8042_STATUS then (e, match e with [] => 0 | _ => 1 end) else (tail e, default 0 (head e));
  outb e _ _ := e;
  cpu_pause e := e;
  pit_ticks e := (e, 0)
}.

Definition fresh (lay : list Z) : kbd :=
  Kbd (Ring (replicate 256 0) 0 0) (Ring (replicate 1024 0) 0 0) no_keys no_keys no_mods false false false 1 0 0 0 0 0 lay.
Definition raw : kbd := set_mode true 2 (fresh (str "us")).

Lemma fresh_state lay : state_is lay no_mods no_keys [] (fresh lay).
Proof.
  split; [|by repeat split]. split; [split; [by vm_compute|split; apply Nat.ltb_lt; by vm_compute]|].
  split; [split; [by vm_compute|split; apply Nat.ltb_lt; by vm_compute]|]. by repeat split.
Qed.
End Wire.

Lemma keyboard_invariant_witness :
  kbd_ok (snd (keyboard_init [] (Wire.fresh []))) /\
  (forall c, waiting (push_key c (snd (keyboard_init [] (Wire.fresh [])))) = [c]).
Proof.
  destruct (keyboard_invariant [] (Wire.fresh []) (keyboard_init [] (Wire.fresh []))) as (H1 & H2 & _).
  - reflexivity.
  - apply (Wire.fresh_state []).
  - apply rtc_refl.
  - split; [exact H1|]. intros c. rewrite H2. by vm_compute.
Defined.

Lemma typing_us_witness :
  exists e' k', run [] (concat (map strokes (str "Hello, World!"))) (Wire.fresh (str "us")) = (e', k') /\
    state_is (str "us") no_mods no_keys (str "Hello, World!") k' /\ read_keys (length (str "Hello, World!")) k' = str "Hello, World!".
Proof.
  apply (typing_us [] (Wire.fresh (str "us")) (str "Hello, World!")).
  - apply Wire.fresh_state.
  - apply (bool_decide_unpack (Forall (fun c => 32 <= c < 127) (str "Hello, World!"))). by vm_compute.
  - vm_compute. lia.
Defined.

Lemma left_shift_sticks_witness :
  process_scancode [] 0xaa (Wire.fresh (str "us")) = ([], Wire.fresh (str "us")) /\
  shift_down (held (snd (run [] [0x2a; 0x1e; 0x9e; 0xaa] (Wire.fresh (str "us"))))) = true /\
  left_shift_down (held (snd (run [] [0x2a; 0x1e; 0x9e; 0xaa] (Wire.fresh (str "us"))))) = true.
Proof.
  apply (left_shift_sticks [] (Wire.fresh (str "us")) (str "us") [] [0x1e; 0x9e; 0xaa]).
  - apply Wire.fresh_state.
  - repeat constructor; lia.
Defined.

Lemma accents_lost_witness :
  exists e' k', run [] [0x1a; 0x1a + 128] (Wire.fresh (str "de")) = (e', k') /\
    waiting k' = [layout_char (str "de") no_mods 0x1a] /\
    snd (keyboard_try_getchar k') < 0 /\ waiting (fst (keyboard_try_getchar k')) = [].
Proof.
  apply (accents_lost [] (Wire.fresh (str "de")) (str "de") no_mods 0x1a).
  - right. left.
  - apply Wire.fresh_state.
Defined.

