(* ===== verification/Process.v ===== *)
(** * kernel/core/process.c

    The process table and the file descriptors of a process. A pointer to a
    process is its index in the array. The fields of [struct process] that only
    the Linux layer uses are left out. An overflow of [next_pid] and a pointer
    out of the array are undefined: [None]. *)
From S2P Require Import Prelude Buf KString Printf Vfs User.

Definition PROCESS_NAME_MAX : nat := 31.
Definition PROCESS_MAX : nat := 64.
Definition PROCESS_SIGNAL_MAX : nat := 32.
Definition VFS_MAX_FDS : nat := 32.

Definition VFS_O_RDONLY : Z := 0.
Definition VFS_O_WRONLY : Z := 1.
Definition VFS_O_RDWR : Z := 2.
Definition VFS_O_CREAT : Z := 0x40.
Definition VFS_O_TRUNC : Z := 0x200.
Definition VFS_O_APPEND : Z := 0x400.
Definition VFS_O_EXCL : Z := 0x800.

Inductive process_state :=
  | PROCESS_UNUSED | PROCESS_READY | PROCESS_RUNNING | PROCESS_SLEEPING | PROCESS_ZOMBIE.

#[export] Instance process_state_eq_dec : EqDecision process_state.
Proof. solve_decision. Defined.

Record file_descriptor := Fd {
  fd_used : bool; fd_dirty : bool; fd_flags : Z; fd_offset : Z; fd_node : option nat }.

Record process := Proc {
  p_pid : Z; p_ppid : Z; p_pgid : Z; p_uid : Z; p_gid : Z; p_state : process_state;
  p_name : list Z; p_cwd : list Z; p_exit : Z; p_disp : list Z; p_handler : list Z;
  p_fds : list file_descriptor; p_brk_floor : Z; p_brk_current : Z; p_heap_limit : Z }.

Record procs := Procs { processes : list process; next_pid : Z; current : option nat }.

Definition fd_zero : file_descriptor := Fd false false 0 0 None.
Definition process_zero : process :=
  Proc 0 0 0 0 0 PROCESS_UNUSED [] [] 0 (replicate PROCESS_SIGNAL_MAX 0) (replicate PROCESS_SIGNAL_MAX 0)
       (replicate VFS_MAX_FDS fd_zero) 0 0 0.

Definition set_state (p : process) (s : process_state) : process :=
  Proc (p_pid p) (p_ppid p) (p_pgid p) (p_uid p) (p_gid p) s (p_name p) (p_cwd p) (p_exit p) (p_disp p)
       (p_handler p) (p_fds p) (p_brk_floor p) (p_brk_current p) (p_heap_limit p).
Definition set_exit (p : process) (code : Z) : process :=
  Proc (p_pid p) (p_ppid p) (p_pgid p) (p_uid p) (p_gid p) PROCESS_ZOMBIE (p_name p) (p_cwd p) code (p_disp p)
       (p_handler p) (p_fds p) (p_brk_floor p) (p_brk_current p) (p_heap_limit p).
Definition set_fds (p : process) (fds : list file_descriptor) : process :=
  Proc (p_pid p) (p_ppid p) (p_pgid p) (p_uid p) (p_gid p) (p_state p) (p_name p) (p_cwd p) (p_exit p) (p_disp p)
       (p_handler p) fds (p_brk_floor p) (p_brk_current p) (p_heap_limit p).
Definition set_ids (p : process) (uid gid : Z) (cwd : list Z) : process :=
  Proc (p_pid p) (p_ppid p) (p_pgid p) uid gid (p_state p) (p_name p) cwd (p_exit p) (p_disp p)
       (p_handler p) (p_fds p) (p_brk_floor p) (p_brk_current p) (p_heap_limit p).
Definition set_signal (p : process) (disp handler : list Z) : process :=
  Proc (p_pid p) (p_ppid p) (p_pgid p) (p_uid p) (p_gid p) (p_state p) (p_name p) (p_cwd p) (p_exit p) disp
       handler (p_fds p) (p_brk_floor p) (p_brk_current p) (p_heap_limit p).
Definition set_brk (p : process) (floor cur limit : Z) : process :=
  Proc (p_pid p) (p_ppid p) (p_pgid p) (p_uid p) (p_gid p) (p_state p) (p_name p) (p_cwd p) (p_exit p) (p_disp p)
       (p_handler p) (p_fds p) floor cur limit.

(** ** Processes *)

(** The three descriptors of a new process. *)
Definition setup_stdio (v : vfs) (p : process) : option process :=
  tty ← vfs_lookup (Some (str "/dev/tty")) (Some [SLASH]) v;
  Some (set_fds p ([Fd true (fd_dirty fd_zero) VFS_O_RDONLY 0 tty;
                    Fd true (fd_dirty fd_zero) VFS_O_WRONLY 0 tty;
                    Fd true (fd_dirty fd_zero) VFS_O_WRONLY 0 tty] ++ drop 3 (p_fds p))).

Fixpoint find_process (P : process -> bool) (ps : list process) : option nat :=
  match ps with
  | [] => None
  | p :: ps => if P p then Some 0%nat else i ← find_process P ps; Some (S i)
  end.

Definition unused (p : process) : bool := bool_decide (p_state p = PROCESS_UNUSED).

Definition process_create (name : list Z) (ppid uid gid : Z) (us : users_state) (s : procs)
    : option (procs * option nat) :=
  match find_process unused (processes s) with
  | None => Some (s, None)
  | Some i =>
    if next_pid s =? 2147483647 then None
    else
      let cwd := match user_find_uid (users us) uid with
                 | Some u => match u_home u with [] => [SLASH] | h => field 255 h end
                 | None => [SLASH]
                 end in
      p ← setup_stdio (u_fs us)
            (Proc (next_pid s) ppid (next_pid s) uid gid PROCESS_READY (field PROCESS_NAME_MAX name) cwd 0
                  (p_disp process_zero) (p_handler process_zero) (p_fds process_zero) 0 0 0);
      Some (Procs (<[i := p]> (processes s)) (next_pid s + 1) (current s), Some i)
  end.

(** Following a pointer to a process. *)
Definition update_process (i : nat) (f : process -> process) (s : procs) : option procs :=
  p ← processes s !! i; Some (Procs (<[i := f p]> (processes s)) (next_pid s) (current s)).

(** [user_current()] is followed without a check. *)
Definition process_init (us : users_state) (s : procs) : option procs :=
  u ← user_current us;
  '(s, init) ← process_create (str "init") 0 (u_uid u) (u_gid u) us
                 (Procs (replicate PROCESS_MAX process_zero) 1 (current s));
  match init with
  | None => Some s
  | Some i =>
    s ← update_process i (fun p => set_state p PROCESS_READY) s;
    p ← processes s !! i;
    '(s, shell) ← process_create (str "tsh") (p_pid p) (u_uid u) (u_gid u) us s;
    match shell with
    | Some k => s ← update_process k (fun p => set_state p PROCESS_RUNNING) s;
                Some (Procs (processes s) (next_pid s) (Some k))
    | None => s ← update_process i (fun p => set_state p PROCESS_RUNNING) s;
              Some (Procs (processes s) (next_pid s) (Some i))
    end
  end.

Definition process_current (s : procs) : option nat := current s.

Definition process_find (pid : Z) (s : procs) : option nat :=
  find_process (fun p => negb (unused p) && (p_pid p =? pid)) (processes s).

Definition process_exit (proc : option nat) (code : Z) (s : procs) : option procs :=
  match proc with None => Some s | Some i => update_process i (fun p => set_exit p code) s end.

Definition process_kill (pid : Z) (s : procs) : option (procs * Z) :=
  match process_find pid s with
  | None => Some (s, -1)
  | Some i =>
    p ← processes s !! i;
    if p_pid p =? 1 then Some (s, -1)
    else
      match process_current s with
      | None => Some (s, -1)
      | Some k =>
        caller ← processes s !! k;
        if negb (p_uid caller =? 0) && negb (p_uid caller =? p_uid p) then Some (s, -1)
        else s ← process_exit (Some i) (-1) s; Some (s, 0)
      end
  end.

(** The processes the visitor sees, in order. *)
Definition process_each (s : procs) : list process := filter (fun p => unused p = false) (processes s).

Definition process_state_name (st : process_state) : list Z :=
  match st with
  | PROCESS_READY => str "ready"
  | PROCESS_RUNNING => str "running"
  | PROCESS_SLEEPING => str "sleep"
  | PROCESS_ZOMBIE => str "zombie"
  | PROCESS_UNUSED => str "unused"
  end.

(** ** File descriptors *)

(** The first free descriptor from 3 on. *)
Fixpoint find_free (i : nat) (fds : list file_descriptor) : option nat :=
  match fds with
  | [] => None
  | f :: fds => if (3 <=? i)%nat && negb (fd_used f) then Some i else find_free (S i) fds
  end.

(** What the flag bits [b] select. *)
Definition has (flags b : Z) : bool := negb (Z.land flags b =? 0).

(** The [dirty] bit of a descriptor is left as it was. *)
Definition process_open_fd (v : vfs) (p : process) (node : option nat) (flags : Z) : option (process * Z) :=
  match node with
  | None => Some (p, -1)
  | Some k =>
    match find_free 0 (p_fds p) with
    | None => Some (p, -1)
    | Some i =>
      n ← nodes v !! k; old ← p_fds p !! i;
      Some (set_fds p (<[i := Fd true (fd_dirty old) flags (if has flags VFS_O_APPEND then n_size n else 0) node]>
                       (p_fds p)), Z.of_nat i)
    end
  end.

Definition process_get_fd (p : process) (fd : Z) : option file_descriptor :=
  if (fd <? 0) || (Z.of_nat VFS_MAX_FDS <=? fd) then None
  else f ← p_fds p !! Z.to_nat fd; if fd_used f then Some f else None.

(** Writing through the pointer [process_get_fd] returned. *)
Definition put_fd (p : process) (fd : Z) (f : file_descriptor) : process :=
  set_fds p (<[Z.to_nat fd := f]> (p_fds p)).

Definition process_close_fd (p : process) (fd : Z) : process :=
  if (fd <? 0) || (Z.of_nat VFS_MAX_FDS <=? fd) || (fd <? 3) then p else put_fd p fd fd_zero.

Definition process_dup_fd (p : process) (oldfd : Z) : process * Z :=
  match process_get_fd p oldfd with
  | None => (p, -1)
  | Some old =>
    match find_free 0 (p_fds p) with
    | None => (p, -1)
    | Some i => (put_fd p (Z.of_nat i) old, Z.of_nat i)
    end
  end.

Definition process_dup2_fd (p : process) (oldfd newfd : Z) : process * Z :=
  match process_get_fd p oldfd with
  | None => (p, -1)
  | Some old =>
    if (newfd <? 0) || (Z.of_nat VFS_MAX_FDS <=? newfd) then (p, -1)
    else if oldfd =? newfd then (p, newfd)
    else (put_fd p newfd old, newfd)
  end.

(** ** Descriptors: lemmas *)

Lemma find_free_spec fds : forall i, match find_free i fds with
  | Some k => exists j f, k = (i + j)%nat /\ (3 <= k)%nat /\ fds !! j = Some f /\ fd_used f = false /\
                (forall j' f', (j' < j)%nat -> (3 <= i + j')%nat -> fds !! j' = Some f' -> fd_used f' = true)
  | None => forall j f, (3 <= i + j)%nat -> fds !! j = Some f -> fd_used f = true
  end.
Proof.
  induction fds as [|f fds IH]; intros i; cbn [find_free]; [done|].
  destruct ((3 <=? i)%nat && negb (fd_used f)) eqn:E.
  - apply andb_true_iff in E as [E1%Nat.leb_le E2%negb_true_iff]. exists 0%nat, f. split_and!; try done; lia.
  - assert (3 <= i -> fd_used f = true)%nat as Hf.
    { intros H. rewrite (proj2 (Nat.leb_le _ _)) in E by done. by apply negb_false_iff in E. }
    specialize (IH (S i)). destruct (find_free (S i) fds) as [k|].
    + destruct IH as (j & g & -> & Hk & Hj & Hu & Hl). exists (S j), g. split_and!; try done; [lia|].
      intros [|j'] f' Hlt H3 Hf'; [injection Hf' as <-; apply Hf; lia|]. apply (Hl j'); [lia|lia|done].
    + intros [|j] g H3 Hg; [injection Hg as <-; apply Hf; lia|]. apply (IH j); [lia|done].
Qed.

(** The lowest free descriptor, from 3 on. *)
Definition lowest_free (p : process) (i : Z) : Prop :=
  3 <= i < Z.of_nat VFS_MAX_FDS /\ process_get_fd p i = None /\
  forall j, 3 <= j < i -> is_Some (process_get_fd p j).

Definition full (p : process) : Prop := forall j, 3 <= j < Z.of_nat VFS_MAX_FDS -> is_Some (process_get_fd p j).

Lemma get_fd_lookup p j : 0 <= j < Z.of_nat VFS_MAX_FDS ->
  process_get_fd p j = f ← p_fds p !! Z.to_nat j; if fd_used f then Some f else None.
Proof.
  intros H. unfold process_get_fd. rewrite (proj2 (Z.ltb_ge _ _)), (proj2 (Z.leb_gt _ _)) by lia. done.
Qed.

Lemma find_free_lowest p : length (p_fds p) = VFS_MAX_FDS ->
  match find_free 0 (p_fds p) with
  | Some i => lowest_free p (Z.of_nat i)
  | None => full p
  end.
Proof.
  intros Hl. pose proof (find_free_spec (p_fds p) 0) as H.
  assert (forall j, (j < VFS_MAX_FDS)%nat -> is_Some (p_fds p !! j)) as Hd.
  { intros j Hj. apply lookup_lt_is_Some. lia. }
  destruct (find_free 0 (p_fds p)) as [k|].
  - destruct H as (j & f & -> & H3 & Hf & Hu & Hlow). apply lookup_lt_Some in Hf as Hj. rewrite Hl in Hj.
    cbn [Nat.add] in *. split; [lia|]. split.
    + rewrite get_fd_lookup by lia. by rewrite Nat2Z.id, Hf, bind_some, Hu.
    + intros i Hi. rewrite get_fd_lookup by lia. destruct (Hd (Z.to_nat i)) as [g Hg]; [lia|].
      rewrite Hg, bind_some, (Hlow (Z.to_nat i) g) by (done || lia). by eexists.
  - intros i Hi. rewrite get_fd_lookup by lia. destruct (Hd (Z.to_nat i)) as [g Hg]; [lia|].
    rewrite Hg, bind_some, (H (Z.to_nat i) g) by (done || lia). by eexists.
Qed.

Lemma get_put_fd p i f j : length (p_fds p) = VFS_MAX_FDS -> 0 <= i < Z.of_nat VFS_MAX_FDS ->
  process_get_fd (put_fd p i f) j =
  if i =? j then (if fd_used f then Some f else None) else process_get_fd p j.
Proof.
  intros Hl Hi. unfold process_get_fd, put_fd. cbn [p_fds set_fds].
  destruct ((j <? 0) || (Z.of_nat VFS_MAX_FDS <=? j)) eqn:E.
  { destruct (Z.eqb_spec i j) as [->|]; [|done]. apply orb_true_iff in E as [E%Z.ltb_lt|E%Z.leb_le]; lia. }
  apply orb_false_iff in E as [E1%Z.ltb_ge E2%Z.leb_gt]. destruct (Z.eqb_spec i j) as [->|Hne].
  - by rewrite list_lookup_insert_eq by lia.
  - by rewrite list_lookup_insert_ne by lia.
Qed.

(** Duplicating and closing descriptors: [dup] gives the lowest free
    descriptor from 3 on the open file of the old one - offset and flags as
    they are then - and changes no other; it fails only when the old one is not
    open or none is free. [dup2] does the same to the descriptor it is given,
    and closing one from 3 on makes it, and only it, free. *)
Theorem dup_close_exact p fd new : length (p_fds p) = VFS_MAX_FDS ->
  (match process_get_fd p fd with
   | None => process_dup_fd p fd = (p, -1) /\ process_dup2_fd p fd new = (p, -1)
   | Some f =>
     (full p /\ process_dup_fd p fd = (p, -1) \/
      exists p' i, process_dup_fd p fd = (p', i) /\ lowest_free p i /\
        forall j, process_get_fd p' j = if i =? j then Some f else process_get_fd p j) /\
     (0 <= new < Z.of_nat VFS_MAX_FDS -> exists p', process_dup2_fd p fd new = (p', new) /\
        forall j, process_get_fd p' j = if new =? j then Some f else process_get_fd p j)
   end) /\
  forall j, process_get_fd (process_close_fd p fd) j =
    if (3 <=? fd) && (fd =? j) then None else process_get_fd p j.
Proof.
  intros Hl. split.
  - unfold process_dup_fd, process_dup2_fd. destruct (process_get_fd p fd) as [f|] eqn:Ef; [|done].
    assert (fd_used f = true /\ 0 <= fd < Z.of_nat VFS_MAX_FDS) as [Hu Hb].
    { unfold process_get_fd in Ef. destruct ((fd <? 0) || _) eqn:E; [done|].
      apply orb_false_iff in E as [E1%Z.ltb_ge E2%Z.leb_gt]. destruct (p_fds p !! _) as [g|]; [|done].
      rewrite bind_some in Ef. destruct (fd_used g) eqn:Eu; [|done]. injection Ef as <-. split; [done|lia]. }
    split.
    + pose proof (find_free_lowest p Hl) as H. destruct (find_free 0 (p_fds p)) as [i|]; [right|by left].
      eexists _, _. split; [reflexivity|]. split; [done|]. intros j. destruct H as (Hi & _).
      rewrite get_put_fd by (done || lia). by rewrite Hu.
    + intros Hn. rewrite (proj2 (Z.ltb_ge new 0)), (proj2 (Z.leb_gt _ new)) by lia. cbn [orb].
      destruct (Z.eqb_spec fd new) as [->|Hne].
      * exists p. split; [done|]. intros j. destruct (Z.eqb_spec new j) as [<-|]; done.
      * eexists. split; [reflexivity|]. intros j. rewrite get_put_fd by done. by rewrite Hu.
  - intros j. unfold process_close_fd.
    destruct (Z.ltb_spec fd 0); [by rewrite (proj2 (Z.leb_gt 3 fd)) by lia|].
    destruct (Z.leb_spec (Z.of_nat VFS_MAX_FDS) fd).
    { cbn [orb]. destruct ((3 <=? fd) && (fd =? j)) eqn:E; [|done]. apply andb_true_iff in E as [_ <-%Z.eqb_eq].
      unfold process_get_fd. by rewrite (proj2 (Z.leb_le _ fd)), orb_true_r by lia. }
    destruct (Z.ltb_spec fd 3); [by rewrite (proj2 (Z.leb_gt 3 fd)) by lia|]. cbn [orb].
    rewrite get_put_fd by (done || lia). by rewrite (proj2 (Z.leb_le 3 fd)) by lia.
Qed.

(** A process with the terminal as its descriptor 3. *)
Definition one_file : process := put_fd process_zero 3 (Fd true false VFS_O_RDWR 7 (Some 5%nat)).

Lemma dup_close_exact_witness : length (p_fds one_file) = VFS_MAX_FDS /\
  (exists p', process_dup_fd one_file 3 = (p', 4) /\ process_get_fd p' 4 = process_get_fd one_file 3) /\
  process_get_fd (process_close_fd one_file 3) 3 = None.
Proof.
  split; [reflexivity|].
  assert (length (p_fds one_file) = VFS_MAX_FDS) as Hl by reflexivity.
  destruct (dup_close_exact one_file 3 9 Hl) as [H1 H2].
  assert (process_get_fd one_file 3 = Some (Fd true false VFS_O_RDWR 7 (Some 5%nat))) as E by reflexivity.
  rewrite E in H1. destruct H1 as [[[Hf _]|(p' & i & Hd & _ & Hj)] _].
  - exfalso. destruct (Hf 4) as [x Hx]; [split; [lia|reflexivity]|]. discriminate Hx.
  - split; [|rewrite H2; reflexivity].
    assert (snd (process_dup_fd one_file 3) = 4) as Ei by reflexivity. rewrite Hd in Ei. cbn [snd] in Ei. subst i.
    exists p'. split; [exact Hd|]. rewrite Hj, E. reflexivity.
Defined.

(** ** The process table *)

(** What the table looks like: sixty-four slots; the process ids in use are
    positive, below the next one, and no two processes share one. *)
Record procs_ok (s : procs) : Prop := {
  ok_length : length (processes s) = PROCESS_MAX;
  ok_next : 1 <= next_pid s;
  ok_pid : forall i p, processes s !! i = Some p -> unused p = false -> 1 <= p_pid p < next_pid s;
  ok_distinct : forall i j p q, processes s !! i = Some p -> processes s !! j = Some q ->
    unused p = false -> unused q = false -> p_pid p = p_pid q -> i = j }.

Lemma find_process_spec P ps : match find_process P ps with
  | Some i => exists p, ps !! i = Some p /\ P p = true /\
                forall j q, (j < i)%nat -> ps !! j = Some q -> P q = false
  | None => forall j q, ps !! j = Some q -> P q = false
  end.
Proof.
  induction ps as [|p ps IH]; cbn [find_process]; [done|]. destruct (P p) eqn:E; [exists p; split_and!; [done|done|lia]|].
  destruct (find_process P ps) as [i|].
  - rewrite bind_some. destruct IH as (q & Hq & HP & Hl). exists q. split_and!; [done|done|].
    intros [|j] x Hj Hx; [by injection Hx as <-|]. by apply (Hl j x); [lia|].
  - intros [|j] q Hq; [by injection Hq as <-|by apply (IH j)].
Qed.

(** Finding a process by its id finds the one that has it. *)
Lemma process_find_spec s pid i : procs_ok s ->
  process_find pid s = Some i <->
  exists p, processes s !! i = Some p /\ unused p = false /\ p_pid p = pid.
Proof.
  intros Hok. unfold process_find.
  pose proof (find_process_spec (fun p => negb (unused p) && (p_pid p =? pid)) (processes s)) as H.
  destruct (find_process _ (processes s)) as [k|].
  - destruct H as (p & Hp & [Hu%negb_true_iff Hpid%Z.eqb_eq]%andb_true_iff & _). split.
    + intros [= <-]. by exists p.
    + intros (q & Hq & Huq & <-). f_equal. by apply (ok_distinct s Hok k i p q).
  - split; [done|]. intros (p & Hp & Hu & <-). specialize (H i p Hp). by rewrite Hu, Z.eqb_refl in H.
Qed.

(** Changing a process without its id. *)
Lemma update_procs_ok s i p p' cur : procs_ok s -> processes s !! i = Some p -> unused p = false ->
  p_pid p' = p_pid p -> procs_ok (Procs (<[i := p']> (processes s)) (next_pid s) cur).
Proof.
  intros [H1 H2 H3 H4] Hi Hu Hp.
  assert (forall j q, <[i := p']> (processes s) !! j = Some q -> unused q = false ->
    exists q0, processes s !! j = Some q0 /\ unused q0 = false /\ p_pid q0 = p_pid q) as Hold.
  { intros j q [(<- & <- & _)|[_ Hq]]%list_lookup_insert_Some Hq2; [|by exists q]. by exists p. }
  split; cbn [processes next_pid]; [by rewrite length_insert|done| |].
  - intros j q Hq Huq. destruct (Hold j q Hq Huq) as (q0 & Hq0 & Hu0 & <-). by apply (H3 j q0).
  - intros j k q r Hq Hr Huq Hur E. destruct (Hold j q Hq Huq) as (q0 & Hq0 & Hu0 & E0).
    destruct (Hold k r Hr Hur) as (r0 & Hr0 & Hu1 & E1). apply (H4 j k q0 r0); congruence.
Qed.

(** The current process is in use. *)
Definition current_ok (s : procs) : Prop :=
  forall i, current s = Some i -> exists p, processes s !! i = Some p /\ unused p = false.

Lemma setup_stdio_same v p p' : setup_stdio v p = Some p' -> p_pid p' = p_pid p /\ p_state p' = p_state p /\
  p_uid p' = p_uid p /\ p_ppid p' = p_ppid p.
Proof. unfold setup_stdio. destruct (vfs_lookup _ _ _); [|done]. rewrite bind_some. by intros [= <-]. Qed.

(** A new process: a free slot and the next id. *)
Lemma process_create_spec name ppid uid gid us s s' child : procs_ok s ->
  process_create name ppid uid gid us s = Some (s', child) ->
  procs_ok s' /\ current s' = current s /\
  match child with
  | None => s' = s /\ forall j q, processes s !! j = Some q -> unused q = false
  | Some i => next_pid s' = next_pid s + 1 /\
      (exists old, processes s !! i = Some old /\ unused old = true) /\
      (exists p, processes s' !! i = Some p /\ unused p = false /\ p_pid p = next_pid s /\ p_ppid p = ppid /\
                 p_uid p = uid) /\
      forall j, j <> i -> processes s' !! j = processes s !! j
  end.
Proof.
  intros Hok. unfold process_create. pose proof (find_process_spec unused (processes s)) as Hf.
  destruct (find_process unused (processes s)) as [i|]; [|intros [= <- <-]; done].
  destruct Hf as (old & Hold & Huold & _). destruct (_ =? _); [done|]. cbv zeta.
  destruct (setup_stdio _ _) as [p|] eqn:Ep; [|done]. rewrite bind_some. intros [= <- <-].
  apply setup_stdio_same in Ep as (Epid & Est & Euid & Eppid). cbn [p_pid p_state p_uid p_ppid] in *.
  assert (unused p = false) as Hup by (unfold unused; by rewrite Est).
  pose proof (lookup_lt_Some _ _ _ Hold) as Hlt. destruct Hok as [H1 H2 H3 H4].
  split; [|split; [done|]; cbn [processes next_pid]; split_and!].
  - assert (forall j q, <[i := p]> (processes s) !! j = Some q -> unused q = false ->
      j = i /\ q = p \/ j <> i /\ processes s !! j = Some q) as Hcase.
    { intros j q [(<- & <- & _)|[Hne Hq]]%list_lookup_insert_Some _; [by left|by right]. }
    split; cbn [processes next_pid]; [by rewrite length_insert|lia| |].
    + intros j q Hq Huq. destruct (Hcase j q Hq Huq) as [[-> ->]|[_ Hj]]; [lia|]. specialize (H3 j q Hj Huq). lia.
    + intros j k q r Hq Hr Huq Hur E. destruct (Hcase j q Hq Huq) as [[-> ->]|[_ Hj]],
        (Hcase k r Hr Hur) as [[-> ->]|[_ Hk]]; [done|..].
      * specialize (H3 k r Hk Hur). lia.
      * specialize (H3 j q Hj Huq). lia.
      * by apply (H4 j k q r).
  - done.
  - by exists old.
  - exists p. by rewrite list_lookup_insert_eq.
  - intros j Hj. by rewrite list_lookup_insert_ne.
Qed.

(** Ending a process, or changing its state. *)
Lemma update_process_spec s i f s' : update_process i f s = Some s' ->
  exists p, processes s !! i = Some p /\ s' = Procs (<[i := f p]> (processes s)) (next_pid s) (current s).
Proof.
  unfold update_process. destruct (processes s !! i) as [p|]; [|done]. rewrite bind_some. intros [= <-]. by exists p.
Qed.

Lemma update_process_run i f s p : processes s !! i = Some p ->
  update_process i f s = Some (Procs (<[i := f p]> (processes s)) (next_pid s) (current s)).
Proof. unfold update_process. by intros ->. Qed.

Lemma update_current_ok s i p p' : current_ok s -> processes s !! i = Some p -> unused p' = false ->
  current_ok (Procs (<[i := p']> (processes s)) (next_pid s) (current s)).
Proof.
  intros Hc Hi Hu k Hk. cbn [current processes] in *. destruct (Hc k Hk) as (q & Hq & Huq).
  destruct (decide (i = k)) as [->|Hne].
  - exists p'. by rewrite list_lookup_insert_eq by (by apply lookup_lt_Some in Hi).
  - exists q. by rewrite list_lookup_insert_ne.
Qed.

Lemma process_create_current name ppid uid gid us s s' child : procs_ok s -> current_ok s ->
  process_create name ppid uid gid us s = Some (s', child) -> procs_ok s' /\ current_ok s'.
Proof.
  intros Hok Hc Hs. apply process_create_spec in Hs as (Hok' & Hcur & Hs); [|done]. split; [done|].
  destruct child as [i|]; [|by destruct Hs as [-> _]]. destruct Hs as (_ & (old & Hold & Huo) & _ & Hne).
  intros k Hk. rewrite Hcur in Hk. destruct (Hc k Hk) as (p & Hp & Hu). exists p.
  rewrite Hne; [done|]. intros ->. congruence.
Qed.

(** What [process_kill] does. *)
Lemma process_kill_spec pid s c caller : procs_ok s -> current s = Some c -> processes s !! c = Some caller ->
  (exists i p, processes s !! i = Some p /\ unused p = false /\ p_pid p = pid /\ pid <> 1 /\
     (p_uid caller = 0 \/ p_uid caller = p_uid p) /\
     process_kill pid s =
       Some (Procs (<[i := set_exit p (-1)]> (processes s)) (next_pid s) (current s), 0)) \/
  (process_kill pid s = Some (s, -1) /\
   forall i p, processes s !! i = Some p -> unused p = false -> p_pid p = pid ->
     pid = 1 \/ p_uid caller <> 0 /\ p_uid caller <> p_uid p).
Proof.
  intros Hok Hc Hcaller. unfold process_kill. destruct (process_find pid s) as [i|] eqn:Ef.
  - apply process_find_spec in Ef as (p & Hp & Hu & Hpid); [|done]. rewrite Hp, bind_some.
    assert (forall j q, processes s !! j = Some q -> unused q = false -> p_pid q = pid -> q = p) as Huniq.
    { intros j q Hq Huq Eq. pose proof (ok_distinct s Hok i j p q Hp Hq Hu Huq ltac:(congruence)). congruence. }
    destruct (Z.eqb_spec (p_pid p) 1) as [E1|E1]; [right; split; [done|]; intros; left; congruence|].
    unfold process_current. rewrite Hc, Hcaller, bind_some.
    destruct (Z.eqb_spec (p_uid caller) 0) as [E0|E0]; [|destruct (Z.eqb_spec (p_uid caller) (p_uid p)) as [E2|E2]];
      cbn [negb andb].
    3:{ right. split; [done|]. intros j q Hq Huq Eq. right. by rewrite (Huniq j q). }
    all: left; exists i, p; split_and!; [done|done|done|congruence|tauto|].
    all: unfold process_exit, update_process; by rewrite Hp, !bind_some, Hc.
  - right. split; [done|]. intros i p Hp Hu Hpid.
    assert (process_find pid s = Some i) as H by (apply process_find_spec; [done|by exists p]). congruence.
Qed.

(** The tables the kernel goes through: after [process_init], by creating,
    killing and ending processes, and by what a system call does to a process. *)
Inductive procs_reach (us : users_state) : procs -> Prop :=
| reach_boot s0 s : process_init us s0 = Some s -> procs_reach us s
| reach_create name ppid uid gid s s' child : procs_reach us s ->
    process_create name ppid uid gid us s = Some (s', child) -> procs_reach us s'
| reach_kill pid s s' rc : procs_reach us s -> process_kill pid s = Some (s', rc) -> procs_reach us s'
| reach_exit code s s' : procs_reach us s -> process_exit (process_current s) code s = Some s' -> procs_reach us s'
| reach_call i p p' s : procs_reach us s -> processes s !! i = Some p -> unused p = false ->
    p_pid p' = p_pid p -> unused p' = false ->
    procs_reach us (Procs (<[i := p']> (processes s)) (next_pid s) (current s)).

Lemma process_init_ok us s0 s : process_init us s0 = Some s -> procs_ok s /\ current_ok s.
Proof.
  unfold process_init. destruct (user_current us) as [u|]; [|done]. rewrite bind_some.
  set (t := Procs _ 1 (current s0)). assert (procs_ok t) as Ht.
  { split; cbn [t processes next_pid]; [apply length_replicate|lia| |].
    - intros i p [-> _]%lookup_replicate Hu. done.
    - intros i j p q [-> _]%lookup_replicate _ Hu. done. }
  destruct (process_create _ 0 _ _ us t) as [[s1 init]|] eqn:E1; [|done]. rewrite bind_some.
  apply process_create_spec in E1 as (Hok1 & _ & H1); [|done]. destruct init as [i|].
  2:{ destruct H1 as [_ H1]. specialize (H1 0%nat process_zero eq_refl). done. }
  destruct H1 as (_ & _ & (p & Hp & Hu & _) & _).
  rewrite (update_process_run i _ s1 p), bind_some by done.
  set (s2 := Procs (<[i := set_state p PROCESS_READY]> (processes s1)) _ _).
  assert (procs_ok s2) as Hok2 by (by apply (update_procs_ok s1 i p)).
  assert (processes s2 !! i = Some (set_state p PROCESS_READY)) as Hp2
    by (cbn [s2 processes]; apply list_lookup_insert_eq; by apply lookup_lt_Some in Hp).
  rewrite Hp2, bind_some. destruct (process_create _ _ _ _ us s2) as [[s3 shell]|] eqn:E3; [|done]. rewrite bind_some.
  apply process_create_spec in E3 as (Hok3 & _ & H3); [|done].
  destruct shell as [k|].
  - destruct H3 as (_ & _ & (q & Hq & Huq & _) & _). rewrite (update_process_run k _ s3 q), bind_some by done. intros [= <-].
    split; [by apply (update_procs_ok s3 k q)|]. intros x [= <-]. eexists. cbn [processes].
    rewrite list_lookup_insert_eq by (by apply lookup_lt_Some in Hq). done.
  - destruct H3 as [-> _]. rewrite (update_process_run i _ s2 _ Hp2), bind_some. intros [= <-].
    split; [by apply (update_procs_ok s2 i (set_state p PROCESS_READY))|]. intros x [= <-]. eexists. cbn [processes].
    rewrite list_lookup_insert_eq by (by apply lookup_lt_Some in Hp2). done.
Qed.

Lemma procs_reach_ok us s : procs_reach us s -> procs_ok s /\ current_ok s.
Proof.
  induction 1 as [s0 s H|name ppid uid gid s s' child _ [Hok Hc] H|pid s s' rc _ [Hok Hc] H|code s s' _ [Hok Hc] H|
                  i p p' s _ [Hok Hc] Hi Hu Hpid Hu'].
  - by eapply process_init_ok.
  - by eapply process_create_current.
  - destruct (current s) as [c|] eqn:Ec.
    + destruct (Hc c Ec) as (caller & Hcl & _).
      destruct (process_kill_spec pid s c caller Hok Ec Hcl) as [(i & p & Hp & Hu & _ & _ & _ & E)|[E _]];
        rewrite E in H; injection H as <- _; [|done].
      split; [by apply (update_procs_ok s i p)|by apply (update_current_ok s i p)].
    + unfold process_kill, process_current in H. rewrite Ec in H. destruct (process_find pid s) as [i|]; [|by simplify_eq].
      destruct (processes s !! i); [|done]. rewrite bind_some in H. destruct (_ =? 1); by simplify_eq.
  - unfold process_exit, process_current in H. destruct (current s) as [c|] eqn:Ec; [|by simplify_eq].
    apply update_process_spec in H as (p & Hp & ->). destruct (Hc c Ec) as (q & Hq & Hu). assert (q = p) as -> by congruence.
    split; [by apply (update_procs_ok s c p)|by apply (update_current_ok s c p)].
  - split; [by apply (update_procs_ok s i p)|by apply (update_current_ok s i p)].
Qed.

(** C6 In every process table the kernel goes through, no two processes share a
    process id, a process found by its id is the one that has it, and
    [process_kill] ends exactly that process: it never ends process 1, ends
    another user's process only for root, and otherwise returns -1 and changes
    nothing. *)
Theorem process_table_sound us s pid c caller : procs_reach us s -> current s = Some c ->
  processes s !! c = Some caller ->
  (forall i j p q, processes s !! i = Some p -> processes s !! j = Some q -> unused p = false -> unused q = false ->
     p_pid p = p_pid q -> i = j) /\
  (forall i, process_find pid s = Some i <->
     exists p, processes s !! i = Some p /\ unused p = false /\ p_pid p = pid) /\
  ((exists i p, process_find pid s = Some i /\ processes s !! i = Some p /\ pid <> 1 /\
      (p_uid caller = 0 \/ p_uid caller = p_uid p) /\
      process_kill pid s =
        Some (Procs (<[i := set_exit p (-1)]> (processes s)) (next_pid s) (current s), 0)) \/
   (process_kill pid s = Some (s, -1) /\
    forall i p, process_find pid s = Some i -> processes s !! i = Some p ->
      pid = 1 \/ p_uid caller <> 0 /\ p_uid caller <> p_uid p)).
Proof.
  intros [Hok Hc]%procs_reach_ok Hcur Hcl. split_and!.
  - apply (ok_distinct s Hok).
  - intros i. by apply process_find_spec.
  - destruct (process_kill_spec pid s c caller Hok Hcur Hcl) as [(i & p & Hp & Hu & Hpid & H1 & H2 & E)|[E H]].
    + left. exists i, p. split_and!; try done. apply process_find_spec; [done|]. by exists p.
    + right. split; [done|]. intros i p (q & Hq & Hu & Hpid)%process_find_spec Hp; [|done].
      assert (q = p) as -> by congruence. by apply (H i p).
Qed.

(** Root's table on an empty tree. *)
Definition root_users : users_state :=
  Users [User (str "root") 0 0 (str "/root") (str "/bin/tsh") 0 0 false] 0 (default (Vfs [] None 0 0) (vfs_init 0)).
Definition boot_table : procs := default (Procs [] 0 None) (process_init root_users (Procs [] 0 None)).

Lemma process_table_sound_witness : procs_reach root_users boot_table /\ current boot_table = Some 1%nat /\
  exists caller, processes boot_table !! 1%nat = Some caller /\
    process_kill 1 boot_table = Some (boot_table, -1).
Proof.
  assert (procs_reach root_users boot_table) as Hr.
  { apply (reach_boot _ (Procs [] 0 None)). unfold boot_table.
    destruct (process_init root_users (Procs [] 0 None)) as [s|] eqn:E; [reflexivity|].
    assert (is_Some (process_init root_users (Procs [] 0 None))) as H
      by (apply (bool_decide_eq_true_1 (is_Some _)); vm_compute; reflexivity).
    rewrite E in H. destruct H as [x H]. discriminate H. }
  split; [exact Hr|]. assert (current boot_table = Some 1%nat) as Hc by (vm_compute; reflexivity). split; [exact Hc|].
  assert (is_Some (processes boot_table !! 1%nat)) as [caller Hcl]
    by (apply (bool_decide_eq_true_1 (is_Some _)); vm_compute; reflexivity).
  exists caller. split; [exact Hcl|].
  destruct (process_table_sound root_users boot_table 1 1%nat caller Hr Hc Hcl) as (_ & _ & [(i & p & _ & _ & H & _)|[H _]]).
  - destruct H. reflexivity.
  - exact H.
Defined.
