(* ===== verification/Syscall.v ===== *)
(** * kernel/core/syscall.c

    The system calls: the checks on user pointers and on permissions, the calls
    on files and descriptors, the terminal, waiting for descriptors, accounts,
    and the dispatcher. User memory is the flat memory [k_mem]; a pointer is an
    address and a string argument is read from it up to its NUL (a string of
    more than [str_fuel] characters, or one that never ends, is [None]).
    [sys_exec_image] and the calls into the radio, the resolver and the power
    switch are not modelled. What the calls use of the hardware drivers is the class
    [Machine]; loops that wait for it take fuel. *)
From S2P Require Import Prelude Buf KString Printf Keys Vfs User Process.

Record block_device_info := BlockInfo {
  bd_name : cstr; bd_description : cstr; bd_writable : bool; bd_sector_count : Z; bd_sector_size : Z;
  bd_removable : bool; bd_transport : cstr }.

(** What the system calls ask of the keyboard, the console, the timer, the page
    tables and the image on disk, over the states [E] of the machine. *)
Class Machine (E : Type) := {
  console_getchar : E -> E * Z;
  keyboard_try_getchar : E -> E * Z;
  keyboard_try_get_event : E -> E * Z;
  keyboard_input_available : E -> E * bool;
  keyboard_event_available : E -> E * bool;
  keyboard_is_ctrl_down : E -> bool;
  keyboard_consume_interrupt : E -> E * bool;
  keyboard_ack_interrupt : E -> E;
  keyboard_reset_console_state : E -> E;
  keyboard_poll : E -> E;
  console_switch_tty : Z -> E -> E;
  console_write_n : list Z -> E -> E;
  (* rows, columns, and the size in pixels *)
  console_size : E -> Z * Z * Z * Z;
  (* width, height, pitch and depth, when the console is graphical *)
  framebuffer_info : E -> option (Z * Z * Z * Z);
  framebuffer_address : E -> Z;
  framebuffer_blit : Z -> Z -> list Z -> E -> E;
  pit_get_ticks : E -> E * Z;
  (* [sti; hlt] *)
  wait_interrupt : E -> E;
  vmm_map_range_identity : Z -> Z -> E -> E * Z;
  tfs_is_persistent : E -> bool;
  tfs_sync : E -> E * Z;
  block_device_count : E -> Z;
  block_device_get : Z -> E -> option block_device_info;
  (* the return value, and the bytes that were read *)
  block_read : list Z -> Z -> Z -> E -> E * Z * list Z;
  block_write_lba28 : list Z -> Z -> list Z -> E -> E * Z;
  block_sync : list Z -> E -> E * Z }.

(** ** Keys and flags *)

Definition TNU_TTYF_ISIG : Z := 1.
Definition TNU_TTYF_ICANON : Z := 2.
Definition TNU_TTYF_ECHO : Z := 8.
Definition PIT_HZ : Z := 100.
Definition SIGINT_NUMBER : nat := 2.
Definition SIGNAL_DISPOSITION_DEFAULT : Z := 0.
Definition SIGNAL_DISPOSITION_IGNORED : Z := 1.
Definition SIGNAL_DISPOSITION_HANDLED : Z := 2.

(** ** Return values: the disposition in the top two bits *)

Definition SYSCALL_RET_TO_USERSPACE : Z := 0.
Definition SYSCALL_RET_TO_KERNEL : Z := 1.

Definition syscall_encode_result (scalar disp : Z) : Z :=
  Z.lor (u64 (Z.shiftl disp 62)) (Z.land (u64 scalar) (u64 (Z.shiftl 1 62 - 1))).
Definition syscall_decode_disposition (encoded : Z) : Z := Z.shiftr encoded 62.
Definition syscall_decode_scalar (encoded : Z) : Z := Z.shiftr (i64 (u64 (Z.shiftl encoded 2))) 2.

(** ** User pointers *)

Definition USER_TOP : Z := 0x800000000000.

Definition uptr_ok (ptr len : Z) : bool :=
  if ptr =? 0 then false
  else if ptr <? 0x1000 then false
  else if USER_TOP <=? ptr then false
  else if negb (len =? 0) && (u64 (ptr + len) <? ptr) then false
  else true.

Definition ustr_ok (s : Z) : bool := negb (s =? 0) && (0x1000 <=? s) && (s <? USER_TOP).

(** The loop of [copy_user_string_bounded] over the characters but the last:
    the string, or what filled the buffer without a NUL. *)
Fixpoint copy_string_loop (room : nat) (m : mem) (src : Z) : list Z + list Z :=
  match room with
  | O => inr []
  | S k =>
    let c := m src in
    if c =? 0 then inl []
    else match copy_string_loop k m (src + 1) with inl s => inl (c :: s) | inr s => inr (c :: s) end
  end.

(** The string copied; [None] for a return value of -1. *)
Definition copy_user_string_bounded (m : mem) (src : Z) (dst_size : nat) : option (list Z) :=
  if (src =? 0) || (dst_size =? 0)%nat || negb (ustr_ok src) then None
  else match copy_string_loop (pred dst_size) m src with inl s => Some s | inr _ => None end.

(** A string the kernel reads in place. *)
Fixpoint ustring (fuel : nat) (m : mem) (a : Z) : option (list Z) :=
  match fuel with
  | O => None
  | S f => if m a =? 0 then Some [] else s ← ustring f m (a + 1); Some (m a :: s)
  end.

(** ** Permissions *)

Definition has_perm (proc : option process) (node : option vnode) (perm : Z) : bool :=
  match proc, node with
  | Some p, Some n =>
    if p_uid p =? 0 then true
    else
      let shift := if p_uid p =? n_uid n then 6 else if p_gid p =? n_gid n then 3 else 0 in
      Z.land (Z.shiftr (n_mode n) shift) perm =? perm
  | _, _ => false
  end.

Definition is_root (proc : option process) : bool :=
  match proc with Some p => p_uid p =? 0 | None => false end.

Definition path_is_or_under (path prefix : list Z) : bool :=
  let len := length prefix in
  if bytes_eq path prefix then true
  else (1 <? len)%nat && bytes_eq (take len path) prefix && (nth len path 0 =? SLASH).

Definition protected_prefixes : list (list Z) :=
  [str "/"; str "/bin"; str "/boot"; str "/dev"; str "/etc"; str "/lib"; str "/proc"; str "/root"; str "/sbin";
   str "/usr"; str "/var/cache"; str "/var/db"; str "/var/log"; str "/var/run"].

Definition path_requires_root_for_mutation (normal : list Z) : bool :=
  existsb (path_is_or_under normal) protected_prefixes.

Definition path_is_public_device (normal : list Z) : bool :=
  bytes_eq normal (str "/dev/null") || bytes_eq normal (str "/dev/zero") ||
  bytes_eq normal (str "/dev/tty") || bytes_eq normal (str "/dev/console").

(** The normalized path; [Some None] for a return value of -1. *)
Definition normalize_for_process (proc : option process) (path : cstr) : option (option (list Z)) :=
  match proc, path with
  | Some p, Some _ => vfs_normalize path (Some (p_cwd p)) VFS_PATH_MAX
  | _, _ => Some None
  end.

Definition lookup_parent_from_normal (normal : list Z) (v : vfs) : option (option nat) :=
  if bytes_eq normal [SLASH] then Some None
  else
    match strrchr_split (take 255 normal) with
    | None => Some None
    | Some (dir, _) => vfs_lookup (Some (match dir with [] => [SLASH] | _ => dir end)) (Some [SLASH]) v
    end.

(** The node a pointer leads to; [None] inside for NULL. *)
Definition deref (v : vfs) (node : option nat) : option (option vnode) :=
  match node with None => Some None | Some i => n ← nodes v !! i; Some (Some n) end.

Definition can_create_in_parent (proc : option process) (normal : list Z) (v : vfs) : option bool :=
  parent ← lookup_parent_from_normal normal v;
  n ← deref v parent;
  Some (match n with
        | None => false
        | Some d => (n_type d =? VFS_NODE_DIR) && has_perm proc n 2 && has_perm proc n 1
        end).

Definition sys_ntohs (v : Z) : Z := u16 (Z.lor (Z.shiftl v 8) (Z.shiftr v 8)).
Definition sys_ntohl (v : Z) : Z :=
  Z.lor (Z.lor (Z.lor (u32 (Z.shiftl (Z.land v 0x000000ff) 24)) (u32 (Z.shiftl (Z.land v 0x0000ff00) 8)))
               (Z.shiftr (Z.land v 0x00ff0000) 8)) (Z.shiftr (Z.land v 0xff000000) 24).

(** ** The state of the kernel *)

(** The sequence of a special key waiting to be read, and the mode. *)
Record tty := Tty { tty_seq : list Z; tty_pos : nat; tty_lflag : Z; tty_vmin : Z; tty_vtime : Z }.

Record kernel (E : Type) := Kernel {
  k_users : users_state; k_procs : procs; k_tty : tty; k_mem : mem; k_user_exec : bool; k_env : E }.
Arguments Kernel {E}.
Arguments k_users {E}.
Arguments k_procs {E}.
Arguments k_tty {E}.
Arguments k_mem {E}.
Arguments k_user_exec {E}.
Arguments k_env {E}.

Definition tty_init : tty := Tty [] 0 (Z.lor (Z.lor TNU_TTYF_ICANON TNU_TTYF_ECHO) TNU_TTYF_ISIG) 1 0.
Definition with_seq (t : tty) (seq : list Z) (pos : nat) : tty :=
  Tty seq pos (tty_lflag t) (tty_vmin t) (tty_vtime t).

Section State.
Context {E : Type}.

Definition set_procs (k : kernel E) (s : procs) : kernel E :=
  Kernel (k_users k) s (k_tty k) (k_mem k) (k_user_exec k) (k_env k).
Definition set_users (k : kernel E) (s : users_state) : kernel E :=
  Kernel s (k_procs k) (k_tty k) (k_mem k) (k_user_exec k) (k_env k).
Definition set_fs (k : kernel E) (v : vfs) : kernel E := set_users k (with_fs (k_users k) v).
Definition set_tty (k : kernel E) (t : tty) : kernel E :=
  Kernel (k_users k) (k_procs k) t (k_mem k) (k_user_exec k) (k_env k).
Definition set_mem (k : kernel E) (m : mem) : kernel E :=
  Kernel (k_users k) (k_procs k) (k_tty k) m (k_user_exec k) (k_env k).
Definition set_env (k : kernel E) (e : E) : kernel E :=
  Kernel (k_users k) (k_procs k) (k_tty k) (k_mem k) (k_user_exec k) e.

Definition fs (k : kernel E) : vfs := u_fs (k_users k).

(** The process behind [process_current()]; [None] inside for NULL. *)
Definition proc_of (k : kernel E) : option (option process) :=
  match current (k_procs k) with None => Some None | Some i => p ← processes (k_procs k) !! i; Some (Some p) end.

(** Writing through that pointer. *)
Definition set_proc (k : kernel E) (p : process) : kernel E :=
  match current (k_procs k) with
  | None => k
  | Some i => set_procs k (Procs (<[i := p]> (processes (k_procs k))) (next_pid (k_procs k)) (current (k_procs k)))
  end.

End State.

(** ** The terminal *)

Section Calls.
Context {E : Type} {M : Machine E} (kmalloc_ok : Z -> bool) (str_fuel : nat).

(** Asking the machine. *)
Definition ask {A} (f : E -> E * A) (k : kernel E) : (kernel E) * A := let '(e, a) := f (k_env k) in (set_env k e, a).
Definition tell (f : E -> E) (k : kernel E) : (kernel E) := set_env k (f (k_env k)).

Definition tty_pending_pop (t : tty) : tty * option Z :=
  if (length (tty_seq t) <=? tty_pos t)%nat then (with_seq t [] 0, None)
  else
    let c := nth (tty_pos t) (tty_seq t) 0 in
    if (length (tty_seq t) <=? S (tty_pos t))%nat then (with_seq t [] 0, Some c)
    else (with_seq t (tty_seq t) (S (tty_pos t)), Some c).

Definition tty_pending_set (seq : list Z) (t : tty) : tty := with_seq t (take 64 seq) 0.

Definition tty_is_modifier_only_key (c : Z) : bool :=
  (c =? KEY_CTRL) || (c =? KEY_ALT) || (c =? KEY_SHIFT_LEFT) || (c =? KEY_SHIFT_RIGHT).

Definition ESC : Z := 27.

(** The sequence of a cursor key. *)
Definition key_sequence (c : Z) : option (list Z) :=
  if c =? KEY_UP then Some (ESC :: str "[A")
  else if c =? KEY_DOWN then Some (ESC :: str "[B")
  else if c =? KEY_RIGHT then Some (ESC :: str "[C")
  else if c =? KEY_LEFT then Some (ESC :: str "[D")
  else if c =? KEY_HOME then Some (ESC :: str "[H")
  else if c =? KEY_END then Some (ESC :: str "[F")
  else if c =? KEY_DELETE then Some (ESC :: str "[3~")
  else None.

Definition is_letter (c : Z) : bool := ((97 <=? c) && (c <=? 122)) || ((65 <=? c) && (c <=? 90)).

Definition sigint_disposition (p : process) : Z := nth SIGINT_NUMBER (p_disp p) 0.

Definition canonical (t : tty) : bool := has (tty_lflag t) TNU_TTYF_ICANON.

Definition tty_encode_key (c : Z) (proc : option process) (k : kernel E) : (kernel E) * Z :=
  if (c =? KEY_CTRL_C) &&
     (match proc with Some p => negb (sigint_disposition p =? SIGNAL_DISPOSITION_DEFAULT) | None => false end)
  then (k, 3)
  else if c =? 10 then (k, if canonical (k_tty k) then 10 else 13)
  else
    match key_sequence c with
    | Some seq =>
      let '(t, first) := tty_pending_pop (tty_pending_set seq (k_tty k)) in (set_tty k t, default 0 first)
    | None =>
      if (match proc with Some _ => true | None => false end) && negb (canonical (k_tty k)) &&
         keyboard_is_ctrl_down (k_env k) && is_letter c
      then (k, Z.land c 0x1f) else (k, c)
    end.

Fixpoint tty_read_byte (fuel : nat) (k : kernel E) : option ((kernel E) * Z) :=
  match fuel with
  | O => None
  | S f =>
    match tty_pending_pop (k_tty k) with
    | (t, Some c) => Some (set_tty k t, c)
    | (t, None) =>
      proc ← proc_of k;
      let '(k, c) := ask console_getchar (set_tty k t) in
      if c =? KEY_CTRL_C then
        let k := tell keyboard_ack_interrupt k in
        match proc with
        | Some p =>
          if sigint_disposition p =? SIGNAL_DISPOSITION_DEFAULT
          then Some (set_proc k (set_exit p 130), -130) else Some (k, 3)
        | None => Some (k, 3)
        end
      else if (KEY_TTY1 <=? c) && (c <=? KEY_TTY1 + 5) then
        tty_read_byte f (tell (console_switch_tty (c - KEY_TTY1)) k)
      else if tty_is_modifier_only_key c then tty_read_byte f k
      else Some (tty_encode_key c proc k)
    end
  end.

Fixpoint tty_try_read_byte (fuel : nat) (k : kernel E) : option ((kernel E) * Z) :=
  match fuel with
  | O => None
  | S f =>
    match tty_pending_pop (k_tty k) with
    | (t, Some c) => Some (set_tty k t, c)
    | (t, None) =>
      proc ← proc_of k;
      let '(k, c) := ask keyboard_try_getchar (set_tty k t) in
      if c <? 0 then Some (k, -1)
      else if (KEY_TTY1 <=? c) && (c <=? KEY_TTY6) then
        tty_try_read_byte f (tell (console_switch_tty (c - KEY_TTY1)) k)
      else if tty_is_modifier_only_key c then tty_try_read_byte f k
      else Some (tty_encode_key c proc k)
    end
  end.

(** [cbuf[i] = (char)ch] *)
Definition put_char (buf i c : Z) (k : kernel E) : (kernel E) := set_mem k (mset (k_mem k) (u64 (buf + i)) (u8 c)).

Definition interrupted : Z := i64 (syscall_encode_result 130 SYSCALL_RET_TO_KERNEL).

(** A line: up to [count] characters or the newline. *)
Fixpoint read_line (fuel : nat) (count : nat) (buf i : Z) (k : kernel E) : option ((kernel E) * Z) :=
  match count with
  | O => Some (k, i)
  | S n =>
    '(k, c) ← tty_read_byte fuel k;
    if c <? 0 then Some (k, interrupted)
    else
      let k := put_char buf i c k in
      if u8 c =? 10 then Some (k, i + 1) else read_line fuel n buf (i + 1) k
  end.

(** What is there already, up to [count] characters in all. *)
Fixpoint drain (fuel : nat) (room : nat) (buf n : Z) (k : kernel E) : option ((kernel E) * Z) :=
  match room with
  | O => Some (k, n)
  | S r =>
    '(k, c) ← tty_try_read_byte fuel k;
    if c <? 0 then Some (k, n) else drain fuel r buf (n + 1) (put_char buf n c k)
  end.

(** [need] characters, waiting for each; [inl] when interrupted after some. *)
Fixpoint read_min (fuel : nat) (need : nat) (buf n : Z) (k : kernel E) : option ((kernel E) * (Z + Z)) :=
  match need with
  | O => Some (k, inr n)
  | S r =>
    '(k, c) ← tty_read_byte fuel k;
    if c <? 0 then Some (k, inl n) else read_min fuel r buf (n + 1) (put_char buf n c k)
  end.

Definition deadline_after (now vtime : Z) : Z := u64 (now + vtime * (PIT_HZ / 10)).

(** The timed read: until a character has not come for [vtime] tenths of a second. *)
Fixpoint read_timed (fuel : nat) (count buf vmin vtime n deadline : Z) (k : kernel E) : option ((kernel E) * Z) :=
  match fuel with
  | O => None
  | S f =>
    if count <=? n then Some (k, n)
    else
      '(k, c) ← tty_try_read_byte f k;
      if 0 <=? c then
        let k := put_char buf n c k in
        if (0 <? vmin) && (vmin <=? n + 1) then Some (k, n + 1)
        else let '(k, now) := ask pit_get_ticks k in
             read_timed f count buf vmin vtime (n + 1) (deadline_after now vtime) k
      else
        let '(k, now) := ask pit_get_ticks k in
        if deadline <=? now then Some (k, n) else read_timed f count buf vmin vtime n deadline k
  end.

(** Reading descriptor 0 ([stdin]) or a terminal device. *)
Definition read_tty (fuel : nat) (stdin : bool) (buf count : Z) (k : kernel E) : option ((kernel E) * Z) :=
  let t := k_tty k in
  if canonical t then read_line fuel (Z.to_nat count) buf 0 k
  else if (tty_vmin t =? 0) && (tty_vtime t =? 0) then
    drain fuel (Z.to_nat count) buf 0 (if stdin then tell keyboard_poll k else k)
  else if (0 <? tty_vmin t) && (tty_vtime t =? 0) then
    let need := Z.min (tty_vmin t) count in
    '(k, r) ← read_min fuel (Z.to_nat need) buf 0 k;
    match r with
    | inl n => Some (k, if stdin && (0 <? n) then n else interrupted)
    | inr n => drain fuel (Z.to_nat (count - n)) buf n k
    end
  else
    let '(k, now) := ask pit_get_ticks k in
    read_timed fuel count buf (tty_vmin t) (tty_vtime t) 0 (deadline_after now (tty_vtime t)) k.

(** The events of the keyboard device, two bytes each. *)
Fixpoint read_events (room : nat) (buf n : Z) (k : kernel E) : (kernel E) * Z :=
  match room with
  | O => (k, n)
  | S r =>
    let '(k, ev) := ask keyboard_try_get_event k in
    if ev <? 0 then (k, n)
    else read_events r buf (n + 1) (set_mem k (mput 2 (k_mem k) (u64 (buf + 2 * n)) (u16 ev)))
  end.

(** ** Files *)

Definition open_wants_write (flags : Z) : bool :=
  has flags VFS_O_WRONLY || has flags VFS_O_RDWR || has flags VFS_O_TRUNC || has flags VFS_O_APPEND.
Definition open_wants_read (flags : Z) : bool := negb (open_wants_write flags) || has flags VFS_O_RDWR.

(** Creating the file when it does not exist: the node, NULL when there is none,
    or a return value of -1. *)
Definition open_create (p : process) (normal : list Z) (flags mode : Z) (node : option nat) (v : vfs)
    : option (vfs * option (option nat)) :=
  match node with
  | Some _ => Some (v, Some node)
  | None =>
    if has flags VFS_O_CREAT then
      if negb (is_root (Some p)) && path_requires_root_for_mutation normal then Some (v, None)
      else
        can ← can_create_in_parent (Some p) normal v;
        if negb can then Some (v, None)
        else
          '(v, rc) ← vfs_create_file (Some normal) (Some [SLASH]) (Z.lor VFS_S_IFREG (Z.land mode 0x1ff))
                       (p_uid p) (p_gid p) v;
          if rc <? 0 then Some (v, None)
          else node ← vfs_lookup (Some normal) (Some [SLASH]) v; Some (v, Some node)
    else Some (v, Some None)
  end.

(** Whether the process may open the node. *)
Definition open_allowed (p : process) (normal : list Z) (flags : Z) (n : vnode) : bool :=
  let root := is_root (Some p) in
  let w := open_wants_write flags in
  negb ((n_type n =? VFS_NODE_DEV) && negb root && negb (path_is_public_device normal)) &&
  negb (w && negb root && path_requires_root_for_mutation normal) &&
  negb ((open_wants_read flags && negb (has_perm (Some p) (Some n) 4)) ||
        (w && negb (has_perm (Some p) (Some n) 2))) &&
  negb (w && (n_type n =? VFS_NODE_DIR)).

Definition open_node (p : process) (k : nat) (n : vnode) (flags : Z) (v : vfs) : option (process * vfs * Z) :=
  if has flags VFS_O_TRUNC && open_wants_write flags && (n_type n =? VFS_NODE_FILE) then
    v ← update v k (fun n => set_modified (set_data n None false 0) (u64 (n_modified n + 1)));
    '(p, fd) ← process_open_fd v p (Some k) flags;
    if 0 <=? fd then
      match process_get_fd p fd with
      | Some f => Some (put_fd p fd (Fd (fd_used f) true (fd_flags f) (fd_offset f) (fd_node f)), v, fd)
      | None => Some (p, v, fd)
      end
    else Some (p, v, fd)
  else '(p, fd) ← process_open_fd v p (Some k) flags; Some (p, v, fd).

(** [sys_open] by the process [p] of the path [path]. *)
Definition open_path (p : process) (path : list Z) (flags mode : Z) (v : vfs) : option (process * vfs * Z) :=
  normal ← normalize_for_process (Some p) (Some path);
  match normal with
  | None => Some (p, v, -1)
  | Some normal =>
    node ← vfs_lookup (Some normal) (Some [SLASH]) v;
    if (match node with Some _ => true | None => false end) && has flags VFS_O_CREAT && has flags VFS_O_EXCL
    then Some (p, v, -1)
    else
      '(v, r) ← open_create p normal flags mode node v;
      match r with
      | Some (Some k) =>
        n ← nodes v !! k;
        if open_allowed p normal flags n then open_node p k n flags v else Some (p, v, -1)
      | _ => Some (p, v, -1)
      end
  end.

(** A system call of the current process on a path in user memory. *)
Definition with_path (a : Z) (k : kernel E) (f : process -> list Z -> vfs -> option (process * vfs * Z)) : option ((kernel E) * Z) :=
  proc ← proc_of k;
  match proc with
  | None => Some (k, -1)
  | Some p =>
    path ← ustring str_fuel (k_mem k) a;
    '(p, v, rc) ← f p path (fs k); Some (set_fs (set_proc k p) v, rc)
  end.

Definition sys_open (path flags mode : Z) (k : kernel E) : option ((kernel E) * Z) :=
  if negb (ustr_ok path) then Some (k, -1)
  else with_path path k (fun p path v => open_path p path flags mode v).

(** The descriptor of the current process; [None] inside for NULL. *)
Definition fd_of (k : kernel E) (fd : Z) : option (option (process * file_descriptor)) :=
  proc ← proc_of k;
  Some (p ← proc; f ← process_get_fd p fd; Some (p, f)).

Definition set_offset (f : file_descriptor) (offset : Z) (dirty : bool) : file_descriptor :=
  Fd (fd_used f) dirty (fd_flags f) offset (fd_node f).

Definition is_name (n : vnode) (s : string) : bool := bytes_eq (n_name n) (str s).

(** Reading an open file that is not a device: the bytes go to [buf] and the
    offset moves on. *)
Definition read_file (p : process) (fd : Z) (f : file_descriptor) (i : nat) (buf count : Z) (k : kernel E)
    : option ((kernel E) * Z) :=
  if buf =? 0 then Some (k, -1)
  else
    r ← vfs_read_node (Some i) (fd_offset f) count (fs k);
    match r with
    | None => Some (k, -1)
    | Some bytes =>
      let ret := Z.of_nat (length bytes) in
      let k := set_mem k (mset_bytes (k_mem k) buf bytes) in
      Some (if 0 <? ret then set_proc k (put_fd p fd (set_offset f (u64 (fd_offset f + ret)) (fd_dirty f))) else k, ret)
    end.

Definition read_device (fuel : nat) (n : vnode) (buf count : Z) (k : kernel E) : option ((kernel E) * Z) :=
  if is_name n "null" then Some (k, 0)
  else if is_name n "zero" then Some (set_mem k (mem_fill (k_mem k) buf count 0), count)
  else if is_name n "tty" || is_name n "console" then read_tty fuel false buf count k
  else if is_name n "kbd" then
    if 2 <=? count then let '(k, n) := read_events (Z.to_nat (count / 2)) buf 0 k in Some (k, n * 2)
    else drain fuel (Z.to_nat count) buf 0 (tell keyboard_poll k)
  else Some (k, -1).

Definition sys_read (fuel : nat) (fd buf count : Z) (k : kernel E) : option ((kernel E) * Z) :=
  if (0 <? count) && negb (uptr_ok buf count) then Some (k, -1)
  else if fd =? 0 then read_tty fuel true buf count k
  else
    file ← fd_of k fd;
    match file with
    | None => Some (k, -1)
    | Some (p, f) =>
      if has (fd_flags f) VFS_O_WRONLY then Some (k, -1)
      else
        i ← fd_node f; n ← nodes (fs k) !! i;
        if n_type n =? VFS_NODE_DEV then read_device fuel n buf count k else read_file p fd f i buf count k
    end.

Definition write_device (n : vnode) (buf count : Z) (k : kernel E) : option ((kernel E) * Z) :=
  if is_name n "null" then Some (k, count)
  else if is_name n "tty" || is_name n "console" then
    Some (tell (console_write_n (mread (k_mem k) buf (Z.to_nat count))) k, count)
  else if is_name n "fb0" then
    match framebuffer_info (k_env k) with
    | None => Some (k, -1)
    | Some (width, height, _, _) =>
      if buf =? 0 then Some (k, -1)
      else
        let pixels := Z.min (count / 4) (u64 (width * height)) in
        if width =? 0 then None
        else Some (tell (framebuffer_blit width (u32 (pixels / width)) (mread (k_mem k) buf (Z.to_nat (pixels * 4)))) k,
                   pixels * 4)
    end
  else Some (k, -1).

(** Writing to an open file that is not a device. *)
Definition write_file (p : process) (fd : Z) (f : file_descriptor) (i : nat) (n : vnode) (buf count : Z) (k : kernel E)
    : option ((kernel E) * Z) :=
  let f := if has (fd_flags f) VFS_O_APPEND then set_offset f (n_size n) (fd_dirty f) else f in
  '(v, ret) ← (if buf =? 0 then Some (fs k, -1)
               else vfs_write_node kmalloc_ok (Some i) (fd_offset f) (mread (k_mem k) buf (Z.to_nat count)) (fs k));
  let f := if 0 <? ret then set_offset f (u64 (fd_offset f + ret)) true else f in
  Some (set_fs (set_proc k (put_fd p fd f)) v, ret).

Definition sys_write (fd buf count : Z) (k : kernel E) : option ((kernel E) * Z) :=
  if (0 <? count) && negb (uptr_ok buf count) then Some (k, -1)
  else if (fd =? 1) || (fd =? 2) then
    Some (tell (console_write_n (mread (k_mem k) buf (Z.to_nat count))) k, count)
  else
    file ← fd_of k fd;
    match file with
    | None => Some (k, -1)
    | Some (p, f) =>
      if negb (has (fd_flags f) VFS_O_WRONLY) && negb (has (fd_flags f) VFS_O_RDWR) then Some (k, -1)
      else
        i ← fd_node f; n ← nodes (fs k) !! i;
        if n_type n =? VFS_NODE_DEV then write_device n buf count k else write_file p fd f i n buf count k
    end.

(** An overflow of [base + offset] is undefined. *)
Definition sys_lseek (fd offset whence : Z) (k : kernel E) : option ((kernel E) * Z) :=
  file ← fd_of k fd;
  match file with
  | None => Some (k, -1)
  | Some (p, f) =>
    base ← (if whence =? 0 then Some (Some 0)
            else if whence =? 1 then Some (Some (i64 (fd_offset f)))
            else if whence =? 2 then i ← fd_node f; n ← nodes (fs k) !! i; Some (Some (i64 (n_size n)))
            else Some None);
    match base with
    | None => Some (k, -1)
    | Some base =>
      let next := base + offset in
      if (next <? I64_MIN) || (I64_MAX <? next) then None
      else if next <? 0 then Some (k, -1)
      else Some (set_proc k (put_fd p fd (set_offset f next (fd_dirty f))), next)
    end
  end.

Definition access_path (p : process) (path : list Z) (mode : Z) (v : vfs) : option Z :=
  normal ← normalize_for_process (Some p) (Some path);
  match normal with
  | None => Some (-1)
  | Some normal =>
    node ← vfs_lookup (Some normal) (Some [SLASH]) v;
    n ← deref v node;
    match n with
    | None => Some (-1)
    | Some n =>
      if mode =? 0 then Some 0
      else if has mode 2 && negb (is_root (Some p)) && path_requires_root_for_mutation normal then Some (-1)
      else if (n_type n =? VFS_NODE_DEV) && negb (is_root (Some p)) && negb (path_is_public_device normal)
      then Some (-1)
      else Some (if has_perm (Some p) (Some n) (u32 mode) then 0 else -1)
    end
  end.

Definition sys_access (path mode : Z) (k : kernel E) : option ((kernel E) * Z) :=
  if (path =? 0) || negb (Z.land mode (Z.lnot 7) =? 0) then Some (k, -1)
  else with_path path k (fun p path v => rc ← access_path p path mode v; Some (p, v, rc)).

(** [sizeof(struct syscall_dirent)], [struct vfs_stat]. *)
Definition DIRENT_SIZE : Z := 272.
Definition STAT_SIZE : Z := 56.

(** The child the loop stops at, if any. *)
Fixpoint nth_sibling (fuel : nat) (ns : list vnode) (p : option nat) (index : Z) : option (option nat) :=
  match fuel with
  | O => None
  | S f =>
    match p with
    | None => Some None
    | Some i => n ← ns !! i; if index =? 0 then Some (Some i) else nth_sibling f ns (n_next n) (index - 1)
    end
  end.

Definition dirent_bytes (ino type : Z) (name : list Z) : list Z :=
  le_bytes 8 ino ++ [type] ++ pad 256 (take 255 name).

Definition sys_readdir (fd out : Z) (k : kernel E) : option ((kernel E) * Z) :=
  if negb (uptr_ok out DIRENT_SIZE) then Some (k, -1)
  else
    file ← fd_of k fd;
    match file with
    | None => Some (k, -1)
    | Some (p, f) =>
      n ← deref (fs k) (fd_node f);
      match n with
      | None => Some (k, -1)
      | Some n =>
        if negb (n_type n =? VFS_NODE_DIR) then Some (k, -1)
        else
          c ← nth_sibling (S (length (nodes (fs k)))) (nodes (fs k)) (n_first n) (fd_offset f);
          match c with
          | None => Some (k, 0)
          | Some i =>
            c ← nodes (fs k) !! i;
            let type := if n_type c =? VFS_NODE_DIR then 4 else if n_type c =? VFS_NODE_FILE then 8 else 0 in
            let k := set_mem k (mset_bytes (k_mem k) out (dirent_bytes (u64 (fd_offset f + 1)) type (n_name c))) in
            Some (set_proc k (put_fd p fd (set_offset f (u64 (fd_offset f + 1)) (fd_dirty f))), 1)
          end
      end
    end.

(** The structure in memory; the padding bytes are written as they were. *)
Definition stat_bytes (st : vfs_stat_buf) : list Z :=
  le_bytes 4 (st_mode st) ++ le_bytes 4 (st_uid st) ++ le_bytes 4 (st_gid st).
Definition put_stat (a : Z) (st : vfs_stat_buf) (m : mem) : mem :=
  let m := mset_bytes m a (stat_bytes st) in
  mset_bytes m (a + 16) (le_bytes 8 (st_size st) ++ le_bytes 8 (st_modified st) ++ le_bytes 8 (st_device st) ++
                         le_bytes 8 (st_inode st) ++ le_bytes 4 (st_type st)).

Definition sys_fstat (fd out : Z) (k : kernel E) : option ((kernel E) * Z) :=
  if negb (uptr_ok out STAT_SIZE) then Some (k, -1)
  else
    file ← fd_of k fd;
    match file with
    | None => Some (k, -1)
    | Some (p, f) =>
      n ← deref (fs k) (fd_node f);
      match n with
      | None => Some (k, -1)
      | Some n => Some (set_mem k (put_stat out (Stat (n_mode n) (n_uid n) (n_gid n) (n_size n) (n_modified n) 1
                                                      (n_created n) (n_type n)) (k_mem k)), 0)
      end
    end.

Definition TNU_IOCTL_FB_GETINFO : Z := 0x544e4601.
Definition TNU_IOCTL_TTY_GETSIZE : Z := 0x544e5401.
Definition TNU_IOCTL_TIOCGWINSZ : Z := 0x5413.
Definition TNU_IOCTL_TCGETS : Z := 0x5401.
Definition TNU_IOCTL_TCSETS : Z := 0x5402.
Definition TNU_IOCTL_TCSETSW : Z := 0x5403.
Definition TNU_IOCTL_TCSETSF : Z := 0x5404.

Definition is_tty_node (n : vnode) : bool := is_name n "tty" || is_name n "console".

(** [c_lflag] is at 12, [c_cc] at 16; [VTIME] is 5 and [VMIN] 6. *)
Definition tty_get (arg : Z) (k : kernel E) : (kernel E) :=
  let t := k_tty k in
  set_mem k (mput 1 (mput 1 (mput 4 (mem_fill (k_mem k) arg 48 0) (arg + 12) (tty_lflag t)) (arg + 21) (tty_vtime t))
                  (arg + 22) (tty_vmin t)).

Definition tty_set (arg : Z) (k : kernel E) : (kernel E) :=
  let t := k_tty k in
  let lflag := Z.land (mget 4 (k_mem k) (arg + 12)) (Z.lor (Z.lor TNU_TTYF_ICANON TNU_TTYF_ECHO) TNU_TTYF_ISIG) in
  let vtime := mget 1 (k_mem k) (arg + 21) in
  let vmin := mget 1 (k_mem k) (arg + 22) in
  if negb (canonical t) && has lflag TNU_TTYF_ICANON
  then tell keyboard_reset_console_state (set_tty k (Tty [] 0 lflag vmin vtime))
  else set_tty k (Tty (tty_seq t) (tty_pos t) lflag vmin vtime).

Definition sys_ioctl (fd request arg : Z) (k : kernel E) : option ((kernel E) * Z) :=
  file ← fd_of k fd;
  n ← deref (fs k) (match file with Some (_, f) => fd_node f | None => None end);
  match n with
  | None => Some (k, -1)
  | Some n =>
    if negb (n_type n =? VFS_NODE_DEV) then Some (k, -1)
    else if is_name n "fb0" && (request =? TNU_IOCTL_FB_GETINFO) then
      match framebuffer_info (k_env k) with
      | None => Some (k, -1)
      | Some (width, height, pitch, bpp) =>
        if arg =? 0 then Some (k, -1)
        else Some (set_mem k (mset_bytes (k_mem k) arg
                     (le_bytes 4 width ++ le_bytes 4 height ++ le_bytes 4 pitch ++ le_bytes 1 bpp)), 0)
      end
    else if is_tty_node n && ((request =? TNU_IOCTL_TTY_GETSIZE) || (request =? TNU_IOCTL_TIOCGWINSZ)) then
      if arg =? 0 then Some (k, -1)
      else
        let '(rows, cols, width, height) := console_size (k_env k) in
        Some (set_mem k (mset_bytes (k_mem k) arg
                (le_bytes 2 rows ++ le_bytes 2 cols ++ le_bytes 2 width ++ le_bytes 2 height)), 0)
    else if is_tty_node n then
      if request =? TNU_IOCTL_TCGETS then if arg =? 0 then Some (k, -1) else Some (tty_get arg k, 0)
      else if (request =? TNU_IOCTL_TCSETS) || (request =? TNU_IOCTL_TCSETSW) || (request =? TNU_IOCTL_TCSETSF) then
        if arg =? 0 then Some (k, -1) else Some (tty_set arg k, 0)
      else Some (k, -1)
    else Some (k, -1)
  end.

(** ** Signals, the heap and waiting *)

(** [handler] is at 0, [mask] at 8 and [flags] at 16. *)
Definition sys_sigaction (sig act oldact : Z) (k : kernel E) : option ((kernel E) * Z) :=
  proc ← proc_of k;
  match proc with
  | None => Some (k, -1)
  | Some p =>
    if (sig <=? 0) || (Z.of_nat PROCESS_SIGNAL_MAX <=? sig) then Some (k, -1)
    else
      let i := Z.to_nat sig in
      h ← p_handler p !! i;
      let k := if oldact =? 0 then k
               else set_mem k (mput 4 (mset_bytes (k_mem k) oldact (le_bytes 8 h ++ le_bytes 8 0)) (oldact + 16) 0) in
      if act =? 0 then Some (k, 0)
      else
        let handler := mget 8 (k_mem k) act in
        let disp := if handler =? 0 then SIGNAL_DISPOSITION_DEFAULT
                    else if handler =? 1 then SIGNAL_DISPOSITION_IGNORED else SIGNAL_DISPOSITION_HANDLED in
        Some (set_proc k (set_signal p (<[i := disp]> (p_disp p)) (<[i := handler]> (p_handler p))), 0)
  end.

Definition sys_brk (next : Z) (k : kernel E) : option ((kernel E) * Z) :=
  proc ← proc_of k;
  match proc with
  | None => Some (k, -1)
  | Some p =>
    let p := if p_brk_floor p =? 0 then set_brk p 0x5000000 0x5000000 0x7000000 else p in
    let k := set_proc k p in
    if (next =? 0) || (next <? p_brk_floor p) || (p_heap_limit p <? next) then Some (k, p_brk_current p)
    else
      let '(k, rc) := if p_brk_current p <? next
                      then ask (vmm_map_range_identity (p_brk_current p) (next - p_brk_current p)) k else (k, 0) in
      if rc <? 0 then Some (k, p_brk_current p)
      else Some (set_proc k (set_brk p (p_brk_floor p) next (p_heap_limit p)), next)
  end.

(** Waiting for the clock. *)
Fixpoint wait_until (fuel : nat) (deadline : Z) (k : kernel E) : option (kernel E) :=
  match fuel with
  | O => None
  | S f => let '(k, now) := ask pit_get_ticks k in if now <? deadline then wait_until f deadline k else Some k
  end.

Definition put_timespec (a : Z) (k : kernel E) : (kernel E) :=
  if a =? 0 then k else set_mem k (mset_bytes (k_mem k) a (le_bytes 16 0)).

Definition sys_nanosleep (fuel : nat) (req rem : Z) (k : kernel E) : option ((kernel E) * Z) :=
  if (req =? 0) || negb (uptr_ok req 16) then Some (k, -1)
  else
    let sec := i64 (mget 8 (k_mem k) req) in
    let nsec := i64 (mget 8 (k_mem k) (req + 8)) in
    if (sec <? 0) || (nsec <? 0) || (1000000000 <=? nsec) then Some (k, -1)
    else
      let ms := u64 (u64 (sec * 1000) + nsec / 1000000) in
      if ms =? 0 then Some (put_timespec rem k, 0)
      else
        let '(k, now) := ask pit_get_ticks k in
        k ← wait_until fuel (u64 (now + u64 (ms * PIT_HZ) / 1000)) k;
        Some (put_timespec rem k, 0).

Definition POLLIN : Z := 1.
Definition POLLOUT : Z := 4.

Definition tty_has_input (k : kernel E) : (kernel E) * bool :=
  let '(k, kbd) := ask keyboard_input_available k in
  (k, (tty_pos (k_tty k) <? length (tty_seq (k_tty k)))%nat || kbd).

(** The node of a descriptor of the process, when it has one. *)
Definition fd_vnode (k : kernel E) (fd : Z) : option (option (file_descriptor * vnode)) :=
  file ← fd_of k fd;
  match file with
  | None => Some None
  | Some (_, f) => n ← deref (fs k) (fd_node f); Some (n ← n; Some (f, n))
  end.

(** The events of one entry. *)
Definition poll_one (fd events : Z) (k : kernel E) : option ((kernel E) * Z) :=
  let std := (fd =? 0) || (fd =? 1) || (fd =? 2) in
  file ← (if std then Some None else fd_vnode k fd);
  let is_tty := std || match file with
                       | Some (_, n) => (n_type n =? VFS_NODE_DEV) && is_tty_node n
                       | None => false
                       end in
  let '(k, pin) :=
    if has events POLLIN then
      if is_tty then tty_has_input k
      else if (match file with Some (_, n) => is_name n "kbd" || is_name n "input/kbd" | None => false end)
      then ask keyboard_event_available k else (k, true)
    else (k, false) in
  Some (k, (if pin then POLLIN else 0) + (if has events POLLOUT then POLLOUT else 0)).

(** One look at the [n] entries from [a] on: an entry is its descriptor, the
    events asked for and those returned. *)
Fixpoint poll_round (n : nat) (a ready : Z) (k : kernel E) : option ((kernel E) * Z) :=
  match n with
  | O => Some (k, ready)
  | S n =>
    let fd := i32 (mget 4 (k_mem k) a) in
    let k := set_mem k (mput 2 (k_mem k) (a + 6) 0) in
    if fd <? 0 then poll_round n (a + 8) ready k
    else
      '(k, revents) ← poll_one fd (mget 2 (k_mem k) (a + 4)) k;
      poll_round n (a + 8) (if revents =? 0 then ready else ready + 1) (set_mem k (mput 2 (k_mem k) (a + 6) revents))
  end.

(** [round], again after each interrupt, until something is ready or the time
    is over; [deadline] when the wait is [timed]. *)
Fixpoint wait_ready (fuel : nat) (round : (kernel E) -> option ((kernel E) * Z)) (timeout : Z) (deadline : Z) (k : kernel E)
    : option ((kernel E) * Z) :=
  match fuel with
  | O => None
  | S f =>
    '(k, ready) ← round k;
    if 0 <? ready then Some (k, ready)
    else if timeout =? 0 then Some (k, 0)
    else
      let '(k, over) := if 0 <? timeout then let '(k, now) := ask pit_get_ticks k in (k, deadline <=? now)
                        else (k, false) in
      if over then Some (k, 0)
      else wait_ready f round timeout deadline (tell wait_interrupt (tell keyboard_poll k))
  end.

(** The deadline of a wait of [timeout] milliseconds. *)
Definition wait_deadline (timeout : Z) (k : kernel E) : (kernel E) * Z :=
  if 0 <? timeout then
    let '(k, now) := ask pit_get_ticks k in (k, u64 (now + u64 (u64 timeout * PIT_HZ) / 1000))
  else (k, 0).

Definition sys_poll (fuel : nat) (fds nfds timeout_ms : Z) (k : kernel E) : option ((kernel E) * Z) :=
  if (fds =? 0) || negb (uptr_ok fds (nfds * 8)) then Some (k, -1)
  else
    let '(k, deadline) := wait_deadline timeout_ms k in
    wait_ready fuel (poll_round (Z.to_nat nfds) fds 0) timeout_ms deadline k.

Definition SELECT_FDS : Z := 128.

(** A set of descriptors: two 64-bit words. *)
Definition fdset : Type := list Z.

Definition fdset_test (s : fdset) (fd : Z) : bool :=
  if (fd <? 0) || (SELECT_FDS <=? fd) then false
  else Z.testbit (nth (Z.to_nat (fd / 64)) s 0) (fd mod 64).

(** The set at [a] in user memory. *)
Definition fdset_set_bit (a fd : Z) (k : kernel E) : (kernel E) :=
  if (fd <? 0) || (SELECT_FDS <=? fd) then k
  else
    let w := a + 8 * (fd / 64) in
    set_mem k (mput 8 (k_mem k) w (Z.lor (mget 8 (k_mem k) w) (u64 (Z.shiftl 1 (fd mod 64))))).

Definition get_fdset (a : Z) (k : kernel E) : fdset := [mget 8 (k_mem k) a; mget 8 (k_mem k) (a + 8)].
Definition clear_fdset (a : Z) (k : kernel E) : (kernel E) :=
  if a =? 0 then k else set_mem k (mem_fill (k_mem k) a 16 0).

Definition fd_is_readable_now (fd : Z) (k : kernel E) : option ((kernel E) * bool) :=
  if fd =? 0 then Some (tty_has_input k)
  else if (fd =? 1) || (fd =? 2) then Some (k, false)
  else
    file ← fd_vnode k fd;
    Some (match file with
          | None => (k, false)
          | Some (_, n) =>
            if n_type n =? VFS_NODE_DEV then
              if is_tty_node n then tty_has_input k
              else if is_name n "kbd" || is_name n "input/kbd" then ask keyboard_event_available k
              else (k, is_name n "null" || is_name n "zero")
            else (k, true)
          end).

Definition fd_is_writable_now (fd : Z) (k : kernel E) : option bool :=
  if (fd =? 1) || (fd =? 2) then Some true
  else
    file ← fd_vnode k fd;
    Some (match file with
          | None => false
          | Some (f, n) =>
            if n_type n =? VFS_NODE_DEV then is_tty_node n || is_name n "null" || is_name n "fb0"
            else has (fd_flags f) (Z.lor VFS_O_WRONLY VFS_O_RDWR)
          end).

(** One bit of a set that was asked about: it is set in the set at [a] when the
    descriptor is ready. *)
Definition select_one (a : Z) (asked : fdset) (test : Z -> (kernel E) -> option ((kernel E) * bool)) (fd ready : Z) (k : kernel E)
    : option ((kernel E) * Z) :=
  if negb (a =? 0) && fdset_test asked fd then
    '(k, ok) ← test fd k;
    Some (if (ok : bool) then (fdset_set_bit a fd k, ready + 1) else (k, ready))
  else Some (k, ready).

Fixpoint select_loop (n : nat) (fd readfds writefds : Z) (in_read in_write : fdset) (ready : Z) (k : kernel E)
    : option ((kernel E) * Z) :=
  match n with
  | O => Some (k, ready)
  | S n =>
    '(k, ready) ← select_one readfds in_read fd_is_readable_now fd ready k;
    '(k, ready) ← select_one writefds in_write (fun fd k => ok ← fd_is_writable_now fd k; Some (k, ok)) fd ready k;
    select_loop n (fd + 1) readfds writefds in_read in_write ready k
  end.

Definition select_round (nfds readfds writefds : Z) (in_read in_write : fdset) (k : kernel E) : option ((kernel E) * Z) :=
  select_loop (Z.to_nat nfds) 0 readfds writefds in_read in_write 0 (clear_fdset writefds (clear_fdset readfds k)).

Definition FDSET_SIZE : Z := 16.

Definition select_core (fuel : nat) (nfds readfds writefds exceptfds timeout_ms : Z) (k : kernel E) : option ((kernel E) * Z) :=
  let nfds := if (nfds <? 0) || (SELECT_FDS <? nfds) then SELECT_FDS else nfds in
  if (negb (readfds =? 0) && negb (uptr_ok readfds FDSET_SIZE)) ||
     (negb (writefds =? 0) && negb (uptr_ok writefds FDSET_SIZE)) ||
     (negb (exceptfds =? 0) && negb (uptr_ok exceptfds FDSET_SIZE))
  then Some (k, -1)
  else
    let k := clear_fdset exceptfds k in
    let in_read := if readfds =? 0 then [0; 0] else get_fdset readfds k in
    let in_write := if writefds =? 0 then [0; 0] else get_fdset writefds k in
    let '(k, deadline) := wait_deadline timeout_ms k in
    wait_ready fuel (select_round nfds readfds writefds in_read in_write) timeout_ms deadline k.

(** A product or sum of the time that overflows is undefined. *)
Definition select_timeout (timeout : Z) (k : kernel E) : option Z :=
  let ms := i64 (mget 8 (k_mem k) timeout) * 1000 in
  let t := ms + Z.quot (i64 (mget 8 (k_mem k) (timeout + 8))) 1000000 in
  if (ms <? I64_MIN) || (I64_MAX <? ms) || (t <? I64_MIN) || (I64_MAX <? t) then None
  else Some (if t <? 0 then 0 else t).

(** [sys_select]; [sys_pselect] ignores its signal mask. *)
Definition sys_select (fuel : nat) (nfds readfds writefds exceptfds timeout : Z) (k : kernel E) : option ((kernel E) * Z) :=
  if timeout =? 0 then select_core fuel nfds readfds writefds exceptfds (-1) k
  else if negb (uptr_ok timeout 16) then Some (k, -1)
  else t ← select_timeout timeout k; select_core fuel nfds readfds writefds exceptfds t k.

(** ** Block devices and mappings: nobody is asked who they are *)

(** [sizeof(struct user_block_info)]: the texts at 0, 64 and 212, the flags at
    192, the sizes at 200 and 208. *)
Definition BLOCK_INFO_SIZE : Z := 248.

Definition text_field (n : nat) (s : cstr) : list Z := pad (Z.of_nat n) (take (pred n) (default [] s)).

Definition block_info_bytes (i : block_device_info) : list Z :=
  text_field 64 (bd_name i) ++ text_field 128 (bd_description i) ++
  [if bd_writable i then 1 else 0; if bd_removable i then 1 else 0] ++ zeros 6 ++
  le_bytes 8 (bd_sector_count i) ++ le_bytes 4 (bd_sector_size i) ++ text_field 32 (bd_transport i) ++ zeros 4.

Definition sys_block_get_count (k : kernel E) : Z := block_device_count (k_env k).

Definition sys_block_get_info (index out : Z) (k : kernel E) : kernel E * Z :=
  if (out =? 0) || negb (uptr_ok out BLOCK_INFO_SIZE) then (k, -1)
  else
    match block_device_get index (k_env k) with
    | None => (k, -1)
    | Some i => (set_mem k (mset_bytes (k_mem k) out (block_info_bytes i)), 0)
    end.

(** The drivers get the device's name; a device has one. *)
Definition sys_block_read (index lba buf bytes : Z) (k : kernel E) : kernel E * Z :=
  if (buf =? 0) || negb (uptr_ok buf bytes) then (k, -1)
  else
    match block_device_get index (k_env k) with
    | None => (k, -1)
    | Some i =>
      let '(e, rc, data) := block_read (default [] (bd_name i)) lba bytes (k_env k) in
      (set_mem (set_env k e) (mset_bytes (k_mem k) buf data), rc)
    end.

Definition sys_block_write (index lba buf bytes : Z) (k : kernel E) : kernel E * Z :=
  if (buf =? 0) || negb (uptr_ok buf bytes) then (k, -1)
  else
    match block_device_get index (k_env k) with
    | None => (k, -1)
    | Some i =>
      if negb (bd_writable i) then (k, -1)
      else ask (block_write_lba28 (default [] (bd_name i)) (u32 lba) (mread (k_mem k) buf (Z.to_nat bytes))) k
    end.

Definition sys_block_sync (index : Z) (k : kernel E) : kernel E * Z :=
  match block_device_get index (k_env k) with
  | None => (k, -1)
  | Some i => ask (block_sync (default [] (bd_name i))) k
  end.

Definition PAGE_SIZE : Z := 4096.

Definition sys_mmap (length fd : Z) (k : kernel E) : option (kernel E * Z) :=
  file ← fd_vnode k fd;
  match file with
  | None => Some (k, -1)
  | Some (_, n) =>
    if negb (n_type n =? VFS_NODE_DEV) || negb (is_name n "fb0") then Some (k, -1)
    else
      match framebuffer_info (k_env k) with
      | None => Some (k, -1)
      | Some (_, height, pitch, _) =>
        let fb_size := u64 (pitch * height) in
        if fb_size <? length then Some (k, -1)
        else
          let map_size := Z.land (u64 (fb_size + PAGE_SIZE - 1)) (u64 (Z.lnot (PAGE_SIZE - 1))) in
          let '(k, rc) := ask (vmm_map_range_identity (framebuffer_address (k_env k)) map_size) k in
          Some (k, if rc <? 0 then -1 else i64 (framebuffer_address (k_env k)))
      end
  end.

(** ** Accounts *)

Definition user_copy (a : Z) (size : nat) (k : kernel E) : option (list Z) := copy_user_string_bounded (k_mem k) a size.

Definition sys_login (user password : Z) (k : kernel E) : option ((kernel E) * Z) :=
  match user_copy user (S USER_NAME_MAX) k, user_copy password 128 k with
  | Some name, Some pw =>
    match user_find_name (users (k_users k)) name with
    | None => Some (k, -1)
    | Some _ =>
      '(us, rc) ← (if user_has_password name (k_users k) then user_login_password name (Some pw) (k_users k)
                   else if bytes_eq pw [] then Some (user_login name (k_users k)) else Some (k_users k, -1));
      let k := set_users k us in
      if rc <? 0 then Some (k, -1)
      else
        proc ← proc_of k;
        match proc, user_current us with
        | Some p, Some u => Some (set_proc k (set_ids p (u_uid u) (u_gid u) (field 255 (u_home u))), 0)
        | _, _ => Some (k, -1)
        end
    end
  | _, _ => Some (k, -1)
  end.

Definition with_us (k : kernel E) (r : option (users_state * Z)) : option ((kernel E) * Z) :=
  '(us, rc) ← r; Some (set_users k us, rc).

Definition sys_set_password (user password : Z) (k : kernel E) : option ((kernel E) * Z) :=
  proc ← proc_of k;
  match proc, user_copy user (S USER_NAME_MAX) k, user_copy password 128 k with
  | Some p, Some name, Some pw =>
    match user_find_name (users (k_users k)) name with
    | None => Some (k, -1)
    | Some target =>
      if negb (is_root proc) && negb (p_uid p =? u_uid target) then Some (k, -1)
      else with_us k (user_set_password kmalloc_ok (Some name) (Some pw) (k_users k))
    end
  | _, _, _ => Some (k, -1)
  end.

Definition sys_add_user (user : Z) (k : kernel E) : option ((kernel E) * Z) :=
  proc ← proc_of k;
  if negb (is_root proc) then Some (k, -1)
  else
    match user_copy user (S USER_NAME_MAX) k with
    | None => Some (k, -1)
    | Some name =>
      if negb (user_name_valid (Some name)) then Some (k, -1)
      else
        let uid := user_next_uid (users (k_users k)) in
        with_us k (user_add kmalloc_ok (Some name) uid uid (k_users k))
    end.

Definition sys_del_user (user : Z) (k : kernel E) : option ((kernel E) * Z) :=
  proc ← proc_of k;
  if negb (is_root proc) then Some (k, -1)
  else
    match user_copy user (S USER_NAME_MAX) k with
    | None => Some (k, -1)
    | Some name => with_us k (user_del kmalloc_ok name (k_users k))
    end.

(** ** The cases of [syscall_dispatch] on paths *)

Definition close_fd (fd : Z) (k : kernel E) : option ((kernel E) * Z) :=
  proc ← proc_of k;
  match proc with
  | None => Some (k, 0)
  | Some p =>
    let k := match process_get_fd p fd with
             | Some f => if fd_dirty f then set_fs k (sync_hook (fs k)) else k
             | None => k
             end in
    Some (set_proc k (process_close_fd p fd), 0)
  end.

(** A path argument that may be NULL; it is read without a check. *)
Definition path_arg (a : Z) (k : kernel E) : option cstr :=
  if a =? 0 then Some None else s ← ustring str_fuel (k_mem k) a; Some (Some s).

(** The current process, which these cases follow without a check. *)
Definition the_proc (k : kernel E) : option process := proc ← proc_of k; proc.

Definition chdir (path : Z) (k : kernel E) : option ((kernel E) * Z) :=
  p ← the_proc k;
  arg ← path_arg path k;
  node ← vfs_lookup arg (Some (p_cwd p)) (fs k);
  n ← deref (fs k) node;
  match n with
  | None => Some (k, -1)
  | Some d =>
    if negb (n_type d =? VFS_NODE_DIR) || negb (has_perm (Some p) n 1) then Some (k, -1)
    else
      (* into [proc->cwd] itself, which it has read before it writes; the lookup
         has normalized the same path, so this does not fail *)
      normal ← vfs_normalize arg (Some (p_cwd p)) VFS_PATH_MAX;
      match normal with
      | None => None
      | Some normal => Some (set_proc k (set_ids p (p_uid p) (p_gid p) normal), 0)
      end
  end.

(** [strncpy] writes exactly [size] bytes. *)
Definition getcwd (buf size : Z) (k : kernel E) : option ((kernel E) * Z) :=
  if (size =? 0) || negb (uptr_ok buf size) then Some (k, -1)
  else
    p ← the_proc k;
    Some (set_mem k (mset_bytes (mem_fill (k_mem k) buf size 0) buf (take (Z.to_nat size) (p_cwd p))), 0).

(** A call of the current process on a normalized path; -1 without one. *)
Definition on_path (path : Z) (k : kernel E) (f : process -> list Z -> option ((kernel E) * Z)) : option ((kernel E) * Z) :=
  proc ← proc_of k;
  match proc with
  | None => Some (k, -1)
  | Some p =>
    arg ← path_arg path k;
    normal ← normalize_for_process (Some p) arg;
    match normal with None => Some (k, -1) | Some normal => f p normal end
  end.

Definition mkdir (path mode : Z) (k : kernel E) : option ((kernel E) * Z) :=
  on_path path k (fun p normal =>
    if negb (is_root (Some p)) && path_requires_root_for_mutation normal then Some (k, -1)
    else
      can ← can_create_in_parent (Some p) normal (fs k);
      if negb can then Some (k, -1)
      else
        '(v, rc) ← vfs_mkdir (Some normal) (Some [SLASH]) (Z.lor VFS_S_IFDIR (Z.land (u32 mode) 0x1ff))
                     (p_uid p) (p_gid p) (fs k);
        Some (set_fs k v, rc)).

Definition unlink (path : Z) (k : kernel E) : option ((kernel E) * Z) :=
  on_path path k (fun p normal =>
    if bytes_eq normal [SLASH] then Some (k, -1)
    else
      node ← vfs_lookup (Some normal) (Some [SLASH]) (fs k);
      parent ← lookup_parent_from_normal normal (fs k);
      d ← deref (fs k) parent;
      match node, d with
      | Some _, Some dn =>
        if negb (n_type dn =? VFS_NODE_DIR) then Some (k, -1)
        else if negb (is_root (Some p)) && path_requires_root_for_mutation normal then Some (k, -1)
        else if negb (has_perm (Some p) d 2) || negb (has_perm (Some p) d 1) then Some (k, -1)
        else '(v, rc) ← vfs_unlink (Some normal) (Some [SLASH]) (fs k); Some (set_fs k v, rc)
      | _, _ => Some (k, -1)
      end).

Definition stat (path out : Z) (k : kernel E) : option ((kernel E) * Z) :=
  if negb (uptr_ok out STAT_SIZE) then Some (k, -1)
  else
    p ← the_proc k;
    arg ← path_arg path k;
    st ← vfs_stat arg (Some (p_cwd p)) (fs k);
    match st with
    | None => Some (k, -1)
    | Some st => Some (set_mem k (put_stat out st (k_mem k)), 0)
    end.

Definition chmod (path mode : Z) (k : kernel E) : option ((kernel E) * Z) :=
  on_path path k (fun p normal =>
    node ← vfs_lookup (Some normal) (Some [SLASH]) (fs k);
    n ← deref (fs k) node;
    match n with
    | None => Some (k, -1)
    | Some n =>
      if negb (is_root (Some p)) && path_requires_root_for_mutation normal then Some (k, -1)
      else if negb (is_root (Some p)) && negb (p_uid p =? n_uid n) then Some (k, -1)
      else '(v, rc) ← vfs_chmod (Some normal) (Some [SLASH]) (u32 mode) (fs k); Some (set_fs k v, rc)
    end).

Definition chown (path uid gid : Z) (k : kernel E) : option ((kernel E) * Z) :=
  proc ← proc_of k;
  if negb (is_root proc) then Some (k, -1)
  else
    on_path path k (fun p normal =>
      '(v, rc) ← vfs_chown (Some normal) (Some [SLASH]) (u32 uid) (u32 gid) (fs k); Some (set_fs k v, rc)).

Definition spawn (name : Z) (k : kernel E) : option ((kernel E) * Z) :=
  u ← user_current (k_users k);
  proc ← proc_of k;
  s ← ustring str_fuel (k_mem k) name;
  let ppid := match proc with Some p => p_pid p | None => 0 end in
  '(ps, child) ← process_create s ppid (u_uid u) (u_gid u) (k_users k) (k_procs k);
  match child with
  | None => Some (set_procs k ps, -1)
  | Some i => c ← processes ps !! i; Some (set_procs k ps, p_pid c)
  end.

(** What [f] says of the current process; -1 without one. *)
Definition about_proc (k : kernel E) (f : process -> Z) : option ((kernel E) * Z) :=
  proc ← proc_of k; Some (k, match proc with Some p => f p | None => -1 end).

Definition dup_with (k : kernel E) (f : process -> process * Z) : option ((kernel E) * Z) :=
  proc ← proc_of k;
  match proc with
  | None => Some (k, -1)
  | Some p => let '(p, rc) := f p in Some (set_proc k p, rc)
  end.

Definition exit (code : Z) (k : kernel E) : option ((kernel E) * Z) :=
  ps ← process_exit (current (k_procs k)) code (k_procs (set_fs k (sync_hook (fs k))));
  Some (set_procs (set_fs k (sync_hook (fs k))) ps, 0).

(** ** The dispatcher *)

Definition SYS_READ : Z := 0.
Definition SYS_WRITE : Z := 1.
Definition SYS_OPEN : Z := 2.
Definition SYS_CLOSE : Z := 3.
Definition SYS_SPAWN : Z := 4.
Definition SYS_WAIT : Z := 6.
Definition SYS_EXIT : Z := 7.
Definition SYS_GETPID : Z := 8.
Definition SYS_CHDIR : Z := 9.
Definition SYS_GETCWD : Z := 10.
Definition SYS_MKDIR : Z := 11.
Definition SYS_UNLINK : Z := 12.
Definition SYS_STAT : Z := 13.
Definition SYS_CHMOD : Z := 14.
Definition SYS_CHOWN : Z := 15.
Definition SYS_GETUID : Z := 16.
Definition SYS_GETGID : Z := 17.
Definition SYS_LSEEK : Z := 18.
Definition SYS_ACCESS : Z := 19.
Definition SYS_DUP : Z := 20.
Definition SYS_DUP2 : Z := 21.
Definition SYS_GETPPID : Z := 22.
Definition SYS_READDIR : Z := 23.
Definition SYS_IOCTL : Z := 24.
Definition SYS_UPTIME_MS : Z := 25.
Definition SYS_BRK : Z := 26.
Definition SYS_SIGACTION : Z := 27.
Definition SYS_FSTAT : Z := 28.
Definition SYS_NANOSLEEP : Z := 29.
Definition SYS_POLL : Z := 30.
Definition SYS_BLOCK_GET_COUNT : Z := 31.
Definition SYS_BLOCK_GET_INFO : Z := 32.
Definition SYS_BLOCK_READ : Z := 33.
Definition SYS_BLOCK_WRITE : Z := 34.
Definition SYS_BLOCK_SYNC : Z := 35.
Definition SYS_MMAP : Z := 38.
Definition SYS_LOGIN : Z := 36.
Definition SYS_SYNC : Z := 37.
Definition SYS_SELECT : Z := 39.
Definition SYS_PSELECT : Z := 40.
Definition SYS_SHUTDOWN : Z := 44.
Definition SYS_REBOOT : Z := 45.
Definition SYS_SET_PASSWORD : Z := 46.
Definition SYS_ADD_USER : Z := 47.
Definition SYS_DEL_USER : Z := 48.
Definition SYS_SOCKET : Z := 50.
Definition SYS_CONNECT : Z := 51.
Definition SYS_SEND : Z := 52.
Definition SYS_RECV : Z := 53.
(** What the socket stubs of net.c return. *)
Definition ENOSYS : Z := -38.

(** The calls that only hand their arguments to a driver, or start a program. *)
Context (other_call : Z -> Z -> Z -> Z -> Z -> Z -> Z -> (kernel E) -> option ((kernel E) * Z)).

(** The remaining calls, by number. *)
Definition dispatch_file (fuel : nat) (number a0 a1 a2 : Z) (k : kernel E) : option (option ((kernel E) * Z)) :=
  if number =? SYS_READ then Some (sys_read fuel (i32 a0) a1 a2 k)
  else if number =? SYS_WRITE then Some (sys_write (i32 a0) a1 a2 k)
  else if number =? SYS_OPEN then Some (sys_open a0 (i32 a1) (i32 a2) k)
  else if number =? SYS_CLOSE then Some (close_fd (i32 a0) k)
  else if number =? SYS_LSEEK then Some (sys_lseek (i32 a0) (i64 a1) (i32 a2) k)
  else if number =? SYS_ACCESS then Some (sys_access a0 (i32 a1) k)
  else if number =? SYS_DUP then Some (dup_with k (fun p => process_dup_fd p (i32 a0)))
  else if number =? SYS_DUP2 then Some (dup_with k (fun p => process_dup2_fd p (i32 a0) (i32 a1)))
  else if number =? SYS_READDIR then Some (sys_readdir (i32 a0) a1 k)
  else if number =? SYS_IOCTL then Some (sys_ioctl (i32 a0) a1 a2 k)
  else if number =? SYS_FSTAT then Some (sys_fstat (i32 a0) a1 k)
  else if number =? SYS_CHDIR then Some (chdir a0 k)
  else if number =? SYS_GETCWD then Some (getcwd a0 a1 k)
  else if number =? SYS_MKDIR then Some (mkdir a0 a1 k)
  else if number =? SYS_UNLINK then Some (unlink a0 k)
  else if number =? SYS_STAT then Some (stat a0 a1 k)
  else if number =? SYS_CHMOD then Some (chmod a0 a1 k)
  else if number =? SYS_CHOWN then Some (chown a0 a1 a2 k)
  else None.

Definition dispatch_process (fuel : nat) (number a0 a1 a2 a3 a4 : Z) (k : kernel E) : option (option ((kernel E) * Z)) :=
  if number =? SYS_GETPID then Some (about_proc k p_pid)
  else if number =? SYS_GETPPID then Some (about_proc k p_ppid)
  else if number =? SYS_GETUID then Some (about_proc k p_uid)
  else if number =? SYS_GETGID then Some (about_proc k p_gid)
  else if number =? SYS_UPTIME_MS then
    Some (let '(k, t) := ask pit_get_ticks k in Some (k, i64 (u64 (t * (1000 / PIT_HZ)))))
  else if number =? SYS_BRK then Some (sys_brk a0 k)
  else if number =? SYS_SIGACTION then Some (sys_sigaction (i32 a0) a1 a2 k)
  else if number =? SYS_NANOSLEEP then Some (sys_nanosleep fuel a0 a1 k)
  else if number =? SYS_POLL then Some (sys_poll fuel a0 (u32 a1) (i32 a2) k)
  else if (number =? SYS_SELECT) || (number =? SYS_PSELECT) then Some (sys_select fuel (i32 a0) a1 a2 a3 a4 k)
  else if number =? SYS_SPAWN then Some (spawn a0 k)
  else if number =? SYS_WAIT then Some (Some (k, -1))
  else if number =? SYS_LOGIN then Some (sys_login a0 a1 k)
  else if number =? SYS_SET_PASSWORD then Some (sys_set_password a0 a1 k)
  else if number =? SYS_ADD_USER then Some (sys_add_user a0 k)
  else if number =? SYS_DEL_USER then Some (sys_del_user a0 k)
  else if number =? SYS_SYNC then
    Some (if tfs_is_persistent (k_env k) then Some (ask tfs_sync k) else Some (k, 0))
  else if number =? SYS_SOCKET then Some (Some (k, ENOSYS))
  else if number =? SYS_CONNECT then
    Some (Some (k, if negb (uptr_ok a1 16) || (a2 <? 16) || negb (mget 2 (k_mem k) a1 =? 2) then -1 else ENOSYS))
  else if (number =? SYS_SEND) || (number =? SYS_RECV) then
    Some (Some (k, if negb (uptr_ok a1 a2) then -1 else ENOSYS))
  else None.

Definition dispatch_block (number a0 a1 a2 a3 a4 : Z) (k : kernel E) : option (option ((kernel E) * Z)) :=
  if number =? SYS_BLOCK_GET_COUNT then Some (Some (k, sys_block_get_count k))
  else if number =? SYS_BLOCK_GET_INFO then Some (Some (sys_block_get_info (u32 a0) a1 k))
  else if number =? SYS_BLOCK_READ then Some (Some (sys_block_read (u32 a0) a1 a2 (u32 a3) k))
  else if number =? SYS_BLOCK_WRITE then Some (Some (sys_block_write (u32 a0) a1 a2 (u32 a3) k))
  else if number =? SYS_BLOCK_SYNC then Some (Some (sys_block_sync (u32 a0) k))
  else if number =? SYS_MMAP then Some (sys_mmap a1 (i32 a4) k)
  else None.

Definition syscall_dispatch (fuel : nat) (number a0 a1 a2 a3 a4 a5 : Z) (k : kernel E) : option ((kernel E) * Z) :=
  proc ← proc_of k;
  let '(k, stop) :=
    if k_user_exec k && negb (number =? SYS_EXIT) &&
       (match proc with Some p => sigint_disposition p =? SIGNAL_DISPOSITION_DEFAULT | None => true end)
    then ask keyboard_consume_interrupt k else (k, false) in
  if (stop : bool) then
    ps ← process_exit (current (k_procs k)) 130 (k_procs k); Some (set_procs k ps, interrupted)
  else if number =? SYS_EXIT then
    '(k, _) ← exit (i32 a0) k; Some (k, i64 (syscall_encode_result a0 SYSCALL_RET_TO_KERNEL))
  else if (number =? SYS_SHUTDOWN) || (number =? SYS_REBOOT) then
    if negb (is_root proc) then Some (k, -1)
    else
      let k := if tfs_is_persistent (k_env k) then fst (ask tfs_sync k) else k in
      other_call number a0 a1 a2 a3 a4 a5 k
  else
    match dispatch_file fuel number a0 a1 a2 k with
    | Some r => r
    | None => match dispatch_process fuel number a0 a1 a2 a3 a4 k with
              | Some r => r
              | None => match dispatch_block number a0 a1 a2 a3 a4 k with
                        | Some r => r
                        | None => other_call number a0 a1 a2 a3 a4 a5 k
                        end
              end
    end.

End Calls.
