(* ===== verification/SyscallFrame.v ===== *)
(** * System calls: what they leave alone

    [keeps]: the calls that look, wait, or move a descriptor change neither the
    tree nor what the current process may write to. One lemma per call, shared
    by the theorems of SyscallProofs.v. *)
From stdpp Require Import relations.
From S2P Require Import Prelude Buf KString Printf Keys Vfs VfsTree User Process Syscall.

(** ** Steps that change neither the tree nor what a process may write to *)

(** A descriptor that says what one of the process already said. *)
Definition fd_from (p : process) (f : file_descriptor) : Prop :=
  exists f0, f0 ∈ p_fds p /\ fd_used f0 = true /\ fd_node f = fd_node f0 /\ fd_flags f = fd_flags f0.

Definition le_proc (p p' : process) : Prop :=
  p_uid p' = p_uid p /\ (p_state p <> PROCESS_UNUSED -> p_state p' <> PROCESS_UNUSED) /\
  forall f, f ∈ p_fds p' -> fd_used f = true -> fd_from p f.

Lemma fd_from_self p f : f ∈ p_fds p -> fd_used f = true -> fd_from p f.
Proof. intros. by exists f. Qed.

Lemma le_proc_same p p' : p_uid p' = p_uid p -> (p_state p <> PROCESS_UNUSED -> p_state p' <> PROCESS_UNUSED) ->
  p_fds p' = p_fds p -> le_proc p p'.
Proof. intros H1 H2 H3. split_and!; [done|done|]. rewrite H3. apply fd_from_self. Qed.

Lemma le_proc_refl p : le_proc p p.
Proof. by apply le_proc_same. Qed.

Lemma le_proc_trans p q r : le_proc p q -> le_proc q r -> le_proc p r.
Proof.
  intros (U1 & S1 & F1) (U2 & S2 & F2). split_and!; [congruence|tauto|].
  intros f Hf Hu. destruct (F2 f Hf Hu) as (g & Hg & Hgu & En & Ef).
  destruct (F1 g Hg Hgu) as (h & ? & ? & ? & ?). exists h. split_and!; congruence.
Qed.

(** Putting a descriptor somewhere. *)
Lemma le_proc_put p i f : (fd_used f = true -> fd_from p f) -> le_proc p (put_fd p i f).
Proof.
  intros Hf. split_and!; [done|done|]. intros g Hg Hu. cbn [put_fd set_fds p_fds] in Hg.
  apply list_elem_of_lookup in Hg as [j Hg]. apply list_lookup_insert_Some in Hg as [(_ & <- & _)|[_ Hg]].
  - by apply Hf.
  - apply fd_from_self; [by eapply list_elem_of_lookup_2|done].
Qed.

Lemma get_fd_in p fd f : process_get_fd p fd = Some f -> f ∈ p_fds p /\ fd_used f = true.
Proof.
  unfold process_get_fd. destruct (_ || _); [done|]. destruct (p_fds p !! _) as [g|] eqn:E; [|done].
  rewrite bind_some. destruct (fd_used g) eqn:Eu; [|done]. intros [= <-].
  split; [|done]. by eapply list_elem_of_lookup_2.
Qed.

Lemma le_proc_offset p fd f off d i : process_get_fd p fd = Some f -> le_proc p (put_fd p i (set_offset f off d)).
Proof. intros (Hf & Hu)%get_fd_in. apply le_proc_put. intros _. by exists f. Qed.

Lemma le_proc_close p fd : le_proc p (process_close_fd p fd).
Proof. unfold process_close_fd. destruct (_ || _); [apply le_proc_refl|]. by apply le_proc_put. Qed.

Lemma le_proc_dup p fd p' rc : process_dup_fd p fd = (p', rc) -> le_proc p p'.
Proof.
  unfold process_dup_fd. destruct (process_get_fd p fd) as [f|] eqn:E; [|intros [= <- _]; apply le_proc_refl].
  apply get_fd_in in E as [Hf Hu]. destruct (find_free 0 (p_fds p)); intros [= <- _]; [|apply le_proc_refl].
  apply le_proc_put. intros _. by exists f.
Qed.

Lemma le_proc_dup2 p fd new p' rc : process_dup2_fd p fd new = (p', rc) -> le_proc p p'.
Proof.
  unfold process_dup2_fd. destruct (process_get_fd p fd) as [f|] eqn:E; [|intros [= <- _]; apply le_proc_refl].
  apply get_fd_in in E as [Hf Hu]. destruct (_ || _); [intros [= <- _]; apply le_proc_refl|].
  destruct (_ =? _); intros [= <- _]; [apply le_proc_refl|]. apply le_proc_put. intros _. by exists f.
Qed.

Section Kernel.
Context {E : Type} {M : Machine E} (kmalloc_ok : Z -> bool) (str_fuel : nat).
Implicit Types k : kernel E.

Definition keeps k k' : Prop :=
  nodes (fs k') = nodes (fs k) /\ root_node (fs k') = root_node (fs k) /\
  forall p, the_proc k = Some p -> exists p', the_proc k' = Some p' /\ le_proc p p'.

Lemma keeps_core k k' : k_users k' = k_users k -> k_procs k' = k_procs k -> keeps k k'.
Proof.
  intros Hu Hp. unfold keeps, fs. rewrite Hu. split_and!; [done|done|]. intros p H. exists p.
  split; [|apply le_proc_refl]. unfold the_proc, proc_of in *. by rewrite Hp.
Qed.

Lemma keeps_refl k : keeps k k.
Proof. by apply keeps_core. Qed.

Lemma keeps_trans k1 k2 k3 : keeps k1 k2 -> keeps k2 k3 -> keeps k1 k3.
Proof.
  intros (N1 & R1 & P1) (N2 & R2 & P2). split_and!; [congruence|congruence|].
  intros p H. destruct (P1 p H) as (p2 & H2 & L2), (P2 p2 H2) as (p3 & H3 & L3).
  exists p3. split; [done|by eapply le_proc_trans].
Qed.

#[local] Instance keeps_preorder : PreOrder keeps.
Proof. split; [intros k; apply keeps_refl|intros ? ? ?; apply keeps_trans]. Qed.

Lemma proc_of_the_proc k p : proc_of k = Some (Some p) <-> the_proc k = Some p.
Proof.
  unfold the_proc. destruct (proc_of k) as [[q|]|]; rewrite ?bind_some; split; intros H; by simplify_eq/=.
Qed.

Lemma the_proc_set k p q : the_proc k = Some q -> the_proc (set_proc k p) = Some p.
Proof.
  unfold the_proc, proc_of, set_proc. destruct (current (k_procs k)) as [i|] eqn:Ec; [|done].
  destruct (processes (k_procs k) !! i) as [x|] eqn:Ei; [|done]. intros _. cbn [k_procs current processes set_procs].
  rewrite list_lookup_insert_eq by (by apply lookup_lt_Some in Ei). done.
Qed.

Lemma set_proc_users k p : k_users (set_proc k p) = k_users k.
Proof. unfold set_proc. by destruct (current _). Qed.

Lemma set_proc_mem k p : k_mem (set_proc k p) = k_mem k.
Proof. unfold set_proc. by destruct (current _). Qed.

(** Changing the current process to one that may write no more. *)
Lemma keeps_proc k p p' : the_proc k = Some p -> le_proc p p' -> keeps k (set_proc k p').
Proof.
  intros H Hle. unfold keeps, fs. rewrite set_proc_users. split_and!; [done|done|].
  intros q Hq. exists p'. split; [by eapply the_proc_set|congruence].
Qed.

Lemma keeps_sync k : keeps k (set_fs k (sync_hook (fs k))).
Proof. split_and!; [done|done|]. intros p H. exists p. split; [done|apply le_proc_refl]. Qed.

Lemma ask_core {A} (f : E -> E * A) k : exists e a, ask f k = (set_env k e, a).
Proof. unfold ask. destruct (f (k_env k)) as [e a]. by exists e, a. Qed.

End Kernel.

Create HintDb keeps.
#[export] Hint Resolve keeps_refl le_proc_refl keeps_sync : keeps.
#[export] Hint Extern 2 (keeps _ _) => (apply keeps_core; [done|done]) : keeps.

(** Asking the machine leaves the rest of the kernel alone. *)
Ltac asks :=
  match goal with
  | |- context [ask ?f ?k] =>
    let e := fresh "e" in let a := fresh "a" in
    destruct (ask_core f k) as (e & a & ->)
  end.

(** One case of a call that returned [Some]: asking, binding or branching. *)
Ltac kstep :=
  match goal with
  | |- None = Some _ -> _ => discriminate
  | |- Some _ = Some _ -> _ => intros [= <- <-]
  | |- context [ask _ _] => asks
  | |- (mbind _ ?x) = Some _ -> _ => destruct x as [?|] eqn:?; [rewrite bind_some|discriminate]
  | |- (if ?b then _ else _) = Some _ -> _ => destruct b eqn:?
  | |- (match ?x with _ => _ end) = Some _ -> _ => destruct x eqn:?
  end.
Ltac ksteps := repeat (kstep; cbv beta iota zeta).

(** The rest of a run starts from a state [k'] that [keeps k]. *)
Ltac kvia k' := apply (keeps_trans _ k'); [|].

Section Frames.
Context {E : Type} {M : Machine E} (kmalloc_ok : Z -> bool) (str_fuel : nat).
Implicit Types k : kernel E.

Lemma the_proc_core k k' : k_procs k' = k_procs k -> the_proc k' = the_proc k.
Proof. unfold the_proc, proc_of. by intros ->. Qed.

Lemma encode_key_keeps c proc k : keeps k (fst (tty_encode_key c proc k)).
Proof.
  unfold tty_encode_key. destruct (_ && _); [apply keeps_refl|]. destruct (c =? 10); [apply keeps_refl|].
  destruct (key_sequence c) as [l|]; [|by destruct (_ && _); apply keeps_refl].
  destruct (tty_pending_pop _). by apply keeps_core.
Qed.

Lemma set_exit_le p code : le_proc p (set_exit p code).
Proof. by apply le_proc_same. Qed.

Lemma read_byte_keeps fuel : forall k k' c, tty_read_byte fuel k = Some (k', c) -> keeps k k'.
Proof.
  induction fuel as [|fuel IH]; intros k k' c; [done|]. cbn [tty_read_byte].
  destruct (tty_pending_pop (k_tty k)) as [t [x|]]; [intros [= <- _]; by apply keeps_core|].
  destruct (proc_of k) as [proc|] eqn:Hp; [rewrite bind_some|done]. asks.
  set (k1 := set_env (set_tty k t) e). assert (keeps k k1) as H1 by (by apply keeps_core).
  destruct (a =? KEY_CTRL_C).
  - destruct proc as [p|]; [|intros [= <- _]; by apply keeps_core].
    destruct (_ =? _); intros [= <- _]; [|by apply keeps_core].
    kvia (tell keyboard_ack_interrupt k1); [by apply keeps_core|].
    apply (keeps_proc _ p); [|apply set_exit_le]. apply proc_of_the_proc in Hp.
    by rewrite <- Hp; apply the_proc_core.
  - destruct (_ && _); [intros H%IH|destruct (tty_is_modifier_only_key a); [intros H%IH|]].
    + kvia (tell (console_switch_tty (a - KEY_TTY1)) k1); [by apply keeps_core|done].
    + by kvia k1.
    + intros [= H]. kvia k1; [done|]. pose proof (encode_key_keeps a proc k1) as Hk. by rewrite H in Hk.
Qed.

Lemma try_read_byte_keeps fuel : forall k k' c, tty_try_read_byte fuel k = Some (k', c) -> keeps k k'.
Proof.
  induction fuel as [|fuel IH]; intros k k' c; [done|]. cbn [tty_try_read_byte].
  destruct (tty_pending_pop (k_tty k)) as [t [x|]]; [intros [= <- _]; by apply keeps_core|].
  destruct (proc_of k) as [proc|] eqn:Hp; [rewrite bind_some|done]. asks.
  set (k1 := set_env (set_tty k t) e). assert (keeps k k1) as H1 by (by apply keeps_core).
  destruct (a <? 0); [by intros [= <- _]|]. destruct (_ && _); [intros H%IH|].
  { kvia (tell (console_switch_tty (a - KEY_TTY1)) k1); [by apply keeps_core|done]. }
  destruct (tty_is_modifier_only_key a); [intros H%IH; by kvia k1|].
  intros [= H]. kvia k1; [done|]. pose proof (encode_key_keeps a proc k1) as Hk. by rewrite H in Hk.
Qed.

Lemma put_char_keeps k k1 k' buf i c : keeps k k1 -> keeps (put_char buf i c k1) k' -> keeps k k'.
Proof. intros H H'. kvia k1; [done|]. kvia (put_char buf i c k1); [by apply keeps_core|done]. Qed.

Lemma read_line_keeps fuel count : forall buf i k k' r, read_line fuel count buf i k = Some (k', r) -> keeps k k'.
Proof.
  induction count as [|n IH]; intros buf i k k' r; cbn [read_line]; [intros [= <- _]; apply keeps_refl|].
  destruct (tty_read_byte fuel k) as [[k1 c]|] eqn:Er; [rewrite bind_some|done]. apply read_byte_keeps in Er.
  destruct (c <? 0); [by intros [= <- _]|]. cbv zeta.
  destruct (_ =? 10); [intros [= <- _]|intros H%IH]; eapply put_char_keeps; try done. apply keeps_refl.
Qed.

Lemma drain_keeps fuel room : forall buf n k k' r, drain fuel room buf n k = Some (k', r) -> keeps k k'.
Proof.
  induction room as [|m IH]; intros buf n k k' r; cbn [drain]; [intros [= <- _]; apply keeps_refl|].
  destruct (tty_try_read_byte fuel k) as [[k1 c]|] eqn:Er; [rewrite bind_some|done]. apply try_read_byte_keeps in Er.
  destruct (c <? 0); [by intros [= <- _]|]. intros H%IH. by eapply put_char_keeps.
Qed.

Lemma read_min_keeps fuel need : forall buf n k k' r, read_min fuel need buf n k = Some (k', r) -> keeps k k'.
Proof.
  induction need as [|m IH]; intros buf n k k' r; cbn [read_min]; [intros [= <- _]; apply keeps_refl|].
  destruct (tty_read_byte fuel k) as [[k1 c]|] eqn:Er; [rewrite bind_some|done]. apply read_byte_keeps in Er.
  destruct (c <? 0); [by intros [= <- _]|]. intros H%IH. by eapply put_char_keeps.
Qed.

Lemma read_timed_keeps fuel : forall count buf vmin vtime n d k k' r,
  read_timed fuel count buf vmin vtime n d k = Some (k', r) -> keeps k k'.
Proof.
  induction fuel as [|fuel IH]; intros count buf vmin vtime n d k k' r; [done|]. cbn [read_timed].
  destruct (count <=? n); [intros [= <- _]; apply keeps_refl|].
  destruct (tty_try_read_byte fuel k) as [[k1 c]|] eqn:Er; [rewrite bind_some|done]. apply try_read_byte_keeps in Er.
  destruct (0 <=? c).
  - cbv zeta. destruct (_ && _); [intros [= <- _]; eapply put_char_keeps; [done|apply keeps_refl]|]. asks.
    intros H%IH. apply (put_char_keeps _ k1 _ buf n c); [done|]. kvia (set_env (put_char buf n c k1) e); [by apply keeps_core|done].
  - asks. destruct (_ <=? _); [intros [= <- _]|intros H%IH]; (kvia k1; [done|]); [by apply keeps_core|].
    kvia (set_env k1 e); [by apply keeps_core|done].
Qed.

Lemma read_tty_keeps fuel stdin buf count k k' r : read_tty fuel stdin buf count k = Some (k', r) -> keeps k k'.
Proof.
  unfold read_tty. destruct (canonical _); [apply read_line_keeps|]. cbv zeta.
  destruct (_ && _); [intros H%drain_keeps|destruct (_ && _)].
  - destruct stdin; [|done]. kvia (tell keyboard_poll k); [by apply keeps_core|done].
  - destruct (read_min _ _ _ _ k) as [[k1 [n|n]]|] eqn:Er; [| |done]; rewrite bind_some; apply read_min_keeps in Er.
    + by intros [= <- _].
    + intros H%drain_keeps. by kvia k1.
  - asks. intros H%read_timed_keeps. kvia (set_env k e); [by apply keeps_core|done].
Qed.

Lemma read_events_keeps room : forall buf n k, keeps k (fst (read_events room buf n k)).
Proof.
  induction room as [|m IH]; intros buf n k; cbn [read_events]; [apply keeps_refl|]. asks.
  destruct (a <? 0); [by apply keeps_core|]. eapply keeps_trans; [|apply IH]. by apply keeps_core.
Qed.

Lemma wait_until_keeps fuel : forall d k k', wait_until fuel d k = Some k' -> keeps k k'.
Proof.
  induction fuel as [|fuel IH]; intros d k k'; [done|]. cbn [wait_until]. asks.
  destruct (_ <? d); [intros H%IH|intros [= <-]; by apply keeps_core].
  kvia (set_env k e); [by apply keeps_core|done].
Qed.

Lemma keeps_core_proc k k1 p p' : k_users k1 = k_users k -> k_procs k1 = k_procs k -> the_proc k = Some p ->
  le_proc p p' -> keeps k (set_proc k1 p').
Proof.
  intros Hu Hp H Hle. kvia k1; [by apply keeps_core|]. apply (keeps_proc _ p); [|done].
  by rewrite (the_proc_core k k1).
Qed.

Lemma fd_of_spec k fd p f : fd_of k fd = Some (Some (p, f)) ->
  the_proc k = Some p /\ process_get_fd p fd = Some f.
Proof.
  unfold fd_of. destruct (proc_of k) as [[q|]|] eqn:Ep; [| |done]; rewrite ?bind_some; [|done].
  destruct (process_get_fd q fd) as [g|] eqn:Eg; rewrite ?bind_some; intros [= <- <-].
  split; [by apply proc_of_the_proc|done].
Qed.

Lemma read_file_keeps p fd f i buf count k k' r : the_proc k = Some p -> process_get_fd p fd = Some f ->
  read_file p fd f i buf count k = Some (k', r) -> keeps k k'.
Proof.
  intros Hp Hf. unfold read_file. destruct (buf =? 0); [intros [= <- _]; apply keeps_refl|].
  destruct (vfs_read_node _ _ _ _) as [[bytes|]|]; [| |done]; rewrite bind_some; [|intros [= <- _]; apply keeps_refl].
  cbv zeta. destruct (0 <? _); intros [= <- _]; [|by apply keeps_core].
  apply (keeps_core_proc _ _ p); [done|done|done|by eapply le_proc_offset].
Qed.

Lemma read_device_keeps fuel n buf count k k' r : read_device fuel n buf count k = Some (k', r) -> keeps k k'.
Proof.
  unfold read_device. destruct (is_name n "null"); [intros [= <- _]; apply keeps_refl|].
  destruct (is_name n "zero"); [intros [= <- _]; by apply keeps_core|].
  destruct (_ || _); [apply read_tty_keeps|]. destruct (is_name n "kbd"); [|intros [= <- _]; apply keeps_refl].
  destruct (2 <=? count).
  - pose proof (read_events_keeps (Z.to_nat (count / 2)) buf 0 k) as H.
    destruct (read_events _ _ _ _) as [k1 x]. by intros [= <- _].
  - intros H%drain_keeps. kvia (tell keyboard_poll k); [by apply keeps_core|done].
Qed.

Lemma sys_read_keeps fuel fd buf count k k' r : sys_read fuel fd buf count k = Some (k', r) -> keeps k k'.
Proof.
  unfold sys_read. destruct (_ && _); [intros [= <- _]; apply keeps_refl|].
  destruct (fd =? 0); [apply read_tty_keeps|]. destruct (fd_of k fd) as [[[p f]|]|] eqn:Ef; [| |done];
    rewrite bind_some; [|intros [= <- _]; apply keeps_refl].
  apply fd_of_spec in Ef as [Hp Hf]. destruct (has _ _); [intros [= <- _]; apply keeps_refl|].
  destruct (fd_node f) as [i|]; [rewrite bind_some|done]. destruct (nodes (fs k) !! i) as [n|]; [rewrite bind_some|done].
  destruct (_ =? _); [apply read_device_keeps|by apply read_file_keeps].
Qed.

Lemma write_device_keeps n buf count k k' r : write_device n buf count k = Some (k', r) -> keeps k k'.
Proof. unfold write_device. ksteps; by apply keeps_core. Qed.

Lemma sys_lseek_keeps fd off whence k k' r : sys_lseek fd off whence k = Some (k', r) -> keeps k k'.
Proof.
  unfold sys_lseek. destruct (fd_of k fd) as [[[p f]|]|] eqn:Ef; [| |done];
    rewrite bind_some; [|intros [= <- _]; apply keeps_refl]. apply fd_of_spec in Ef as [Hp Hf].
  match goal with |- (mbind _ ?b) = _ -> _ => destruct b as [[base|]|] end; [| |done]; rewrite bind_some;
    [|intros [= <- _]; apply keeps_refl].
  cbv zeta. destruct (_ || _); [done|]. destruct (_ <? 0); intros [= <- _]; [apply keeps_refl|].
  apply (keeps_proc _ p); [done|by eapply le_proc_offset].
Qed.

Lemma with_path_same a k (f : process -> list Z -> vfs -> option Z) k' r :
  with_path str_fuel a k (fun p path v => rc ← f p path v; Some (p, v, rc)) = Some (k', r) -> keeps k k'.
Proof.
  unfold with_path. destruct (proc_of k) as [[p|]|] eqn:Ep; [| |done]; rewrite bind_some;
    [|intros [= <- _]; apply keeps_refl].
  destruct (ustring _ _ _) as [path|]; [rewrite bind_some|done]. destruct (f p path _) as [rc|]; [|done].
  rewrite !bind_some. intros [= <- _]. apply proc_of_the_proc in Ep.
  kvia (set_proc k p); [by apply (keeps_proc _ p); auto with keeps|].
  split_and!; [cbn; by unfold fs; rewrite set_proc_users|cbn; by unfold fs; rewrite set_proc_users|].
  intros q Hq. exists q. split; [done|apply le_proc_refl].
Qed.

Lemma sys_access_keeps a mode k k' r : sys_access str_fuel a mode k = Some (k', r) -> keeps k k'.
Proof. unfold sys_access. destruct (_ || _); [intros [= <- _]; apply keeps_refl|apply with_path_same]. Qed.

Lemma sys_readdir_keeps fd out k k' r : sys_readdir fd out k = Some (k', r) -> keeps k k'.
Proof.
  unfold sys_readdir. destruct (negb _); [intros [= <- _]; apply keeps_refl|].
  destruct (fd_of k fd) as [[[p f]|]|] eqn:Ef; [| |done];
    rewrite bind_some; [|intros [= <- _]; apply keeps_refl]. apply fd_of_spec in Ef as [Hp Hf].
  ksteps; try apply keeps_refl. apply (keeps_core_proc _ _ p); [done|done|done|by eapply le_proc_offset].
Qed.

Lemma sys_fstat_keeps fd out k k' r : sys_fstat fd out k = Some (k', r) -> keeps k k'.
Proof. unfold sys_fstat. ksteps; by apply keeps_core. Qed.

Lemma tty_set_keeps arg k : keeps k (tty_set arg k).
Proof. unfold tty_set. cbv zeta. destruct (_ && _); by apply keeps_core. Qed.

Lemma sys_ioctl_keeps fd request arg k k' r : sys_ioctl fd request arg k = Some (k', r) -> keeps k k'.
Proof. unfold sys_ioctl. ksteps; first [apply tty_set_keeps|by apply keeps_core]. Qed.

Lemma sys_sigaction_keeps sig act old k k' r : sys_sigaction sig act old k = Some (k', r) -> keeps k k'.
Proof.
  unfold sys_sigaction. destruct (proc_of k) as [[p|]|] eqn:Ep; [| |done]; rewrite bind_some;
    [|intros [= <- _]; apply keeps_refl]. apply proc_of_the_proc in Ep.
  destruct (_ || _); [intros [= <- _]; apply keeps_refl|]. destruct (p_handler p !! _) as [h|]; [|done].
  rewrite bind_some. cbv zeta. destruct (old =? 0), (act =? 0); intros [= <- _]; try by apply keeps_core.
  all: apply (keeps_core_proc _ _ p); [done|done|done|by apply le_proc_same].
Qed.

Lemma sys_brk_keeps next k k' r : sys_brk next k = Some (k', r) -> keeps k k'.
Proof.
  unfold sys_brk. destruct (proc_of k) as [[p|]|] eqn:Ep; [| |done]; rewrite bind_some;
    [|intros [= <- _]; apply keeps_refl]. apply proc_of_the_proc in Ep. cbv zeta.
  set (q := if p_brk_floor p =? 0 then _ else p).
  assert (le_proc p q) as Hq by (unfold q; destruct (_ =? 0); [by apply le_proc_same|apply le_proc_refl]).
  pose proof (keeps_proc k p q Ep Hq) as H1. pose proof (the_proc_set k q p Ep) as Hq1.
  destruct (_ || _); [by intros [= <- _]|]. destruct (_ <? next).
  - asks. destruct (a <? 0); intros [= <- _]; (kvia (set_proc k q); [done|]); [by apply keeps_core|].
    apply (keeps_core_proc _ _ q); [done|done|done|by apply le_proc_same].
  - destruct (0 <? 0); intros [= <- _]; [done|]. kvia (set_proc k q); [done|].
    apply (keeps_core_proc _ _ q); [done|done|done|by apply le_proc_same].
Qed.

Lemma put_timespec_keeps a k : keeps k (put_timespec a k).
Proof. unfold put_timespec. destruct (a =? 0); by apply keeps_core. Qed.

Lemma sys_nanosleep_keeps fuel req rem k k' r : sys_nanosleep fuel req rem k = Some (k', r) -> keeps k k'.
Proof.
  unfold sys_nanosleep. destruct (_ || _); [intros [= <- _]; apply keeps_refl|]. cbv zeta.
  destruct (_ || _); [intros [= <- _]; apply keeps_refl|].
  destruct (_ =? 0); [intros [= <- _]; apply put_timespec_keeps|]. asks.
  destruct (wait_until _ _ _) as [k2|] eqn:Ew; [rewrite bind_some|done]. intros [= <- _].
  apply wait_until_keeps in Ew. kvia (set_env k e); [by apply keeps_core|]. kvia k2; [done|apply put_timespec_keeps].
Qed.

Lemma tty_has_input_keeps k : keeps k (fst (tty_has_input k)).
Proof. unfold tty_has_input. asks. by apply keeps_core. Qed.

Lemma poll_one_keeps fd events k k' r : poll_one fd events k = Some (k', r) -> keeps k k'.
Proof.
  unfold poll_one. cbv zeta. match goal with |- (mbind _ ?x) = _ -> _ => destruct x as [file|] end; [|done].
  rewrite bind_some. destruct (has events POLLIN); [|intros [= <- _]; apply keeps_refl].
  match goal with |- context [if ?b then tty_has_input k else _] => destruct b end.
  - pose proof (tty_has_input_keeps k) as H. destruct (tty_has_input k). by intros [= <- _].
  - match goal with |- context [if ?b then ask _ k else _] => destruct b end; [asks|];
      intros [= <- _]; by apply keeps_core.
Qed.

Lemma poll_round_keeps n : forall a ready k k' r, poll_round n a ready k = Some (k', r) -> keeps k k'.
Proof.
  induction n as [|n IH]; intros a ready k k' r; cbn [poll_round]; [intros [= <- _]; apply keeps_refl|]. cbv zeta.
  set (k1 := set_mem k _). destruct (_ <? 0).
  - intros H%IH. kvia k1; [by apply keeps_core|done].
  - destruct (poll_one _ _ k1) as [[k2 re]|] eqn:Ep; [rewrite bind_some|done]. apply poll_one_keeps in Ep.
    intros H%IH. kvia k1; [by apply keeps_core|]. kvia k2; [done|]. eapply keeps_trans; [|exact H].
    by apply keeps_core.
Qed.

Lemma wait_ready_keeps round timeout deadline : (forall k k' r, round k = Some (k', r) -> keeps k k') ->
  forall fuel k k' r, wait_ready fuel round timeout deadline k = Some (k', r) -> keeps k k'.
Proof.
  intros Hr. induction fuel as [|fuel IH]; intros k k' r; [done|]. cbn [wait_ready].
  destruct (round k) as [[k1 ready]|] eqn:E1; [rewrite bind_some|done]. apply Hr in E1.
  destruct (0 <? ready); [by intros [= <- _]|]. destruct (timeout =? 0); [by intros [= <- _]|].
  destruct (0 <? timeout); [asks; destruct (deadline <=? a)|].
  - intros [= <- _]. kvia k1; [done|by apply keeps_core].
  - intros H%IH. kvia k1; [done|]. eapply keeps_trans; [|exact H]. by apply keeps_core.
  - intros H%IH. kvia k1; [done|]. eapply keeps_trans; [|exact H]. by apply keeps_core.
Qed.

Lemma wait_deadline_keeps timeout k : keeps k (fst (wait_deadline timeout k)).
Proof. unfold wait_deadline. destruct (_ <? _); [asks|]; by apply keeps_core. Qed.

Lemma wait_after_keeps fuel round timeout k k' r : (forall k k' r, round k = Some (k', r) -> keeps k k') ->
  (let '(k, deadline) := wait_deadline timeout k in wait_ready fuel round timeout deadline k) = Some (k', r) ->
  keeps k k'.
Proof.
  intros Hr. pose proof (wait_deadline_keeps timeout k) as Hw. destruct (wait_deadline timeout k) as [k1 d].
  intros H. kvia k1; [done|by eapply wait_ready_keeps].
Qed.

Lemma sys_poll_keeps fuel fds n timeout k k' r : sys_poll fuel fds n timeout k = Some (k', r) -> keeps k k'.
Proof.
  unfold sys_poll. destruct (_ || _); [intros [= <- _]; apply keeps_refl|].
  apply wait_after_keeps. intros ? ? ?. apply poll_round_keeps.
Qed.

Lemma readable_keeps fd k k' b : fd_is_readable_now fd k = Some (k', b) -> keeps k k'.
Proof.
  unfold fd_is_readable_now. pose proof (tty_has_input_keeps k) as Ht. destruct (fd =? 0).
  { destruct (tty_has_input k). by intros [= <- _]. }
  destruct (_ || _); [intros [= <- _]; apply keeps_refl|]. destruct (fd_vnode k fd) as [[[f n]|]|]; [| |done];
    rewrite bind_some; [|intros [= <- _]; apply keeps_refl].
  destruct (_ =? _); [|intros [= <- _]; apply keeps_refl]. destruct (is_tty_node n).
  { destruct (tty_has_input k). by intros [= <- _]. }
  destruct (_ || _); [asks|]; intros [= <- _]; by apply keeps_core.
Qed.

Lemma select_one_keeps a asked test fd ready k k' r : (forall k k' b, test fd k = Some (k', b) -> keeps k k') ->
  select_one a asked test fd ready k = Some (k', r) -> keeps k k'.
Proof.
  intros Ht. unfold select_one. destruct (_ && _); [|intros [= <- _]; apply keeps_refl].
  destruct (test fd k) as [[k1 b]|] eqn:E1; [rewrite bind_some|done]. apply Ht in E1.
  destruct b; intros [= <- _]; [|done]. kvia k1; [done|]. unfold fdset_set_bit.
  destruct (_ || _); by apply keeps_core.
Qed.

Lemma select_loop_keeps n : forall fd rd wr ir iw ready k k' r,
  select_loop n fd rd wr ir iw ready k = Some (k', r) -> keeps k k'.
Proof.
  induction n as [|n IH]; intros fd rd wr ir iw ready k k' r; cbn [select_loop]; [intros [= <- _]; apply keeps_refl|].
  destruct (select_one rd ir _ fd ready k) as [[k1 r1]|] eqn:E1; [rewrite bind_some|done].
  destruct (select_one wr iw _ fd r1 k1) as [[k2 r2]|] eqn:E2; [rewrite bind_some|done]. intros H%IH.
  apply select_one_keeps in E1; [|intros ? ? ?; apply readable_keeps].
  apply select_one_keeps in E2; [by do 2 (eapply keeps_trans; [eassumption|])|].
  intros x x' b. destruct (fd_is_writable_now fd x); [rewrite bind_some|done]. intros [= <- _]. apply keeps_refl.
Qed.

Lemma clear_fdset_keeps a k : keeps k (clear_fdset a k).
Proof. unfold clear_fdset. destruct (a =? 0); by apply keeps_core. Qed.

Lemma select_core_keeps fuel nfds rd wr ex timeout k k' r :
  select_core fuel nfds rd wr ex timeout k = Some (k', r) -> keeps k k'.
Proof.
  unfold select_core. cbv zeta. generalize (if (nfds <? 0) || (SELECT_FDS <? nfds) then SELECT_FDS else nfds). intros m.
  destruct (_ || _); [intros [= <- _]; apply keeps_refl|].
  intros H%wait_after_keeps; [eapply keeps_trans; [apply clear_fdset_keeps|exact H]|].
  intros x x' r' H'%select_loop_keeps. eapply keeps_trans; [|exact H'].
  eapply keeps_trans; apply clear_fdset_keeps.
Qed.

Lemma sys_select_keeps fuel nfds rd wr ex timeout k k' r :
  sys_select fuel nfds rd wr ex timeout k = Some (k', r) -> keeps k k'.
Proof.
  unfold sys_select. destruct (timeout =? 0); [apply select_core_keeps|].
  destruct (negb _); [intros [= <- _]; apply keeps_refl|]. destruct (select_timeout _ _); [|done].
  rewrite bind_some. apply select_core_keeps.
Qed.

(** ** The cases of the dispatcher that only look or move a descriptor *)

Lemma close_fd_keeps fd k k' r : close_fd fd k = Some (k', r) -> keeps k k'.
Proof.
  unfold close_fd. destruct (proc_of k) as [[p|]|] eqn:Ep; [| |done]; rewrite bind_some;
    [|intros [= <- _]; apply keeps_refl]. apply proc_of_the_proc in Ep. cbv zeta. intros [= <- _].
  pose proof (le_proc_close p fd) as Hc.
  destruct (process_get_fd p fd) as [f|]; [destruct (fd_dirty f)|]; try by apply (keeps_proc _ p).
  kvia (set_fs k (sync_hook (fs k))); [apply keeps_sync|]. by apply (keeps_proc _ p).
Qed.

Lemma chdir_keeps a k k' r : chdir str_fuel a k = Some (k', r) -> keeps k k'.
Proof.
  unfold chdir. destruct (the_proc k) as [p|] eqn:Ep; [rewrite bind_some|done].
  ksteps; try apply keeps_refl. apply (keeps_proc _ p); [done|by apply le_proc_same].
Qed.

Lemma getcwd_keeps a size k k' r : getcwd a size k = Some (k', r) -> keeps k k'.
Proof. unfold getcwd. ksteps; by apply keeps_core. Qed.

Lemma stat_keeps a out k k' r : stat str_fuel a out k = Some (k', r) -> keeps k k'.
Proof. unfold stat. ksteps; by apply keeps_core. Qed.

Lemma about_proc_keeps k f k' r : about_proc k f = Some (k', r) -> keeps k k'.
Proof. unfold about_proc. ksteps; by apply keeps_core. Qed.

Lemma dup_with_keeps k f k' r : (forall p p' rc, f p = (p', rc) -> le_proc p p') ->
  dup_with k f = Some (k', r) -> keeps k k'.
Proof.
  intros Hf. unfold dup_with. destruct (proc_of k) as [[p|]|] eqn:Ep; [| |done]; rewrite bind_some;
    [|intros [= <- _]; apply keeps_refl]. apply proc_of_the_proc in Ep.
  destruct (f p) as [p' rc] eqn:E1. intros [= <- _]. apply (keeps_proc _ p); [done|by eapply Hf].
Qed.

(** The process table after the current process was given an exit code. *)
Lemma process_exit_current k code ps : process_exit (current (k_procs k)) code (k_procs k) = Some ps ->
  keeps k (set_procs k ps).
Proof.
  unfold process_exit. destruct (current (k_procs k)) as [i|] eqn:Ec; [|intros [= <-]; by apply keeps_core].
  unfold update_process. destruct (processes (k_procs k) !! i) as [p|] eqn:Ei; [rewrite bind_some|done].
  intros [= <-]. assert (the_proc k = Some p) as Hp.
  { unfold the_proc, proc_of. by rewrite Ec, Ei. }
  pose proof (keeps_proc k p _ Hp (set_exit_le p code)) as H. unfold set_proc in H. by rewrite Ec in H |- *.
Qed.

Lemma exit_keeps code k k' r : exit code k = Some (k', r) -> keeps k k'.
Proof.
  unfold exit. destruct (process_exit _ _ _) as [ps|] eqn:E1; [rewrite bind_some|done]. intros [= <- _].
  kvia (set_fs k (sync_hook (fs k))); [apply keeps_sync|]. exact (process_exit_current (set_fs k (sync_hook (fs k))) code ps E1).
Qed.

Lemma dispatch_block_keeps n a0 a1 a2 a3 a4 k k' r :
  dispatch_block n a0 a1 a2 a3 a4 k = Some (Some (k', r)) -> keeps k k'.
Proof.
  unfold dispatch_block, sys_block_get_info, sys_block_read, sys_block_write, sys_block_sync, sys_mmap.
  destruct (n =? SYS_BLOCK_GET_COUNT); [intros [= <- _]; apply keeps_refl|].
  destruct (n =? SYS_BLOCK_GET_INFO).
  { destruct (_ || _); [|destruct (block_device_get _ _)]; intros [= <- _]; by apply keeps_core. }
  destruct (n =? SYS_BLOCK_READ).
  { destruct (_ || _); [|destruct (block_device_get _ _) as [i|]; [destruct (block_read _ _ _ _) as [[e rc] data]|]];
      intros [= <- _]; by apply keeps_core. }
  destruct (n =? SYS_BLOCK_WRITE).
  { destruct (_ || _); [|destruct (block_device_get _ _) as [i|]; [destruct (negb _); [|asks]|]];
      intros [= <- _]; by apply keeps_core. }
  destruct (n =? SYS_BLOCK_SYNC).
  { destruct (block_device_get _ _) as [i|]; [asks|]; intros [= <- _]; by apply keeps_core. }
  destruct (n =? SYS_MMAP); [|done]. intros [= H]. revert H. ksteps; by apply keeps_core.
Qed.

End Frames.
