(* ===== verification/SyscallProofs.v ===== *)
(** * System calls: theorems

    What an unprivileged process cannot do to the protected part of the tree by
    any sequence of calls; what the text of a path says about protection; what
    opening a file asks for; the heap of a process; what a program sees of a
    return value. *)
From stdpp Require Import relations.
From S2P Require Import Prelude Buf KString Printf Keys Vfs VfsTree User Process Syscall SyscallFrame.

(** ** Return values *)

Lemma ones_62 : u64 (Z.shiftl 1 62 - 1) = Z.ones 62.
Proof. reflexivity. Qed.

(** The encoded word, as a number. *)
Lemma encode_value scalar disp : 0 <= disp < 4 ->
  syscall_encode_result scalar disp = disp * 2 ^ 62 + scalar mod 2 ^ 62.
Proof.
  intros Hd. unfold syscall_encode_result. rewrite ones_62, Z.land_ones by lia.
  rewrite Z.shiftl_mul_pow2 by lia. unfold u64.
  replace ((scalar mod 18446744073709551616) mod 2 ^ 62) with (scalar mod 2 ^ 62)
    by (change (2 ^ 62) with 4611686018427387904; Z.div_mod_to_equations; lia).
  rewrite Z.mod_small by (change (2 ^ 62) with 4611686018427387904; lia).
  rewrite <- Z.lxor_lor, Z.add_nocarry_lxor; try done.
  all: apply Z.bits_inj'; intros n Hn; rewrite Z.land_spec, Z.bits_0;
    (destruct (Z.ltb_spec n 62);
     [rewrite Z.mul_pow2_bits_low by lia; done|rewrite Z.mod_pow2_bits_high by lia; apply andb_false_r]).
Qed.

(** What the assembly stub takes out of an encoded return value is what was
    put in: every scalar of 62 bits and either disposition. And a plain return
    value of that range, error codes included, never asks for a return to the
    kernel. *)
Theorem return_value_roundtrip (scalar disp : Z) : - 2 ^ 61 <= scalar < 2 ^ 61 -> 0 <= disp < 4 ->
  syscall_decode_disposition (syscall_encode_result scalar disp) = disp /\
  syscall_decode_scalar (syscall_encode_result scalar disp) = scalar /\
  syscall_decode_disposition (u64 scalar) <> SYSCALL_RET_TO_KERNEL /\
  syscall_decode_scalar (u64 scalar) = scalar.
Proof.
  intros Hs Hd. unfold syscall_decode_disposition, syscall_decode_scalar, SYSCALL_RET_TO_KERNEL.
  rewrite encode_value by done. rewrite !Z.shiftr_div_pow2, !Z.shiftl_mul_pow2 by lia.
  change (2 ^ 62) with 4611686018427387904. change (2 ^ 61) with 2305843009213693952 in Hs. change (2 ^ 2) with 4.
  unfold i64, u64. split_and!; Z.div_mod_to_equations; lia.
Qed.

Lemma return_value_roundtrip_witness :
  syscall_decode_disposition (syscall_encode_result (-130) 1) = 1 /\
  syscall_decode_scalar (syscall_encode_result (-130) 1) = -130 /\
  syscall_decode_disposition (u64 (-130)) <> SYSCALL_RET_TO_KERNEL /\ syscall_decode_scalar (u64 (-130)) = -130.
Proof. apply (return_value_roundtrip (-130) 1); lia. Defined.

(** ** What a process may not change *)

(** A path, as the components that lead to it from the root. *)
Definition prot (P : list (list Z)) : Prop := path_requires_root_for_mutation (path_of P) = true.

(** The protected paths lead where they led, to nodes with the same contents,
    owner and mode. *)
Definition guarded (v : vfs) (ch : nat -> list nat) (v' : vfs) (ch' : nat -> list nat) : Prop :=
  forall P, prot P ->
    walk (nodes v') ch' 0 P = walk (nodes v) ch 0 P /\
    forall i n, walk (nodes v) ch 0 P = Some i -> nodes v !! i = Some n ->
      exists n', nodes v' !! i = Some n' /\ attrs n' = attrs n.

Lemma guarded_refl v ch v' : nodes v' = nodes v -> guarded v ch v' ch.
Proof. intros E P _. rewrite E. split; [done|]. intros i n _ Hi. by exists n. Qed.

Lemma guarded_trans v1 ch1 v2 ch2 v3 ch3 : guarded v1 ch1 v2 ch2 -> guarded v2 ch2 v3 ch3 -> guarded v1 ch1 v3 ch3.
Proof.
  intros H12 H23 P HP. destruct (H12 P HP) as [W1 N1], (H23 P HP) as [W2 N2]. split; [by rewrite W2|].
  intros i n Hw Hn. destruct (N1 i n Hw Hn) as (n2 & Hn2 & E2).
  destruct (N2 i n2) as (n3 & Hn3 & E3); [by rewrite W1|done|]. exists n3. split; [done|congruence].
Qed.

(** Components that normalization returned are those of their own path. *)
Lemma norm_comps_path_of path cwd P cwd' : norm_comps path cwd = Some P -> norm_comps (path_of P) cwd' = Some P.
Proof.
  intros (Hok & Hl & out & Hj)%norm_comps_ok.
  destruct (normalize_path_of P cwd' out Hok Hl Hj) as [-> Hn]. rewrite normalize_norm in Hn.
  injection Hn as Hn. destruct (norm_comps (path_of P) cwd') as [Q|] eqn:E; [|done]. injection Hn as Hn.
  apply norm_comps_ok in E as (HokQ & HlQ & _). apply (f_equal resolve) in Hn.
  by rewrite !resolve_path_of in Hn by done.
Qed.

(** The path a call works on. *)
Lemma normalize_for_process_comps p path : exists r, normalize_for_process (Some p) (Some path) = Some r /\
  forall normal, r = Some normal -> exists P, norm_comps path (Some (p_cwd p)) = Some P /\ normal = path_of P /\
    forall cwd, norm_comps normal cwd = Some P.
Proof.
  unfold normalize_for_process. rewrite normalize_norm. eexists. split; [done|]. intros normal E.
  destruct (norm_comps path _) as [P|] eqn:EP; [|done]. injection E as <-. exists P. split_and!; try done.
  intros cwd. by eapply norm_comps_path_of.
Qed.

Lemma add_guarded v ch type path cwd mode uid gid v' ch' rc P : norm_comps path cwd = Some P -> ~ prot P ->
  add_outcome v ch type path cwd mode uid gid v' ch' rc -> guarded v ch v' ch'.
Proof.
  intros HP Hnp H. destruct H as [|? ? ? _ _|? ? ? _ _ _ _|Q c p m n v' ch' HQ _ _ Hw _ _ _ Ho];
    try by apply guarded_refl.
  intros R HR. rewrite Hw. rewrite decide_False by (intros ->; rewrite HP in HQ; injection HQ as ->; done).
  split; [done|]. intros i x _ Hx. by apply Ho.
Qed.

Lemma del_guarded v ch path cwd v' ch' rc P : norm_comps path cwd = Some P -> ~ prot P ->
  del_outcome v ch path cwd v' ch' rc -> guarded v ch v' ch'.
Proof.
  intros HP Hnp H. destruct H as [|? ? ? _ _ _|Q c m v' ch' HQ _ _ Hw _ Ho]; try by apply guarded_refl.
  intros R HR. rewrite Hw. rewrite decide_False by (intros ->; rewrite HP in HQ; injection HQ as ->; done).
  split; [done|]. intros i x _ Hx. by apply Ho.
Qed.

(** Rewriting a node that no protected path leads to. *)
Lemma rewrite_guarded v ch i n n' v' : wf v ch -> nodes v !! i = Some n -> nodes v' = <[i := n']> (nodes v) ->
  root_node v' = root_node v -> same_links n n' ->
  (forall P, prot P -> walk (nodes v) ch 0 P <> Some i) -> wf v' ch /\ guarded v ch v' ch.
Proof.
  intros W Hi E Hr Hs Hp. split; [by apply (same_wf v v' i n n')|]. intros P HP.
  split; [by apply (same_walk v v' i n n')|]. intros j x Hw Hx. exists x. split; [|done].
  rewrite E, list_lookup_insert_ne; [done|]. intros <-. by apply (Hp P).
Qed.

(** A node at a path that is not protected is at no protected path. *)
Lemma walk_unprotected v ch P i : wf v ch -> ~ prot P -> walk (nodes v) ch 0 P = Some i ->
  forall Q, prot Q -> walk (nodes v) ch 0 Q <> Some i.
Proof. intros W Hn Hw Q HQ Hq. apply Hn. by rewrite (walk_unique v ch W P Q i). Qed.

(** Writing to a file rewrites its node or nothing. *)
Lemma write_node_frame ok v i n off buf v' rc : nodes v !! i = Some n ->
  vfs_write_node ok (Some i) off buf v = Some (v', rc) ->
  v' = v \/ n_type n = VFS_NODE_FILE /\
            exists n', nodes v' = <[i := n']> (nodes v) /\ root_node v' = root_node v /\ same_links n n'.
Proof.
  intros Hi. unfold vfs_write_node. rewrite Hi, bind_some.
  destruct (Z.eqb_spec (n_type n) VFS_NODE_FILE) as [Ht|]; cbn [negb]; [|intros [= <- _]; by left]. cbv zeta.
  match goal with |- (?r ≫= _) = _ -> _ => destruct r as [[m|]|] eqn:Er end;
    [|rewrite bind_some; intros [= <- _]; by left|done].
  assert (same_links n m) as Hm.
  { destruct (_ || _); [|injection Er as <-; by repeat split].
    destruct (_ || _); [done|]. match goal with H : (?o ≫= _) = _ |- _ => destruct o end; [|done].
    rewrite bind_some in Er. destruct (negb _); [done|]. injection Er as <-. by repeat split. }
  rewrite bind_some. match goal with |- (?r ≫= _) = _ -> _ => destruct r as [d|] end; [|done].
  rewrite bind_some. rewrite (update_some _ _ _ n) by done. rewrite bind_some. intros [= <- _]. right.
  split; [done|]. eexists. split; [done|]. split; [done|]. exact Hm.
Qed.

(** ** Calls of a process without the rights of root *)

(** The descriptor may be written through. *)
Definition fd_writes (f : file_descriptor) : bool := has (fd_flags f) VFS_O_WRONLY || has (fd_flags f) VFS_O_RDWR.

(** No descriptor of the process writes to a file at a protected path. *)
Definition fds_ok (v : vfs) (ch : nat -> list nat) (p : process) : Prop :=
  forall f j n P, f ∈ p_fds p -> fd_used f = true -> fd_writes f = true -> fd_node f = Some j ->
    nodes v !! j = Some n -> n_type n = VFS_NODE_FILE -> prot P -> walk (nodes v) ch 0 P <> Some j.

Definition confined {E} (k : kernel E) (ch : nat -> list nat) : Prop :=
  wf (fs k) ch /\
  exists p, the_proc k = Some p /\ p_uid p <> 0 /\ p_state p <> PROCESS_UNUSED /\ fds_ok (fs k) ch p.

(** What a call of such a process leads to. *)
Definition secure {E} (k : kernel E) (ch : nat -> list nat) (k' : kernel E) : Prop :=
  exists ch', confined k' ch' /\ guarded (fs k) ch (fs k') ch'.

Lemma fds_ok_mono v ch v' ch' p p' : wf v ch -> guarded v ch v' ch' -> le_proc p p' -> fds_ok v ch p ->
  fds_ok v' ch' p'.
Proof.
  intros W G (_ & _ & Hf) H f j n' P Hin Hu Hw Hj Hn Ht HP Hwalk.
  destruct (Hf f Hin Hu) as (f0 & Hin0 & Hu0 & En & Ef). destruct (G P HP) as [Gw Gn]. rewrite Gw in Hwalk.
  destruct (walk_valid v ch P 0 j W) as [n Hnj]; [by apply (wf_root_lookup v ch)|done|].
  destruct (Gn j n Hwalk Hnj) as (n2 & Hn2 & [_ Ht2]%attrs_name).
  apply (H f0 j n P); try done; unfold fd_writes in *; congruence.
Qed.

Lemma fds_ok_guarded v ch v' ch' p : wf v ch -> guarded v ch v' ch' -> fds_ok v ch p -> fds_ok v' ch' p.
Proof. intros W G. apply fds_ok_mono; [done|done|apply le_proc_refl]. Qed.

Section Secure.
Context {E : Type} {M : Machine E} (kmalloc_ok : Z -> bool) (str_fuel : nat).
Implicit Types k : kernel E.

Lemma secure_tree k ch k' ch' p p' : confined k ch -> the_proc k = Some p -> the_proc k' = Some p' ->
  wf (fs k') ch' -> guarded (fs k) ch (fs k') ch' -> le_proc p p' -> secure k ch k'.
Proof.
  intros (W & q & Hq & Hu & Hs & Hf) Hp Hp' W' G Hle. simplify_eq. exists ch'. split; [|done].
  split; [done|]. exists p'. pose proof Hle as (Eu & Es & _). split_and!; [done|congruence|tauto|].
  exact (fds_ok_mono _ _ _ _ _ _ W G Hle Hf).
Qed.

Lemma wf_same v v' ch : nodes v' = nodes v -> root_node v' = root_node v -> wf v ch -> wf v' ch.
Proof. intros En Er [? ? ? ? ? ? ? ? ?]. split; rewrite ?En, ?Er; done. Qed.

Lemma keeps_secure k ch k' : confined k ch -> keeps k k' -> secure k ch k'.
Proof.
  intros C (En & Er & Hp). pose proof C as (W & p & Ep & _). destruct (Hp p Ep) as (p' & Ep' & Hle).
  apply (secure_tree k ch k' ch p p'); try done; [by eapply wf_same|by apply guarded_refl].
Qed.

Lemma the_proc_fs k v : the_proc (set_fs k v) = the_proc k.
Proof. done. Qed.

(** The tree changes, the process does not. *)
Lemma secure_fs k ch v ch' : confined k ch -> wf v ch' -> guarded (fs k) ch v ch' -> secure k ch (set_fs k v).
Proof.
  intros C W G. pose proof C as (_ & p & Ep & _). apply (secure_tree k ch _ ch' p p); try done. apply le_proc_refl.
Qed.

Lemma confined_proc k ch p : confined k ch -> proc_of k = Some (Some p) ->
  the_proc k = Some p /\ p_uid p <> 0 /\ is_root (Some p) = false.
Proof.
  intros (_ & q & Hq & Hu & _) H%proc_of_the_proc. simplify_eq. split_and!; try done. by apply Z.eqb_neq.
Qed.

Lemma confined_on_path a k ch f k' r : confined k ch ->
  (forall p path P, proc_of k = Some (Some p) -> norm_comps path (Some (p_cwd p)) = Some P ->
     (forall cwd, norm_comps (path_of P) cwd = Some P) ->
     f p (path_of P) = Some (k', r) -> secure k ch k') ->
  on_path str_fuel a k f = Some (k', r) -> secure k ch k'.
Proof.
  intros C Hf. unfold on_path. destruct (proc_of k) as [[p|]|] eqn:Ep; [| |done]; rewrite bind_some;
    [|intros [= <- _]; apply keeps_secure, keeps_refl; done].
  destruct (path_arg str_fuel a k) as [[path|]|]; [| |done]; rewrite bind_some;
    [|intros [= <- _]; apply keeps_secure, keeps_refl; done].
  destruct (normalize_for_process_comps p path) as (n & -> & Hn). rewrite bind_some.
  destruct n as [normal|]; [|intros [= <- _]; apply keeps_secure, keeps_refl; done].
  destruct (Hn normal eq_refl) as (P & HP & -> & Hi). by apply (Hf p path P).
Qed.

Lemma mkdir_secure a mode k ch k' r : confined k ch -> mkdir str_fuel a mode k = Some (k', r) -> secure k ch k'.
Proof.
  intros C. apply confined_on_path; [done|]. intros p path P Hp _ HP. cbv beta.
  destruct (confined_proc k ch p C Hp) as (_ & _ & ->). cbn [negb andb].
  destruct (path_requires_root_for_mutation (path_of P)) eqn:Epr;
    [intros [= <- _]; by apply keeps_secure, keeps_refl|].
  destruct (can_create_in_parent _ _ _) as [[]|]; [| |done]; rewrite bind_some; cbn [negb];
    [|intros [= <- _]; by apply keeps_secure, keeps_refl].
  pose proof C as (W & _).
  destruct (vfs_add_run (fs k) ch VFS_NODE_DIR (path_of P) (Some [SLASH])
              (Z.lor VFS_S_IFDIR (Z.land (u32 mode) 0x1ff)) (p_uid p) (p_gid p) W) as (v & ch' & rc & Ea & W' & Ho).
  unfold vfs_mkdir. rewrite Ea, bind_some. intros [= <- _]. apply (secure_fs k ch v ch'); try done.
  eapply add_guarded; [apply HP| |exact Ho]. unfold prot. by rewrite Epr.
Qed.

Lemma unlink_secure a k ch k' r : confined k ch -> unlink str_fuel a k = Some (k', r) -> secure k ch k'.
Proof.
  intros C. apply confined_on_path; [done|]. intros p path P Hp _ HP. cbv beta.
  destruct (confined_proc k ch p C Hp) as (_ & _ & ->). cbn [negb andb].
  assert (secure k ch k) as Hsame by (by apply keeps_secure, keeps_refl).
  destruct (bytes_eq _ _); [by intros [= <- _]|].
  destruct (vfs_lookup _ _ _) as [node|]; [rewrite bind_some|done].
  destruct (lookup_parent_from_normal _ _) as [parent|]; [rewrite bind_some|done].
  destruct (deref _ parent) as [d|]; [rewrite bind_some|done].
  destruct node as [i|]; [|by intros [= <- _]]. destruct d as [dn|]; [|by intros [= <- _]].
  destruct (negb _); [by intros [= <- _]|].
  destruct (path_requires_root_for_mutation (path_of P)) eqn:Epr; [by intros [= <- _]|].
  destruct (_ || _); [by intros [= <- _]|]. pose proof C as (W & _).
  destruct (vfs_unlink_run (fs k) ch (path_of P) (Some [SLASH]) W) as (v & ch' & rc & Ea & W' & Ho).
  rewrite Ea, bind_some. intros [= <- _]. apply (secure_fs k ch v ch'); try done.
  eapply del_guarded; [apply HP| |exact Ho]. unfold prot. by rewrite Epr.
Qed.

(** The node of a path that is not protected may be rewritten. *)
Lemma secure_rewrite k ch P i n n' v : confined k ch -> ~ prot P -> walk (nodes (fs k)) ch 0 P = Some i ->
  nodes (fs k) !! i = Some n -> nodes v = <[i := n']> (nodes (fs k)) -> root_node v = root_node (fs k) ->
  same_links n n' -> secure k ch (set_fs k v).
Proof.
  intros C HP Hw Hi Ev Er Hs. pose proof C as (W & _).
  destruct (rewrite_guarded (fs k) ch i n n' v W Hi Ev Er Hs) as [W' G]; [by apply (walk_unprotected _ _ P)|].
  by apply (secure_fs k ch v ch).
Qed.

Lemma chmod_secure a mode k ch k' r : confined k ch -> chmod str_fuel a mode k = Some (k', r) -> secure k ch k'.
Proof.
  intros C. apply confined_on_path; [done|]. intros p path P Hp _ HP. cbv beta.
  destruct (confined_proc k ch p C Hp) as (_ & _ & ->). cbn [negb andb]. pose proof C as (W & _).
  assert (secure k ch k) as Hsame by (by apply keeps_secure, keeps_refl).
  unfold vfs_chmod. rewrite (vfs_lookup_spec (fs k) ch) by done. rewrite HP, !bind_some.
  destruct (walk (nodes (fs k)) ch 0 P) as [i|] eqn:Ew; [|by intros [= <- _]]. cbn [deref].
  destruct (nodes (fs k) !! i) as [n|] eqn:Ei; [rewrite !bind_some|done].
  destruct (path_requires_root_for_mutation (path_of P)) eqn:Epr; [by intros [= <- _]|].
  destruct (negb _); [by intros [= <- _]|].
  rewrite (update_some _ _ _ n) by done. rewrite !bind_some. intros [= <- _].
  eapply (secure_rewrite k ch P i n); [done|unfold prot; by rewrite Epr|done|done|done|done|]. by repeat split.
Qed.

Lemma chown_secure a uid gid k ch k' r : confined k ch -> chown str_fuel a uid gid k = Some (k', r) -> secure k ch k'.
Proof.
  intros C. unfold chown. pose proof C as (_ & p & Hp%proc_of_the_proc & _). rewrite Hp, bind_some.
  destruct (confined_proc k ch p C Hp) as (_ & _ & ->). cbn [negb]. intros [= <- _].
  by apply keeps_secure, keeps_refl.
Qed.

Lemma write_file_secure p fd f i n buf count k ch k' r : confined k ch -> the_proc k = Some p ->
  process_get_fd p fd = Some f -> fd_writes f = true -> fd_node f = Some i -> nodes (fs k) !! i = Some n ->
  write_file kmalloc_ok p fd f i n buf count k = Some (k', r) -> secure k ch k'.
Proof.
  intros C Hp Hf Hw Hi Hn. unfold write_file. cbv zeta.
  set (f1 := if has (fd_flags f) VFS_O_APPEND then _ else f).
  assert (f1 = set_offset f (fd_offset f1) (fd_dirty f1)) as E1 by (unfold f1; destruct (has _ _), f; done).
  match goal with |- (mbind _ ?x) = _ -> _ => destruct x as [[v ret]|] eqn:Ev end; [rewrite bind_some|done].
  intros [= <- _]. set (f2 := if 0 <? ret then _ else f1).
  assert (le_proc p (put_fd p fd f2)) as Hle.
  { assert (f2 = set_offset f (fd_offset f2) (fd_dirty f2)) as -> by (unfold f2; rewrite E1; by destruct (0 <? ret)).
    by eapply le_proc_offset. }
  assert (the_proc (set_proc k (put_fd p fd f2)) = Some (put_fd p fd f2)) as Hp2 by (by eapply the_proc_set).
  pose proof C as (W & q & Hq & _ & _ & Hok). simplify_eq.
  assert (v = fs k \/ n_type n = VFS_NODE_FILE /\
          exists n', nodes v = <[i := n']> (nodes (fs k)) /\ root_node v = root_node (fs k) /\ same_links n n') as Hv.
  { destruct (buf =? 0); [injection Ev as <- _; by left|]. by eapply write_node_frame. }
  destruct Hv as [->|(Ht & n' & En & Er & Hs)].
  - by eapply (secure_tree k ch _ ch p); [..|apply guarded_refl|].
  - destruct (get_fd_in p fd f Hf) as [Hin Hu].
    destruct (rewrite_guarded (fs k) ch i n n' v W Hn En Er Hs) as [W' G].
    { intros P HP. by apply (Hok f i n P). }
    by apply (secure_tree k ch _ ch p (put_fd p fd f2)).
Qed.

Lemma sys_write_secure fd buf count k ch k' r : confined k ch ->
  sys_write kmalloc_ok fd buf count k = Some (k', r) -> secure k ch k'.
Proof.
  intros C. assert (secure k ch k) as Hsame by (by apply keeps_secure, keeps_refl). unfold sys_write.
  destruct (_ && _); [by intros [= <- _]|].
  destruct (_ || _); [intros [= <- _]; apply keeps_secure; [done|by apply keeps_core]|].
  destruct (fd_of k fd) as [[[p f]|]|] eqn:Ef; [| |done]; rewrite bind_some; [|by intros [= <- _]].
  apply fd_of_spec in Ef as [Hp Hf]. destruct (_ && _) eqn:Efl; [by intros [= <- _]|].
  destruct (fd_node f) as [i|] eqn:Ei; [rewrite bind_some|done].
  destruct (nodes (fs k) !! i) as [n|] eqn:En; [rewrite bind_some|done].
  destruct (_ =? _); [intros H; apply keeps_secure; [done|by eapply write_device_keeps]|].
  apply write_file_secure; try done. unfold fd_writes. by destruct (has _ VFS_O_WRONLY), (has _ VFS_O_RDWR).
Qed.

(** *** Opening *)

Lemma process_open_fd_spec v p j flags p' rc : process_open_fd v p (Some j) flags = Some (p', rc) ->
  p' = p /\ rc = -1 \/
  exists i old off, find_free 0 (p_fds p) = Some i /\ p_fds p !! i = Some old /\ rc = Z.of_nat i /\
    p' = put_fd p rc (Fd true (fd_dirty old) flags off (Some j)).
Proof.
  unfold process_open_fd. destruct (find_free 0 (p_fds p)) as [i|]; [|intros [= <- <-]; by left].
  destruct (nodes v !! j) as [n|]; [rewrite bind_some|done].
  destruct (p_fds p !! i) as [old|] eqn:Eo; [rewrite bind_some|done].
  intros [= <- <-]. right. exists i, old. eexists. split_and!; try done. unfold put_fd. by rewrite Nat2Z.id.
Qed.

Lemma fds_ok_put v ch p i f : fds_ok v ch p ->
  (forall j n P, fd_writes f = true -> fd_node f = Some j -> nodes v !! j = Some n -> n_type n = VFS_NODE_FILE ->
     prot P -> walk (nodes v) ch 0 P <> Some j) ->
  fds_ok v ch (put_fd p i f).
Proof.
  intros H Hf g j n P Hg Hu Hw. cbn [put_fd set_fds p_fds] in Hg. apply list_elem_of_lookup in Hg as [x Hg].
  apply list_lookup_insert_Some in Hg as [(_ & <- & _)|[_ Hg]]; [by apply Hf|].
  apply (H g); [by eapply list_elem_of_lookup_2|done|done].
Qed.

Lemma writes_wants f flags : fd_flags f = flags -> fd_writes f = true -> open_wants_write flags = true.
Proof. unfold fd_writes, open_wants_write. intros ->. by intros ->. Qed.

(** What opening the node of a path does. *)
Lemma open_node_spec v ch p P j n flags p' v' rc : wf v ch -> fds_ok v ch p -> walk (nodes v) ch 0 P = Some j ->
  nodes v !! j = Some n -> (open_wants_write flags = true -> ~ prot P) ->
  open_node p j n flags v = Some (p', v', rc) ->
  wf v' ch /\ guarded v ch v' ch /\ fds_ok v' ch p' /\ p_uid p' = p_uid p /\ p_state p' = p_state p.
Proof.
  intros W Hok Hw Hn Hnp. assert (forall v1 f i, wf v1 ch -> guarded v ch v1 ch -> fd_flags f = flags ->
    fd_node f = Some j -> fds_ok v1 ch (put_fd p i f)) as Hput.
  { intros v1 f i W1 G Ef Ej. apply fds_ok_put; [by apply (fds_ok_guarded v ch)|].
    intros j' n' Q Hwr Ej' _ _ HQ Hq. rewrite Ej in Ej'. injection Ej' as <-. destruct (G Q HQ) as [Gw _].
    rewrite Gw in Hq. apply (walk_unprotected v ch P j W (Hnp (writes_wants f flags Ef Hwr)) Hw Q HQ Hq). }
  unfold open_node. destruct (_ && _) eqn:Et.
  - apply andb_true_iff in Et as [[_ Hww]%andb_true_iff _]. rewrite (update_some _ _ _ n), bind_some by done.
    set (n' := set_modified _ _). set (v1 := with_nodes v _).
    destruct (rewrite_guarded v ch j n n' v1 W Hn eq_refl eq_refl) as [W1 G1]; [by repeat split| |].
    { apply (walk_unprotected v ch P j W (Hnp Hww) Hw). }
    assert (fds_ok v1 ch p) as Hok1 by (by apply (fds_ok_guarded v ch)).
    destruct (process_open_fd v1 p (Some j) flags) as [[q fd]|] eqn:Eo; [rewrite bind_some|done].
    apply process_open_fd_spec in Eo as [[-> ->]|(i & old & off & _ & _ & -> & ->)].
    { intros [= <- <- _]. by split_and!. }
    rewrite (proj2 (Z.leb_le _ _)) by lia.
    match goal with |- context [process_get_fd ?x ?y] => destruct (process_get_fd x y) as [f|] eqn:Eg end;
      intros [= <- <- _]; split_and!; try done; [|by apply Hput].
    apply get_fd_in in Eg as [Hin Hu]. set (q := put_fd p _ _) in *.
    assert (fds_ok v1 ch q) as Hq by (by apply Hput).
    eapply fds_ok_mono; [done|by apply guarded_refl| |exact Hq]. apply le_proc_put. intros _. by exists f.
  - destruct (process_open_fd v p (Some j) flags) as [[q fd]|] eqn:Eo; [rewrite bind_some|done].
    intros [= <- <- _]. assert (guarded v ch v ch) as G by (by apply guarded_refl).
    apply process_open_fd_spec in Eo as [[-> ->]|(i & old & off & _ & _ & -> & ->)]; split_and!; try done.
    by apply Hput.
Qed.

Lemma open_create_spec v ch p P flags mode node v1 r : wf v ch -> is_root (Some p) = false ->
  (forall cwd, norm_comps (path_of P) cwd = Some P) -> node = walk (nodes v) ch 0 P ->
  open_create p (path_of P) flags mode node v = Some (v1, r) ->
  exists ch1, wf v1 ch1 /\ guarded v ch v1 ch1 /\ forall j, r = Some (Some j) -> walk (nodes v1) ch1 0 P = Some j.
Proof.
  intros W Hr HP ->. unfold open_create. assert (guarded v ch v ch) as G by (by apply guarded_refl).
  destruct (walk (nodes v) ch 0 P) as [j|] eqn:Ew; [intros [= <- <-]; exists ch; split_and!; naive_solver|].
  destruct (has flags VFS_O_CREAT); [|intros [= <- <-]; by exists ch]. rewrite Hr. cbn [negb andb].
  destruct (path_requires_root_for_mutation (path_of P)) eqn:Epr; [intros [= <- <-]; by exists ch|].
  destruct (can_create_in_parent _ _ _) as [[]|]; [| |done]; rewrite bind_some; cbn [negb];
    [|intros [= <- <-]; by exists ch].
  destruct (vfs_add_run v ch VFS_NODE_FILE (path_of P) (Some [SLASH]) (Z.lor VFS_S_IFREG (Z.land mode 0x1ff))
              (p_uid p) (p_gid p) W) as (v2 & ch2 & rc & Ea & W2 & Ho).
  unfold vfs_create_file. rewrite Ea, bind_some.
  assert (guarded v ch v2 ch2) as G2 by (eapply add_guarded; [apply HP| |exact Ho]; unfold prot; by rewrite Epr).
  destruct (rc <? 0); [intros [= <- <-]; by exists ch2|]. rewrite (vfs_lookup_spec v2 ch2) by done.
  rewrite HP, !bind_some. intros [= <- <-]. exists ch2. split_and!; try done. by intros j [= ?].
Qed.

Lemma open_path_secure p path flags mode v ch p' v' rc : wf v ch -> fds_ok v ch p -> is_root (Some p) = false ->
  open_path p path flags mode v = Some (p', v', rc) ->
  exists ch', wf v' ch' /\ guarded v ch v' ch' /\ fds_ok v' ch' p' /\ p_uid p' = p_uid p /\ p_state p' = p_state p.
Proof.
  intros W Hok Hr. assert (guarded v ch v ch) as G by (by apply guarded_refl). unfold open_path.
  destruct (normalize_for_process_comps p path) as (n & -> & Hn). rewrite bind_some.
  destruct n as [normal|]; [|intros [= <- <- _]; by exists ch].
  destruct (Hn normal eq_refl) as (P & _ & -> & HP). rewrite (vfs_lookup_spec v ch) by done.
  rewrite HP, !bind_some. destruct (_ && _); [intros [= <- <- _]; by exists ch|].
  destruct (open_create _ _ _ _ _ _) as [[v1 r]|] eqn:Ec; [rewrite bind_some|done].
  destruct (open_create_spec v ch p P flags mode _ v1 r W Hr HP eq_refl Ec) as (ch1 & W1 & G1 & Hj).
  assert (fds_ok v1 ch1 p) as Hok1 by (by apply (fds_ok_guarded v ch)).
  destruct r as [[j|]|]; [|intros [= <- <- _]; by exists ch1..].
  destruct (nodes v1 !! j) as [n|] eqn:En; [rewrite bind_some|done].
  destruct (open_allowed _ _ _ _) eqn:Ea; [|intros [= <- <- _]; by exists ch1].
  intros Ho. apply (open_node_spec v1 ch1 p P j n flags p' v' rc) in Ho as (W2 & G2 & H2 & H3 & H4);
    try done; [|by apply Hj|].
  - exists ch1. split_and!; try done. by eapply guarded_trans.
  - intros Hww HPr. unfold open_allowed, prot in *. rewrite Hr, Hww, HPr in Ea. cbn [negb andb] in Ea.
    by rewrite andb_false_r in Ea.
Qed.

Lemma sys_open_secure a flags mode k ch k' r : confined k ch ->
  sys_open str_fuel a flags mode k = Some (k', r) -> secure k ch k'.
Proof.
  intros C. assert (secure k ch k) as Hsame by (by apply keeps_secure, keeps_refl). unfold sys_open.
  destruct (negb _); [by intros [= <- _]|]. unfold with_path.
  destruct (proc_of k) as [[p|]|] eqn:Ep; [| |done]; rewrite bind_some; [|by intros [= <- _]].
  destruct (confined_proc k ch p C Ep) as (Hp & Hu & Hroot). pose proof C as (W & q & Hq & _ & Hst & Hok).
  simplify_eq. destruct (ustring _ _ _) as [path|]; [rewrite bind_some|done].
  destruct (open_path _ _ _ _ _) as [[[p' v'] rc]|] eqn:Eo; [rewrite bind_some|done]. intros [= <- _].
  destruct (open_path_secure p path flags mode (fs k) ch p' v' rc W Hok Hroot Eo)
    as (ch' & W' & G' & Hok' & Eu & Es).
  exists ch'. split; [|done]. split; [done|]. exists p'. split_and!; [|congruence|congruence|done].
  rewrite the_proc_fs. by eapply the_proc_set.
Qed.

End Secure.

#[export] Hint Resolve sys_read_keeps sys_lseek_keeps sys_access_keeps sys_readdir_keeps sys_fstat_keeps
  sys_ioctl_keeps sys_sigaction_keeps sys_brk_keeps sys_nanosleep_keeps sys_poll_keeps sys_select_keeps
  close_fd_keeps chdir_keeps getcwd_keeps stat_keeps about_proc_keeps exit_keeps : keeps.

(** The calls whose code is modelled: all but starting a program and the ones on
    the radio and the resolver. *)
Definition modelled_calls : list Z :=
  [SYS_READ; SYS_WRITE; SYS_OPEN; SYS_CLOSE; SYS_SPAWN; SYS_WAIT; SYS_EXIT; SYS_GETPID; SYS_CHDIR; SYS_GETCWD;
   SYS_MKDIR; SYS_UNLINK; SYS_STAT; SYS_CHMOD; SYS_CHOWN; SYS_GETUID; SYS_GETGID; SYS_LSEEK; SYS_ACCESS; SYS_DUP;
   SYS_DUP2; SYS_GETPPID; SYS_READDIR; SYS_IOCTL; SYS_UPTIME_MS; SYS_BRK; SYS_SIGACTION; SYS_FSTAT; SYS_NANOSLEEP;
   SYS_POLL; SYS_BLOCK_GET_COUNT; SYS_BLOCK_GET_INFO; SYS_BLOCK_READ; SYS_BLOCK_WRITE; SYS_BLOCK_SYNC; SYS_LOGIN; SYS_SYNC; SYS_MMAP; SYS_SELECT; SYS_PSELECT; SYS_SHUTDOWN; SYS_REBOOT; SYS_SET_PASSWORD; SYS_ADD_USER;
   SYS_DEL_USER; SYS_SOCKET; SYS_CONNECT; SYS_SEND; SYS_RECV].

(** One case of the dispatcher: a call that [keeps], or one with its own lemma. *)
Ltac case_keeps C :=
  match goal with |- (if ?b then _ else _) = _ -> _ => destruct b end;
  [intros [= H]; apply (keeps_secure _ _ _ C); eauto with keeps|].
Tactic Notation "case_with" uconstr(t) :=
  match goal with |- (if ?b then _ else _) = _ -> _ => destruct b end; [intros [= H]; eapply t; eassumption|].

Section Dispatch.
Context {E : Type} {M : Machine E} (kmalloc_ok : Z -> bool) (str_fuel : nat).
Context (other_call : Z -> Z -> Z -> Z -> Z -> Z -> Z -> kernel E -> option (kernel E * Z)).
Implicit Types k : kernel E.

Lemma dispatch_file_secure fuel n a0 a1 a2 k ch k' r : confined k ch ->
  dispatch_file kmalloc_ok str_fuel fuel n a0 a1 a2 k = Some (Some (k', r)) -> secure k ch k'.
Proof.
  intros C. unfold dispatch_file.
  case_keeps C. case_with sys_write_secure. case_with sys_open_secure. do 3 case_keeps C.
  match goal with |- (if ?b then _ else _) = _ -> _ => destruct b end.
  { intros [= H]. apply (keeps_secure _ _ _ C). eapply dup_with_keeps; [|exact H]. intros ? ? ?. apply le_proc_dup. }
  match goal with |- (if ?b then _ else _) = _ -> _ => destruct b end.
  { intros [= H]. apply (keeps_secure _ _ _ C). eapply dup_with_keeps; [|exact H]. intros ? ? ?. apply le_proc_dup2. }
  do 5 case_keeps C. case_with mkdir_secure. case_with unlink_secure. case_keeps C.
  case_with chmod_secure. case_with chown_secure. done.
Qed.

(** A new process takes a free slot, not that of the current one. *)
Lemma spawn_secure a k ch k' r : confined k ch -> spawn str_fuel a k = Some (k', r) -> secure k ch k'.
Proof.
  intros C. unfold spawn. destruct (user_current _) as [u|]; [rewrite bind_some|done].
  destruct (proc_of k) as [proc|]; [rewrite bind_some|done].
  destruct (ustring _ _ _) as [s|]; [rewrite bind_some|done]. cbv zeta.
  match goal with |- (mbind _ ?x) = _ -> _ => destruct x as [[ps child]|] eqn:Ec end; [rewrite bind_some|done].
  assert (secure k ch (set_procs k ps)) as Hs.
  { pose proof C as (W & p & Hp & Hu & Hst & Hok). unfold process_create in Ec.
    destruct (find_process unused _) as [i|] eqn:Ei; [|injection Ec as <- _; by apply keeps_secure, keeps_core].
    destruct (_ =? _); [done|]. cbv zeta in Ec.
    match type of Ec with mbind _ ?x = _ => destruct x as [q|] end; [|done]. rewrite bind_some in Ec.
    injection Ec as <- _. apply (secure_tree k ch _ ch p p); try done; [|by apply guarded_refl|apply le_proc_refl].
    unfold the_proc, proc_of in *. cbn [k_procs set_procs current processes].
    destruct (current (k_procs k)) as [c|] eqn:Ecur; [|done].
    destruct (processes (k_procs k) !! c) as [x|] eqn:Ex; [|done]. rewrite !bind_some in Hp. injection Hp as ->.
    rewrite list_lookup_insert_ne, Ex; [done|]. intros <-.
    clear -Ei Ex Hst. revert i Ei Ex. induction (processes (k_procs k)) as [|y l IH]; intros i Ei Ex; [done|].
    cbn [find_process] in Ei. destruct (unused y) eqn:Ey.
    - injection Ei as <-. injection Ex as ->. unfold unused in Ey. by apply bool_decide_eq_true in Ey.
    - destruct (find_process unused l) as [j|]; [|done]. injection Ei as <-. by apply (IH j). }
  destruct child as [i|]; [|by intros [= <- _]]. destruct (processes ps !! i) as [c|]; [|done].
  rewrite bind_some. by intros [= <- _].
Qed.

Lemma dispatch_process_secure fuel n a0 a1 a2 a3 a4 k ch k' r : confined k ch -> n <> SYS_LOGIN ->
  n <> SYS_SET_PASSWORD ->
  dispatch_process kmalloc_ok str_fuel fuel n a0 a1 a2 a3 a4 k = Some (Some (k', r)) -> secure k ch k'.
Proof.
  intros C Hl Hs. assert (secure k ch k) as Hsame by (by apply keeps_secure, keeps_refl). unfold dispatch_process.
  do 4 case_keeps C. destruct (n =? SYS_UPTIME_MS).
  { asks. intros [= <- _]. by apply keeps_secure, keeps_core. }
  do 5 case_keeps C. case_with spawn_secure. destruct (n =? SYS_WAIT); [by intros [= <- _]|].
  destruct (Z.eqb_spec n SYS_LOGIN); [done|]. destruct (Z.eqb_spec n SYS_SET_PASSWORD); [done|].
  pose proof C as (_ & p & Hp%proc_of_the_proc & _). destruct (confined_proc k ch p C Hp) as (_ & _ & Hroot).
  destruct (n =? SYS_ADD_USER).
  { unfold sys_add_user. rewrite Hp, bind_some, Hroot. by intros [= <- _]. }
  destruct (n =? SYS_DEL_USER).
  { unfold sys_del_user. rewrite Hp, bind_some, Hroot. by intros [= <- _]. }
  destruct (n =? SYS_SYNC).
  { destruct (tfs_is_persistent _); [asks|]; intros [= <- _]; by apply keeps_secure, keeps_core. }
  destruct (n =? SYS_SOCKET); [by intros [= <- _]|]. destruct (n =? SYS_CONNECT); [by intros [= <- _]|].
  destruct (_ || _); [by intros [= <- _]|done].
Qed.

Lemma modelled_dispatched fuel n a0 a1 a2 a3 a4 k : n ∈ modelled_calls ->
  n = SYS_EXIT \/ n = SYS_SHUTDOWN \/ n = SYS_REBOOT \/
  is_Some (dispatch_file kmalloc_ok str_fuel fuel n a0 a1 a2 k) \/
  is_Some (dispatch_process kmalloc_ok str_fuel fuel n a0 a1 a2 a3 a4 k) \/
  is_Some (dispatch_block n a0 a1 a2 a3 a4 k).
Proof.
  unfold modelled_calls. rewrite !elem_of_cons.
  intros Hn. repeat (destruct Hn as [->|Hn];
    [first [by left|by right; left|by right; right; left|right; right; right; left; by eexists|
            right; right; right; right; left; by eexists|right; right; right; right; right; by eexists]|]).
  by apply elem_of_nil in Hn.
Qed.

Lemma syscall_secure fuel n a0 a1 a2 a3 a4 a5 k ch k' r : confined k ch -> n ∈ modelled_calls ->
  n <> SYS_LOGIN -> n <> SYS_SET_PASSWORD ->
  syscall_dispatch kmalloc_ok str_fuel other_call fuel n a0 a1 a2 a3 a4 a5 k = Some (k', r) -> secure k ch k'.
Proof.
  intros C Hn Hl Hs. pose proof C as (_ & p & Hp%proc_of_the_proc & _).
  destruct (confined_proc k ch p C Hp) as (Hthe & _ & Hroot). unfold syscall_dispatch. rewrite Hp, bind_some.
  match goal with |- context [if ?b then ask _ k else _] => set (c := b) end.
  assert (exists k1 stop, (if c then ask keyboard_consume_interrupt k else (k, false)) = (k1, stop) /\ keeps k k1 /\
            the_proc k1 = the_proc k) as (k1 & stop & -> & Hk & Ht).
  { destruct c; [asks|]; eexists _, _; (split; [done|]); (split; [by apply keeps_core|done]). }
  assert (secure k ch k1) as (ch1 & C1 & G1) by (by apply keeps_secure).
  assert (forall k2, secure k1 ch1 k2 -> secure k ch k2) as Hgo.
  { intros k2 (ch2 & C2 & G2). exists ch2. split; [done|]. by eapply guarded_trans. }
  destruct stop.
  { destruct (process_exit _ _ _) as [ps|] eqn:Ex; [rewrite bind_some|done]. intros [= <- _].
    apply Hgo, keeps_secure; [done|]. by eapply process_exit_current. }
  destruct (Z.eqb_spec n SYS_EXIT).
  { destruct (exit _ k1) as [[k2 r2]|] eqn:Ex; [rewrite bind_some|done]. intros [= <- _].
    apply Hgo, keeps_secure; [done|by eapply exit_keeps]. }
  rewrite Hroot. destruct (_ || _) eqn:Epow; [intros [= <- _]; by apply keeps_secure|].
  apply orb_false_iff in Epow as [Ep1%Z.eqb_neq Ep2%Z.eqb_neq].
  destruct (modelled_dispatched fuel n a0 a1 a2 a3 a4 k1 Hn) as [?|[?|[?|Hd]]]; [done..|].
  destruct (dispatch_file _ _ _ _ _ _ _ k1) as [res|] eqn:Ef.
  - intros ->. by eapply Hgo, dispatch_file_secure.
  - destruct (dispatch_process _ _ _ _ _ _ _ _ _ k1) as [res|] eqn:Epr.
    + intros ->. by eapply Hgo, dispatch_process_secure.
    + destruct (dispatch_block _ _ _ _ _ _ k1) as [res|] eqn:Eb; [|by destruct Hd as [[]|[[]|[]]]].
      intros ->. by eapply Hgo, keeps_secure, dispatch_block_keeps.
Qed.

End Dispatch.

(** ** What is protected *)

Lemma segs_join a b : segs (a ++ SLASH :: b) = segs a ++ segs b.
Proof.
  induction a as [|c a IH]; [done|]. cbn [app segs]. destruct (c =? SLASH); [by rewrite IH|].
  rewrite IH. destruct (segs a) eqn:E; [|done]. by destruct a as [|x a]; [|cbn in E; destruct (x =? SLASH), (segs a)].
Qed.

Lemma path_of_app Q R : Q <> [] -> path_of (Q ++ R) = path_of Q ++ concat (map (cons SLASH) R).
Proof. intros H. destruct Q as [|c Q]; [done|]. unfold path_of. cbn [app]. by rewrite <- concat_app, <- map_app. Qed.

Lemma path_of_inj P Q : Forall comp_ok P -> Forall comp_ok Q -> path_of P = path_of Q -> P = Q.
Proof.
  intros HP HQ H. destruct (decide (P = [])) as [->|Hp]; [symmetry; by apply path_of_root|].
  destruct (decide (Q = [])) as [->|Hq]; [by apply path_of_root|].
  apply (f_equal segs) in H. rewrite !segs_path_of in H by done. by injection H.
Qed.

(** The test on the text of a path is a test on its components. *)
Lemma path_is_or_under_spec P Q : Forall comp_ok P -> Forall comp_ok Q -> Q <> [] ->
  path_is_or_under (path_of P) (path_of Q) = true <-> Q `prefix_of` P.
Proof.
  intros HP HQ Hq. unfold path_is_or_under.
  assert (1 < length (path_of Q))%nat as Hl.
  { destruct Q as [|c Q]; [done|]. apply Forall_cons in HQ as [(Hc & _) _]. unfold path_of. cbn [map concat app length].
    rewrite length_app. destruct c; [done|simpl; lia]. }
  rewrite (proj2 (Nat.ltb_lt _ _)) by done. cbn [andb]. split.
  - destruct (bytes_eq (path_of P) (path_of Q)) eqn:E1.
    { intros _. destruct (bytes_eq_spec (path_of P) (path_of Q)); [|done]. by rewrite (path_of_inj P Q). }
    intros [E2 E3%Z.eqb_eq]%andb_true_iff. destruct (bytes_eq_spec (take (length (path_of Q)) (path_of P)) (path_of Q)) as [E2'|]; [|done].
    assert (exists rest, path_of P = path_of Q ++ SLASH :: rest) as [rest Hr].
    { pose proof (take_drop (length (path_of Q)) (path_of P)) as Ht. rewrite E2' in Ht. rewrite <- Ht in E3.
      rewrite app_nth2, Nat.sub_diag in E3 by lia. destruct (drop _ (path_of P)) as [|c rest]; [done|].
      exists rest. rewrite <- Ht. cbn [nth] in E3. by rewrite E3. }
    destruct (decide (P = [])) as [->|Hp].
    { exfalso. apply (f_equal length) in Hr. rewrite length_app in Hr. simpl in Hr. lia. }
    apply (f_equal segs) in Hr. rewrite segs_join, !segs_path_of in Hr by done. injection Hr as Hr. by exists (segs rest).
  - intros [R ->]. rewrite path_of_app by done. destruct R as [|c R].
    { cbn [map concat]. rewrite !app_nil_r. by destruct (bytes_eq_spec (path_of Q) (path_of Q)). }
    destruct (bytes_eq _ _); [done|]. rewrite take_app_length.
    destruct (bytes_eq_spec (path_of Q) (path_of Q)); [|done]. cbn [map concat app andb].
    rewrite app_nth2 by lia. by rewrite Nat.sub_diag.
Qed.

(** The directories of [path_requires_root_for_mutation], as components. *)
Definition protected_dirs : list (list (list Z)) :=
  [[str "bin"]; [str "boot"]; [str "dev"]; [str "etc"]; [str "lib"]; [str "proc"]; [str "root"]; [str "sbin"];
   [str "usr"]; [str "var"; str "cache"]; [str "var"; str "db"]; [str "var"; str "log"]; [str "var"; str "run"]].

Definition comp_okb (c : list Z) : bool :=
  negb (bool_decide (c = [])) && negb (bool_decide (c = str ".")) && negb (bool_decide (c = str "..")) &&
  forallb (fun x => negb (x =? SLASH)) c && (length c <=? VFS_NAME_MAX)%nat.

Lemma comp_okb_ok c : comp_okb c = true -> comp_ok c.
Proof.
  unfold comp_okb. intros [[[[H1 H2]%andb_true_iff H3]%andb_true_iff H4]%andb_true_iff H5]%andb_true_iff.
  apply negb_true_iff, bool_decide_eq_false in H1. apply negb_true_iff, bool_decide_eq_false in H2.
  apply negb_true_iff, bool_decide_eq_false in H3. apply Nat.leb_le in H5. split_and!; try done.
  apply Forall_forall. intros x Hx. rewrite forallb_forall in H4.
  apply list_elem_of_In in Hx. by apply Z.eqb_neq, negb_true_iff, H4.
Qed.

Lemma protected_dirs_ok : Forall (Forall comp_ok) protected_dirs.
Proof.
  assert (forallb (forallb comp_okb) protected_dirs = true) as H by (vm_compute; reflexivity).
  rewrite forallb_forall in H. apply Forall_forall. intros d Hd%list_elem_of_In%H.
  rewrite forallb_forall in Hd. apply Forall_forall. intros c Hc%list_elem_of_In%Hd. by apply comp_okb_ok.
Qed.

Lemma no_root_dir : [] ∉ protected_dirs.
Proof. apply (bool_decide_eq_false_1 ([] ∈ protected_dirs)). vm_compute. reflexivity. Qed.

(** C5 The protection test on the text of a normalized path is exact: it holds
    of the root and of the paths that are one of the thirteen listed
    directories or go through one, component by component - so [/etc/passwd]
    is protected, [/etcetera] and [/var/tmp] are not. *)
Theorem protection_exact P : Forall comp_ok P ->
  path_requires_root_for_mutation (path_of P) = true <->
  P = [] \/ exists d, d ∈ protected_dirs /\ d `prefix_of` P.
Proof.
  intros HP. unfold path_requires_root_for_mutation.
  assert (protected_prefixes = path_of [] :: map path_of protected_dirs) as -> by (vm_compute; reflexivity).
  cbn [existsb]. rewrite orb_true_iff. f_equiv.
  - rewrite <- (path_of_root P HP). unfold path_is_or_under.
    destruct (bytes_eq_spec (path_of P) (path_of [])) as [E|E]; [by rewrite E|]. cbn. split; [done|]. intros ?. by destruct E.
  - rewrite existsb_exists. split.
    + intros (x & (d & <- & Hd)%in_map_iff & Hx). apply list_elem_of_In in Hd. exists d. split; [done|].
      apply path_is_or_under_spec in Hx; [done|done| |by intros ->; apply no_root_dir].
      by eapply Forall_forall in Hd; [|apply protected_dirs_ok].
    + intros (d & Hd & Hp). exists (path_of d). split; [apply in_map, list_elem_of_In, Hd|].
      apply path_is_or_under_spec; [done| | |done]; [|by intros ->; apply no_root_dir].
      by eapply Forall_forall in Hd; [|apply protected_dirs_ok].
Qed.

Lemma protection_exact_witness :
  Forall comp_ok [str "etc"; str "passwd"] /\
  (path_requires_root_for_mutation (path_of [str "etc"; str "passwd"]) = true <->
   [str "etc"; str "passwd"] = [] \/ exists d, d ∈ protected_dirs /\ d `prefix_of` [str "etc"; str "passwd"]).
Proof.
  assert (Forall comp_ok [str "etc"; str "passwd"]) as H.
  { repeat apply Forall_cons_2; [apply comp_okb_ok; vm_compute; reflexivity..|apply Forall_nil_2]. }
  split; [exact H|]. apply protection_exact. exact H.
Defined.

(** ** The properties of a process without the rights of root *)

Section Unprivileged.
Context {E : Type} {M : Machine E} (kmalloc_ok : Z -> bool) (str_fuel : nat).
Context (other_call : Z -> Z -> Z -> Z -> Z -> Z -> Z -> kernel E -> option (kernel E * Z)).

(** The tree is well-formed; the current process is not root and has no file
    at a protected path open for writing. *)
Definition unprivileged (k : kernel E) : Prop := exists ch, confined k ch.

(** What happens while the process runs: it makes a call, or it writes to its
    memory while the machine goes on. The calls that check a password are left
    out, since they act for the user whose password it is. *)
Inductive user_step (k : kernel E) : kernel E -> Prop :=
| user_call fuel n a0 a1 a2 a3 a4 a5 k' r : n ∈ modelled_calls -> n <> SYS_LOGIN -> n <> SYS_SET_PASSWORD ->
    syscall_dispatch kmalloc_ok str_fuel other_call fuel n a0 a1 a2 a3 a4 a5 k = Some (k', r) -> user_step k k'
| user_run m e : user_step k (set_env (set_mem k m) e).

Lemma user_steps_secure k k' : rtc user_step k k' -> forall ch, confined k ch -> secure k ch k'.
Proof.
  induction 1 as [k|k k1 k2 Hs _ IH]; intros ch C; [by apply keeps_secure, keeps_refl|].
  assert (secure k ch k1) as (ch1 & C1 & G1).
  { destruct Hs; [by eapply syscall_secure|]. by apply keeps_secure, keeps_core. }
  destruct (IH ch1 C1) as (ch2 & C2 & G2). exists ch2. split; [done|]. by eapply guarded_trans.
Qed.


End Unprivileged.

(** ** A machine that does nothing, and a kernel on it *)

Module Still.

#[global] Instance still : Machine unit := {
  console_getchar e := (e, 10); keyboard_try_getchar e := (e, -1); keyboard_try_get_event e := (e, -1);
  keyboard_input_available e := (e, false); keyboard_event_available e := (e, false);
  keyboard_is_ctrl_down _ := false; keyboard_consume_interrupt e := (e, false); keyboard_ack_interrupt e := e;
  keyboard_reset_console_state e := e; keyboard_poll e := e; console_switch_tty _ e := e;
  console_write_n _ e := e; console_size _ := (25, 80, 640, 400); framebuffer_info _ := None;
  framebuffer_blit _ _ _ e := e; pit_get_ticks e := (e, 0); wait_interrupt e := e;
  vmm_map_range_identity _ _ e := (e, 0); tfs_is_persistent _ := false; tfs_sync e := (e, 0); framebuffer_address _ := 0;
  block_device_count _ := 1;
  block_device_get i _ := if i =? 0 then Some (BlockInfo (Some (str "hda")) None true 1024 512 false None) else None;
  block_read _ _ _ e := (e, -1, []); block_write_lba28 _ _ _ e := (e, 0); block_sync _ e := (e, 0) }.

(** The fresh tree; a process of user 1000 in [/tmp]; a path at 0x2000. *)
Definition tree : vfs := default (Vfs [] None 0 0) (vfs_init 0).
Definition user : process := set_ids (set_state process_zero PROCESS_RUNNING) 1000 1000 (str "/tmp").
Definition memory : mem := mset_bytes (fun _ => 0) 0x2000 (str "a").
Definition start : kernel unit :=
  Kernel (Users [] 0 tree) (Procs [user] 2 (Some 0%nat)) tty_init memory true ().

Definition run (k : kernel unit) (n a0 a1 a2 : Z) : option (kernel unit * Z) :=
  syscall_dispatch (fun _ => true) 64 (fun _ _ _ _ _ _ _ k => Some (k, -1)) 8 n a0 a1 a2 0 0 0 k.

Lemma run_eq k n a0 a1 a2 : run k n a0 a1 a2 =
  syscall_dispatch (fun _ => true) 64 (fun _ _ _ _ _ _ _ k => Some (k, -1)) 8 n a0 a1 a2 0 0 0 k.
Proof. reflexivity. Qed.

Lemma start_unprivileged : unprivileged start.
Proof.
  destruct (init_ok 0) as (v & Ev & ch & W & _). exists ch. unfold confined, fs, start.
  cbn [k_users u_fs]. unfold tree. rewrite Ev. cbn [default]. split; [done|]. exists user.
  split; [reflexivity|]. split; [done|]. split; [done|].
  intros f j n P Hf Hu. cbn [user p_fds set_ids set_state process_zero] in Hf.
  apply elem_of_replicate in Hf as [-> _]. done.
Qed.

End Still.


(** ** Opening for reading *)

Section Opening.
Context {E : Type} {M : Machine E} (kmalloc_ok : Z -> bool) (str_fuel : nat).

Lemma open_path_existing v ch p path flags mode P j n : wf v ch ->
  norm_comps path (Some (p_cwd p)) = Some P -> walk (nodes v) ch 0 P = Some j -> nodes v !! j = Some n ->
  has flags VFS_O_CREAT && has flags VFS_O_EXCL = false ->
  open_path p path flags mode v =
  if open_allowed p (path_of P) flags n then open_node p j n flags v else Some (p, v, -1).
Proof.
  intros W HP Hw Hn Hf. unfold open_path. destruct (normalize_for_process_comps p path) as (r & E1 & Hr).
  assert (r = Some (path_of P)) as ->.
  { unfold normalize_for_process in E1. rewrite normalize_norm, HP in E1. by injection E1 as <-. }
  destruct (Hr _ eq_refl) as (Q & HQ & _ & Hc). rewrite HP in HQ. injection HQ as <-.
  rewrite E1, bind_some, (vfs_lookup_spec v ch), Hc, !bind_some, Hw by done. cbn [andb]. rewrite Hf.
  unfold open_create. rewrite bind_some, Hn, bind_some. done.
Qed.


(** The public devices are public for reading only: an open for writing by
    an ordinary user is refused on every path under a protected directory, and
    [/dev] is one, whatever the mode of the node says - [/dev/null] included. *)
Theorem public_devices_refuse_writing v ch p path flags mode P j n : wf v ch -> p_uid p <> 0 ->
  open_wants_write flags = true -> norm_comps path (Some (p_cwd p)) = Some P -> path_is_public_device (path_of P) = true ->
  walk (nodes v) ch 0 P = Some j -> nodes v !! j = Some n ->
  open_path p path flags mode v = Some (p, v, -1).
Proof.
  intros W Hu Hww HP Hd Hw Hn.
  assert (path_requires_root_for_mutation (path_of P) = true) as Hpr.
  { unfold path_is_public_device in Hd.
    repeat (apply orb_true_iff in Hd as [Hd|Hd]);
      match type of Hd with bytes_eq ?a ?b = true => destruct (bytes_eq_spec a b) as [->|]; [|done] end;
      vm_compute; reflexivity. }
  assert (is_root (Some p) = false) as Hr by (by apply Z.eqb_neq).
  destruct (has flags VFS_O_CREAT && has flags VFS_O_EXCL) eqn:Ex.
  - unfold open_path, normalize_for_process. rewrite normalize_norm, HP. cbn [fmap option_fmap option_map].
    rewrite bind_some, (vfs_lookup_spec v ch), (norm_comps_path_of _ _ P _ HP), !bind_some, Hw by done. cbn [andb]. by rewrite Ex.
  - rewrite (open_path_existing v ch p path _ mode P j n) by done. unfold open_allowed.
    rewrite Hr, Hww, Hpr. cbn [negb andb]. by rewrite andb_false_r.
Qed.

Lemma fd_of_run (k : kernel E) fd p f : the_proc k = Some p -> process_get_fd p fd = Some f ->
  fd_of k fd = Some (Some (p, f)).
Proof.
  intros Hp Hf. unfold fd_of. apply proc_of_the_proc in Hp. by rewrite Hp, !bind_some, Hf.
Qed.

Lemma lseek_set (k : kernel E) fd p f off : the_proc k = Some p -> process_get_fd p fd = Some f ->
  0 <= off <= I64_MAX ->
  sys_lseek fd off 0 k = Some (set_proc k (put_fd p fd (set_offset f off (fd_dirty f))), off).
Proof.
  intros Hp Hf Ho. unfold sys_lseek. rewrite (fd_of_run k fd p f), bind_some by done.
  change (0 =? 0) with true. cbv iota. rewrite bind_some. cbv zeta. rewrite Z.add_0_l.
  rewrite (proj2 (Z.ltb_ge off I64_MIN)), (proj2 (Z.ltb_ge I64_MAX off)), (proj2 (Z.ltb_ge off 0));
    unfold I64_MIN, I64_MAX in *; done || lia.
Qed.

(** The disposition of a system call travels in the top two bits of its
    return value, and [sys_lseek] returns the new offset as it is: a seek to
    2^62 on any open descriptor succeeds and comes back as the order to return
    to the kernel, with result 0, although the process has not ended. *)
Theorem lseek_leaves_user_mode (k : kernel E) fd p f : the_proc k = Some p -> process_get_fd p fd = Some f ->
  exists k' p', sys_lseek fd (2 ^ 62) 0 k = Some (k', 2 ^ 62) /\ the_proc k' = Some p' /\ p_state p' = p_state p /\
    syscall_decode_disposition (u64 (2 ^ 62)) = SYSCALL_RET_TO_KERNEL /\
    syscall_decode_scalar (u64 (2 ^ 62)) = 0.
Proof.
  intros Hp Hf. eexists _, _. rewrite (lseek_set k fd p f) by (done || (unfold I64_MAX; lia)).
  split; [done|]. split; [by eapply the_proc_set|]. by split_and!.
Qed.

(** [sys_brk] keeps the heap inside its bounds: the break it returns is the
    one of the process, lies between the floor and the limit, and is the one
    asked for exactly when that lies between them too and the pages it needs
    could be mapped; otherwise the break stays. *)
Theorem brk_bounds (k : kernel E) p next : the_proc k = Some p ->
  p_brk_floor p = 0 \/ p_brk_floor p <= p_brk_current p <= p_heap_limit p ->
  let floor := if p_brk_floor p =? 0 then 0x5000000 else p_brk_floor p in
  let limit := if p_brk_floor p =? 0 then 0x7000000 else p_heap_limit p in
  let brk := if p_brk_floor p =? 0 then 0x5000000 else p_brk_current p in
  let ok := negb (next =? 0) && (floor <=? next) && (next <=? limit) &&
            ((next <=? brk) || (0 <=? snd (vmm_map_range_identity brk (next - brk) (k_env k)))) in
  exists k' p', sys_brk next k = Some (k', p_brk_current p') /\ the_proc k' = Some p' /\
    p_brk_floor p' = floor /\ p_heap_limit p' = limit /\ p_brk_current p' = (if ok then next else brk) /\
    floor <= p_brk_current p' <= limit.
Proof.
  intros Hp Hb. cbv zeta. pose proof Hp as Hp'%proc_of_the_proc. unfold sys_brk. rewrite Hp', bind_some. cbv zeta.
  set (q := if p_brk_floor p =? 0 then _ else p).
  assert (the_proc (set_proc k q) = Some q) as Hq by (by eapply the_proc_set).
  assert (k_env (set_proc k q) = k_env k) as He by (unfold set_proc; by destruct (current _)).
  replace (if p_brk_floor p =? 0 then 0x5000000 else p_brk_floor p) with (p_brk_floor q)
    by (unfold q; by destruct (_ =? 0)).
  replace (if p_brk_floor p =? 0 then 0x7000000 else p_heap_limit p) with (p_heap_limit q)
    by (unfold q; by destruct (_ =? 0)).
  replace (if p_brk_floor p =? 0 then 0x5000000 else p_brk_current p) with (p_brk_current q)
    by (unfold q; by destruct (_ =? 0)).
  assert (p_brk_floor q <= p_brk_current q <= p_heap_limit q) as Hbq.
  { unfold q. destruct (Z.eqb_spec (p_brk_floor p) 0); [cbn; lia|lia]. }
  clearbody q. clear Hb Hp' Hp p. destruct (Z.eqb_spec next 0) as [E0|E0]; cbn [orb negb andb].
  { exists (set_proc k q), q. by split_and!; try lia. }
  destruct (Z.ltb_spec next (p_brk_floor q)) as [E1|E1]; cbn [orb].
  { exists (set_proc k q), q. rewrite (proj2 (Z.leb_gt _ next)) by done. by split_and!; try lia. }
  destruct (Z.ltb_spec (p_heap_limit q) next) as [E2|E2].
  { exists (set_proc k q), q. rewrite (proj2 (Z.leb_gt next _)), andb_false_r by done. by split_and!; try lia. }
  rewrite !(proj2 (Z.leb_le _ _)) by done. cbn [andb].
  destruct (Z.ltb_spec (p_brk_current q) next) as [E3|E3].
  - rewrite (proj2 (Z.leb_gt next _)) by done. cbn [orb]. unfold ask. rewrite He.
    destruct (vmm_map_range_identity (p_brk_current q) (next - p_brk_current q) (k_env k)) as [e rc]. cbn [snd].
    destruct (Z.ltb_spec rc 0) as [E4|E4].
    + rewrite (proj2 (Z.leb_gt 0 rc)) by done. eexists _, q. split; [done|]. by split_and!; try lia.
    + rewrite (proj2 (Z.leb_le 0 rc)) by done. eexists _, (set_brk q (p_brk_floor q) next (p_heap_limit q)).
      split; [done|]. split; [by eapply (the_proc_set _ _ q)|]. cbn. by split_and!; try lia.
  - rewrite (proj2 (Z.leb_le next _)) by done. cbn [orb]. change (0 <? 0) with false. cbv iota.
    eexists _, (set_brk q (p_brk_floor q) next (p_heap_limit q)). split; [done|].
    split; [by eapply the_proc_set|]. cbn. by split_and!; try lia.
Qed.

(** A file the user may write but not read can be read: an open with
    [O_APPEND] alone asks only for the right to write, yet the descriptor it
    gives is not marked write-only, so after a seek to its start [sys_read]
    hands the contents over. *)
Theorem append_open_reads (k : kernel E) ch p a path P j n mode buf count fuel : wf (fs k) ch ->
  the_proc k = Some p -> p_uid p <> 0 -> length (p_fds p) = VFS_MAX_FDS -> ~ full p ->
  ustr_ok a = true -> ustring str_fuel (k_mem k) a = Some path -> norm_comps path (Some (p_cwd p)) = Some P ->
  path_requires_root_for_mutation (path_of P) = false -> walk (nodes (fs k)) ch 0 P = Some j ->
  nodes (fs k) !! j = Some n -> n_type n = VFS_NODE_FILE -> data_ok n ->
  has_perm (Some p) (Some n) 2 = true -> has_perm (Some p) (Some n) 4 = false ->
  0 < count -> uptr_ok buf count = true ->
  exists k1 fd k2 k3, sys_open str_fuel a VFS_O_APPEND mode k = Some (k1, fd) /\
    sys_lseek fd 0 0 k1 = Some (k2, 0) /\
    sys_read fuel fd buf count k2 = Some (k3, Z.of_nat (length (take (Z.to_nat count) (content n)))) /\
    k_mem k3 = mset_bytes (k_mem k) buf (take (Z.to_nat count) (content n)).
Proof.
  intros W Hp Hu Hl Hfull Ha Hpath HP Hpr Hw Hn Ht Hd H2 H4 Hc Hptr.
  assert (is_root (Some p) = false) as Hr by (by apply Z.eqb_neq).
  pose proof (find_free_lowest p Hl) as Hfree. destruct (find_free 0 (p_fds p)) as [i|] eqn:Ei; [|done].
  destruct Hfree as (Hi & _). destruct (lookup_lt_is_Some_2 (p_fds p) i) as [old Ho]; [lia|].
  set (f := Fd true (fd_dirty old) VFS_O_APPEND (n_size n) (Some j)).
  set (q := put_fd p (Z.of_nat i) f).
  assert (open_path p path VFS_O_APPEND mode (fs k) = Some (q, fs k, Z.of_nat i)) as Hopen.
  { rewrite (open_path_existing (fs k) ch p path _ mode P j n) by done.
    unfold open_allowed. rewrite Hr, Hpr, H2. change (open_wants_write VFS_O_APPEND) with true.
    change (open_wants_read VFS_O_APPEND) with false. rewrite Ht. cbn [negb andb orb].
    unfold open_node. change (has VFS_O_APPEND VFS_O_TRUNC) with false. cbn [andb].
    unfold process_open_fd. rewrite Ei, Hn, bind_some, Ho, !bind_some. change (has VFS_O_APPEND VFS_O_APPEND) with true.
    unfold q, put_fd, f. by rewrite Nat2Z.id. }
  set (k1 := set_fs (set_proc k q) (fs k)).
  assert (the_proc k1 = Some q) as Hq by (by eapply the_proc_set).
  assert (process_get_fd q (Z.of_nat i) = Some f) as Hf.
  { unfold q. rewrite get_put_fd by (done || lia). by rewrite Z.eqb_refl. }
  set (f2 := set_offset f 0 (fd_dirty f)). set (q2 := put_fd q (Z.of_nat i) f2). set (k2 := set_proc k1 q2).
  assert (the_proc k2 = Some q2) as Hq2 by (by eapply the_proc_set).
  assert (process_get_fd q2 (Z.of_nat i) = Some f2) as Hf2.
  { unfold q2. rewrite get_put_fd; [by rewrite Z.eqb_refl|by cbn; rewrite length_insert|lia]. }
  assert (fs k2 = fs k /\ k_mem k2 = k_mem k) as [Hfs Hmem].
  { unfold k2, fs. rewrite set_proc_users, set_proc_mem. unfold k1. cbn. by rewrite set_proc_mem. }
  assert (vfs_read_node (Some j) 0 count (fs k) = Some (Some (take (Z.to_nat count) (content n)))) as Hread.
  { rewrite (read_content (fs k) j n) by (done || lia || (by rewrite Ht)). done. }
  set (bytes := take (Z.to_nat count) (content n)) in *.
  set (k3 := set_mem k2 (mset_bytes (k_mem k2) buf bytes)).
  exists k1, (Z.of_nat i), k2,
    (if 0 <? Z.of_nat (length bytes)
     then set_proc k3 (put_fd q2 (Z.of_nat i) (set_offset f2 (u64 (0 + Z.of_nat (length bytes))) (fd_dirty f2))) else k3).
  split_and!.
  - unfold sys_open, with_path. rewrite Ha. cbn [negb]. apply proc_of_the_proc in Hp. rewrite Hp, bind_some, Hpath, bind_some, Hopen.
    done.
  - apply (lseek_set k1 (Z.of_nat i) q f 0 Hq Hf). unfold I64_MAX. lia.
  - unfold sys_read. rewrite Hptr, (proj2 (Z.ltb_lt 0 count)) by done. cbn [negb andb].
    rewrite (proj2 (Z.eqb_neq (Z.of_nat i) 0)) by lia.
    rewrite (fd_of_run k2 (Z.of_nat i) q2 f2 Hq2 Hf2), bind_some. change (has (fd_flags f2) VFS_O_WRONLY) with false.
    cbv iota. change (fd_node f2) with (Some j). rewrite bind_some, Hfs, Hn, bind_some, Ht. unfold read_file.
    rewrite (proj2 (Z.eqb_neq buf 0)).
    + rewrite Hfs. change (fd_offset f2) with 0. by rewrite Hread, bind_some.
    + intros ->. done.
  - transitivity (k_mem k3); [|unfold k3; cbn; by rewrite Hmem].
    destruct (0 <? _); [apply set_proc_mem|done].
Qed.

End Opening.

(** ** Witnesses *)

Module Files.

Definition all_ok : Z -> bool := fun _ => true.

(** The fresh tree with a file in [/tmp] that everybody may write and nobody
    but root may read. *)
Definition tree : vfs :=
  match vfs_create_file (Some (str "/tmp/f")) None 0x8092 0 0 Still.tree with Some (v, _) => v | None => Still.tree end.
Definition null_tree : vfs :=
  match vfs_add VFS_NODE_DEV (Some (str "/dev/null")) None 0x21b6 0 0 Still.tree with Some (v, _) => v | None => Still.tree end.
Definition memory : mem := mset_bytes (fun _ => 0) 0x2000 (str "f").
Definition start : kernel unit :=
  Kernel (Users [] 0 tree) (Procs [Still.user] 2 (Some 0%nat)) tty_init memory true ().

Lemma still_reach : vfs_reach all_ok Still.tree.
Proof.
  apply (reach_init _ 0). unfold Still.tree. destruct (vfs_init 0) as [v|] eqn:E; [done|].
  destruct (init_ok 0) as (v & E2 & _). congruence.
Qed.

Lemma tree_ok : vfs_ok tree.
Proof.
  pose proof (reach_vfs_ok _ _ still_reach) as H. unfold tree.
  destruct (add_ok VFS_NODE_FILE (Some (str "/tmp/f")) None 0x8092 0 0 Still.tree H) as (v & rc & E & Hv).
  unfold vfs_create_file. by rewrite E.
Qed.

Lemma null_tree_ok : vfs_ok null_tree.
Proof.
  pose proof (reach_vfs_ok _ _ still_reach) as H. unfold null_tree.
  destruct (add_ok VFS_NODE_DEV (Some (str "/dev/null")) None 0x21b6 0 0 Still.tree H) as (v & rc & E & Hv). by rewrite E.
Qed.

(** A node of a concrete tree and a test it passes, by evaluation. *)
Lemma node_at v ch path cwd P (t : vnode -> bool) : wf v ch -> norm_comps path cwd = Some P ->
  (match vfs_lookup (Some path) cwd v with
   | Some (Some j) => match nodes v !! j with Some n => t n | None => false end
   | _ => false
   end) = true ->
  exists j n, walk (nodes v) ch 0 P = Some j /\ nodes v !! j = Some n /\ t n = true.
Proof.
  intros W HP. rewrite (vfs_lookup_spec v ch), HP, bind_some by done.
  destruct (walk (nodes v) ch 0 P) as [j|]; [|done]. destruct (nodes v !! j) as [n|] eqn:En; [|done].
  intros Ht. by exists j, n.
Qed.

Lemma eval_some {A} (x : option A) : (match x with Some _ => true | None => false end) = true -> is_Some x.
Proof. destruct x; [by eexists|done]. Qed.

Lemma user_not_full : ~ full Still.user.
Proof. intros H. destruct (H 3) as [x Hx]; [split; [lia|reflexivity]|]. discriminate Hx. Qed.

End Files.


Lemma public_devices_refuse_writing_witness : exists ch, wf Files.null_tree ch /\
  open_path Still.user (str "/dev/null") VFS_O_WRONLY 0 Files.null_tree = Some (Still.user, Files.null_tree, -1).
Proof.
  destruct Files.null_tree_ok as (ch & W & _). exists ch. split; [exact W|].
  assert (norm_comps (str "/dev/null") (Some (p_cwd Still.user)) = Some [str "dev"; str "null"]) as HP by (vm_compute; reflexivity).
  destruct (Files.node_at Files.null_tree ch _ _ _ (fun n => has_perm (Some Still.user) (Some n) 2) W HP)
    as (j & n & Hw & Hn & _); [vm_compute; reflexivity|].
  apply (public_devices_refuse_writing Files.null_tree ch Still.user _ VFS_O_WRONLY 0 [str "dev"; str "null"] j n W).
  - discriminate.
  - reflexivity.
  - exact HP.
  - vm_compute. reflexivity.
  - exact Hw.
  - exact Hn.
Defined.

Lemma append_open_reads_witness : exists ch, wf (fs Files.start) ch /\
  exists k1 fd k2 k3, sys_open 64 0x2000 VFS_O_APPEND 0 Files.start = Some (k1, fd) /\
    sys_lseek fd 0 0 k1 = Some (k2, 0) /\ sys_read 8 fd 0x3000 16 k2 = Some (k3, 0).
Proof.
  destruct Files.tree_ok as (ch & W & Hd). exists ch. split; [exact W|].
  assert (norm_comps (str "f") (Some (p_cwd Still.user)) = Some [str "tmp"; str "f"]) as HP by (vm_compute; reflexivity).
  destruct (Files.node_at Files.tree ch _ _ _ (fun n => (n_type n =? VFS_NODE_FILE) && has_perm (Some Still.user) (Some n) 2 &&
     negb (has_perm (Some Still.user) (Some n) 4) && (n_size n =? 0)) W HP) as (j & n & Hw & Hn & Ht);
    [vm_compute; reflexivity|].
  cbv beta in Ht. apply andb_true_iff in Ht as [[[Ht1%Z.eqb_eq Ht2]%andb_true_iff Ht3%negb_true_iff]%andb_true_iff Ht4%Z.eqb_eq].
  pose proof (Forall_lookup_1 _ _ _ _ Hd Hn) as Hdn.
  destruct (append_open_reads 64 Files.start ch Still.user 0x2000 (str "f") [str "tmp"; str "f"] j n 0 0x3000 16 8 W)
    as (k1 & fd & k2 & k3 & H1 & H2 & H3 & _).
  - reflexivity.
  - discriminate.
  - reflexivity.
  - exact Files.user_not_full.
  - reflexivity.
  - vm_compute. reflexivity.
  - exact HP.
  - vm_compute. reflexivity.
  - exact Hw.
  - exact Hn.
  - exact Ht1.
  - exact Hdn.
  - exact Ht2.
  - exact Ht3.
  - reflexivity.
  - reflexivity.
  - exists k1, fd, k2, k3. split; [exact H1|]. split; [exact H2|]. rewrite H3.
    assert (content n = []) as ->; [|reflexivity]. pose proof (length_content n Hdn) as Hl. rewrite Ht4 in Hl.
    destruct (content n); [reflexivity|simpl in Hl; lia].
Defined.

Lemma lseek_leaves_user_mode_witness : exists k k' p', (fst <$> sys_open 64 0x2000 VFS_O_APPEND 0 Files.start) = Some k /\
  sys_lseek 3 (2 ^ 62) 0 k = Some (k', 2 ^ 62) /\ the_proc k' = Some p' /\
  syscall_decode_disposition (u64 (2 ^ 62)) = SYSCALL_RET_TO_KERNEL.
Proof.
  destruct (Files.eval_some (p ← the_proc (default Files.start (fst <$> sys_open 64 0x2000 VFS_O_APPEND 0 Files.start));
    process_get_fd p 3)) as [f Hf]; [vm_compute; reflexivity|].
  destruct (fst <$> sys_open 64 0x2000 VFS_O_APPEND 0 Files.start) as [k|]; [|discriminate Hf].
  change (default Files.start (Some k)) with k in Hf. destruct (the_proc k) as [p|] eqn:Hp; [|discriminate Hf].
  rewrite bind_some in Hf. destruct (lseek_leaves_user_mode k 3 p f Hp Hf) as (k' & p' & H1 & H2 & _ & H3 & _).
  exists k, k', p'. split; [reflexivity|]. split; [exact H1|]. split; [exact H2|exact H3].
Defined.

Lemma brk_bounds_witness : the_proc Still.start = Some Still.user /\
  exists k' p', sys_brk 0x5001000 Still.start = Some (k', p_brk_current p') /\ p_brk_current p' = 0x5001000.
Proof.
  split; [reflexivity|].
  destruct (brk_bounds Still.start Still.user 0x5001000) as (k' & p' & H1 & _ & _ & _ & H2 & _);
    [reflexivity|left; reflexivity|].
  exists k', p'. split; [exact H1|]. exact H2.
Defined.

(** ** The disk under the tree *)

(** What the tree protects the block calls give away: a process without the
    rights of root writes any bytes to any writable device with
    [SYS_BLOCK_WRITE], since no check asks who it is; and of the block number
    only the low 32 bits count, so a write 2^32 blocks further on lands on the
    same block. *)
Theorem block_write_unchecked {E} {M : Machine E} (k : kernel E) index lba buf bytes i :
  unprivileged k -> block_device_get (u32 index) (k_env k) = Some i -> bd_writable i = true -> buf <> 0 ->
  uptr_ok buf (u32 bytes) = true ->
  let write l := dispatch_block SYS_BLOCK_WRITE index l buf bytes 0 k in
  let out := block_write_lba28 (default [] (bd_name i)) (u32 lba) (mread (k_mem k) buf (Z.to_nat (u32 bytes))) (k_env k) in
  write lba = Some (Some (set_env k (fst out), snd out)) /\ write (lba + 2 ^ 32) = write lba.
Proof.
  intros _ Hi Hw Hb Hp. cbv beta zeta.
  assert (forall l, dispatch_block SYS_BLOCK_WRITE index l buf bytes 0 k =
    Some (Some (ask (block_write_lba28 (default [] (bd_name i)) (u32 l) (mread (k_mem k) buf (Z.to_nat (u32 bytes)))) k))) as H.
  { intros l. unfold dispatch_block. change (SYS_BLOCK_WRITE =? SYS_BLOCK_GET_COUNT) with false.
    change (SYS_BLOCK_WRITE =? SYS_BLOCK_GET_INFO) with false. change (SYS_BLOCK_WRITE =? SYS_BLOCK_READ) with false.
    change (SYS_BLOCK_WRITE =? SYS_BLOCK_WRITE) with true. cbv iota. unfold sys_block_write.
    rewrite (proj2 (Z.eqb_neq buf 0)), Hp, Hi, Hw by done. done. }
  rewrite !H. assert (u32 (lba + 2 ^ 32) = u32 lba) as -> by (unfold u32; Z.div_mod_to_equations; lia).
  split; [|done]. unfold ask. by destruct (block_write_lba28 _ _ _ _).
Qed.

Lemma block_write_unchecked_witness : unprivileged Still.start /\
  dispatch_block SYS_BLOCK_WRITE 0 7 0x2000 1 0 Still.start = Some (Some (set_env Still.start (), 0)).
Proof.
  split; [exact Still.start_unprivileged|].
  destruct (block_write_unchecked Still.start 0 7 0x2000 1 (BlockInfo (Some (str "hda")) None true 1024 512 false None))
    as [H _].
  - exact Still.start_unprivileged.
  - reflexivity.
  - reflexivity.
  - discriminate.
  - reflexivity.
  - exact H.
Defined.
