(* ===== verification/SyscallWait.v ===== *)
(** * System calls that wait

    A clock that ticks while the processor is halted: [poll] with a time limit
    comes back, and [nanosleep], which does not halt, never does. *)
From S2P Require Import Prelude Buf KString Printf Keys Vfs VfsTree User Process Syscall SyscallFrame SyscallProofs.

(** ** Waiting *)

(** The clock of a machine: reading it shows the ticks so far, halting lets at
    least one pass, and nothing takes more than [DRIFT] of them. *)
Definition DRIFT : Z := 2 ^ 20.

Class Clock (E : Type) {M : Machine E} := {
  ticks : E -> Z;
  clock_read e : snd (pit_get_ticks e) = u64 (ticks e);
  clock_get e : ticks e <= ticks (fst (pit_get_ticks e)) <= ticks e + DRIFT;
  clock_input e : ticks e <= ticks (fst (keyboard_input_available e)) <= ticks e + DRIFT;
  clock_event e : ticks e <= ticks (fst (keyboard_event_available e)) <= ticks e + DRIFT;
  clock_poll e : ticks e <= ticks (keyboard_poll e) <= ticks e + DRIFT;
  clock_halt e : ticks e < ticks (wait_interrupt e) <= ticks e + DRIFT }.

Section Waiting.
Context {E : Type} {M : Machine E} {C : Clock E}.
Implicit Types k : kernel E.

Definition now k : Z := ticks (k_env k).

(** The current process is there, and its descriptors lead to nodes. *)
Definition fds_sound k : Prop :=
  exists proc, proc_of k = Some proc /\
    forall p fd f j, proc = Some p -> process_get_fd p fd = Some f -> fd_node f = Some j -> is_Some (nodes (fs k) !! j).

(** A step of at most [c] operations of the machine that touches nothing else. *)
Definition drifts (c : Z) k k' : Prop :=
  k_users k' = k_users k /\ k_procs k' = k_procs k /\ now k <= now k' <= now k + c * DRIFT.

Lemma drifts_core k k' : k_users k' = k_users k -> k_procs k' = k_procs k -> k_env k' = k_env k -> drifts 0 k k'.
Proof. intros H1 H2 H3. unfold drifts, now. rewrite H3. split_and!; [done|done|lia|lia]. Qed.

Lemma drifts_trans a b k1 k2 k3 : drifts a k1 k2 -> drifts b k2 k3 -> drifts (a + b) k1 k3.
Proof. intros (U1 & P1 & T1) (U2 & P2 & T2). unfold drifts. split_and!; [congruence|congruence|lia|lia]. Qed.

Lemma drifts_le a b k k' : drifts a k k' -> a <= b -> drifts b k k'.
Proof. intros (U & P & T) H. unfold drifts, DRIFT in *. split_and!; [done|done|lia|lia]. Qed.

Lemma drifts_sound c k k' : drifts c k k' -> fds_sound k -> fds_sound k'.
Proof.
  intros (U & P & _) (proc & Hp & Hf). exists proc. unfold proc_of, fs in *. rewrite U, P. by split.
Qed.

Lemma has_input_drifts k : drifts 1 k (fst (tty_has_input k)).
Proof.
  unfold tty_has_input, ask. pose proof (clock_input (k_env k)) as H.
  destruct (keyboard_input_available (k_env k)) as [e a]. unfold drifts, now. cbn in *. split_and!; [done|done|lia|lia].
Qed.

Lemma event_drifts k : drifts 1 k (fst (ask keyboard_event_available k)).
Proof.
  unfold ask. pose proof (clock_event (k_env k)) as H.
  destruct (keyboard_event_available (k_env k)) as [e a]. unfold drifts, now. cbn in *. split_and!; [done|done|lia|lia].
Qed.

Lemma fd_vnode_total k fd : fds_sound k -> is_Some (fd_vnode k fd).
Proof.
  intros (proc & Hp & Hf). unfold fd_vnode, fd_of. rewrite Hp, bind_some. destruct proc as [p|]; [|done].
  rewrite !bind_some. destruct (process_get_fd p fd) as [f|] eqn:Ef; [|done]. rewrite !bind_some.
  destruct (fd_node f) as [j|] eqn:Ej; [|done]. cbn [deref]. destruct (Hf p fd f j eq_refl Ef Ej) as [n ->]. done.
Qed.

Lemma poll_one_run fd events k : fds_sound k ->
  exists k' r, poll_one fd events k = Some (k', r) /\ drifts 1 k k' /\ 0 <= r.
Proof.
  intros Hs. unfold poll_one. cbv zeta.
  assert (exists file, (if (fd =? 0) || (fd =? 1) || (fd =? 2) then Some None else fd_vnode k fd) = Some file) as [file ->]
    by (destruct (_ || _); [by eexists|by apply fd_vnode_total]).
  rewrite bind_some. set (out := if has events POLLOUT then POLLOUT else 0).
  assert (0 <= out) as Hout by (unfold out, POLLOUT; destruct (has events _); lia).
  assert (drifts 1 k k) as Hsame by (apply (drifts_le 0); [by apply drifts_core|lia]).
  destruct (has events POLLIN); [|eexists _, _; split; [done|]; split; [done|lia]].
  match goal with |- context [if ?b then tty_has_input k else _] => destruct b end.
  - pose proof (has_input_drifts k) as H. destruct (tty_has_input k) as [k1 b]. eexists _, _. split; [done|].
    split; [done|]. unfold POLLIN. destruct b; lia.
  - match goal with |- context [if ?b then ask _ k else _] => destruct b end.
    + pose proof (event_drifts k) as H. destruct (ask keyboard_event_available k) as [k1 b]. eexists _, _. split; [done|].
      split; [done|]. unfold POLLIN. destruct b; lia.
    + eexists _, _. split; [done|]. split; [done|]. unfold POLLIN. lia.
Qed.

Lemma poll_round_run n : forall a ready k, fds_sound k -> 0 <= ready ->
  exists k' r, poll_round n a ready k = Some (k', r) /\ drifts (Z.of_nat n) k k' /\ 0 <= r.
Proof.
  induction n as [|n IH]; intros a ready k Hs Hr; cbn [poll_round]; [eexists _, _; split; [done|]; by split; [apply drifts_core|]|].
  cbv zeta. set (k1 := set_mem k _). assert (drifts 0 k k1) as H1 by (by apply drifts_core).
  pose proof (drifts_sound _ _ _ H1 Hs) as Hs1. destruct (_ <? 0).
  - destruct (IH (a + 8) ready k1 Hs1 Hr) as (k' & r & -> & Hd & Hr'). exists k', r. split; [done|]. split; [|done].
    apply (drifts_le (0 + Z.of_nat n)); [by apply (drifts_trans _ _ _ k1)|lia].
  - match goal with |- context [poll_one ?fd ?ev k1] => destruct (poll_one_run fd ev k1 Hs1) as (k2 & re & -> & Hd2 & _) end.
    rewrite bind_some. set (k3 := set_mem k2 _). assert (drifts 0 k2 k3) as H3 by (by apply drifts_core).
    assert (drifts 1 k k3) as H13 by (apply (drifts_le (0 + (1 + 0))); [by apply (drifts_trans _ _ _ k1), (drifts_trans _ _ _ k2)|lia]).
    match goal with |- context [poll_round n ?a' ?r' k3] =>
      destruct (IH a' r' k3 (drifts_sound _ _ _ H13 Hs)) as (k' & r & -> & Hd & Hr') end.
    { destruct (re =? 0); lia. }
    exists k', r. split; [done|]. split; [|done]. apply (drifts_le (1 + Z.of_nat n)); [by apply (drifts_trans _ _ _ k3)|lia].
Qed.

(** The round of a wait: it is defined, and takes at most [c] operations. *)
Definition round_ok (c : Z) (round : kernel E -> option (kernel E * Z)) : Prop :=
  forall k, fds_sound k -> exists k' r, round k = Some (k', r) /\ drifts c k k' /\ 0 <= r.

(** A wait with a time limit ends: every turn lets a tick pass. *)
Lemma wait_ready_run round c timeout D : 0 <= c <= 2 ^ 33 -> 0 < timeout -> D <= 2 ^ 63 -> round_ok c round ->
  forall fuel k, fds_sound k -> (Z.to_nat (D - now k) < fuel)%nat -> 0 <= now k <= D + 4 * DRIFT ->
  exists k' r, wait_ready fuel round timeout D k = Some (k', r) /\ 0 <= r.
Proof.
  intros Hc Ht HD Hround. induction fuel as [|fuel IH]; intros k Hs Hf Hn; [lia|]. cbn [wait_ready].
  destruct (Hround k Hs) as (k1 & r & -> & Hd & Hr). rewrite bind_some.
  destruct (0 <? r); [by exists k1, r|]. rewrite (proj2 (Z.eqb_neq timeout 0)), (proj2 (Z.ltb_lt 0 timeout)) by lia.
  pose proof (drifts_sound _ _ _ Hd Hs) as Hs1. destruct Hd as (_ & _ & Hd). unfold ask.
  pose proof (clock_read (k_env k1)) as Hr1. pose proof (clock_get (k_env k1)) as Hg.
  destruct (pit_get_ticks (k_env k1)) as [e t]. cbn [fst snd] in *. change (ticks (k_env k1)) with (now k1) in *.
  assert (u64 (now k1) = now k1) as Eu by (apply Z.mod_small; unfold DRIFT in *; lia). rewrite Eu in Hr1. subst t.
  destruct (Z.leb_spec D (now k1)) as [Hle|Hlt]; [by eexists _, 0|].
  match goal with |- context [wait_ready fuel round timeout D ?x] => set (k2 := x) end.
  assert (now k1 < now k2 <= now k1 + 3 * DRIFT) as H2.
  { unfold k2, now, tell. cbn [k_env set_env]. pose proof (clock_poll e). pose proof (clock_halt (keyboard_poll e)).
    unfold now in *. lia. }
  apply IH; [|lia|unfold DRIFT in *; lia].
  destruct Hs1 as (proc & Hp & Hf1). by exists proc.
Qed.

Lemma wait_deadline_run timeout k : 0 < timeout < 2 ^ 31 -> 0 <= now k < 2 ^ 62 ->
  exists k' D, wait_deadline timeout k = (k', D) /\ k_users k' = k_users k /\ k_procs k' = k_procs k /\
    now k <= now k' /\ D = now k + timeout * PIT_HZ / 1000 /\ now k' <= D + DRIFT.
Proof.
  intros Ht Hn. unfold wait_deadline. rewrite (proj2 (Z.ltb_lt 0 timeout)) by lia. unfold ask.
  pose proof (clock_read (k_env k)) as Hr. pose proof (clock_get (k_env k)) as Hg.
  destruct (pit_get_ticks (k_env k)) as [e t]. cbn [fst snd] in *. change (ticks (k_env k)) with (now k) in *.
  eexists _, _. split; [done|]. split_and!; [done|done|unfold now in *; cbn; lia| |].
  - subst t. unfold PIT_HZ, u64. rewrite !(Z.mod_small timeout), !(Z.mod_small (now k)) by lia.
    rewrite !(Z.mod_small (timeout * 100)) by lia. apply Z.mod_small. Z.div_mod_to_equations; lia.
  - subst t. unfold PIT_HZ, u64. rewrite !(Z.mod_small timeout), !(Z.mod_small (now k)) by lia.
    rewrite !(Z.mod_small (timeout * 100)) by lia. unfold now at 1. cbn [k_env set_env].
    rewrite Z.mod_small; Z.div_mod_to_equations; lia.
Qed.

Lemma timed_wait_run round c timeout fuel k : 0 <= c <= 2 ^ 33 -> 0 <= timeout < 2 ^ 31 -> round_ok c round ->
  fds_sound k -> 0 <= now k < 2 ^ 62 -> (Z.to_nat (timeout * PIT_HZ / 1000) < fuel)%nat ->
  exists k' r, (let '(k, deadline) := wait_deadline timeout k in wait_ready fuel round timeout deadline k) = Some (k', r) /\
    0 <= r.
Proof.
  intros Hc Ht Hround Hs Hn Hf. destruct (Z.eq_dec timeout 0) as [->|Hne].
  - unfold wait_deadline. change (0 <? 0) with false. destruct fuel as [|fuel]; [lia|]. cbn [wait_ready].
    destruct (Hround k Hs) as (k1 & r & -> & _ & Hr). rewrite bind_some. destruct (0 <? r); [by exists k1, r|].
    by exists k1, 0.
  - destruct (wait_deadline_run timeout k) as (k1 & D & -> & Hu & Hp & Hn1 & HD & Hn2); [lia|done|].
    apply (wait_ready_run round c); [done|lia| |done| | |].
    + rewrite HD. unfold PIT_HZ. Z.div_mod_to_equations; lia.
    + destruct Hs as (proc & Hp1 & Hf1). exists proc. unfold proc_of, fs in *. by rewrite Hu, Hp.
    + rewrite HD. unfold PIT_HZ in *. lia.
    + unfold DRIFT in *. lia.
Qed.


(** Reading a clock that stands still. *)
Lemma wait_until_stuck D k fuel : (forall e, fst (pit_get_ticks e) = e) -> 0 <= now k < 2 ^ 62 -> now k < D ->
  wait_until fuel D k = None.
Proof.
  intros Hstop. revert k. induction fuel as [|fuel IH]; intros k Hn HD; [done|]. cbn [wait_until]. unfold ask.
  pose proof (Hstop (k_env k)) as H1. pose proof (clock_read (k_env k)) as H2.
  destruct (pit_get_ticks (k_env k)) as [e t]. cbn [fst snd] in *. subst e t. change (ticks (k_env k)) with (now k).
  assert (u64 (now k) = now k) as -> by (apply Z.mod_small; lia).
  rewrite (proj2 (Z.ltb_lt _ _)) by done. by apply IH.
Qed.

(** A sleep of ten milliseconds or more never returns: the loop of
    [sys_nanosleep] only reads the clock, system calls run with interrupts
    masked (IA32_FMASK in cpu.c), and the timer interrupt is what moves the
    clock - so while reading it does not move it, no number of turns is enough. *)
Theorem nanosleep_never_returns fuel req rem k :
  let sec := i64 (mget 8 (k_mem k) req) in let nsec := i64 (mget 8 (k_mem k) (req + 8)) in
  (forall e, fst (pit_get_ticks e) = e) -> 0 <= now k < 2 ^ 62 -> uptr_ok req 16 = true ->
  0 <= sec < 2 ^ 40 -> 0 <= nsec < 1000000000 -> 10 <= sec * 1000 + nsec / 1000000 ->
  sys_nanosleep fuel req rem k = None.
Proof.
  cbv zeta. intros Hstop Hn Hptr Hs Hns Hms. unfold sys_nanosleep. rewrite Hptr.
  rewrite (proj2 (Z.eqb_neq req 0)) by (by intros ->). cbn [orb negb]. cbv zeta.
  set (sec := i64 (mget 8 (k_mem k) req)) in *. set (ns := i64 (mget 8 (k_mem k) (req + 8))) in *. clearbody sec ns.
  rewrite (proj2 (Z.ltb_ge sec 0)), (proj2 (Z.ltb_ge ns 0)), (proj2 (Z.leb_gt 1000000000 ns)) by lia. cbn [orb].
  assert (0 <= ns / 1000000 < 1000) as Hq by (Z.div_mod_to_equations; lia). set (q := ns / 1000000) in *. clearbody q.
  assert (u64 (u64 (sec * 1000) + q) = sec * 1000 + q) as ->.
  { unfold u64. rewrite (Z.mod_small (sec * 1000)) by lia. apply Z.mod_small. lia. }
  set (ms := sec * 1000 + q) in *. assert (10 <= ms < 2 ^ 51) as Hmax by (unfold ms; lia). clearbody ms.
  rewrite (proj2 (Z.eqb_neq ms 0)) by lia. unfold ask.
  pose proof (Hstop (k_env k)) as H1. pose proof (clock_read (k_env k)) as H2.
  destruct (pit_get_ticks (k_env k)) as [e t]. cbn [fst snd] in *. subst e t. change (ticks (k_env k)) with (now k).
  assert (u64 (now k) = now k) as -> by (apply Z.mod_small; lia).
  rewrite (wait_until_stuck _ _ _ Hstop); [done|done|]. change (now (set_env k (k_env k))) with (now k).
  unfold PIT_HZ, u64. rewrite (Z.mod_small (ms * 100)) by lia.
  rewrite Z.mod_small; Z.div_mod_to_equations; lia.
Qed.

End Waiting.

(** A machine whose clock moves when the processor is halted, and only then. *)
Module Ticking.

#[global] Instance machine : Machine Z := {
  console_getchar e := (e, 10); keyboard_try_getchar e := (e, -1); keyboard_try_get_event e := (e, -1);
  keyboard_input_available e := (e, false); keyboard_event_available e := (e, false);
  keyboard_is_ctrl_down _ := false; keyboard_consume_interrupt e := (e, false); keyboard_ack_interrupt e := e;
  keyboard_reset_console_state e := e; keyboard_poll e := e; console_switch_tty _ e := e;
  console_write_n _ e := e; console_size _ := (25, 80, 640, 400); framebuffer_info _ := None;
  framebuffer_blit _ _ _ e := e; pit_get_ticks e := (e, u64 e); wait_interrupt e := e + 1;
  vmm_map_range_identity _ _ e := (e, 0); tfs_is_persistent _ := false; tfs_sync e := (e, 0); framebuffer_address _ := 0;
  block_device_count _ := 1;
  block_device_get i _ := if i =? 0 then Some (BlockInfo (Some (str "hda")) None true 1024 512 false None) else None;
  block_read _ _ _ e := (e, -1, []); block_write_lba28 _ _ _ e := (e, 0); block_sync _ e := (e, 0) }.

#[global] Instance clock : Clock Z.
Proof. refine {| ticks := fun e => e |}; intros e; cbn; unfold DRIFT; try lia; done. Defined.

(** An entry for the keyboard at 0x3000; a sleep of one second at 0x4000. *)
Definition start : kernel Z :=
  Kernel (Users [] 0 Still.tree) (Procs [Still.user] 2 (Some 0%nat)) tty_init
         (mset_bytes (mset_bytes (fun _ => 0) 0x3000 [0; 0; 0; 0; 1; 0; 0; 0]) 0x4000 (le_bytes 8 1)) true 0.

Lemma start_sound : fds_sound start.
Proof.
  exists (Some Still.user). split; [reflexivity|]. intros p fd f j [= <-] Hf _.
  apply get_fd_in in Hf as [Hin Hu]. apply elem_of_replicate in Hin as [-> _]. discriminate Hu.
Qed.

End Ticking.


Lemma nanosleep_never_returns_witness : i64 (mget 8 (k_mem Ticking.start) 0x4000) = 1 /\
  sys_nanosleep 100 0x4000 0 Ticking.start = None.
Proof.
  assert (i64 (mget 8 (k_mem Ticking.start) 0x4000) = 1) as E1 by (vm_compute; reflexivity).
  assert (i64 (mget 8 (k_mem Ticking.start) (0x4000 + 8)) = 0) as E2 by (vm_compute; reflexivity).
  split; [exact E1|]. apply nanosleep_never_returns; rewrite ?E1, ?E2.
  - intros e. reflexivity.
  - split; [discriminate|reflexivity].
  - reflexivity.
  - split; [discriminate|reflexivity].
  - split; [discriminate|reflexivity].
  - discriminate.
Defined.
